(** * Question deduplication: a shallow embedding of
      [scripts/deduplicate_questions.py]

    The script groups exam-question records by their trimmed question text,
    picks one canonical record per group, merges the provenance of the group
    into a copy of it and emits a report.  The records are Python dicts
    loaded from JSON; they are modelled here as objects of a heap, because
    [dict.copy()] is shallow and the script writes through the copy into the
    [metadata] dict it shares with the input record.

    Scope of the model.  Values are [None], booleans, integers, strings,
    lists and dicts; floats are outside it.  A string is a sequence of code
    points below 256.  Dicts are heap objects reached through references;
    lists are never updated in place by the script once they are shared and
    are kept as values.  Indices into the corpus are natural numbers, which
    is what [enumerate] yields. *)

From stdpp Require Import base tactics option list.
From Stdlib Require Import ZArith Ascii String Bool Lia Sorted Permutation.
From Stdlib Require Import DecimalString List.
From Stdlib Require OrderedTypeEx DecimalPos.

Import ListNotations.
#[local] Set Warnings "-register-all".
Local Open Scope string_scope.
Local Open Scope Z_scope.

(* ===================================================================== *)
(** ** Python values and the heap *)
(* ===================================================================== *)

Module Py.

Abbreviation loc := nat.

Inductive value : Type :=
| VNone
| VBool (b : bool)
| VInt (z : Z)
| VStr (s : string)
| VList (vs : list value)
| VRef (l : loc).

(** A dict keeps its items in insertion order; its keys are strings, as in
    every dict [json.load] builds and every dict the script creates. *)
Abbreviation dict := (list (string * value)).
Abbreviation heap := (list (list (string * value))).

Inductive exn : Type :=
| AttributeError
| ValueError
| TypeError
| IndexError
| KeyError
| BadRef.       (* a reference to no object: no Python run produces one *)

Inductive result (A : Type) : Type :=
| Ok (a : A)
| Raise (e : exn).
Arguments Ok {A} a.
Arguments Raise {A} e.

Definition rbind {A B} (r : result A) (k : A -> result B) : result B :=
  match r with
  | Ok a => k a
  | Raise e => Raise e
  end.

(** Computations that read and update the heap and may raise. *)
Definition M (A : Type) : Type := heap -> result (A * heap).

Definition ret {A} (a : A) : M A := fun h => Ok (a, h).
Definition raise {A} (e : exn) : M A := fun _ => Raise e.
Definition bind {A B} (m : M A) (k : A -> M B) : M B :=
  fun h => match m h with
           | Ok (a, h') => k a h'
           | Raise e => Raise e
           end.
(** A computation that only reads the heap. *)
Definition reading {A} (f : heap -> result A) : M A :=
  fun h => match f h with
           | Ok a => Ok (a, h)
           | Raise e => Raise e
           end.

End Py.
Export Py.

Declare Scope py_scope.
Delimit Scope py_scope with py.
Notation "x <- c ;; k" := (bind c (fun x => k))
  (at level 100, c at next level, right associativity) : py_scope.
Notation "c ;;; k" := (bind c (fun _ => k))
  (at level 100, right associativity) : py_scope.
Notation "x <-? c ;; k" := (rbind c (fun x => k))
  (at level 100, c at next level, right associativity) : py_scope.
Local Open Scope py_scope.

(* ===================================================================== *)
(** ** Strings: [str.strip], [int(str)], [str(int)], [repr] *)
(* ===================================================================== *)

(** [str.isspace] on code points below 256. *)
Definition is_space (c : ascii) : bool :=
  let n := nat_of_ascii c in
  ((9 <=? n) && (n <=? 13) || (28 <=? n) && (n <=? 32)
   || (n =? 133) || (n =? 160))%nat.

(** Stripping the characters [sp] accepts from both ends. *)
Fixpoint lstrip_by (sp : ascii -> bool) (s : string) : string :=
  match s with
  | EmptyString => EmptyString
  | String c r => if sp c then lstrip_by sp r else s
  end.

Definition is_empty (s : string) : bool :=
  match s with EmptyString => true | _ => false end.

Fixpoint rstrip_by (sp : ascii -> bool) (s : string) : string :=
  match s with
  | EmptyString => EmptyString
  | String c r =>
      let r' := rstrip_by sp r in
      if sp c && is_empty r' then EmptyString else String c r'
  end.

Definition strip_by (sp : ascii -> bool) (s : string) : string :=
  rstrip_by sp (lstrip_by sp s).

(** [s.strip()] *)
Definition strip (s : string) : string := strip_by is_space s.

(** The whitespace [int] skips around a literal: the C [isspace] set and,
    above 127, the Unicode spaces; not the separators 28 to 31 that
    [str.strip] removes. *)
Definition is_int_space (c : ascii) : bool :=
  let n := nat_of_ascii c in
  ((9 <=? n) && (n <=? 13) || (n =? 32) || (n =? 133) || (n =? 160))%nat.

Definition digit_of (c : ascii) : option Z :=
  let n := nat_of_ascii c in
  if ((48 <=? n) && (n <=? 57))%nat then Some (Z.of_nat n - 48) else None.

Definition underscore : ascii := "_"%char.

(** The digits of a decimal literal after its sign: groups of digits, with
    single underscores allowed between two digits only. [acc] is the value
    read so far and [prev_digit] says whether the previous character was a
    digit. *)
Fixpoint parse_digits (s : string) (acc : Z) (prev_digit : bool) : option Z :=
  match s with
  | EmptyString => if prev_digit then Some acc else None
  | String c r =>
      match digit_of c with
      | Some d => parse_digits r (10 * acc + d) true
      | None =>
          if Ascii.eqb c underscore && prev_digit then
            match r with
            | EmptyString => None
            | String c' _ =>
                match digit_of c' with
                | Some _ => parse_digits r acc false
                | None => None
                end
            end
          else None
      end
  end.

(** [int(s)] for a string [s], base 10: surrounding whitespace is dropped,
    one sign is allowed; [None] stands for the [ValueError]. (The limit
    newer interpreters put on the number of digits is left out.) *)
Definition parse_int (s : string) : option Z :=
  match strip_by is_int_space s with
  | EmptyString => None
  | String c r =>
      if Ascii.eqb c "-"%char then option_map Z.opp (parse_digits r 0 false)
      else if Ascii.eqb c "+"%char then parse_digits r 0 false
      else parse_digits (String c r) 0 false
  end.

(** [str(z)] for an integer. *)
Definition str_of_Z (z : Z) : string := NilZero.string_of_int (Z.to_int z).

Definition dquote : ascii := ascii_of_nat 34.
Definition squote : ascii := ascii_of_nat 39.
Definition backslash : ascii := ascii_of_nat 92.

Fixpoint has_char (c : ascii) (s : string) : bool :=
  match s with
  | EmptyString => false
  | String c' r => Ascii.eqb c c' || has_char c r
  end.

Definition hex_digit (n : nat) : ascii :=
  if (n <? 10)%nat then ascii_of_nat (48 + n) else ascii_of_nat (87 + n).

(** One character of [repr(str)] inside the quotes [q]. *)
Definition repr_char (q c : ascii) : string :=
  let n := nat_of_ascii c in
  if Ascii.eqb c q || Ascii.eqb c backslash then String backslash (String c "")
  else if (n =? 9)%nat then String backslash "t"
  else if (n =? 10)%nat then String backslash "n"
  else if (n =? 13)%nat then String backslash "r"
  else if ((n <? 32) || (n =? 127) || (128 <=? n) && (n <=? 160) || (n =? 173))%nat
       then String backslash
              (String "x" (String (hex_digit (n / 16)) (String (hex_digit (n mod 16)) "")))
  else String c "".

Fixpoint repr_chars (q : ascii) (s : string) : string :=
  match s with
  | EmptyString => EmptyString
  | String c r => repr_char q c ++ repr_chars q r
  end.

(** [repr(s)]: single quotes, unless [s] has a single quote and no double
    quote. *)
Definition repr_str (s : string) : string :=
  let q := if has_char squote s && negb (has_char dquote s) then dquote else squote in
  String q (repr_chars q s ++ String q "").

Fixpoint join (sep : string) (l : list string) : string :=
  match l with
  | [] => ""
  | [x] => x
  | x :: r => x ++ sep ++ join sep r
  end.

(* ===================================================================== *)
(** ** Dicts and the builtins the script calls *)
(* ===================================================================== *)

Fixpoint dict_get (k : string) (d : dict) : option value :=
  match d with
  | [] => None
  | (k', v) :: r => if String.eqb k k' then Some v else dict_get k r
  end.

(** [d[k] = v]: an existing key keeps its place, a new one goes last. *)
Fixpoint dict_set (k : string) (v : value) (d : dict) : dict :=
  match d with
  | [] => [(k, v)]
  | (k', v') :: r =>
      if String.eqb k k' then (k', v) :: r else (k', v') :: dict_set k v r
  end.

Definition dict_has (k : string) (d : dict) : bool :=
  match dict_get k d with Some _ => true | None => false end.

Definition is_nil {A} (l : list A) : bool :=
  match l with [] => true | _ => false end.

(** The object a value refers to; a value that is no dict has no dict
    method, which Python reports as [AttributeError]. *)
Definition as_dict (h : heap) (v : value) : result dict :=
  match v with
  | VRef l => match h !! l with Some d => Ok d | None => Raise BadRef end
  | _ => Raise AttributeError
  end.

(** [q.get(k, default)] *)
Definition py_get (h : heap) (q : value) (k : string) (default : value)
  : result value :=
  d <-? as_dict h q ;;
  Ok (match dict_get k d with Some v => v | None => default end).

(** [bool(v)] *)
Definition truthy (h : heap) (v : value) : result bool :=
  match v with
  | VNone => Ok false
  | VBool b => Ok b
  | VInt z => Ok (negb (z =? 0))
  | VStr s => Ok (negb (is_empty s))
  | VList vs => Ok (negb (is_nil vs))
  | VRef l => match h !! l with
              | Some d => Ok (negb (is_nil d))
              | None => Raise BadRef
              end
  end.

(** [int(v)] *)
Definition py_int (v : value) : result Z :=
  match v with
  | VInt z => Ok z
  | VBool b => Ok (Z.b2z b)
  | VStr s => match parse_int s with Some z => Ok z | None => Raise ValueError end
  | VNone | VList _ | VRef _ => Raise TypeError
  end.

(** [repr(v)]. A dict that is already being printed is shown as [{...}];
    [stack] holds the dicts being printed and [fuel] bounds their number. *)
Fixpoint py_repr (fuel : nat) (h : heap) (stack : list loc) : value -> string :=
  fix go (v : value) : string :=
    match v with
    | VNone => "None"
    | VBool true => "True"
    | VBool false => "False"
    | VInt z => str_of_Z z
    | VStr s => repr_str s
    | VList vs => "[" ++ join ", " (map go vs) ++ "]"
    | VRef l =>
        if existsb (Nat.eqb l) stack then "{...}"
        else match fuel, h !! l with
             | S fuel', Some d =>
                 "{" ++ join ", "
                          (map (fun kv : string * value =>
                                  repr_str (fst kv) ++ ": "
                                  ++ py_repr fuel' h (l :: stack) (snd kv)) d)
                     ++ "}"
             | _, _ => "{...}"
             end
    end.

(** [str(v)] *)
Definition py_str (h : heap) (v : value) : string :=
  match v with
  | VStr s => s
  | _ => py_repr (S (List.length h)) h [] v
  end.

(** [v.strip()] *)
Definition py_strip (v : value) : result string :=
  match v with
  | VStr s => Ok (strip s)
  | _ => Raise AttributeError
  end.

(** [v == 'literal'] *)
Definition eq_str (v : value) (s : string) : bool :=
  match v with
  | VStr t => String.eqb t s
  | _ => false
  end.

(** A new object. *)
Definition alloc (d : dict) : M value :=
  fun h => Ok (VRef (List.length h), (h ++ [d])%list).

(** [q.copy()]: dicts and lists have the method. *)
Definition py_copy (q : value) : M value :=
  match q with
  | VRef l => fun h => match h !! l with
                       | Some d => alloc d h
                       | None => Raise BadRef
                       end
  | VList vs => ret (VList vs)
  | _ => raise AttributeError
  end.

(** [target[k] = v] for a string key [k]. *)
Definition py_setitem (target : value) (k : string) (v : value) : M unit :=
  match target with
  | VRef l => fun h => match h !! l with
                       | Some d => Ok (tt, <[l := dict_set k v d]> h)
                       | None => Raise BadRef
                       end
  | _ => raise TypeError
  end.

(** [target[k]] for a string key [k]. *)
Definition py_getitem (h : heap) (target : value) (k : string) : result value :=
  match target with
  | VRef l => match h !! l with
              | Some d => match dict_get k d with
                          | Some v => Ok v
                          | None => Raise KeyError
                          end
              | None => Raise BadRef
              end
  | _ => Raise TypeError
  end.

(** [k in q] for a string [k] and a dict or a list [q], which is all
    [copy] returns. *)
Definition py_contains (h : heap) (k : string) (q : value) : result bool :=
  match q with
  | VRef l => match h !! l with
              | Some d => Ok (dict_has k d)
              | None => Raise BadRef
              end
  | VList vs => Ok (existsb (fun v => eq_str v k) vs)
  | _ => Raise TypeError
  end.

(** [questions[i]] *)
Definition py_index {A} (l : list A) (i : nat) : result A :=
  match l !! i with
  | Some a => Ok a
  | None => Raise IndexError
  end.

Local Open Scope list_scope.

(** A [set] holds hashable values, which lists and dicts are not, and keeps
    one of two equal values: [1 == True]. *)
Definition hashable (v : value) : bool :=
  match v with
  | VList _ | VRef _ => false
  | _ => true
  end.

Definition num_of (v : value) : option Z :=
  match v with
  | VInt z => Some z
  | VBool b => Some (Z.b2z b)
  | _ => None
  end.

(** [a == b] on hashable values. *)
Definition hash_eq (a b : value) : bool :=
  match a, b with
  | VNone, VNone => true
  | VStr s, VStr t => String.eqb s t
  | _, _ => match num_of a, num_of b with
            | Some x, Some y => x =? y
            | _, _ => false
            end
  end.

(** [s.add(v)] on a set kept as the list of its members. *)
Definition set_add (v : value) (s : list value) : list value :=
  if existsb (hash_eq v) s then s else (s ++ [v])%list.

Definition str_set_add (v : string) (s : list string) : list string :=
  if existsb (String.eqb v) s then s else (s ++ [v])%list.

(** [a < b] on hashable values: strings by code points, numbers by value,
    and a [TypeError] between the two or on [None]. *)
Definition py_lt (a b : value) : result bool :=
  match a, b with
  | VStr s, VStr t => Ok (String.ltb s t)
  | _, _ => match num_of a, num_of b with
            | Some x, Some y => Ok (x <? y)
            | _, _ => Raise TypeError
            end
  end.

(** [sorted(l)], by insertion with [<] only. The script sorts sets, whose
    members are distinct: the result does not depend on the algorithm, and
    any algorithm meets a [TypeError] when strings and numbers are mixed. *)
Fixpoint insert_sorted (x : value) (l : list value) : result (list value) :=
  match l with
  | [] => Ok [x]
  | y :: r =>
      b <-? py_lt x y ;;
      if b then Ok (x :: y :: r)
      else r' <-? insert_sorted x r ;; Ok (y :: r')
  end.

Fixpoint py_sorted (l : list value) : result (list value) :=
  match l with
  | [] => Ok []
  | x :: r => r' <-? py_sorted r ;; insert_sorted x r'
  end.

Fixpoint insert_str (x : string) (l : list string) : list string :=
  match l with
  | [] => [x]
  | y :: r => if String.ltb x y then x :: y :: r else y :: insert_str x r
  end.

Definition sorted_strs (l : list string) : list string :=
  fold_right insert_str [] l.

Fixpoint insert_nat (x : nat) (l : list nat) : list nat :=
  match l with
  | [] => [x]
  | y :: r => if (x <? y)%nat then x :: y :: r else y :: insert_nat x r
  end.

Definition sorted_nats (l : list nat) : list nat :=
  fold_right insert_nat [] l.

(* ===================================================================== *)
(** ** The script *)
(* ===================================================================== *)

(** *** [find_duplicates] *)

(** [question_texts]: the [defaultdict(list)], in insertion order. *)
Abbreviation texts := (list (string * list nat)).

(** [question_texts[text].append(i)] *)
Fixpoint append_index (text : string) (i : nat) (qt : texts) : texts :=
  match qt with
  | [] => [(text, [i])]
  | (t, ix) :: r =>
      if String.eqb text t then (t, (ix ++ [i])%list) :: r
      else (t, ix) :: append_index text i r
  end.

(** [q.get('question', '').strip()] *)
Definition question_text (h : heap) (q : value) : result string :=
  v <-? py_get h q "question" (VStr "") ;;
  py_strip v.

(** The loop over [enumerate(questions)], from position [i] on. *)
Fixpoint scan_questions (h : heap) (questions : list value) (i : nat)
    (question_texts : texts) : result texts :=
  match questions with
  | [] => Ok question_texts
  | q :: rest =>
      text <-? question_text h q ;;
      scan_questions h rest (S i) (append_index text i question_texts)
  end.

Definition is_duplicate (g : string * list nat) : bool :=
  (1 <? List.length (snd g))%nat.

Definition find_duplicates (h : heap) (questions : list value) : result texts :=
  question_texts <-? scan_questions h questions 0%nat [] ;;
  Ok (List.filter is_duplicate question_texts).

(** *** [select_canonical_version] *)

(** The key [(unit == 'Unknown', year, -has_metadata)]. *)
Definition priority := (bool * Z * Z)%type.

Definition priority_key (h : heap) (item : nat * value) : result priority :=
  let q := snd item in
  unit <-? py_get h q "unit" (VStr "Unknown") ;;
  y <-? py_get h q "year" VNone ;;
  has_year <-? truthy h y ;;
  year <-? (if has_year
            then v <-? py_get h q "year" (VInt 9999) ;; py_int v
            else Ok 9999) ;;
  m <-? py_get h q "metadata" VNone ;;
  has_m <-? truthy h m ;;
  let has_metadata := if has_m then 1 else 0 in
  Ok (eq_str unit "Unknown", year, - has_metadata).

(** Tuples compare by their first differing component; [False < True]. *)
Definition priority_lt (a b : priority) : bool :=
  let '(u1, y1, m1) := a in
  let '(u2, y2, m2) := b in
  if Bool.eqb u1 u2
  then if y1 =? y2 then m1 <? m2 else y1 <? y2
  else negb u1 && u2.

(** [min(candidates, key=priority_key)]: the keys are computed in order and
    a later candidate replaces the current one only on a smaller key. *)
Fixpoint min_from (h : heap) (best : nat * value) (best_key : priority)
    (rest : list (nat * value)) : result (nat * value) :=
  match rest with
  | [] => Ok best
  | item :: r =>
      k <-? priority_key h item ;;
      if priority_lt k best_key then min_from h item k r
      else min_from h best best_key r
  end.

Definition py_min (h : heap) (candidates : list (nat * value))
  : result (nat * value) :=
  match candidates with
  | [] => Raise ValueError
  | c :: r => k <-? priority_key h c ;; min_from h c k r
  end.

(** [[(i, questions[i]) for i in indices]] *)
Fixpoint candidates_of (questions : list value) (indices : list nat)
  : result (list (nat * value)) :=
  match indices with
  | [] => Ok []
  | i :: r =>
      q <-? py_index questions i ;;
      cs <-? candidates_of questions r ;;
      Ok ((i, q) :: cs)
  end.

Definition select_canonical_version (h : heap) (questions : list value)
    (indices : list nat) : result (nat * value) :=
  candidates <-? candidates_of questions indices ;;
  py_min h candidates.

(** *** [merge_sources] *)

(** The state of the loop: [sources], [years], [source_files]. *)
Definition merge_state := (list value * list string * list value)%type.

(** One turn of [for idx in indices]. *)
Definition merge_step (questions : list value) (idx : nat) (st : merge_state)
  : M merge_state :=
  let '(sources, years, source_files) := st in
  q <- reading (fun _ => py_index questions idx) ;;
  year <- reading (fun h => py_get h q "year" VNone) ;;
  source_file <- reading (fun h => py_get h q "source_file" VNone) ;;
  has_year <- reading (fun h => truthy h year) ;;
  years' <- (if has_year
             then reading (fun h => Ok (str_set_add (py_str h year) years))
             else ret years) ;;
  has_file <- reading (fun h => truthy h source_file) ;;
  source_files' <- (if has_file
                    then if hashable source_file
                         then ret (set_add source_file source_files)
                         else raise TypeError
                    else ret source_files) ;;
  question_number <- reading (fun h => py_get h q "question_number" VNone) ;;
  entry <- alloc [("year", year); ("source_file", source_file);
                  ("question_number", question_number);
                  ("original_index", VInt (Z.of_nat idx))] ;;
  ret ((sources ++ [entry])%list, years', source_files').

Fixpoint merge_loop (questions : list value) (indices : list nat)
    (st : merge_state) : M merge_state :=
  match indices with
  | [] => ret st
  | idx :: rest =>
      st' <- merge_step questions idx st ;;
      merge_loop questions rest st'
  end.

Definition merge_sources (questions : list value) (indices : list nat)
  : M value :=
  st <- merge_loop questions indices ([], [], []) ;;
  let '(sources, years, source_files) := st in
  source_pdfs <- reading (fun _ => py_sorted source_files) ;;
  alloc [("source_pdfs", VList source_pdfs);
         ("years_found", VList (map VStr (sorted_strs years)));
         ("all_sources", VList sources);
         ("duplicate_count", VInt (Z.of_nat (List.length indices)))].

(** *** [deduplicate_questions] *)

(** One entry of [report['duplicate_groups']]. *)
Record group_audit : Type := {
  canonical_index : nat;
  canonical_unit : value;
  canonical_year : value;
  duplicate_indices : list nat;
  merged_sources : value
}.

Record report : Type := {
  total_original : Z;
  total_duplicates_found : Z;
  total_duplicate_instances : Z;
  duplicate_groups : list group_audit;
  total_after_deduplication : Z;
  questions_removed : Z
}.

(** [if 'metadata' not in q: q['metadata'] = {}] *)
Definition ensure_metadata (q : value) : M unit :=
  present <- reading (fun h => py_contains h "metadata" q) ;;
  if present then ret tt
  else m <- alloc [] ;; py_setitem q "metadata" m.

(** [q['metadata'][k] = v] *)
Definition set_metadata (q : value) (k : string) (v : value) : M unit :=
  md <- reading (fun h => py_getitem h q "metadata") ;;
  py_setitem md k v.

(** [q['metadata'][k] = merged_sources[k]] *)
Definition copy_to_metadata (q merged : value) (k : string) : M unit :=
  v <- reading (fun h => py_getitem h merged k) ;;
  set_metadata q k v.

(** [indices_to_keep.discard(idx)] for every [idx != canonical_idx]; the
    set is kept as the list of its members. *)
Definition discard (idx : nat) (s : list nat) : list nat :=
  List.filter (fun j => negb (j =? idx)%nat) s.

Fixpoint discard_others (canonical_idx : nat) (indices : list nat)
    (indices_to_keep : list nat) : list nat :=
  match indices with
  | [] => indices_to_keep
  | idx :: r =>
      discard_others canonical_idx r
        (if negb (idx =? canonical_idx)%nat then discard idx indices_to_keep
         else indices_to_keep)
  end.

(** The state of the loop over the groups: [deduplicated],
    [indices_to_keep], [report['duplicate_groups']]. *)
Definition dedup_state := (list value * list nat * list group_audit)%type.

(** One turn of [for question_text, indices in duplicates.items()]. *)
Definition process_group (questions : list value) (indices : list nat)
    (st : dedup_state) : M dedup_state :=
  let '(deduplicated, indices_to_keep, groups) := st in
  sel <- reading (fun h => select_canonical_version h questions indices) ;;
  let '(canonical_idx, canonical_q) := sel in
  merged <- merge_sources questions indices ;;
  enhanced_q <- py_copy canonical_q ;;
  py_setitem enhanced_q "source_metadata" merged ;;;
  ensure_metadata enhanced_q ;;;
  copy_to_metadata enhanced_q merged "source_pdfs" ;;;
  copy_to_metadata enhanced_q merged "years_found" ;;;
  set_metadata enhanced_q "is_deduplicated" (VBool true) ;;;
  copy_to_metadata enhanced_q merged "duplicate_count" ;;;
  unit <- reading (fun h => py_get h canonical_q "unit" VNone) ;;
  year <- reading (fun h => py_get h canonical_q "year" VNone) ;;
  ret ((deduplicated ++ [enhanced_q])%list,
       discard_others canonical_idx indices indices_to_keep,
       (groups ++ [{| canonical_index := canonical_idx;
                      canonical_unit := unit;
                      canonical_year := year;
                      duplicate_indices := indices;
                      merged_sources := merged |}])%list).

Fixpoint process_groups (questions : list value) (duplicates : texts)
    (st : dedup_state) : M dedup_state :=
  match duplicates with
  | [] => ret st
  | (_, indices) :: rest =>
      st' <- process_group questions indices st ;;
      process_groups questions rest st'
  end.

(** One turn of [for i in sorted(indices_to_keep)]. *)
Definition keep_single (questions : list value) (groups : list group_audit)
    (i : nat) (deduplicated : list value) : M (list value) :=
  if existsb (Nat.eqb i) (map canonical_index groups) then ret deduplicated
  else
    q0 <- reading (fun _ => py_index questions i) ;;
    q <- py_copy q0 ;;
    ensure_metadata q ;;;
    set_metadata q "is_deduplicated" (VBool false) ;;;
    ret (deduplicated ++ [q])%list.

Fixpoint keep_singles (questions : list value) (groups : list group_audit)
    (kept : list nat) (deduplicated : list value) : M (list value) :=
  match kept with
  | [] => ret deduplicated
  | i :: rest =>
      deduplicated' <- keep_single questions groups i deduplicated ;;
      keep_singles questions groups rest deduplicated'
  end.

Definition sum_Z (l : list Z) : Z := fold_right Z.add 0 l.

Definition deduplicate_questions (questions : list value)
  : M (list value * report) :=
  duplicates <- reading (fun h => find_duplicates h questions) ;;
  let indices_to_keep := seq 0 (List.length questions) in
  let total_original := Z.of_nat (List.length questions) in
  let total_duplicates_found := Z.of_nat (List.length duplicates) in
  let total_duplicate_instances :=
    sum_Z (map (fun g => Z.of_nat (List.length (snd g)) - 1) duplicates) in
  st <- process_groups questions duplicates ([], indices_to_keep, []) ;;
  let '(deduplicated, indices_to_keep, groups) := st in
  deduplicated <- keep_singles questions groups (sorted_nats indices_to_keep)
                    deduplicated ;;
  let total_after := Z.of_nat (List.length deduplicated) in
  ret (deduplicated,
       {| total_original := total_original;
          total_duplicates_found := total_duplicates_found;
          total_duplicate_instances := total_duplicate_instances;
          duplicate_groups := groups;
          total_after_deduplication := total_after;
          questions_removed := total_original - total_after |}).

(* ===================================================================== *)
(** ** Reasoning about computations *)
(* ===================================================================== *)

Section Inversion.
Context {A B : Type}.

Lemma rbind_ok (r : result A) (k : A -> result B) (b : B) :
  rbind r k = Ok b <-> exists a, r = Ok a /\ k a = Ok b.
Proof.
  destruct r as [a|e]; simpl; split.
  - eauto.
  - intros (a' & Ha & Hk). congruence.
  - discriminate.
  - intros (a' & Ha & _). discriminate.
Qed.

Lemma bind_ok (m : M A) (k : A -> M B) (h : heap) (r : B * heap) :
  bind m k h = Ok r <-> exists a h1, m h = Ok (a, h1) /\ k a h1 = Ok r.
Proof.
  unfold bind. destruct (m h) as [[a h1]|e]; split.
  - eauto.
  - intros (a' & h' & Ha & Hk). congruence.
  - discriminate.
  - intros (a' & h' & Ha & _). discriminate.
Qed.

Lemma reading_ok (f : heap -> result A) (h : heap) (a : A) (h' : heap) :
  reading f h = Ok (a, h') <-> f h = Ok a /\ h' = h.
Proof.
  unfold reading. destruct (f h) as [a0|e]; split.
  - intros [= -> ->]. auto.
  - intros [[= ->] ->]. reflexivity.
  - discriminate.
  - intros [? _]. discriminate.
Qed.

Lemma ret_ok (a a' : A) (h h' : heap) :
  ret a h = Ok (a', h') <-> a' = a /\ h' = h.
Proof. unfold ret. split; [intros [= -> ->]; auto | intros [-> ->]; auto]. Qed.
End Inversion.

(** Opens a hypothesis that says a sequence of steps returned. *)
Ltac open_run H :=
  repeat
    match type of H with
    | bind _ _ _ = Ok _ =>
        let a := fresh "a" in
        let h1 := fresh "h" in
        let H1 := fresh "Hrun" in
        apply bind_ok in H; destruct H as (a & h1 & H1 & H);
        try (apply reading_ok in H1; destruct H1 as [H1 ->])
    | rbind _ _ = Ok _ =>
        let a := fresh "a" in
        let H1 := fresh "Hget" in
        apply rbind_ok in H; destruct H as (a & H1 & H)
    end.

(* ===================================================================== *)
(** ** Dicts *)
(* ===================================================================== *)

Lemma dict_get_set_eq k v d : dict_get k (dict_set k v d) = Some v.
Proof.
  induction d as [|[k' v'] r IH]; simpl.
  - rewrite String.eqb_refl. reflexivity.
  - destruct (String.eqb k k') eqn:E; simpl; rewrite E; auto.
Qed.

Lemma dict_get_set_ne k k' v d :
  k' <> k -> dict_get k' (dict_set k v d) = dict_get k' d.
Proof.
  intros Hne. induction d as [|[k0 v0] r IH]; simpl.
  - destruct (String.eqb_spec k' k); congruence.
  - destruct (String.eqb_spec k k0) as [->|]; simpl.
    + destruct (String.eqb_spec k' k0); congruence.
    + destruct (String.eqb_spec k' k0); auto.
Qed.

Lemma dict_has_set k k' v d :
  dict_has k' (dict_set k v d) = String.eqb k' k || dict_has k' d.
Proof.
  unfold dict_has. destruct (String.eqb_spec k' k) as [->|Hne].
  - rewrite dict_get_set_eq. reflexivity.
  - rewrite dict_get_set_ne by assumption. reflexivity.
Qed.

(* ===================================================================== *)
(** ** How the heap evolves *)
(* ===================================================================== *)

(** [evolves R h h']: every object of [h] is still there in [h'], changed
    at most as [R] allows; [h'] may hold new objects. *)
Definition evolves (R : dict -> dict -> Prop) (h h' : heap) : Prop :=
  (List.length h <= List.length h')%nat /\
  forall l d, h !! l = Some d -> exists d', h' !! l = Some d' /\ R d d'.

Section Evolves.
Variable R : dict -> dict -> Prop.
Hypothesis R_refl : forall d, R d d.
Hypothesis R_trans : forall a b c, R a b -> R b c -> R a c.

Lemma evolves_refl h : evolves R h h.
Proof. split; [lia | eauto]. Qed.

Lemma evolves_trans h1 h2 h3 :
  evolves R h1 h2 -> evolves R h2 h3 -> evolves R h1 h3.
Proof.
  intros [L1 E1] [L2 E2]. split; [lia|].
  intros l d Hl. destruct (E1 _ _ Hl) as (d' & Hl' & R1).
  destruct (E2 _ _ Hl') as (d'' & Hl'' & R2). eauto.
Qed.

(** An update of an object as [R] allows. *)
Lemma evolves_set h h' l d d' :
  evolves R h h' -> h' !! l = Some d -> R d d' -> evolves R h (<[l := d']> h').
Proof.
  intros [L E] Hl HR. split; [rewrite length_insert; lia|].
  intros l0 d0 Hl0. destruct (E _ _ Hl0) as (d1 & Hl1 & HR1).
  destruct (decide (l0 = l)) as [->|Hne].
  - exists d'. split.
    + apply list_lookup_insert_eq. eapply lookup_lt_Some; eauto.
    + assert (d1 = d) by congruence. subst. eauto.
  - exists d1. rewrite list_lookup_insert_ne by congruence. auto.
Qed.
End Evolves.

(** The keys the script writes into a [metadata] dict. *)
Definition metadata_keys : list string :=
  ["source_pdfs"; "years_found"; "is_deduplicated"; "duplicate_count"].

(** [same_off ks d d']: [d'] has the items of [d] at every key outside
    [ks]. *)
Definition same_off (ks : list string) (d d' : dict) : Prop :=
  forall k, ~ In k ks -> dict_get k d' = dict_get k d.

Lemma same_off_refl ks d : same_off ks d d.
Proof. intros k _. reflexivity. Qed.

Lemma same_off_trans ks a b c :
  same_off ks a b -> same_off ks b c -> same_off ks a c.
Proof. intros H1 H2 k Hk. rewrite (H2 k Hk). auto. Qed.

Lemma same_off_set ks k v d : In k ks -> same_off ks d (dict_set k v d).
Proof.
  intros Hin k' Hk'. apply dict_get_set_ne. intros ->. contradiction.
Qed.

Lemma same_off_mono ks ks' d d' :
  (forall k, In k ks -> In k ks') -> same_off ks d d' -> same_off ks' d d'.
Proof. intros Hsub H k Hk. apply H. auto. Qed.

(** During a run, an object that was there before keeps every item outside
    [metadata_keys]. *)
Definition frame : heap -> heap -> Prop := evolves (same_off metadata_keys).

(* ===================================================================== *)
(** ** The grouping, read on the texts of the records *)
(* ===================================================================== *)

(** [scan_questions] once every text is known. *)
Fixpoint index_texts (ts : list string) (i : nat) (acc : texts) : texts :=
  match ts with
  | [] => acc
  | t :: r => index_texts r (S i) (append_index t i acc)
  end.

Definition duplicates_of (ts : list string) : texts :=
  List.filter is_duplicate (index_texts ts 0%nat []).

(** [texts_in h qs ts]: [ts] lists the trimmed question text of each
    record of [qs]. *)
Definition texts_in (h : heap) (qs : list value) (ts : list string) : Prop :=
  Forall2 (fun q t => question_text h q = Ok t) qs ts.

Lemma scan_questions_texts h qs : forall i acc r,
  scan_questions h qs i acc = Ok r ->
  exists ts, texts_in h qs ts /\ r = index_texts ts i acc.
Proof.
  induction qs as [|q qs IH]; simpl; intros i acc r H.
  - injection H as <-. exists []. split; [constructor | reflexivity].
  - open_run H. destruct (IH _ _ _ H) as (ts & Hts & ->).
    exists (a :: ts). split; [constructor; assumption | reflexivity].
Qed.

Lemma scan_questions_total h qs ts : forall i acc,
  texts_in h qs ts ->
  scan_questions h qs i acc = Ok (index_texts ts i acc).
Proof.
  intros i acc H. revert i acc.
  induction H as [|q t qs ts Hq _ IH]; intros i acc; simpl.
  - reflexivity.
  - rewrite Hq. simpl. apply IH.
Qed.

Lemma find_duplicates_texts h qs D :
  find_duplicates h qs = Ok D ->
  exists ts, texts_in h qs ts /\ D = duplicates_of ts.
Proof.
  unfold find_duplicates. intros H. open_run H.
  destruct (scan_questions_texts _ _ _ _ _ Hget) as (ts & Hts & ->).
  injection H as <-. eauto.
Qed.

Lemma find_duplicates_total h qs ts :
  texts_in h qs ts -> find_duplicates h qs = Ok (duplicates_of ts).
Proof.
  intros H. unfold find_duplicates.
  rewrite (scan_questions_total _ _ _ 0%nat [] H). reflexivity.
Qed.

Lemma texts_in_length h qs ts : texts_in h qs ts -> length ts = length qs.
Proof. intros H. symmetry. eapply Forall2_length; eauto. Qed.

Lemma index_texts_snoc ts t : forall i acc,
  index_texts (ts ++ [t]) i acc
  = append_index t (i + length ts) (index_texts ts i acc).
Proof.
  induction ts as [|t0 ts IH]; simpl; intros i acc.
  - rewrite Nat.add_0_r. reflexivity.
  - rewrite IH. f_equal. lia.
Qed.

(** What [append_index] does to the table, by cases on the key. *)
Lemma append_index_new t n qt :
  ~ In t (map fst qt) -> append_index t n qt = qt ++ [(t, [n])].
Proof.
  induction qt as [|[t0 ix0] r IH]; simpl; intros Hnew.
  - reflexivity.
  - destruct (String.eqb_spec t t0) as [->|Hne].
    + exfalso. apply Hnew. left. reflexivity.
    + rewrite IH; [reflexivity|]. intros Hin. apply Hnew. right. assumption.
Qed.

Lemma append_index_old t n qt :
  In t (map fst qt) ->
  exists pre ix post,
    qt = pre ++ (t, ix) :: post /\
    append_index t n qt = pre ++ (t, ix ++ [n]) :: post.
Proof.
  induction qt as [|[t0 ix0] r IH]; simpl; intros Hin.
  - contradiction.
  - destruct (String.eqb_spec t t0) as [->|Hne].
    + exists [], ix0, r. split; reflexivity.
    + destruct Hin as [Heq|Hin]; [congruence|].
      destruct (IH Hin) as (pre & ix & post & -> & ->).
      exists ((t0, ix0) :: pre), ix, post. split; reflexivity.
Qed.

Definition first_index (g : string * list nat) : nat := hd 0%nat (snd g).

(** The table after the first [length ts] records, whose texts are [ts]. *)
Record grouped (ts : list string) (qt : texts) : Prop := {
  grouped_keys : NoDup (map fst qt);
  grouped_members :
    forall t ix i, In (t, ix) qt -> (In i ix <-> ts !! i = Some t);
  grouped_total : forall i t, ts !! i = Some t -> In t (map fst qt);
  grouped_ascending : forall t ix, In (t, ix) qt -> StronglySorted lt ix;
  grouped_inhabited : forall t ix, In (t, ix) qt -> ix <> [];
  grouped_order : StronglySorted lt (map first_index qt)
}.

Lemma StronglySorted_snoc (l : list nat) (n : nat) :
  StronglySorted lt l -> (forall x, In x l -> (x < n)%nat) ->
  StronglySorted lt (l ++ [n]).
Proof.
  induction l as [|a l IH]; simpl; intros Hs Hlt.
  - repeat constructor.
  - inversion Hs as [|? ? Hs' Hall]; subst. constructor.
    + apply IH; auto.
    + apply Forall_app. split; [assumption|]. constructor; auto.
Qed.

Lemma lookup_snoc_Some {A} (l : list A) (x y : A) (i : nat) :
  (l ++ [x]) !! i = Some y <->
  l !! i = Some y \/ (i = length l /\ y = x).
Proof.
  split.
  - intros H. destruct (Nat.lt_ge_cases i (length l)) as [Hlt|Hge].
    + left. rewrite lookup_app_l in H by assumption. assumption.
    + right. rewrite lookup_app_r in H by assumption.
      destruct (i - length l)%nat as [|k] eqn:E; simpl in H.
      * injection H as ->. split; [lia | reflexivity].
      * discriminate.
  - intros [H|[-> ->]].
    + apply lookup_app_l_Some. assumption.
    + rewrite lookup_app_r by lia. rewrite Nat.sub_diag. reflexivity.
Qed.

Lemma grouped_nil : grouped [] [].
Proof.
  split; simpl; try contradiction; try constructor.
  intros i t H. discriminate.
Qed.

Lemma grouped_member_lt ts qt t ix i :
  grouped ts qt -> In (t, ix) qt -> In i ix -> (i < length ts)%nat.
Proof.
  intros G Hin Hi. apply (grouped_members _ _ G _ _ i Hin) in Hi.
  eapply lookup_lt_Some; eauto.
Qed.

Lemma grouped_first_index ts qt g :
  grouped ts qt -> In g qt -> In (first_index g) (snd g).
Proof.
  intros G Hin. destruct g as [t ix]. unfold first_index. simpl.
  destruct ix as [|a r].
  - exfalso. eapply (grouped_inhabited _ _ G); eauto.
  - left. reflexivity.
Qed.

Lemma in_middle_inv {A} (x y : A) (pre post : list A) :
  In x (pre ++ y :: post) <-> x = y \/ In x (pre ++ post).
Proof.
  rewrite !in_app_iff. simpl. intuition congruence.
Qed.

Lemma grouped_snoc ts qt t :
  grouped ts qt -> grouped (ts ++ [t]) (append_index t (length ts) qt).
Proof.
  intros G.
  destruct (in_dec string_dec t (map fst qt)) as [Hold|Hnew].
  - destruct (append_index_old t (length ts) qt Hold)
      as (pre & ix & post & Eq & ->).
    assert (Hin : In (t, ix) qt) by (rewrite Eq; apply in_elt).
    pose proof (grouped_keys _ _ G) as Hkeys. rewrite Eq in Hkeys.
    rewrite map_app in Hkeys. simpl in Hkeys.
    pose proof (NoDup_remove_2 _ _ _ Hkeys) as Hfresh.
    rewrite <- map_app in Hfresh.
    assert (Hrest : forall t' ix', In (t', ix') (pre ++ post) ->
                                   t' <> t /\ In (t', ix') qt).
    { intros t' ix' H. split.
      - intros ->. apply Hfresh. apply (in_map fst) in H. assumption.
      - rewrite Eq. apply in_middle_inv. right. assumption. }
    split.
    + rewrite map_app. simpl. assumption.
    + intros t' ix' i H. apply in_middle_inv in H. destruct H as [[= -> ->]|H].
      * rewrite in_app_iff, lookup_snoc_Some. simpl.
        rewrite (grouped_members _ _ G t ix i Hin). intuition.
      * destruct (Hrest _ _ H) as [Hne Hqt].
        rewrite lookup_snoc_Some.
        rewrite (grouped_members _ _ G t' ix' i Hqt). intuition congruence.
    + intros i t' H. rewrite map_app. simpl.
      apply lookup_snoc_Some in H. destruct H as [H|[_ ->]].
      * pose proof (grouped_total _ _ G _ _ H) as Hk.
        rewrite Eq, map_app in Hk. assumption.
      * apply in_elt.
    + intros t' ix' H. apply in_middle_inv in H. destruct H as [[= -> ->]|H].
      * apply StronglySorted_snoc.
        -- eapply grouped_ascending; eauto.
        -- intros x Hx. eapply grouped_member_lt; eauto.
      * destruct (Hrest _ _ H) as [_ Hqt]. eapply grouped_ascending; eauto.
    + intros t' ix' H. apply in_middle_inv in H. destruct H as [[= -> ->]|H].
      * destruct ix; discriminate.
      * destruct (Hrest _ _ H) as [_ Hqt]. eapply grouped_inhabited; eauto.
    + pose proof (grouped_order _ _ G) as Ho. rewrite Eq in Ho.
      rewrite map_app in *. simpl in *.
      replace (first_index (t, ix ++ [length ts])) with (first_index (t, ix));
        [assumption|].
      unfold first_index. simpl. destruct ix as [|a r]; [|reflexivity].
      exfalso. eapply (grouped_inhabited _ _ G); eauto.
  - rewrite (append_index_new _ _ _ Hnew).
    assert (Hold : forall t' ix', In (t', ix') qt -> t' <> t).
    { intros t' ix' H ->. apply Hnew. apply (in_map fst) in H. assumption. }
    split.
    + rewrite map_app. simpl. apply NoDup_app.
      * apply G.
      * repeat constructor. simpl. tauto.
      * intros a Ha [<-|[]]. contradiction.
    + intros t' ix' i H. apply in_app_iff in H. simpl in H.
      rewrite lookup_snoc_Some.
      destruct H as [H|[[= <- <-]|[]]].
      * rewrite (grouped_members _ _ G t' ix' i H).
        pose proof (Hold _ _ H). intuition congruence.
      * simpl. split.
        -- intros [<-|[]]. right. auto.
        -- intros [H|[-> _]]; [|left; reflexivity].
           exfalso. apply Hnew. eapply grouped_total; eauto.
    + intros i t' H. rewrite map_app, in_app_iff. simpl.
      apply lookup_snoc_Some in H. destruct H as [H|[_ ->]].
      * left. eapply grouped_total; eauto.
      * right. left. reflexivity.
    + intros t' ix' H. apply in_app_iff in H. simpl in H.
      destruct H as [H|[[= <- <-]|[]]].
      * eapply grouped_ascending; eauto.
      * repeat constructor.
    + intros t' ix' H. apply in_app_iff in H. simpl in H.
      destruct H as [H|[[= <- <-]|[]]].
      * eapply grouped_inhabited; eauto.
      * discriminate.
    + rewrite map_app. simpl. apply StronglySorted_snoc.
      * apply G.
      * intros x Hx. apply in_map_iff in Hx. destruct Hx as ([t' ix'] & <- & Hg).
        eapply grouped_member_lt; eauto.
        apply (grouped_first_index _ _ _ G Hg).
Qed.

Lemma grouped_index_texts ts : grouped ts (index_texts ts 0%nat []).
Proof.
  induction ts as [|t ts IH] using rev_ind.
  - apply grouped_nil.
  - rewrite index_texts_snoc. simpl. apply grouped_snoc. assumption.
Qed.

(** The groups [find_duplicates] returns for records whose texts are
    [ts]. *)
Record duplicate_groups_of (ts : list string) (D : texts) : Prop := {
  dup_keys : NoDup (map fst D);
  dup_members :
    forall t ix i, In (t, ix) D -> (In i ix <-> ts !! i = Some t);
  dup_size : forall t ix, In (t, ix) D -> (2 <= length ix)%nat;
  dup_ascending : forall t ix, In (t, ix) D -> StronglySorted lt ix;
  dup_order : StronglySorted lt (map first_index D);
  dup_complete :
    forall i j t, i <> j -> ts !! i = Some t -> ts !! j = Some t ->
                  exists ix, In (t, ix) D
}.

Lemma StronglySorted_map_filter {A} (g : A -> nat) (f : A -> bool) (l : list A) :
  StronglySorted lt (map g l) -> StronglySorted lt (map g (List.filter f l)).
Proof.
  induction l as [|a l IH]; simpl; intros Hs.
  - constructor.
  - apply StronglySorted_inv in Hs. destruct Hs as [Hs Hall].
    destruct (f a); simpl; [|auto].
    constructor; [auto|].
    rewrite Forall_forall in *. intros x Hx. apply Hall.
    apply in_map_iff in Hx. destruct Hx as (y & <- & Hy).
    apply filter_In in Hy. apply in_map. tauto.
Qed.

Lemma StronglySorted_lt_NoDup (l : list nat) : StronglySorted lt l -> NoDup l.
Proof.
  induction l as [|a l IH]; intros Hs.
  - constructor.
  - apply StronglySorted_inv in Hs. destruct Hs as [Hs Hall].
    constructor; [|auto].
    intros Hin. rewrite Forall_forall in Hall. specialize (Hall _ Hin). lia.
Qed.

Lemma two_members {A} (l : list A) (x y : A) :
  x <> y -> In x l -> In y l -> (2 <= length l)%nat.
Proof.
  intros Hne Hx Hy. destruct l as [|a [|b r]]; simpl in *; try lia.
  destruct Hx as [<-|[]], Hy as [<-|[]]. congruence.
Qed.

Lemma in_keys_inv {A B} (l : list (A * B)) (k : A) :
  In k (map fst l) -> exists v, In (k, v) l.
Proof.
  intros H. apply in_map_iff in H. destruct H as ([k' v] & <- & H). eauto.
Qed.

Lemma keys_functional {A B} (l : list (A * B)) (k : A) (v v' : B) :
  NoDup (map fst l) -> In (k, v) l -> In (k, v') l -> v = v'.
Proof.
  induction l as [|[k0 v0] l IH]; simpl; intros Hnd H1 H2; [contradiction|].
  inversion Hnd as [|? ? Hnot Hnd']; subst.
  destruct H1 as [[= -> ->]|H1], H2 as [[= <-]|H2]; auto.
  - exfalso. apply Hnot. apply (in_map fst) in H2. assumption.
  - exfalso. apply Hnot. apply (in_map fst) in H1. assumption.
Qed.

Lemma NoDup_map_filter {A B} (g : A -> B) (f : A -> bool) (l : list A) :
  NoDup (map g l) -> NoDup (map g (List.filter f l)).
Proof.
  induction l as [|a l IH]; simpl; intros Hnd; [constructor|].
  inversion Hnd as [|? ? Hnot Hnd']; subst.
  destruct (f a); simpl; [|auto].
  constructor; [|auto].
  intros Hin. apply Hnot. apply in_map_iff in Hin.
  destruct Hin as (y & <- & Hy). apply filter_In in Hy. apply in_map. tauto.
Qed.

Lemma duplicates_of_spec ts : duplicate_groups_of ts (duplicates_of ts).
Proof.
  pose proof (grouped_index_texts ts) as G. unfold duplicates_of.
  set (qt := index_texts ts 0%nat []) in *.
  assert (Hsub : forall t ix, In (t, ix) (List.filter is_duplicate qt) ->
                             In (t, ix) qt /\ (2 <= length ix)%nat).
  { intros t ix H. apply filter_In in H. destruct H as [H Hd]. split; [assumption|].
    unfold is_duplicate in Hd. simpl in Hd. apply Nat.ltb_lt in Hd. lia. }
  split.
  - apply NoDup_map_filter. apply G.
  - intros t ix i H. apply Hsub in H. apply (grouped_members _ _ G). tauto.
  - intros t ix H. apply Hsub in H. tauto.
  - intros t ix H. apply Hsub in H. eapply grouped_ascending; [apply G|]. apply H.
  - apply StronglySorted_map_filter. apply G.
  - intros i j t Hne Hi Hj.
    destruct (in_keys_inv _ _ (grouped_total _ _ G _ _ Hi)) as (ix & Hix).
    exists ix. apply filter_In. split; [assumption|].
    unfold is_duplicate. simpl. apply Nat.ltb_lt.
    enough (2 <= length ix)%nat by lia.
    apply (two_members ix i j Hne); apply (grouped_members _ _ G _ _ _ Hix); assumption.
Qed.

(** Two groups share no index. *)
Lemma dup_disjoint ts D t1 ix1 t2 ix2 i :
  duplicate_groups_of ts D ->
  In (t1, ix1) D -> In (t2, ix2) D -> In i ix1 -> In i ix2 ->
  t1 = t2 /\ ix1 = ix2.
Proof.
  intros G H1 H2 Hi1 Hi2.
  apply (dup_members _ _ G _ _ _ H1) in Hi1.
  apply (dup_members _ _ G _ _ _ H2) in Hi2.
  assert (t1 = t2) by congruence. subst. split; [reflexivity|].
  eapply keys_functional; eauto. apply G.
Qed.

(** *** Sets of indices kept as ascending lists *)

Lemma strictly_sorted_ext (l1 l2 : list nat) :
  StronglySorted lt l1 -> StronglySorted lt l2 ->
  (forall x, In x l1 <-> In x l2) -> l1 = l2.
Proof.
  revert l2. induction l1 as [|a l1 IH]; intros l2 H1 H2 Hext.
  - destruct l2 as [|b l2]; [reflexivity|].
    exfalso. apply (Hext b). left. reflexivity.
  - destruct l2 as [|b l2].
    + exfalso. apply (Hext a). left. reflexivity.
    + apply StronglySorted_inv in H1. destruct H1 as [H1 A1].
      apply StronglySorted_inv in H2. destruct H2 as [H2 A2].
      rewrite Forall_forall in A1, A2.
      assert (a = b).
      { pose proof (proj1 (Hext a) (or_introl eq_refl)) as Ha.
        pose proof (proj2 (Hext b) (or_introl eq_refl)) as Hb.
        destruct Ha as [Ha|Ha]; [congruence|].
        destruct Hb as [Hb|Hb]; [congruence|].
        specialize (A1 _ Hb). specialize (A2 _ Ha). lia. }
      subst b. f_equal. apply IH; auto.
      intros x. split; intros Hx.
      * destruct (proj1 (Hext x) (or_intror Hx)) as [->|]; [|assumption].
        specialize (A1 _ Hx). lia.
      * destruct (proj2 (Hext x) (or_intror Hx)) as [->|]; [|assumption].
        specialize (A2 _ Hx). lia.
Qed.

Lemma StronglySorted_filter (f : nat -> bool) (l : list nat) :
  StronglySorted lt l -> StronglySorted lt (List.filter f l).
Proof.
  intros H. rewrite <- (map_id l) in H.
  apply (StronglySorted_map_filter id f) in H. rewrite map_id in H. assumption.
Qed.

Lemma StronglySorted_seq (a n : nat) : StronglySorted lt (seq a n).
Proof.
  revert a. induction n as [|n IH]; intros a; simpl; constructor; auto.
  apply Forall_forall. intros x Hx. apply in_seq in Hx. lia.
Qed.

Lemma insert_nat_sorted (x : nat) (l : list nat) :
  Forall (lt x) l -> insert_nat x l = x :: l.
Proof.
  destruct l as [|y r]; simpl; intros H; [reflexivity|].
  inversion H; subst. destruct (Nat.ltb_spec x y); [reflexivity | lia].
Qed.

Lemma sorted_nats_sorted (l : list nat) :
  StronglySorted lt l -> sorted_nats l = l.
Proof.
  induction l as [|a l IH]; simpl; intros Hs; [reflexivity|].
  apply StronglySorted_inv in Hs. destruct Hs as [Hs Hall].
  unfold sorted_nats in *. rewrite IH by assumption.
  apply insert_nat_sorted. assumption.
Qed.

Lemma discard_In idx s j :
  In j (discard idx s) <-> In j s /\ j <> idx.
Proof.
  unfold discard. rewrite filter_In.
  destruct (Nat.eqb_spec j idx); simpl; intuition congruence.
Qed.

Lemma discard_others_In c ix : forall keep j,
  In j (discard_others c ix keep) <-> In j keep /\ (j = c \/ ~ In j ix).
Proof.
  induction ix as [|a ix IH]; simpl; intros keep j.
  - tauto.
  - rewrite IH. destruct (Nat.eqb_spec a c) as [->|Hne]; simpl.
    + destruct (Nat.eq_dec j c); intuition congruence.
    + rewrite discard_In. destruct (Nat.eq_dec j c); intuition congruence.
Qed.

Lemma discard_others_sorted c ix : forall keep,
  StronglySorted lt keep -> StronglySorted lt (discard_others c ix keep).
Proof.
  induction ix as [|a ix IH]; simpl; intros keep Hs; [assumption|].
  apply IH. destruct (negb (a =? c)%nat); [|assumption].
  apply StronglySorted_filter. assumption.
Qed.

(* ===================================================================== *)
(** ** What each step does to the heap *)
(* ===================================================================== *)

Lemma alloc_ok d h v h' :
  alloc d h = Ok (v, h') <-> v = VRef (length h) /\ h' = h ++ [d].
Proof.
  unfold alloc. split; [intros [= <- <-]; auto | intros [-> ->]; reflexivity].
Qed.

Lemma as_dict_ok h q d :
  as_dict h q = Ok d <-> exists l, q = VRef l /\ h !! l = Some d.
Proof.
  split.
  - destruct q; simpl; try discriminate.
    destruct (h !! l) eqn:E; [|discriminate]. intros [= ->]. eauto.
  - intros (l & -> & Hl). simpl. rewrite Hl. reflexivity.
Qed.

Lemma py_get_ok h q k default v :
  py_get h q k default = Ok v <->
  exists l d, q = VRef l /\ h !! l = Some d /\
              v = match dict_get k d with Some x => x | None => default end.
Proof.
  unfold py_get. rewrite rbind_ok. split.
  - intros (d & Hd & [= <-]). apply as_dict_ok in Hd.
    destruct Hd as (l & -> & Hl). eauto.
  - intros (l & d & -> & Hl & ->). exists d. split; [|reflexivity].
    apply as_dict_ok. eauto.
Qed.

Lemma py_copy_ref_ok l h v h' :
  py_copy (VRef l) h = Ok (v, h') <->
  exists d, h !! l = Some d /\ v = VRef (length h) /\ h' = h ++ [d].
Proof.
  simpl. destruct (h !! l) as [d|]; split.
  - intros H. apply alloc_ok in H. destruct H as [-> ->]. eauto.
  - intros (d' & [= <-] & -> & ->). reflexivity.
  - discriminate.
  - intros (d' & ? & _). discriminate.
Qed.

Lemma py_setitem_ok target k v h u h' :
  py_setitem target k v h = Ok (u, h') <->
  exists l d, target = VRef l /\ h !! l = Some d /\
              h' = <[l := dict_set k v d]> h.
Proof.
  split.
  - destruct target; simpl; try discriminate.
    destruct (h !! l) as [d|] eqn:E; [|discriminate].
    intros [= <-]. eauto.
  - intros (l & d & -> & Hl & ->). simpl. rewrite Hl. destruct u. reflexivity.
Qed.

Lemma py_getitem_ok h target k v :
  py_getitem h target k = Ok v <->
  exists l d, target = VRef l /\ h !! l = Some d /\ dict_get k d = Some v.
Proof.
  split.
  - destruct target; simpl; try discriminate.
    destruct (h !! l) as [d|] eqn:E; [|discriminate].
    destruct (dict_get k d) eqn:E'; [|discriminate].
    intros [= <-]. eauto.
  - intros (l & d & -> & Hl & Hk). simpl. rewrite Hl, Hk. reflexivity.
Qed.

(** [q['metadata'][k] = v] updates the dict [q['metadata']] refers to. *)
Lemma set_metadata_ok q k v h u h' :
  set_metadata q k v h = Ok (u, h') <->
  exists e d m md,
    q = VRef e /\ h !! e = Some d /\ dict_get "metadata" d = Some (VRef m) /\
    h !! m = Some md /\ h' = <[m := dict_set k v md]> h.
Proof.
  unfold set_metadata. rewrite bind_ok. split.
  - intros (a & h1 & H1 & H2). apply reading_ok in H1. destruct H1 as [H1 ->].
    apply py_getitem_ok in H1. destruct H1 as (e & d & -> & He & Hm).
    apply py_setitem_ok in H2. destruct H2 as (m & md & -> & Hmd & ->).
    exists e, d, m, md. auto.
  - intros (e & d & m & md & -> & He & Hm & Hmd & ->).
    exists (VRef m), h. split.
    + apply reading_ok. split; [|reflexivity]. apply py_getitem_ok. eauto.
    + apply py_setitem_ok. eauto.
Qed.

Lemma copy_to_metadata_ok q merged k h u h' :
  copy_to_metadata q merged k h = Ok (u, h') ->
  exists v, py_getitem h merged k = Ok v /\ set_metadata q k v h = Ok (u, h').
Proof.
  unfold copy_to_metadata. intros H. apply bind_ok in H.
  destruct H as (v & h1 & H1 & H2). apply reading_ok in H1.
  destruct H1 as [H1 ->]. eauto.
Qed.

Lemma set_metadata_evolves (R : dict -> dict -> Prop) q k v h u h' :
  (forall d, R d d) -> (forall a b c, R a b -> R b c -> R a c) ->
  (forall d, R d (dict_set k v d)) ->
  set_metadata q k v h = Ok (u, h') -> evolves R h h'.
Proof.
  intros Hrefl Htrans HR H. apply set_metadata_ok in H.
  destruct H as (e & d & m & md & -> & He & Hm & Hmd & ->).
  eapply evolves_set; eauto. apply evolves_refl. assumption.
Qed.

(** What [set_metadata] leaves in place: the record still refers to the
    same dict, which holds the new item. *)
Lemma set_metadata_result q k v h u h' :
  set_metadata q k v h = Ok (u, h') ->
  exists e d m md,
    q = VRef e /\ h !! e = Some d /\ dict_get "metadata" d = Some (VRef m) /\
    h' !! m = Some md /\ dict_get k md = Some v.
Proof.
  intros H. apply set_metadata_ok in H.
  destruct H as (e & d & m & md & -> & He & Hm & Hmd & ->).
  exists e, d, m, (dict_set k v md). repeat split; auto.
  - apply list_lookup_insert_eq. eapply lookup_lt_Some; eauto.
  - apply dict_get_set_eq.
Qed.

Lemma frame_refl h : frame h h.
Proof. apply evolves_refl. apply same_off_refl. Qed.

Lemma frame_trans h1 h2 h3 : frame h1 h2 -> frame h2 h3 -> frame h1 h3.
Proof. apply evolves_trans. apply same_off_trans. Qed.

Lemma set_metadata_frame q k v h u h' :
  In k metadata_keys -> set_metadata q k v h = Ok (u, h') -> frame h h'.
Proof.
  intros Hk. apply set_metadata_evolves.
  - apply same_off_refl.
  - apply same_off_trans.
  - intros d. apply same_off_set. assumption.
Qed.

(** [ensure_metadata] on a record [e]: afterwards the record has a
    [metadata] key, and it changed at that key only, if at all. *)
Lemma ensure_metadata_ok e h u h' :
  ensure_metadata (VRef e) h = Ok (u, h') ->
  exists d d',
    h !! e = Some d /\ h' !! e = Some d' /\
    dict_has "metadata" d' = true /\
    same_off ["metadata"] d d' /\
    (dict_has "metadata" d = true -> d' = d) /\
    exists news, h' = <[e := d']> (h ++ news).
Proof.
  unfold ensure_metadata. intros H. open_run H.
  simpl in Hrun. destruct (h !! e) as [d|] eqn:He; [|discriminate].
  injection Hrun as <-.
  destruct (dict_has "metadata" d) eqn:Hhas.
  - apply ret_ok in H. destruct H as [_ ->].
    exists d, d. do 3 (split; [auto|]).
    split; [apply same_off_refl|]. split; [reflexivity|].
    exists []. rewrite app_nil_r. symmetry. apply list_insert_id. assumption.
  - open_run H. apply alloc_ok in Hrun. destruct Hrun as [-> ->].
    apply py_setitem_ok in H. destruct H as (l & d0 & [= <-] & Hl & ->).
    assert (d0 = d).
    { rewrite lookup_app_l in Hl by (eapply lookup_lt_Some; eauto). congruence. }
    subst d0. exists d, (dict_set "metadata" (VRef (length h)) d).
    split; [reflexivity|]. split.
    { apply list_lookup_insert_eq. eapply lookup_lt_Some; eauto. }
    split; [rewrite dict_has_set; reflexivity|].
    split; [apply same_off_set; left; reflexivity|].
    split; [intros; congruence|]. eauto.
Qed.

(** [merge_sources] only adds objects to the heap. *)
Lemma merge_step_extends qs idx st h st' h' :
  merge_step qs idx st h = Ok (st', h') -> exists entry, h' = h ++ [entry].
Proof.
  destruct st as [[sources years] files]. unfold merge_step. intros H.
  open_run H.
  assert (h0 = h) as ->.
  { destruct a2; [apply reading_ok in Hrun3; tauto | apply ret_ok in Hrun3; tauto]. }
  assert (h1 = h) as ->.
  { destruct a4; [|apply ret_ok in Hrun5; tauto].
    destruct (hashable a1); [apply ret_ok in Hrun5; tauto | discriminate]. }
  apply alloc_ok in Hrun7. destruct Hrun7 as [-> ->].
  apply ret_ok in H. destruct H as [_ ->]. eauto.
Qed.

Lemma merge_loop_extends qs indices : forall st h st' h',
  merge_loop qs indices st h = Ok (st', h') -> exists news, h' = h ++ news.
Proof.
  induction indices as [|idx r IH]; simpl; intros st h st' h' H.
  - apply ret_ok in H. destruct H as [_ ->]. exists []. rewrite app_nil_r. reflexivity.
  - open_run H. apply merge_step_extends in Hrun. destruct Hrun as (entry & ->).
    apply IH in H. destruct H as (news & ->).
    exists (entry :: news). rewrite <- app_assoc. reflexivity.
Qed.

Lemma merge_sources_extends qs indices h v h' :
  merge_sources qs indices h = Ok (v, h') ->
  exists news ms,
    h' = h ++ news /\ v = VRef ms /\ (length h <= ms < length h')%nat.
Proof.
  unfold merge_sources. intros H. open_run H.
  destruct a as [[sources years] files].
  apply merge_loop_extends in Hrun. destruct Hrun as (news & ->).
  open_run H. apply alloc_ok in H. destruct H as [-> ->].
  eexists (news ++ [_]), _. rewrite <- app_assoc. split; [reflexivity|].
  split; [reflexivity|]. rewrite !length_app. simpl. lia.
Qed.

(* ===================================================================== *)
(** ** The canonical choice *)
(* ===================================================================== *)

(** Decides goals about [priority_lt] by cases on the components. *)
Ltac priority_cases :=
  unfold priority_lt in *; simpl in *;
  repeat match goal with
         | H : context [Z.eqb ?a ?b] |- _ => destruct (Z.eqb_spec a b)
         | |- context [Z.eqb ?a ?b] => destruct (Z.eqb_spec a b)
         | H : context [Z.ltb ?a ?b] |- _ => destruct (Z.ltb_spec a b)
         | |- context [Z.ltb ?a ?b] => destruct (Z.ltb_spec a b)
         end;
  simpl in *; try congruence; try lia.

Lemma priority_lt_irrefl a : priority_lt a a = false.
Proof. destruct a as [[[] y] m]; priority_cases. Qed.

Lemma priority_lt_trans a b c :
  priority_lt a b = true -> priority_lt b c = true -> priority_lt a c = true.
Proof.
  destruct a as [[[] y1] m1], b as [[[] y2] m2], c as [[[] y3] m3];
    intros H1 H2; priority_cases.
Qed.

Lemma priority_lt_le_trans a b c :
  priority_lt a b = true -> priority_lt c b = false -> priority_lt a c = true.
Proof.
  destruct a as [[[] y1] m1], b as [[[] y2] m2], c as [[[] y3] m3];
    intros H1 H2; priority_cases.
Qed.

(** The order is total: two keys that are not below one another are the
    same key. *)
Lemma priority_lt_total a b :
  priority_lt a b = false -> priority_lt b a = false -> a = b.
Proof.
  destruct a as [[[] y1] m1], b as [[[] y2] m2];
    intros H1 H2; priority_cases; repeat f_equal; lia.
Qed.

Section Minimum.
Variable h : heap.

Definition key_above (k : priority) (x : nat * value) : Prop :=
  exists kx, priority_key h x = Ok kx /\ priority_lt k kx = true.
Definition key_not_below (k : priority) (x : nat * value) : Prop :=
  exists kx, priority_key h x = Ok kx /\ priority_lt kx k = false.

(** [min_from] returns the first candidate of least key: [pre] and [mid]
    are the candidates seen before and after the current best. *)
Lemma min_from_spec rest : forall pre best bk mid r,
  priority_key h best = Ok bk ->
  Forall (key_above bk) pre -> Forall (key_not_below bk) mid ->
  min_from h best bk rest = Ok r ->
  exists pre' post' kr,
    pre ++ best :: mid ++ rest = pre' ++ r :: post' /\
    priority_key h r = Ok kr /\
    Forall (key_above kr) pre' /\ Forall (key_not_below kr) post'.
Proof.
  induction rest as [|item rest IH]; simpl; intros pre best bk mid r Hb Hpre Hmid H.
  - injection H as <-. rewrite app_nil_r. eauto 10.
  - open_run H. rename a into k.
    destruct (priority_lt k bk) eqn:Hlt.
    + destruct (IH (pre ++ best :: mid) item k [] r Hget) as (pre' & post' & kr & E & Hr & H1 & H2);
        auto.
      * apply Forall_app. split; [|constructor].
        -- eapply Forall_impl; [|apply Hpre]. intros x (kx & Hx & Hk).
           exists kx. split; [assumption|]. eapply priority_lt_trans; eauto.
        -- exists bk. auto.
        -- eapply Forall_impl; [|apply Hmid]. intros x (kx & Hx & Hk).
           exists kx. split; [assumption|]. eapply priority_lt_le_trans; eauto.
      * exists pre', post', kr. split; [|auto].
        rewrite <- E. simpl. rewrite <- !app_assoc. reflexivity.
    + destruct (IH pre best bk (mid ++ [item]) r Hb) as (pre' & post' & kr & E & Hr & H1 & H2);
        auto.
      * apply Forall_app. split; [assumption|]. constructor; [|constructor].
        exists k. auto.
      * exists pre', post', kr. split; [|auto].
        rewrite <- E. rewrite <- !app_assoc. reflexivity.
Qed.

Lemma min_from_total rest : forall best bk,
  Forall (fun x => exists kx, priority_key h x = Ok kx) rest ->
  exists r, min_from h best bk rest = Ok r.
Proof.
  induction rest as [|item rest IH]; simpl; intros best bk Hall.
  - eauto.
  - inversion Hall as [|? ? (k & Hk) Hrest]; subst. rewrite Hk. simpl.
    destruct (priority_lt k bk); auto.
Qed.

Lemma candidates_of_ok qs : forall ix cs,
  candidates_of qs ix = Ok cs ->
  map fst cs = ix /\ Forall (fun c => qs !! fst c = Some (snd c)) cs.
Proof.
  induction ix as [|i ix IH]; simpl; intros cs H.
  - injection H as <-. split; constructor.
  - open_run H. injection H as <-. destruct (IH _ Hget0) as [E F].
    unfold py_index in Hget. destruct (qs !! i) eqn:Hi; [|discriminate].
    injection Hget as ->. simpl. split; [f_equal; assumption|].
    constructor; assumption.
Qed.

Lemma candidates_of_total qs : forall ix,
  Forall (fun i => is_Some (qs !! i)) ix ->
  exists cs, candidates_of qs ix = Ok cs.
Proof.
  induction ix as [|i ix IH]; simpl; intros Hall; [eauto|].
  inversion Hall as [|? ? [q Hq] Hrest]; subst.
  destruct (IH Hrest) as (cs & ->). unfold py_index. rewrite Hq. simpl. eauto.
Qed.

(** The canonical index, as [select_canonical_version] returns it: it is
    a member of the group, every member listed before it has a key
    strictly above its key, and no member listed after it has a key
    below. *)
Lemma select_canonical_spec qs ix c q :
  select_canonical_version h qs ix = Ok (c, q) ->
  qs !! c = Some q /\
  exists kc pre post,
    priority_key h (c, q) = Ok kc /\ ix = pre ++ c :: post /\
    (forall i, In i pre ->
       exists qi ki, qs !! i = Some qi /\ priority_key h (i, qi) = Ok ki /\
                     priority_lt kc ki = true) /\
    (forall i, In i post ->
       exists qi ki, qs !! i = Some qi /\ priority_key h (i, qi) = Ok ki /\
                     priority_lt ki kc = false).
Proof.
  unfold select_canonical_version. intros H. open_run H.
  destruct (candidates_of_ok _ _ _ Hget) as [Eix Hall].
  destruct a as [|c0 cs]; simpl in H; [discriminate|].
  open_run H.
  destruct (min_from_spec cs [] c0 a [] (c, q) Hget0) as (pre' & post' & kr & E & Hr & H1 & H2);
    auto.
  simpl in E. rewrite E in *.
  rewrite Forall_forall in Hall, H1, H2.
  split.
  - apply (Hall (c, q)). apply in_elt.
  - exists kr, (map fst pre'), (map fst post'). split; [assumption|]. split.
    + rewrite <- Eix, map_app. reflexivity.
    + split; intros i Hi; apply in_map_iff in Hi; destruct Hi as ([i' qi] & <- & Hi).
      * destruct (H1 _ Hi) as (ki & Hk & Hlt). exists qi, ki. simpl.
        split; [|auto]. apply (Hall (i', qi)). apply in_app_iff. auto.
      * destruct (H2 _ Hi) as (ki & Hk & Hlt). exists qi, ki. simpl.
        split; [|auto]. apply (Hall (i', qi)). apply in_app_iff. simpl. auto.
Qed.

Lemma select_canonical_member qs ix c q :
  select_canonical_version h qs ix = Ok (c, q) -> In c ix /\ qs !! c = Some q.
Proof.
  intros H. destruct (select_canonical_spec _ _ _ _ H)
    as (Hq & kc & pre & post & _ & -> & _).
  split; [apply in_elt | assumption].
Qed.

Lemma select_canonical_total qs ix :
  ix <> [] ->
  (forall i, In i ix ->
     exists q k, qs !! i = Some q /\ priority_key h (i, q) = Ok k) ->
  exists c q, select_canonical_version h qs ix = Ok (c, q).
Proof.
  intros Hne Hall. unfold select_canonical_version.
  destruct (candidates_of_total qs ix) as (cs & Hcs).
  { apply Forall_forall. intros i Hi. destruct (Hall i Hi) as (q & k & Hq & _). eauto. }
  rewrite Hcs. simpl. destruct (candidates_of_ok _ _ _ Hcs) as [Eix Hlook].
  assert (Hkeys : Forall (fun x => exists kx, priority_key h x = Ok kx) cs).
  { apply Forall_forall. intros [i q] Hx.
    rewrite Forall_forall in Hlook. pose proof (Hlook _ Hx) as Hq. simpl in Hq.
    destruct (Hall i) as (q' & k & Hq' & Hk).
    - rewrite <- Eix. apply (in_map fst) in Hx. assumption.
    - assert (q' = q) by congruence. subst. eauto. }
  destruct cs as [|c0 cs]; [simpl in Eix; congruence|].
  inversion Hkeys as [|? ? (k0 & Hk0) Hrest]; subst. simpl. rewrite Hk0. simpl.
  destruct (min_from_total cs c0 k0 Hrest) as ([c q] & Hr). eauto.
Qed.
End Minimum.

(* ===================================================================== *)
(** ** The records a run emits *)
(* ===================================================================== *)

(** The keys a run may set in the copy of a record. *)
Definition record_keys : list string :=
  "metadata" :: "source_metadata" :: metadata_keys.

(** Every record of the corpus is a dict of the heap. *)
Definition all_dicts (h : heap) (qs : list value) : Prop :=
  Forall (fun q => exists l d, q = VRef l /\ h !! l = Some d) qs.

(** [copy_of h0 qs h' i v d']: [v] is a new object, [d'] in [h'], with the
    items record [i] had in [h0] at every key outside [record_keys]. *)
Definition copy_of (h0 : heap) (qs : list value) (h' : heap) (i : nat)
    (v : value) (d' : dict) : Prop :=
  exists l d e,
    qs !! i = Some (VRef l) /\ h0 !! l = Some d /\ v = VRef e /\
    (length h0 <= e)%nat /\ h' !! e = Some d' /\ same_off record_keys d d'.

(** The record emitted for a group: a copy of its canonical record that
    carries the merged provenance and a [metadata] dict. *)
Definition canonical_record (h0 : heap) (qs : list value) (h' : heap)
    (g : group_audit) (v : value) : Prop :=
  exists d' m md,
    copy_of h0 qs h' (canonical_index g) v d' /\
    dict_get "source_metadata" d' = Some (merged_sources g) /\
    dict_get "metadata" d' = Some (VRef m) /\ h' !! m = Some md.

(** The record emitted for an index of no group: a copy whose [metadata]
    dict says [is_deduplicated = False]. *)
Definition single_record (h0 : heap) (qs : list value) (h' : heap)
    (i : nat) (v : value) : Prop :=
  exists d' m md,
    copy_of h0 qs h' i v d' /\
    dict_get "metadata" d' = Some (VRef m) /\ h' !! m = Some md /\
    dict_get "is_deduplicated" md = Some (VBool false).

Ltac not_a_key :=
  let H := fresh in
  intros H; simpl in H; repeat destruct H as [H|H]; try discriminate; auto.

Lemma metadata_keys_record_keys k : In k metadata_keys -> In k record_keys.
Proof. intros H. right. right. assumption. Qed.

Lemma copy_of_frame h0 qs h1 h2 i v d1 :
  copy_of h0 qs h1 i v d1 -> frame h1 h2 ->
  exists d2, copy_of h0 qs h2 i v d2 /\ same_off metadata_keys d1 d2.
Proof.
  intros (l & d & e & Hq & Hl & -> & He & Hd1 & Hs) [_ F].
  destruct (F _ _ Hd1) as (d2 & Hd2 & Hs2). exists d2. split; [|assumption].
  exists l, d, e. repeat split; auto.
  eapply same_off_trans; [apply Hs|].
  eapply same_off_mono; [|apply Hs2]. apply metadata_keys_record_keys.
Qed.

Lemma canonical_record_frame h0 qs h1 h2 g v :
  canonical_record h0 qs h1 g v -> frame h1 h2 -> canonical_record h0 qs h2 g v.
Proof.
  intros (d1 & m & md & Hc & Hsm & Hm & Hmd) F.
  destruct (copy_of_frame _ _ _ _ _ _ _ Hc F) as (d2 & Hc2 & Hs).
  destruct F as [_ F]. destruct (F _ _ Hmd) as (md2 & Hmd2 & _).
  exists d2, m, md2. split; [assumption|].
  rewrite !Hs by not_a_key. auto.
Qed.

Lemma all_dicts_lookup h qs i q :
  all_dicts h qs -> qs !! i = Some q -> exists l d, q = VRef l /\ h !! l = Some d.
Proof.
  intros Hall Hq. unfold all_dicts in Hall. rewrite Forall_forall in Hall.
  apply Hall. apply list_elem_of_In. eapply list_elem_of_lookup_2. eassumption.
Qed.

Lemma texts_in_all_dicts h qs ts : texts_in h qs ts -> all_dicts h qs.
Proof.
  induction 1 as [|q t qs ts Hq _ IH]; constructor; [|assumption].
  unfold question_text in Hq. apply rbind_ok in Hq. destruct Hq as (v & Hv & _).
  apply py_get_ok in Hv. destruct Hv as (l & d & -> & Hl & _). eauto.
Qed.

(** A heap that keeps every object of [h] as it is. *)
Lemma frame_of_prefix h h' :
  (forall l d, h !! l = Some d -> h' !! l = Some d) -> frame h h'.
Proof.
  intros Hp. split.
  - destruct (Nat.le_gt_cases (length h) (length h')) as [|Hlt]; [assumption|].
    destruct (lookup_lt_is_Some_2 h (length h')) as [d Hd]; [lia|].
    apply Hp in Hd. apply lookup_lt_Some in Hd. lia.
  - intros l d Hl. exists d. split; [auto | apply same_off_refl].
Qed.

Lemma process_group_spec h0 qs indices ded keep G h st' h' :
  all_dicts h0 qs -> frame h0 h ->
  process_group qs indices (ded, keep, G) h = Ok (st', h') ->
  exists c q v g,
    select_canonical_version h qs indices = Ok (c, q) /\
    st' = (ded ++ [v], discard_others c indices keep, G ++ [g]) /\
    canonical_index g = c /\ duplicate_indices g = indices /\
    frame h h' /\ canonical_record h0 qs h' g v.
Proof.
  intros Hall F0 H. unfold process_group in H.
  apply bind_ok in H. destruct H as ([c q] & hx & Hsel & H).
  apply reading_ok in Hsel. destruct Hsel as [Hsel ->].
  apply bind_ok in H. destruct H as (merged & h1 & Hmerge & H).
  apply bind_ok in H. destruct H as (enhanced & h2 & Hcopy & H).
  apply bind_ok in H. destruct H as ([] & h3 & Hset & H).
  apply bind_ok in H. destruct H as ([] & h4 & Hens & H).
  apply bind_ok in H. destruct H as ([] & h5 & Hw1 & H).
  apply bind_ok in H. destruct H as ([] & h6 & Hw2 & H).
  apply bind_ok in H. destruct H as ([] & h7 & Hw3 & H).
  apply bind_ok in H. destruct H as ([] & h8 & Hw4 & H).
  apply bind_ok in H. destruct H as (unit & hx & Hunit & H).
  apply reading_ok in Hunit. destruct Hunit as [Hunit ->].
  apply bind_ok in H. destruct H as (year & hx & Hyear & H).
  apply reading_ok in Hyear. destruct Hyear as [Hyear ->].
  apply ret_ok in H. destruct H as [-> ->].
  destruct (select_canonical_member _ _ _ _ _ Hsel) as [Hc Hq].
  destruct (all_dicts_lookup _ _ _ _ Hall Hq) as (l & d0 & -> & Hl0).
  destruct F0 as [L0 F0']. destruct (F0' _ _ Hl0) as (d & Hl & Hs0).
  apply merge_sources_extends in Hmerge.
  destruct Hmerge as (news & ms & -> & -> & Hms).
  apply py_copy_ref_ok in Hcopy. destruct Hcopy as (d1 & Hl1 & -> & ->).
  assert (d1 = d) as ->.
  { rewrite (lookup_app_l_Some _ _ _ _ Hl) in Hl1. congruence. }
  set (e := length (h ++ news)) in *.
  apply py_setitem_ok in Hset. destruct Hset as (e' & de & [= <-] & Hde & ->).
  assert (de = d) as ->.
  { unfold e in Hde. rewrite lookup_app_r in Hde by lia.
    rewrite Nat.sub_diag in Hde. simpl in Hde. congruence. }
  apply ensure_metadata_ok in Hens.
  destruct Hens as (d3 & d4 & Hd3 & Hd4 & Hhas & Hs34 & _ & news2 & Eh4).
  assert (d3 = dict_set "source_metadata" (VRef ms) d) as ->.
  { rewrite list_lookup_insert_eq in Hd3; [congruence|].
    rewrite length_app. simpl. unfold e. lia. }
  assert (Le : (length h <= e)%nat) by (unfold e; rewrite length_app; lia).
  assert (F4 : frame h h4).
  { apply frame_of_prefix. intros l' d' Hl'. rewrite Eh4.
    pose proof (lookup_lt_Some _ _ _ Hl') as Hlt.
    rewrite list_lookup_insert_ne by lia.
    apply lookup_app_l_Some. rewrite list_lookup_insert_ne by lia.
    apply lookup_app_l_Some. apply lookup_app_l_Some. assumption. }
  destruct (copy_to_metadata_ok _ _ _ _ _ _ Hw1) as (v1 & _ & Hw1').
  destruct (copy_to_metadata_ok _ _ _ _ _ _ Hw2) as (v2 & _ & Hw2').
  destruct (copy_to_metadata_ok _ _ _ _ _ _ Hw4) as (v4 & _ & Hw4').
  assert (F5 : frame h4 h5) by (eapply set_metadata_frame; [|apply Hw1']; simpl; auto).
  assert (F6 : frame h5 h6) by (eapply set_metadata_frame; [|apply Hw2']; simpl; auto).
  assert (F7 : frame h6 h7) by (eapply set_metadata_frame; [|apply Hw3]; simpl; auto).
  assert (F8 : frame h7 h8) by (eapply set_metadata_frame; [|apply Hw4']; simpl; auto 6).
  assert (F48 : frame h4 h8) by (eauto using frame_trans).
  destruct (set_metadata_result _ _ _ _ _ _ Hw4') as (e' & d7 & m & md & [= <-] & Hd7 & Hm7 & Hmd & _).
  destruct F48 as [_ F48']. destruct (F48' _ _ Hd4) as (d8 & Hd8 & Hs48).
  destruct F8 as [L8 F8']. destruct (F8' _ _ Hd7) as (d8' & Hd8' & Hs78).
  assert (d8' = d8) as -> by congruence.
  eexists c, (VRef l), (VRef e), _. split; [eassumption|]. split; [reflexivity|].
  simpl. split; [reflexivity|]. split; [reflexivity|]. split.
  { eapply frame_trans; [apply F4|]. split; [|assumption].
    destruct F5, F6, F7. lia. }
  exists d8, m, md. split; [|split; [|split]].
  - exists l, d0, e. repeat split; auto; try lia.
    intros k Hk. rewrite Hs48 by (intros Hin; apply Hk; apply metadata_keys_record_keys; assumption).
    rewrite Hs34 by (intros [<-|[]]; apply Hk; left; reflexivity).
    rewrite dict_get_set_ne by (intros ->; apply Hk; right; left; reflexivity).
    apply Hs0. intros Hin. apply Hk. apply metadata_keys_record_keys. assumption.
  - simpl. rewrite Hs48 by not_a_key. rewrite Hs34 by not_a_key.
    apply dict_get_set_eq.
  - rewrite Hs78 by not_a_key. assumption.
  - assumption.
Qed.

(** What the loop over the groups leaves in [indices_to_keep]. *)
Definition discard_groups (gs : list group_audit) (keep : list nat) : list nat :=
  fold_left
    (fun k g => discard_others (canonical_index g) (duplicate_indices g) k)
    gs keep.

Lemma process_groups_spec h0 qs : forall D ded keep G h st' h',
  all_dicts h0 qs -> frame h0 h ->
  process_groups qs D (ded, keep, G) h = Ok (st', h') ->
  exists vs gs,
    st' = (ded ++ vs, discard_groups gs keep, G ++ gs) /\
    map duplicate_indices gs = map snd D /\
    Forall (fun g => In (canonical_index g) (duplicate_indices g)) gs /\
    frame h h' /\ Forall2 (canonical_record h0 qs h') gs vs.
Proof.
  induction D as [|[t indices] D IH]; simpl; intros ded keep G h st' h' Hall F0 H.
  - apply ret_ok in H. destruct H as [-> ->]. exists [], [].
    rewrite !app_nil_r. repeat split; try constructor. apply frame_refl.
  - apply bind_ok in H. destruct H as (st1 & h1 & Hstep & H).
    destruct (process_group_spec _ _ _ _ _ _ _ _ _ Hall F0 Hstep)
      as (c & q & v & g & Hsel & -> & Hc & Hix & F1 & Hrec).
    destruct (IH _ _ _ _ _ _ Hall (frame_trans _ _ _ F0 F1) H)
      as (vs & gs & -> & Hmap & Hmem & F2 & Hrecs).
    exists (v :: vs), (g :: gs). rewrite <- !app_assoc. simpl.
    split; [subst c; rewrite Hix; reflexivity|].
    split; [congruence|]. split.
    { constructor; [|assumption]. rewrite Hc, Hix.
      apply (select_canonical_member _ _ _ _ _ Hsel). }
    split; [eapply frame_trans; eauto|].
    constructor; [|assumption]. eapply canonical_record_frame; eauto.
Qed.

(** In the loop over the kept indices an object changes at the key
    [is_deduplicated] only, and a [False] there stays. *)
Definition flag_rel (d d' : dict) : Prop :=
  same_off ["is_deduplicated"] d d' /\
  (dict_get "is_deduplicated" d = Some (VBool false) ->
   dict_get "is_deduplicated" d' = Some (VBool false)).

Definition flag_frame : heap -> heap -> Prop := evolves flag_rel.

Lemma flag_rel_refl d : flag_rel d d.
Proof. split; [apply same_off_refl | auto]. Qed.

Lemma flag_rel_trans a b c : flag_rel a b -> flag_rel b c -> flag_rel a c.
Proof.
  intros [S1 K1] [S2 K2]. split; [eapply same_off_trans; eauto | auto].
Qed.

Lemma flag_rel_set d : flag_rel d (dict_set "is_deduplicated" (VBool false) d).
Proof.
  split.
  - apply same_off_set. left. reflexivity.
  - intros _. apply dict_get_set_eq.
Qed.

Lemma evolves_mono (R R' : dict -> dict -> Prop) h h' :
  (forall d d', R d d' -> R' d d') -> evolves R h h' -> evolves R' h h'.
Proof.
  intros Hsub [L E]. split; [assumption|].
  intros l d Hl. destruct (E _ _ Hl) as (d' & Hl' & HR). eauto.
Qed.

Lemma flag_frame_frame h h' : flag_frame h h' -> frame h h'.
Proof.
  apply evolves_mono. intros d d' [Hs _].
  eapply same_off_mono; [|apply Hs]. intros k [<-|[]]. simpl. auto.
Qed.

Lemma flag_frame_refl h : flag_frame h h.
Proof. apply evolves_refl. apply flag_rel_refl. Qed.

Lemma flag_frame_trans h1 h2 h3 :
  flag_frame h1 h2 -> flag_frame h2 h3 -> flag_frame h1 h3.
Proof. apply evolves_trans. apply flag_rel_trans. Qed.

Lemma flag_frame_of_prefix h h' :
  (forall l d, h !! l = Some d -> h' !! l = Some d) -> flag_frame h h'.
Proof.
  intros Hp. split.
  - apply (frame_of_prefix _ _ Hp).
  - intros l d Hl. exists d. split; [auto | apply flag_rel_refl].
Qed.

Lemma single_record_flag_frame h0 qs h1 h2 i v :
  single_record h0 qs h1 i v -> flag_frame h1 h2 -> single_record h0 qs h2 i v.
Proof.
  intros (d1 & m & md & Hc & Hm & Hmd & Hflag) F.
  destruct (copy_of_frame _ _ _ _ _ _ _ Hc (flag_frame_frame _ _ F)) as (d2 & Hc2 & Hs).
  destruct F as [_ F]. destruct (F _ _ Hmd) as (md2 & Hmd2 & _ & Hkeep).
  exists d2, m, md2. split; [assumption|].
  rewrite Hs by not_a_key. auto.
Qed.

Definition is_canonical (G : list group_audit) (i : nat) : bool :=
  existsb (Nat.eqb i) (map canonical_index G).

Lemma keep_single_spec h0 qs G i ded h ded' h' :
  all_dicts h0 qs -> frame h0 h ->
  keep_single qs G i ded h = Ok (ded', h') ->
  flag_frame h h' /\
  if is_canonical G i then ded' = ded
  else exists v, ded' = ded ++ [v] /\ single_record h0 qs h' i v.
Proof.
  intros Hall F0 H. unfold keep_single in H. fold (is_canonical G i) in H.
  destruct (is_canonical G i).
  { apply ret_ok in H. destruct H as [-> ->]. split; [apply flag_frame_refl | reflexivity]. }
  apply bind_ok in H. destruct H as (q0 & hx & Hq & H).
  apply reading_ok in Hq. destruct Hq as [Hq ->].
  unfold py_index in Hq. destruct (qs !! i) as [q|] eqn:Hi; [|discriminate].
  injection Hq as ->.
  destruct (all_dicts_lookup _ _ _ _ Hall Hi) as (l & d0 & -> & Hl0).
  destruct F0 as [L0 F0']. destruct (F0' _ _ Hl0) as (d & Hl & Hs0).
  apply bind_ok in H. destruct H as (q & h1 & Hcopy & H).
  apply py_copy_ref_ok in Hcopy. destruct Hcopy as (d1 & Hl1 & -> & ->).
  assert (d1 = d) as -> by congruence.
  apply bind_ok in H. destruct H as ([] & h2 & Hens & H).
  apply bind_ok in H. destruct H as ([] & h3 & Hset & H).
  apply ret_ok in H. destruct H as [-> ->].
  apply ensure_metadata_ok in Hens.
  destruct Hens as (d1 & d2 & Hd1 & Hd2 & Hhas & Hs12 & _ & news & Eh2).
  assert (d1 = d) as ->.
  { rewrite lookup_app_r in Hd1 by lia. rewrite Nat.sub_diag in Hd1.
    simpl in Hd1. congruence. }
  assert (F2 : flag_frame h h2).
  { apply flag_frame_of_prefix. intros l' d' Hl'. rewrite Eh2.
    pose proof (lookup_lt_Some _ _ _ Hl') as Hlt.
    rewrite list_lookup_insert_ne by lia.
    apply lookup_app_l_Some. apply lookup_app_l_Some. assumption. }
  assert (F3 : flag_frame h2 h3).
  { eapply set_metadata_evolves; [| | |apply Hset].
    - apply flag_rel_refl.
    - apply flag_rel_trans.
    - apply flag_rel_set. }
  split; [eapply flag_frame_trans; eauto|].
  destruct (set_metadata_result _ _ _ _ _ _ Hset)
    as (e' & d2' & m & md & [= <-] & Hd2' & Hm & Hmd & Hflag).
  assert (d2' = d2) as -> by congruence.
  destruct F3 as [_ F3']. destruct (F3' _ _ Hd2) as (d3 & Hd3 & Hs23 & _).
  exists (VRef (length h)). split; [reflexivity|].
  exists d3, m, md. split; [|split; [|split]]; auto.
  - exists l, d0, (length h). repeat split; auto.
    intros k Hk.
    rewrite Hs23 by (intros [<-|[]]; apply Hk; simpl; auto 6).
    rewrite Hs12 by (intros [<-|[]]; apply Hk; left; reflexivity).
    apply Hs0. intros Hin. apply Hk. apply metadata_keys_record_keys. assumption.
  - rewrite Hs23 by not_a_key. assumption.
Qed.

Lemma keep_singles_spec h0 qs G : forall kept ded h ded' h',
  all_dicts h0 qs -> frame h0 h ->
  keep_singles qs G kept ded h = Ok (ded', h') ->
  exists vs,
    ded' = ded ++ vs /\ flag_frame h h' /\
    Forall2 (single_record h0 qs h')
      (List.filter (fun i => negb (is_canonical G i)) kept) vs.
Proof.
  induction kept as [|i kept IH]; simpl; intros ded h ded' h' Hall F0 H.
  - apply ret_ok in H. destruct H as [-> ->]. exists [].
    rewrite app_nil_r. split; [reflexivity|]. split; [apply flag_frame_refl | constructor].
  - apply bind_ok in H. destruct H as (ded1 & h1 & Hstep & H).
    destruct (keep_single_spec _ _ _ _ _ _ _ _ Hall F0 Hstep) as [F1 Hres].
    assert (F01 : frame h0 h1).
    { eapply frame_trans; [apply F0|]. apply flag_frame_frame. assumption. }
    destruct (IH _ _ _ _ Hall F01 H) as (vs & -> & F2 & Hrecs).
    destruct (is_canonical G i); simpl.
    + subst ded1. exists vs. split; [reflexivity|].
      split; [eapply flag_frame_trans; eauto | assumption].
    + destruct Hres as (v & -> & Hrec). exists (v :: vs).
      rewrite <- app_assoc. split; [reflexivity|].
      split; [eapply flag_frame_trans; eauto|].
      constructor; [|assumption]. eapply single_record_flag_frame; eauto.
Qed.

(* ===================================================================== *)
(** ** A run of [deduplicate_questions] *)
(* ===================================================================== *)

(** The indices some group lists, and the indices of no group. *)
Definition grouped_indices (G : list group_audit) : list nat :=
  concat (map duplicate_indices G).

Definition in_group (G : list group_audit) (i : nat) : bool :=
  existsb (Nat.eqb i) (grouped_indices G).

Definition singles (G : list group_audit) (n : nat) : list nat :=
  List.filter (fun i => negb (in_group G i)) (seq 0 n).

(** The original index behind each record of the output, in order. *)
Definition emitted (G : list group_audit) (n : nat) : list nat :=
  map canonical_index G ++ singles G n.

Lemma existsb_eqb_In (i : nat) (l : list nat) :
  existsb (Nat.eqb i) l = true <-> In i l.
Proof.
  rewrite existsb_exists. split.
  - intros (x & Hx & E). apply Nat.eqb_eq in E. congruence.
  - intros H. exists i. split; [assumption | apply Nat.eqb_refl].
Qed.

Lemma in_group_spec G i :
  in_group G i = true <->
  exists g, In g G /\ In i (duplicate_indices g).
Proof.
  unfold in_group, grouped_indices. rewrite existsb_eqb_In, in_concat. split.
  - intros (ix & Hix & Hi). apply in_map_iff in Hix.
    destruct Hix as (g & <- & Hg). eauto.
  - intros (g & Hg & Hi). exists (duplicate_indices g). split; [|assumption].
    apply in_map. assumption.
Qed.

Lemma is_canonical_spec G i :
  is_canonical G i = true <-> exists g, In g G /\ canonical_index g = i.
Proof.
  unfold is_canonical. rewrite existsb_eqb_In, in_map_iff.
  split; intros (g & ? & ?); eauto.
Qed.

Lemma discard_groups_In gs : forall keep j,
  In j (discard_groups gs keep) <->
  In j keep /\
  forall g, In g gs -> j = canonical_index g \/ ~ In j (duplicate_indices g).
Proof.
  unfold discard_groups.
  induction gs as [|g gs IH]; simpl; intros keep j.
  - intuition.
  - rewrite IH, discard_others_In. split.
    + intros [[Hk Hg] Hrest]. split; [assumption|].
      intros g' [<-|Hin]; auto.
    + intros [Hk Hall]. auto.
Qed.

Lemma discard_groups_sorted gs : forall keep,
  StronglySorted lt keep -> StronglySorted lt (discard_groups gs keep).
Proof.
  unfold discard_groups.
  induction gs as [|g gs IH]; simpl; intros keep Hs; [assumption|].
  apply IH. apply discard_others_sorted. assumption.
Qed.

(** The second loop visits exactly the indices of no group, in ascending
    order. *)
Lemma kept_singles G n :
  Forall (fun g => In (canonical_index g) (duplicate_indices g)) G ->
  List.filter (fun i => negb (is_canonical G i))
    (sorted_nats (discard_groups G (seq 0 n)))
  = singles G n.
Proof.
  intros Hcanon. rewrite Forall_forall in Hcanon.
  pose proof (discard_groups_sorted G _ (StronglySorted_seq 0 n)) as Hs.
  rewrite (sorted_nats_sorted _ Hs).
  apply strictly_sorted_ext.
  - apply StronglySorted_filter. assumption.
  - apply StronglySorted_filter. apply StronglySorted_seq.
  - intros j. unfold singles. rewrite !filter_In, discard_groups_In.
    rewrite !negb_true_iff. split.
    + intros [[Hj Hall] Hnc]. split; [assumption|].
      apply not_true_is_false. intros Hg. apply in_group_spec in Hg.
      destruct Hg as (g & Hg & Hi).
      destruct (Hall g Hg) as [->|Hno]; [|contradiction].
      apply not_true_iff_false in Hnc. apply Hnc.
      apply is_canonical_spec. eauto.
    + intros [Hj Hng]. apply not_true_iff_false in Hng.
      split; [split; [assumption|]|].
      * intros g Hg. right. intros Hi. apply Hng. apply in_group_spec. eauto.
      * apply not_true_is_false. intros Hc. apply is_canonical_spec in Hc.
        destruct Hc as (g & Hg & <-). apply Hng. apply in_group_spec.
        exists g. split; [assumption|]. apply Hcanon. assumption.
Qed.

(** Everything a run that returns has done. *)
Record run_of (h : heap) (qs : list value) (out : list value) (rep : report)
    (h' : heap) (ts : list string) (canon single_out : list value) : Prop := {
  run_texts : texts_in h qs ts;
  run_groups : map duplicate_indices (duplicate_groups rep) = map snd (duplicates_of ts);
  run_canonical :
    Forall (fun g => In (canonical_index g) (duplicate_indices g))
           (duplicate_groups rep);
  run_output : out = canon ++ single_out;
  run_canonical_records :
    Forall2 (canonical_record h qs h') (duplicate_groups rep) canon;
  run_single_records :
    Forall2 (single_record h qs h')
            (singles (duplicate_groups rep) (length qs)) single_out;
  run_frame : frame h h';
  run_total_original : total_original rep = Z.of_nat (length qs);
  run_total_found :
    total_duplicates_found rep = Z.of_nat (length (duplicates_of ts));
  run_total_instances :
    total_duplicate_instances rep
    = sum_Z (map (fun g => Z.of_nat (length (snd g)) - 1) (duplicates_of ts));
  run_total_after : total_after_deduplication rep = Z.of_nat (length out);
  run_removed :
    questions_removed rep = Z.of_nat (length qs) - Z.of_nat (length out)
}.

Arguments run_texts {h qs out rep h' ts canon single_out} _.
Arguments run_groups {h qs out rep h' ts canon single_out} _.
Arguments run_canonical {h qs out rep h' ts canon single_out} _.
Arguments run_output {h qs out rep h' ts canon single_out} _.
Arguments run_canonical_records {h qs out rep h' ts canon single_out} _.
Arguments run_single_records {h qs out rep h' ts canon single_out} _.
Arguments run_frame {h qs out rep h' ts canon single_out} _.
Arguments run_total_original {h qs out rep h' ts canon single_out} _.
Arguments run_total_found {h qs out rep h' ts canon single_out} _.
Arguments run_total_instances {h qs out rep h' ts canon single_out} _.
Arguments run_total_after {h qs out rep h' ts canon single_out} _.
Arguments run_removed {h qs out rep h' ts canon single_out} _.

Lemma deduplicate_questions_run qs h out rep h' :
  deduplicate_questions qs h = Ok ((out, rep), h') ->
  exists ts canon single_out, run_of h qs out rep h' ts canon single_out.
Proof.
  unfold deduplicate_questions. intros H.
  apply bind_ok in H. destruct H as (D & hx & Hfind & H).
  apply reading_ok in Hfind. destruct Hfind as [Hfind ->].
  destruct (find_duplicates_texts _ _ _ Hfind) as (ts & Hts & ->).
  pose proof (texts_in_all_dicts _ _ _ Hts) as Hall.
  apply bind_ok in H. destruct H as ([[ded keep] G] & h1 & Hgroups & H).
  destruct (process_groups_spec _ _ _ _ _ _ _ _ _ Hall (frame_refl h) Hgroups)
    as (vs & gs & [= -> -> ->] & Hmap & Hcanon & F1 & Hrecs).
  simpl in *.
  apply bind_ok in H. destruct H as (ded' & h2 & Hsingles & H).
  apply ret_ok in H. destruct H as [[= -> ->] ->].
  destruct (keep_singles_spec _ _ _ _ _ _ _ _ Hall F1 Hsingles)
    as (ws & -> & F2 & Hsing).
  rewrite (kept_singles _ _ Hcanon) in Hsing.
  exists ts, vs, ws. split; simpl; auto.
  - revert Hrecs. apply Forall2_impl.
    intros g v Hr. eapply canonical_record_frame; eauto.
    apply flag_frame_frame. assumption.
  - eapply frame_trans; [apply F1|]. apply flag_frame_frame. assumption.
Qed.

(** *** The groups of the report *)

Lemma lookup_map {A B} (f : A -> B) (l : list A) (i : nat) :
  map f l !! i = option_map f (l !! i).
Proof.
  revert i. induction l as [|a l IH]; intros [|i]; simpl; auto.
Qed.

Lemma In_lookup {A} (l : list A) (x : A) : In x l <-> exists i, l !! i = Some x.
Proof. rewrite <- list_elem_of_In. apply list_elem_of_lookup. Qed.

Lemma NoDup_lookup_eq {A} (l : list A) (i j : nat) (x : A) :
  NoDup l -> l !! i = Some x -> l !! j = Some x -> i = j.
Proof. intros H. apply NoDup_ListNoDup in H. eapply NoDup_lookup; eauto. Qed.

Definition first_of (g : group_audit) : nat := hd 0%nat (duplicate_indices g).

(** The groups [G] of a report over records whose texts are [ts]. *)
Record groups_of (ts : list string) (G : list group_audit) : Prop := {
  groups_text :
    forall g, In g G ->
      exists t, forall i, In i (duplicate_indices g) <-> ts !! i = Some t;
  groups_size : forall g, In g G -> (2 <= length (duplicate_indices g))%nat;
  groups_ascending : forall g, In g G -> StronglySorted lt (duplicate_indices g);
  groups_disjoint :
    forall a b g1 g2 i,
      G !! a = Some g1 -> G !! b = Some g2 ->
      In i (duplicate_indices g1) -> In i (duplicate_indices g2) -> a = b;
  groups_order : StronglySorted lt (map first_of G);
  groups_complete :
    forall i j t, i <> j -> ts !! i = Some t -> ts !! j = Some t ->
      exists g, In g G /\ In i (duplicate_indices g)
}.

Lemma groups_of_duplicates ts G :
  map duplicate_indices G = map snd (duplicates_of ts) -> groups_of ts G.
Proof.
  intros Hmap. pose proof (duplicates_of_spec ts) as S.
  revert Hmap S. generalize (duplicates_of ts). intros D Hmap S.
  assert (Hpos : forall a g, G !! a = Some g ->
                   exists t, D !! a = Some (t, duplicate_indices g)).
  { intros a g Ha.
    assert (H : map snd D !! a = Some (duplicate_indices g)).
    { rewrite <- Hmap, lookup_map, Ha. reflexivity. }
    revert H. rewrite lookup_map.
    destruct (D !! a) as [[t ix]|]; simpl; [|discriminate].
    intros [= ->]. eauto. }
  assert (Hin : forall g, In g G -> exists t, In (t, duplicate_indices g) D).
  { intros g Hg. apply In_lookup in Hg. destruct Hg as (a & Ha).
    destruct (Hpos _ _ Ha) as (t & Ht). exists t. apply In_lookup. eauto. }
  split.
  - intros g Hg. destruct (Hin g Hg) as (t & Ht). exists t.
    intros i. apply (dup_members _ _ S _ _ _ Ht).
  - intros g Hg. destruct (Hin g Hg) as (t & Ht). apply (dup_size _ _ S _ _ Ht).
  - intros g Hg. destruct (Hin g Hg) as (t & Ht). apply (dup_ascending _ _ S _ _ Ht).
  - intros a b g1 g2 i Ha Hb H1 H2.
    destruct (Hpos _ _ Ha) as (t1 & Ht1). destruct (Hpos _ _ Hb) as (t2 & Ht2).
    assert (I1 : In (t1, duplicate_indices g1) D) by (apply In_lookup; eauto).
    assert (I2 : In (t2, duplicate_indices g2) D) by (apply In_lookup; eauto).
    destruct (dup_disjoint _ _ _ _ _ _ _ S I1 I2 H1 H2) as [-> _].
    apply (NoDup_lookup_eq (map fst D) a b t2 (dup_keys _ _ S));
      rewrite lookup_map; [rewrite Ht1 | rewrite Ht2]; reflexivity.
  - replace (map first_of G) with (map first_index D); [apply S|].
    unfold first_of, first_index.
    rewrite <- (map_map snd (hd 0%nat)), <- Hmap, map_map. reflexivity.
  - intros i j t Hne Hi Hj. destruct (dup_complete _ _ S i j t Hne Hi Hj) as (ix & Hix).
    assert (Hs : In ix (map duplicate_indices G)).
    { rewrite Hmap. apply in_map_iff. exists (t, ix). auto. }
    apply in_map_iff in Hs. destruct Hs as (g & <- & Hg). exists g.
    split; [assumption|]. apply (dup_members _ _ S _ _ _ Hix). assumption.
Qed.

Lemma groups_member_lt ts G g i :
  groups_of ts G -> In g G -> In i (duplicate_indices g) -> (i < length ts)%nat.
Proof.
  intros S Hg Hi. destruct (groups_text _ _ S g Hg) as (t & Ht).
  apply Ht in Hi. eapply lookup_lt_Some; eauto.
Qed.

Lemma NoDup_concat (ls : list (list nat)) :
  (forall l, In l ls -> NoDup l) ->
  (forall a b la lb i, ls !! a = Some la -> ls !! b = Some lb ->
                       In i la -> In i lb -> a = b) ->
  NoDup (concat ls).
Proof.
  induction ls as [|l ls IH]; simpl; intros Hnd Hdis; [constructor|].
  apply NoDup_app.
  - apply Hnd. left. reflexivity.
  - apply IH.
    + intros l' Hl'. apply Hnd. right. assumption.
    + intros a b la lb i Ha Hb Hia Hib.
      assert (S a = S b) by (eapply (Hdis (S a) (S b)); eauto). lia.
  - intros i Hi Hc. apply in_concat in Hc. destruct Hc as (l' & Hl' & Hi').
    apply In_lookup in Hl'. destruct Hl' as (b & Hb).
    assert (0%nat = S b) by (eapply (Hdis 0%nat (S b)); eauto). lia.
Qed.

Lemma groups_NoDup ts G : groups_of ts G -> NoDup (grouped_indices G).
Proof.
  intros S. unfold grouped_indices. apply NoDup_concat.
  - intros l Hl. apply in_map_iff in Hl. destruct Hl as (g & <- & Hg).
    apply StronglySorted_lt_NoDup. apply (groups_ascending _ _ S g Hg).
  - intros a b la lb i Ha Hb Hia Hib. rewrite lookup_map in Ha, Hb.
    destruct (G !! a) as [g1|] eqn:Ea; [|discriminate].
    destruct (G !! b) as [g2|] eqn:Eb; [|discriminate].
    simpl in Ha, Hb. injection Ha as <-. injection Hb as <-.
    eapply (groups_disjoint _ _ S); eauto.
Qed.

(** Counting the indices of no group. *)
Lemma count_outside (l : list nat) (n : nat) :
  NoDup l -> (forall x, In x l -> (x < n)%nat) ->
  (length (List.filter (fun i => negb (existsb (Nat.eqb i) l)) (seq 0 n))
   + length l = n)%nat.
Proof.
  intros Hnd Hlt.
  pose proof (filter_length (fun i => existsb (Nat.eqb i) l) (seq 0 n)) as Hlen.
  rewrite length_seq in Hlen.
  assert (Hperm : Permutation (List.filter (fun i => existsb (Nat.eqb i) l) (seq 0 n)) l).
  { apply NoDup_Permutation.
    - apply NoDup_filter. apply seq_NoDup.
    - assumption.
    - intros x. rewrite filter_In, existsb_eqb_In, in_seq.
      split; [tauto|]. intros Hx. specialize (Hlt _ Hx). split; [lia | assumption]. }
  apply Permutation_length in Hperm. lia.
Qed.

Lemma length_concat_sum (G : list group_audit) :
  Z.of_nat (length (grouped_indices G))
  = sum_Z (map (fun g => Z.of_nat (length (duplicate_indices g)) - 1) G)
    + Z.of_nat (length G).
Proof.
  unfold grouped_indices. induction G as [|g G IH]; simpl; [reflexivity|].
  rewrite length_app. lia.
Qed.

Lemma run_groups_of h qs out rep h' ts canon single_out :
  run_of h qs out rep h' ts canon single_out ->
  groups_of ts (duplicate_groups rep).
Proof. intros R. apply groups_of_duplicates. apply R. Qed.

Lemma singles_length ts G :
  groups_of ts G ->
  (length (singles G (length ts)) + length (grouped_indices G) = length ts)%nat.
Proof.
  intros S. unfold singles, in_group. apply count_outside.
  - eapply groups_NoDup; eauto.
  - intros x Hx. unfold grouped_indices in Hx. apply in_concat in Hx.
    destruct Hx as (ix & Hix & Hx). apply in_map_iff in Hix.
    destruct Hix as (g & <- & Hg). eapply groups_member_lt; eauto.
Qed.

Lemma run_output_length h qs out rep h' ts canon single_out :
  run_of h qs out rep h' ts canon single_out ->
  length out
  = (length (duplicate_groups rep) + length (singles (duplicate_groups rep) (length qs)))%nat.
Proof.
  intros R. rewrite (run_output R), length_app.
  rewrite <- (Forall2_length (run_canonical_records R)).
  rewrite <- (Forall2_length (run_single_records R)).
  reflexivity.
Qed.

Lemma run_instances h qs out rep h' ts canon single_out :
  run_of h qs out rep h' ts canon single_out ->
  total_duplicate_instances rep
  = sum_Z (map (fun g => Z.of_nat (length (duplicate_indices g)) - 1)
             (duplicate_groups rep)).
Proof.
  intros R. rewrite (run_total_instances R).
  rewrite <- (map_map snd (fun ix => Z.of_nat (length ix) - 1)).
  rewrite <- (run_groups R), map_map. reflexivity.
Qed.

Lemma report_counts_of_run qs h out rep h' :
  deduplicate_questions qs h = Ok ((out, rep), h') ->
  total_original rep = Z.of_nat (length qs) /\
  total_duplicate_instances rep
  = sum_Z (map (fun g => Z.of_nat (length (duplicate_indices g)) - 1)
             (duplicate_groups rep)) /\
  total_after_deduplication rep = Z.of_nat (length out) /\
  total_after_deduplication rep
  = total_original rep - total_duplicate_instances rep /\
  total_after_deduplication rep + questions_removed rep = total_original rep.
Proof.
  intros H. destruct (deduplicate_questions_run _ _ _ _ _ H) as (ts & canon & so & R).
  pose proof (run_groups_of _ _ _ _ _ _ _ _ R) as S.
  pose proof (run_instances _ _ _ _ _ _ _ _ R) as Hinst.
  pose proof (run_output_length _ _ _ _ _ _ _ _ R) as Hlen.
  pose proof (singles_length _ _ S) as Hsing.
  rewrite (texts_in_length _ _ _ (run_texts R)) in Hsing.
  pose proof (length_concat_sum (duplicate_groups rep)) as Hsum.
  rewrite (run_total_original R), (run_total_after R),
    (run_removed R).
  split; [reflexivity|]. split; [assumption|]. split; [reflexivity|].
  rewrite Hinst. split; lia.
Qed.

(** The emitted indices: each once, and each index is either emitted or a
    member of a group other than its canonical index. *)
Lemma emitted_NoDup ts G :
  groups_of ts G ->
  Forall (fun g => In (canonical_index g) (duplicate_indices g)) G ->
  NoDup (emitted G (length ts)).
Proof.
  intros S Hc. rewrite Forall_forall in Hc. unfold emitted. apply NoDup_app.
  - apply NoDup_ListNoDup. apply NoDup_alt. intros a b x Ha Hb.
    rewrite lookup_map in Ha, Hb.
    destruct (G !! a) as [g1|] eqn:Ea; [|discriminate].
    destruct (G !! b) as [g2|] eqn:Eb; [|discriminate].
    simpl in Ha, Hb. injection Ha as <-. injection Hb as Hb.
    eapply (groups_disjoint _ _ S a b g1 g2 (canonical_index g1)); eauto.
    + apply Hc. apply In_lookup. eauto.
    + rewrite <- Hb. apply Hc. apply In_lookup. eauto.
  - apply NoDup_filter. apply seq_NoDup.
  - intros i Hi Hs. apply in_map_iff in Hi. destruct Hi as (g & <- & Hg).
    unfold singles in Hs. apply filter_In in Hs. destruct Hs as [_ Hs].
    apply negb_true_iff, not_true_iff_false in Hs. apply Hs.
    apply in_group_spec. exists g. split; [assumption|]. apply Hc. assumption.
Qed.

Lemma singles_In G n i :
  In i (singles G n) <->
  (i < n)%nat /\ ~ exists g, In g G /\ In i (duplicate_indices g).
Proof.
  unfold singles. rewrite filter_In, in_seq, negb_true_iff.
  rewrite <- in_group_spec, not_true_iff_false. intuition lia.
Qed.

(* ===================================================================== *)
(** ** [merge_sources] on records with plain fields *)
(* ===================================================================== *)

(** [q.get(k)] on the dict of [q]. *)
Definition field (k : string) (d : dict) : value :=
  match dict_get k d with Some v => v | None => VNone end.

(** Values that refer to no object. *)
Definition scalar (v : value) : bool :=
  match v with
  | VList _ | VRef _ => false
  | _ => true
  end.

Definition truthy_scalar (v : value) : bool :=
  match v with
  | VBool b => b
  | VInt z => negb (z =? 0)
  | VStr s => negb (is_empty s)
  | _ => false
  end.

(** A source file as the data model has it: a string, or none. *)
Definition file_ok (v : value) : bool :=
  match v with
  | VNone | VStr _ => true
  | _ => false
  end.

Definition provenance_ok (d : dict) : bool :=
  scalar (field "year" d) && file_ok (field "source_file" d).

(** The entry of [all_sources] for record [d] at index [idx]. *)
Definition provenance_entry (d : dict) (idx : nat) : dict :=
  [("year", field "year" d); ("source_file", field "source_file" d);
   ("question_number", field "question_number" d);
   ("original_index", VInt (Z.of_nat idx))].

Fixpoint provenance_entries (ds : list dict) (indices : list nat) : list dict :=
  match ds, indices with
  | d :: ds', idx :: r => provenance_entry d idx :: provenance_entries ds' r
  | _, _ => []
  end.

(** The years and the source files a group contributes, in the order the
    sets meet them. *)
Definition add_year (years : list string) (d : dict) : list string :=
  if truthy_scalar (field "year" d)
  then str_set_add (py_str [] (field "year" d)) years
  else years.

Definition add_file_name (files : list string) (d : dict) : list string :=
  match field "source_file" d with
  | VStr s => if is_empty s then files else str_set_add s files
  | _ => files
  end.

Definition year_names (ds : list dict) : list string := fold_left add_year ds [].
Definition file_names (ds : list dict) : list string :=
  fold_left add_file_name ds [].

(** The dict [merge_sources] returns, built in a heap of size [n]. *)
Definition merged_dict (n : nat) (ds : list dict) (indices : list nat) : dict :=
  [("source_pdfs", VList (map VStr (sorted_strs (file_names ds))));
   ("years_found", VList (map VStr (sorted_strs (year_names ds))));
   ("all_sources", VList (map VRef (seq n (length indices))));
   ("duplicate_count", VInt (Z.of_nat (length indices)))].

(** [records_at h qs indices ds]: the records at [indices] are the dicts
    [ds] of [h]. *)
Definition records_at (h : heap) (qs : list value) (indices : list nat)
    (ds : list dict) : Prop :=
  Forall2 (fun i d => exists l, qs !! i = Some (VRef l) /\ h !! l = Some d)
          indices ds.

Lemma truthy_scalar_ok h v : scalar v = true -> truthy h v = Ok (truthy_scalar v).
Proof. destruct v; simpl; try discriminate; reflexivity. Qed.

Lemma py_str_scalar h v : scalar v = true -> py_str h v = py_str [] v.
Proof. destruct v as [| [] | | | |]; simpl; try discriminate; reflexivity. Qed.

Lemma py_get_ref h l d k default :
  h !! l = Some d ->
  py_get h (VRef l) k default
  = Ok (match dict_get k d with Some v => v | None => default end).
Proof. intros Hl. unfold py_get. simpl. rewrite Hl. reflexivity. Qed.

Lemma py_get_field h l d k :
  h !! l = Some d -> py_get h (VRef l) k VNone = Ok (field k d).
Proof. intros Hl. unfold py_get, field. simpl. rewrite Hl. reflexivity. Qed.

Lemma existsb_hash_eq_str s files :
  existsb (hash_eq (VStr s)) (map VStr files) = existsb (String.eqb s) files.
Proof. induction files as [|t r IH]; simpl; [reflexivity|]. rewrite IH. reflexivity. Qed.

Lemma set_add_str s files :
  set_add (VStr s) (map VStr files) = map VStr (str_set_add s files).
Proof.
  unfold set_add, str_set_add. rewrite existsb_hash_eq_str.
  destruct (existsb (String.eqb s) files); [reflexivity|].
  rewrite map_app. reflexivity.
Qed.

Lemma merge_step_plain qs idx l d sources years files h :
  qs !! idx = Some (VRef l) -> h !! l = Some d -> provenance_ok d = true ->
  merge_step qs idx (sources, years, map VStr files) h
  = Ok ((sources ++ [VRef (length h)], add_year years d,
         map VStr (add_file_name files d)),
        h ++ [provenance_entry d idx]).
Proof.
  intros Hq Hl Hok. apply andb_true_iff in Hok. destruct Hok as [Hy Hf].
  unfold merge_step, bind, reading, py_index. rewrite Hq.
  rewrite !(py_get_field _ _ _ _ Hl). rewrite (truthy_scalar_ok _ _ Hy).
  unfold add_year, add_file_name.
  assert (Hyears :
    (if truthy_scalar (field "year" d)
     then reading (fun h0 => Ok (str_set_add (py_str h0 (field "year" d)) years))
     else ret years) h
    = Ok (if truthy_scalar (field "year" d)
          then str_set_add (py_str [] (field "year" d)) years else years, h)).
  { destruct (truthy_scalar (field "year" d)); [|reflexivity].
    unfold reading. rewrite (py_str_scalar _ _ Hy). reflexivity. }
  unfold reading in Hyears. rewrite Hyears. clear Hyears.
  unfold provenance_entry.
  destruct (field "source_file" d) as [| | |s| |] eqn:Ef; try discriminate; simpl.
  - rewrite (py_get_field _ _ _ _ Hl). reflexivity.
  - destruct (is_empty s); simpl; rewrite (py_get_field _ _ _ _ Hl); [reflexivity|].
    rewrite set_add_str. reflexivity.
Qed.

Lemma records_at_app h news qs indices ds :
  records_at h qs indices ds -> records_at (h ++ news) qs indices ds.
Proof.
  apply Forall2_impl. intros i d (l & Hq & Hl). exists l.
  split; [assumption|]. apply lookup_app_l_Some. assumption.
Qed.

Lemma provenance_entries_length ds indices :
  length ds = length indices ->
  length (provenance_entries ds indices) = length indices.
Proof.
  revert indices. induction ds as [|d ds IH]; intros [|i r]; simpl; try discriminate; auto.
Qed.

Lemma merge_loop_plain qs : forall indices ds sources years files h,
  records_at h qs indices ds -> Forall (fun d => provenance_ok d = true) ds ->
  merge_loop qs indices (sources, years, map VStr files) h
  = Ok ((sources ++ map VRef (seq (length h) (length indices)),
         fold_left add_year ds years,
         map VStr (fold_left add_file_name ds files)),
        h ++ provenance_entries ds indices).
Proof.
  induction indices as [|idx r IH]; intros ds sources years files h Hrec Hok;
    inversion Hrec as [|? d ? ds' (l & Hq & Hl) Hrest]; subst.
  - simpl. rewrite !app_nil_r. reflexivity.
  - inversion Hok as [|? ? Hd Hds]; subst.
    cbn [merge_loop]. unfold bind.
    rewrite (merge_step_plain _ _ _ _ _ _ _ _ Hq Hl Hd).
    rewrite (IH ds' _ _ _ _ (records_at_app _ [_] _ _ _ Hrest) Hds).
    rewrite <- !app_assoc, length_app. simpl.
    replace (length h + 1)%nat with (S (length h)) by lia. reflexivity.
Qed.

Lemma insert_sorted_strs x l :
  insert_sorted (VStr x) (map VStr l) = Ok (map VStr (insert_str x l)).
Proof.
  induction l as [|y r IH]; simpl; [reflexivity|].
  destruct (String.ltb x y); simpl; [reflexivity|]. rewrite IH. reflexivity.
Qed.

Lemma py_sorted_strs l : py_sorted (map VStr l) = Ok (map VStr (sorted_strs l)).
Proof.
  induction l as [|x r IH]; simpl; [reflexivity|].
  rewrite IH. simpl. apply insert_sorted_strs.
Qed.

(** On records with plain fields [merge_sources] returns, and this is
    what it builds. *)
Lemma merge_sources_plain qs indices ds h :
  records_at h qs indices ds -> Forall (fun d => provenance_ok d = true) ds ->
  merge_sources qs indices h
  = Ok (VRef (length h + length indices),
        h ++ provenance_entries ds indices
          ++ [merged_dict (length h) ds indices]).
Proof.
  intros Hrec Hok. unfold merge_sources, bind.
  pose proof (merge_loop_plain qs indices ds [] [] [] h Hrec Hok) as Hloop.
  cbn [map app] in Hloop. rewrite Hloop.
  fold (year_names ds). fold (file_names ds). cbn beta iota.
  unfold reading. rewrite py_sorted_strs. unfold alloc.
  rewrite length_app, provenance_entries_length by (symmetry; eapply Forall2_length; eauto).
  rewrite <- app_assoc. reflexivity.
Qed.

(* ===================================================================== *)
(** ** Well-formed corpora: the run returns *)
(* ===================================================================== *)

(** A question is a string when present; a year is none, a number, or a
    string that is empty or a decimal literal; a source file is a string or
    none; [metadata], when present, is a dict among the first [n] objects. *)
Definition question_ok (o : option value) : bool :=
  match o with
  | None | Some (VStr _) => true
  | _ => false
  end.

Definition year_ok (v : value) : bool :=
  match v with
  | VNone | VBool _ | VInt _ => true
  | VStr s => is_empty s || match parse_int s with Some _ => true | None => false end
  | _ => false
  end.

Definition metadata_ok (n : nat) (o : option value) : bool :=
  match o with
  | None => true
  | Some (VRef m) => (m <? n)%nat
  | Some _ => false
  end.

Definition record_ok (n : nat) (d : dict) : bool :=
  question_ok (dict_get "question" d) && year_ok (field "year" d)
  && file_ok (field "source_file" d) && metadata_ok n (dict_get "metadata" d).

Definition well_formed (h : heap) (qs : list value) : bool :=
  forallb (fun q => match q with
                    | VRef l => match h !! l with
                                | Some d => record_ok (length h) d
                                | None => false
                                end
                    | _ => false
                    end) qs.

(** The same, record by record. *)
Definition wf (h : heap) (qs : list value) : Prop :=
  forall i q, qs !! i = Some q ->
    exists l d, q = VRef l /\ h !! l = Some d /\ record_ok (length h) d = true.

Lemma well_formed_wf h qs : well_formed h qs = true -> wf h qs.
Proof.
  unfold well_formed. rewrite forallb_forall. intros Hall i q Hq.
  assert (Hin : In q qs) by (apply In_lookup; eauto).
  specialize (Hall _ Hin). destruct q; try discriminate.
  destruct (h !! l) as [d|] eqn:Hl; [|discriminate]. eauto.
Qed.

Lemma record_ok_frame n n' d d' :
  (n <= n')%nat -> same_off metadata_keys d d' ->
  record_ok n d = true -> record_ok n' d' = true.
Proof.
  intros Hn Hs. unfold record_ok, field.
  rewrite !(Hs "question"), !(Hs "year"), !(Hs "source_file"), !(Hs "metadata")
    by not_a_key.
  rewrite !andb_true_iff. intros [[[Hq Hy] Hf] Hm]. repeat split; auto.
  destruct (dict_get "metadata" d) as [[]|]; simpl in *; auto.
  apply Nat.ltb_lt in Hm. apply Nat.ltb_lt. lia.
Qed.

Lemma wf_frame h h' qs : wf h qs -> frame h h' -> wf h' qs.
Proof.
  intros Hwf [L F] i q Hq. destruct (Hwf i q Hq) as (l & d & -> & Hl & Hok).
  destruct (F _ _ Hl) as (d' & Hl' & Hs). exists l, d'.
  split; [reflexivity|]. split; [assumption|].
  eapply record_ok_frame; eauto.
Qed.

Lemma wf_all_dicts h qs : wf h qs -> all_dicts h qs.
Proof.
  intros Hwf. apply Forall_forall. intros q Hq. apply In_lookup in Hq.
  destruct Hq as (i & Hi). destruct (Hwf i q Hi) as (l & d & -> & Hl & _). eauto.
Qed.

Lemma question_text_ok h l d :
  h !! l = Some d -> question_ok (dict_get "question" d) = true ->
  exists t, question_text h (VRef l) = Ok t.
Proof.
  intros Hl Hq. unfold question_text, py_get. simpl. rewrite Hl. simpl.
  destruct (dict_get "question" d) as [[]|]; try discriminate; simpl; eauto.
Qed.

Lemma wf_texts_in h qs : wf h qs -> exists ts, texts_in h qs ts.
Proof.
  induction qs as [|q qs IH]; intros Hwf.
  - exists []. constructor.
  - destruct (Hwf 0%nat q eq_refl) as (l & d & -> & Hl & Hok).
    destruct IH as (ts & Hts).
    { intros i q' Hq'. apply (Hwf (S i) q' Hq'). }
    unfold record_ok in Hok. rewrite !andb_true_iff in Hok.
    destruct Hok as [[[Hq _] _] _].
    destruct (question_text_ok _ _ _ Hl Hq) as (t & Ht).
    exists (t :: ts). constructor; assumption.
Qed.

(** The year component of the key. *)
Definition year_key (v : value) : Z :=
  if truthy_scalar v
  then match py_int v with Ok z => z | Raise _ => 9999 end
  else 9999.

(** [bool(q.get('metadata'))] for a record [d]. *)
Definition has_metadata (h : heap) (d : dict) : bool :=
  match dict_get "metadata" d with
  | Some (VRef m) => match h !! m with
                     | Some md => negb (is_nil md)
                     | None => false
                     end
  | _ => false
  end.

Definition unit_unknown (d : dict) : bool :=
  match dict_get "unit" d with
  | Some u => eq_str u "Unknown"
  | None => true
  end.

(** The key of a well-formed record. *)
Definition key_of (h : heap) (d : dict) : priority :=
  (unit_unknown d, year_key (field "year" d),
   - (if has_metadata h d then 1 else 0)).

(** What [priority_key] needs of a record: a year [int] accepts and a
    [metadata] it can test. *)
Definition key_ok (n : nat) (d : dict) : bool :=
  year_ok (field "year" d) && metadata_ok n (dict_get "metadata" d).

Lemma metadata_truthy h d :
  metadata_ok (length h) (dict_get "metadata" d) = true ->
  truthy h (field "metadata" d) = Ok (has_metadata h d).
Proof.
  unfold field, has_metadata. intros Hm.
  destruct (dict_get "metadata" d) as [[]|]; simpl in *; try discriminate; try reflexivity.
  apply Nat.ltb_lt in Hm. destruct (lookup_lt_is_Some_2 h l Hm) as [md Hmd].
  rewrite Hmd. reflexivity.
Qed.

Lemma year_ok_scalar v : year_ok v = true -> scalar v = true.
Proof. destruct v; simpl; try discriminate; reflexivity. Qed.

Lemma year_key_int v :
  year_ok v = true -> truthy_scalar v = true -> py_int v = Ok (year_key v).
Proof.
  unfold year_key. intros Hy Ht. rewrite Ht.
  destruct v as [| [] | z | s | |]; simpl in *; try discriminate; try reflexivity.
  destruct (is_empty s); [discriminate|]. simpl in Hy.
  destruct (parse_int s); [reflexivity | discriminate].
Qed.

Lemma priority_key_of h i l d :
  h !! l = Some d -> key_ok (length h) d = true ->
  priority_key h (i, VRef l) = Ok (key_of h d).
Proof.
  intros Hl Hok. apply andb_true_iff in Hok. destruct Hok as [Hy Hm].
  unfold priority_key. cbn [snd].
  rewrite (py_get_ref _ _ _ "unit" _ Hl), (py_get_field _ _ _ "year" Hl),
    (py_get_ref _ _ _ "year" (VInt 9999) Hl), (py_get_field _ _ _ "metadata" Hl).
  cbn [rbind]. rewrite (truthy_scalar_ok _ _ (year_ok_scalar _ Hy)). cbn [rbind].
  rewrite (metadata_truthy _ _ Hm).
  assert (Eu : eq_str match dict_get "unit" d with
                      | Some v => v
                      | None => VStr "Unknown"
                      end "Unknown" = unit_unknown d).
  { unfold unit_unknown. destruct (dict_get "unit" d); reflexivity. }
  rewrite Eu. unfold key_of.
  destruct (truthy_scalar (field "year" d)) eqn:Ht.
  - assert (Ev : match dict_get "year" d with Some v => v | None => VInt 9999 end
                 = field "year" d).
    { unfold field in *. destruct (dict_get "year" d); [reflexivity | discriminate]. }
    rewrite Ev, (year_key_int _ Hy Ht). reflexivity.
  - unfold year_key. rewrite Ht. reflexivity.
Qed.

Lemma record_ok_key_ok n d : record_ok n d = true -> key_ok n d = true.
Proof.
  unfold record_ok, key_ok. rewrite !andb_true_iff. tauto.
Qed.

Lemma priority_key_plain h i l d :
  h !! l = Some d -> record_ok (length h) d = true ->
  priority_key h (i, VRef l) = Ok (key_of h d).
Proof.
  intros Hl Hok. apply priority_key_of; [assumption|].
  apply record_ok_key_ok. assumption.
Qed.

Lemma wf_records_at h qs : forall indices,
  wf h qs -> (forall i, In i indices -> (i < length qs)%nat) ->
  exists ds,
    records_at h qs indices ds /\ Forall (fun d => provenance_ok d = true) ds /\
    Forall (fun d => record_ok (length h) d = true) ds.
Proof.
  induction indices as [|i r IH]; intros Hwf Hlt.
  - exists []. repeat split; constructor.
  - destruct IH as (ds & Hrec & Hok & Hrok); [assumption | intros; apply Hlt; right; assumption|].
    destruct (lookup_lt_is_Some_2 qs i) as [q Hq]; [apply Hlt; left; reflexivity|].
    destruct (Hwf i q Hq) as (l & d & -> & Hl & Hd).
    exists (d :: ds). split; [|split].
    + constructor; [eauto | assumption].
    + constructor; [|assumption]. unfold record_ok in Hd.
      rewrite !andb_true_iff in Hd. destruct Hd as [[[_ Hy] Hf] _].
      unfold provenance_ok. rewrite Hf, andb_true_r.
      destruct (field "year" d); simpl in *; try discriminate; reflexivity.
    + constructor; assumption.
Qed.

(** [ready e m h]: record [e] has the dict [m] as its [metadata]. *)
Definition ready (e m : nat) (h : heap) : Prop :=
  exists d md,
    h !! e = Some d /\ dict_get "metadata" d = Some (VRef m) /\ h !! m = Some md.

Lemma set_metadata_total e m h k v :
  ready e m h -> k <> "metadata" ->
  exists md,
    h !! m = Some md /\
    set_metadata (VRef e) k v h = Ok (tt, <[m := dict_set k v md]> h) /\
    ready e m (<[m := dict_set k v md]> h).
Proof.
  intros (d & md & He & Hm & Hmd) Hk. exists md. split; [assumption|]. split.
  - apply set_metadata_ok. exists e, d, m, md. auto.
  - pose proof (lookup_lt_Some _ _ _ Hmd) as Hlt.
    destruct (decide (e = m)) as [->|Hne].
    + assert (d = md) as -> by congruence.
      exists (dict_set k v md), (dict_set k v md).
      rewrite list_lookup_insert_eq by assumption.
      rewrite dict_get_set_ne by congruence. auto.
    + exists d, (dict_set k v md).
      rewrite list_lookup_insert_ne by congruence.
      rewrite list_lookup_insert_eq by assumption. auto.
Qed.

Lemma ensure_metadata_total e d h :
  h !! e = Some d -> metadata_ok (length h) (dict_get "metadata" d) = true ->
  exists h' m,
    ensure_metadata (VRef e) h = Ok (tt, h') /\ ready e m h' /\
    (length h <= length h')%nat /\
    (forall l, l <> e -> forall x, h !! l = Some x -> h' !! l = Some x) /\
    (m < length h \/ m = length h)%nat /\
    (m < length h -> dict_get "metadata" d = Some (VRef m))%nat.
Proof.
  intros He Hok. unfold ensure_metadata, bind, reading. simpl. rewrite He.
  unfold dict_has. destruct (dict_get "metadata" d) as [v|] eqn:Hm.
  - destruct v; simpl in Hok; try discriminate. apply Nat.ltb_lt in Hok.
    destruct (lookup_lt_is_Some_2 h l Hok) as [md Hmd].
    exists h, l. split; [reflexivity|]. split; [exists d, md; auto|].
    split; [lia|]. split; [auto|]. split; [left; assumption | reflexivity].
  - pose proof (lookup_lt_Some _ _ _ He) as Hlt.
    eexists _, (length h). unfold alloc. simpl.
    rewrite (lookup_app_l_Some _ _ _ _ He). split; [reflexivity|].
    split; [|split; [|split; [|split]]].
    + exists (dict_set "metadata" (VRef (length h)) d), [].
      rewrite list_lookup_insert_eq by (rewrite length_app; lia).
      rewrite dict_get_set_eq.
      rewrite list_lookup_insert_ne by lia.
      rewrite lookup_app_r by lia. rewrite Nat.sub_diag. auto.
    + rewrite length_insert, length_app. lia.
    + intros l Hl x Hx. rewrite list_lookup_insert_ne by congruence.
      apply lookup_app_l_Some. assumption.
    + right. reflexivity.
    + lia.
Qed.

(** On a well-formed corpus every turn of the loop over the groups
    returns. *)
Lemma process_group_total qs indices st h :
  wf h qs -> indices <> [] -> (forall i, In i indices -> (i < length qs)%nat) ->
  exists st' h', process_group qs indices st h = Ok (st', h').
Proof.
  intros Hwf Hne Hlt. destruct st as [[ded keep] G].
  destruct (select_canonical_total h qs indices Hne) as (c & q & Hsel).
  { intros i Hi. destruct (lookup_lt_is_Some_2 qs i (Hlt i Hi)) as [qi Hqi].
    destruct (Hwf i qi Hqi) as (l & d & -> & Hl & Hok).
    exists (VRef l), (key_of h d). split; [assumption|].
    apply priority_key_plain; assumption. }
  destruct (select_canonical_member _ _ _ _ _ Hsel) as [Hc Hq].
  destruct (Hwf c q Hq) as (l & d & -> & Hl & Hok).
  destruct (wf_records_at h qs indices Hwf Hlt) as (ds & Hrec & Hprov & _).
  pose proof (merge_sources_plain qs indices ds h Hrec Hprov) as Hmerge.
  set (ms := (length h + length indices)%nat) in *.
  set (M := merged_dict (length h) ds indices) in *.
  set (h1 := h ++ provenance_entries ds indices ++ [M]) in *.
  assert (Hlen1 : length h1 = S ms).
  { unfold h1, ms. rewrite !length_app, provenance_entries_length
      by (symmetry; eapply Forall2_length; eauto). simpl. lia. }
  assert (Hms1 : h1 !! ms = Some M).
  { unfold h1. rewrite app_assoc. rewrite lookup_app_r;
      rewrite length_app, provenance_entries_length
        by (symmetry; eapply Forall2_length; eauto); fold ms; [|lia].
    rewrite Nat.sub_diag. reflexivity. }
  assert (Hl1 : h1 !! l = Some d) by (apply lookup_app_l_Some; assumption).
  pose proof (lookup_lt_Some _ _ _ Hl) as Hllt.
  set (e := length h1).
  set (d2 := dict_set "source_metadata" (VRef ms) d).
  set (h3 := <[e := d2]> (h1 ++ [d])).
  assert (He3 : h3 !! e = Some d2).
  { unfold h3. apply list_lookup_insert_eq. rewrite length_app. simpl. unfold e. lia. }
  assert (Hmd2 : dict_get "metadata" d2 = dict_get "metadata" d).
  { unfold d2. apply dict_get_set_ne. discriminate. }
  assert (Hlen3 : length h3 = S e).
  { unfold h3. rewrite length_insert, length_app. simpl. unfold e. lia. }
  destruct (ensure_metadata_total e d2 h3 He3) as (h4 & m & Hens & Hready & Hlen4 & Hkeep & Hm & Hmold).
  { rewrite Hmd2. unfold record_ok in Hok. rewrite !andb_true_iff in Hok.
    destruct Hok as [_ Hmeta]. destruct (dict_get "metadata" d) as [[]|]; simpl in *; auto.
    apply Nat.ltb_lt in Hmeta. apply Nat.ltb_lt. lia. }
  assert (Hmne : m <> ms).
  { destruct Hm as [Hm|Hm]; [|lia].
    specialize (Hmold Hm). rewrite Hmd2 in Hmold.
    unfold record_ok in Hok. rewrite !andb_true_iff in Hok.
    destruct Hok as [_ Hmeta]. rewrite Hmold in Hmeta. simpl in Hmeta.
    apply Nat.ltb_lt in Hmeta. unfold ms. lia. }
  assert (Hms4 : h4 !! ms = Some M).
  { apply Hkeep; [unfold e; lia|]. unfold h3.
    rewrite list_lookup_insert_ne by (unfold e; lia).
    apply lookup_app_l_Some. assumption. }
  assert (Hl4 : h4 !! l = Some d).
  { apply Hkeep; [unfold e; lia|]. unfold h3.
    rewrite list_lookup_insert_ne by (unfold e; lia).
    apply lookup_app_l_Some. assumption. }
  (* the four writes *)
  assert (Hcopy : forall hh k v,
            ready e m hh -> hh !! ms = Some M -> dict_get k M = Some v ->
            k <> "metadata" ->
            exists hh', copy_to_metadata (VRef e) (VRef ms) k hh = Ok (tt, hh') /\
                        ready e m hh' /\ hh' !! ms = Some M /\ length hh' = length hh).
  { intros hh k v Hr HM Hk Hkne.
    destruct (set_metadata_total e m hh k v Hr Hkne) as (md & Hmd & Hset & Hr').
    eexists. split; [|split; [exact Hr'|split]].
    - unfold copy_to_metadata, bind, reading. simpl. rewrite HM, Hk. exact Hset.
    - rewrite list_lookup_insert_ne by assumption. assumption.
    - apply length_insert. }
  destruct (Hcopy h4 "source_pdfs" _ Hready Hms4 eq_refl) as (h5 & Hw1 & Hr5 & Hms5 & Hlen5);
    [discriminate|].
  destruct (Hcopy h5 "years_found" _ Hr5 Hms5 eq_refl) as (h6 & Hw2 & Hr6 & Hms6 & Hlen6);
    [discriminate|].
  destruct (set_metadata_total e m h6 "is_deduplicated" (VBool true) Hr6) as (md6 & Hmd6 & Hw3 & Hr7);
    [discriminate|].
  set (h7 := <[m := dict_set "is_deduplicated" (VBool true) md6]> h6) in *.
  assert (Hms7 : h7 !! ms = Some M).
  { unfold h7. rewrite list_lookup_insert_ne by assumption. assumption. }
  destruct (Hcopy h7 "duplicate_count" _ Hr7 Hms7 eq_refl) as (h8 & Hw4 & Hr8 & Hms8 & Hlen8);
    [discriminate|].
  assert (Hl8 : is_Some (h8 !! l)).
  { apply lookup_lt_is_Some_2. rewrite Hlen8. unfold h7. rewrite length_insert.
    rewrite Hlen6, Hlen5. lia. }
  destruct Hl8 as [d8 Hd8].
  eexists _, h8. unfold process_group, bind, reading.
  rewrite Hsel. fold ms M h1. rewrite Hmerge.
  simpl py_copy. rewrite Hl1. unfold alloc. fold e.
  simpl py_setitem. rewrite lookup_app_r by (unfold e; lia).
  rewrite Nat.sub_diag. simpl. fold d2 h3.
  rewrite Hens, Hw1, Hw2, Hw3. fold h7. rewrite Hw4.
  rewrite !(py_get_ref _ _ _ _ _ Hd8). reflexivity.
Qed.

Lemma process_groups_total qs : forall D st h,
  wf h qs ->
  (forall t ix, In (t, ix) D ->
     ix <> [] /\ forall i, In i ix -> (i < length qs)%nat) ->
  exists st' h', process_groups qs D st h = Ok (st', h') /\ frame h h'.
Proof.
  induction D as [|[t ix] D IH]; intros st h Hwf HD; simpl.
  - exists st, h. split; [reflexivity | apply frame_refl].
  - destruct (HD t ix (or_introl eq_refl)) as [Hne Hlt].
    destruct (process_group_total qs ix st h Hwf Hne Hlt) as (st1 & h1 & Hstep).
    destruct st as [[ded keep] G].
    destruct (process_group_spec h qs ix ded keep G h st1 h1
                (wf_all_dicts _ _ Hwf) (frame_refl h) Hstep)
      as (_ & _ & _ & _ & _ & _ & _ & _ & F1 & _).
    destruct (IH st1 h1 (wf_frame _ _ _ Hwf F1)) as (st' & h' & Hrest & F2).
    { intros t' ix' Hin. apply (HD t' ix'). right. assumption. }
    exists st', h'. unfold bind. rewrite Hstep. split; [assumption|].
    eapply frame_trans; eauto.
Qed.

(** What the loop over the kept indices needs of a record: a dict whose
    [metadata], when present, is a dict. *)
Definition copyable (h : heap) (qs : list value) : Prop :=
  forall i q, qs !! i = Some q ->
    exists l d, q = VRef l /\ h !! l = Some d /\
                metadata_ok (length h) (dict_get "metadata" d) = true.

Lemma wf_copyable h qs : wf h qs -> copyable h qs.
Proof.
  intros Hwf i q Hq. destruct (Hwf i q Hq) as (l & d & -> & Hl & Hok).
  exists l, d. split; [reflexivity|]. split; [assumption|].
  unfold record_ok in Hok. rewrite !andb_true_iff in Hok. tauto.
Qed.

Lemma copyable_frame h h' qs : copyable h qs -> frame h h' -> copyable h' qs.
Proof.
  intros Hc [L F] i q Hq. destruct (Hc i q Hq) as (l & d & -> & Hl & Hok).
  destruct (F _ _ Hl) as (d' & Hl' & Hs). exists l, d'.
  split; [reflexivity|]. split; [assumption|].
  rewrite (Hs "metadata") by not_a_key.
  destruct (dict_get "metadata" d) as [[]|]; simpl in *; auto.
  apply Nat.ltb_lt in Hok. apply Nat.ltb_lt. lia.
Qed.

Lemma copyable_all_dicts h qs : copyable h qs -> all_dicts h qs.
Proof.
  intros Hc. apply Forall_forall. intros q Hq. apply In_lookup in Hq.
  destruct Hq as (i & Hi). destruct (Hc i q Hi) as (l & d & -> & Hl & _). eauto.
Qed.

Lemma keep_single_total qs G i ded h :
  copyable h qs -> (i < length qs)%nat ->
  exists ded' h', keep_single qs G i ded h = Ok (ded', h').
Proof.
  intros Hwf Hlt. unfold keep_single.
  destruct (existsb (Nat.eqb i) (map canonical_index G)); [unfold ret; eauto|].
  destruct (lookup_lt_is_Some_2 qs i Hlt) as [q Hq].
  destruct (Hwf i q Hq) as (l & d & -> & Hl & Hok).
  set (e := length h).
  assert (He : (h ++ [d]) !! e = Some d).
  { rewrite lookup_app_r by (unfold e; lia). unfold e. rewrite Nat.sub_diag. reflexivity. }
  destruct (ensure_metadata_total e d (h ++ [d]) He) as (h2 & m & Hens & Hready & _).
  { destruct (dict_get "metadata" d) as [[]|]; simpl in *; auto.
    apply Nat.ltb_lt in Hok. apply Nat.ltb_lt. rewrite length_app. lia. }
  destruct (set_metadata_total e m h2 "is_deduplicated" (VBool false) Hready)
    as (md & _ & Hset & _); [discriminate|].
  unfold bind, reading, py_index. rewrite Hq. simpl py_copy. rewrite Hl.
  unfold alloc. fold e. rewrite Hens, Hset. unfold ret. eauto.
Qed.

Lemma keep_singles_total qs G : forall kept ded h,
  copyable h qs -> (forall i, In i kept -> (i < length qs)%nat) ->
  exists ded' h', keep_singles qs G kept ded h = Ok (ded', h').
Proof.
  induction kept as [|i kept IH]; intros ded h Hwf Hlt; simpl.
  - unfold ret. eauto.
  - destruct (keep_single_total qs G i ded h Hwf (Hlt i (or_introl eq_refl)))
      as (ded1 & h1 & Hstep).
    destruct (keep_single_spec h qs G i ded h ded1 h1
                (copyable_all_dicts _ _ Hwf) (frame_refl h) Hstep) as [F1 _].
    destruct (IH ded1 h1) as (ded' & h' & Hrest).
    { eapply copyable_frame; [apply Hwf|]. apply flag_frame_frame. assumption. }
    { intros j Hj. apply Hlt. right. assumption. }
    exists ded', h'. unfold bind. rewrite Hstep. assumption.
Qed.

Lemma sorted_nats_In (l : list nat) (x : nat) : In x (sorted_nats l) <-> In x l.
Proof.
  assert (Hins : forall a s y, In y (insert_nat a s) <-> y = a \/ In y s).
  { intros a s y. induction s as [|b s IH]; simpl; [intuition|].
    destruct (a <? b)%nat; simpl; [intuition|]. rewrite IH. intuition. }
  unfold sorted_nats. induction l as [|a l IH]; simpl; [tauto|].
  rewrite Hins, IH. intuition.
Qed.

(** On a well-formed corpus [deduplicate_questions] returns. *)
Lemma deduplicate_questions_total qs h :
  well_formed h qs = true ->
  exists out rep h', deduplicate_questions qs h = Ok ((out, rep), h').
Proof.
  intros Hwf. apply well_formed_wf in Hwf.
  destruct (wf_texts_in _ _ Hwf) as (ts & Hts).
  pose proof (duplicates_of_spec ts) as S.
  destruct (process_groups_total qs (duplicates_of ts)
              ([], seq 0 (length qs), []) h Hwf)
    as ([[ded keep] G] & h1 & Hgroups & F1).
  { intros t ix Hin. split.
    - pose proof (dup_size _ _ S _ _ Hin). destruct ix; simpl in *; [lia | discriminate].
    - intros i Hi. apply (dup_members _ _ S _ _ _ Hin) in Hi.
      apply lookup_lt_Some in Hi. rewrite (texts_in_length _ _ _ Hts) in Hi. assumption. }
  destruct (process_groups_spec h qs _ _ _ _ _ _ _ (wf_all_dicts _ _ Hwf) (frame_refl h) Hgroups)
    as (vs & gs & [= -> -> ->] & _).
  cbn [app] in Hgroups.
  destruct (keep_singles_total qs gs
              (sorted_nats (discard_groups gs (seq 0 (length qs)))) vs h1)
    as (ded' & h2 & Hsingles).
  { apply wf_copyable. eapply wf_frame; eauto. }
  { intros i Hi. apply sorted_nats_In, discard_groups_In in Hi.
    destruct Hi as [Hi _]. apply in_seq in Hi. lia. }
  unfold deduplicate_questions, bind, reading.
  rewrite (find_duplicates_total _ _ _ Hts), Hgroups, Hsingles.
  unfold ret. eauto.
Qed.

(* ===================================================================== *)
(** ** A corpus to run on *)
(* ===================================================================== *)

(** Three records, the first two with the same question; the second one
    carries a [metadata] dict, object 3 of the heap. *)
Definition example_heap : heap :=
  [ [("question", VStr "What is OOP?"); ("unit", VStr "Unknown");
     ("year", VStr "2020"); ("source_file", VStr "a.pdf")];
    [("question", VStr "What is OOP?"); ("unit", VStr "BBIT106");
     ("year", VStr "2019"); ("source_file", VStr "b.pdf");
     ("metadata", VRef 3)];
    [("question", VStr "Define SQL."); ("unit", VStr "BBIT106");
     ("year", VStr "2021"); ("source_file", VStr "c.pdf")];
    [("topic", VStr "objects")] ].

Definition example_corpus : list value := [VRef 0; VRef 1; VRef 2]%nat.

(** The run on it: two records out, and the counts of the report. *)
Example example_run_counts :
  match deduplicate_questions example_corpus example_heap with
  | Ok ((out, rep), _) =>
      (length out, map canonical_index (duplicate_groups rep),
       total_original rep, total_duplicates_found rep,
       total_duplicate_instances rep, total_after_deduplication rep,
       questions_removed rep)
      = (2%nat, [1%nat], 3, 1, 1, 2, 1)
  | Raise _ => False
  end.
Proof. vm_compute. reflexivity. Qed.

(** An absent year sorts after a year that is there. *)
Example absent_year_sorts_last :
  select_canonical_version
    [ [("unit", VStr "BBIT106")];
      [("unit", VStr "BBIT106"); ("year", VStr "2019")] ]
    [VRef 0; VRef 1]%nat [0; 1]%nat
  = Ok (1%nat, VRef 1).
Proof. reflexivity. Qed.

(** Three records from one paper and one from another: two source files,
    four entries. *)
Example source_files_collapse :
  let h := [ [("source_file", VStr "paper_a.pdf")];
             [("source_file", VStr "paper_b.pdf")];
             [("source_file", VStr "paper_a.pdf")];
             [("source_file", VStr "paper_a.pdf")] ] in
  match merge_sources [VRef 0; VRef 1; VRef 2; VRef 3]%nat [0; 1; 2; 3]%nat h with
  | Ok (merged, h') =>
      (py_getitem h' merged "source_pdfs", py_getitem h' merged "all_sources",
       py_getitem h' merged "duplicate_count")
      = (Ok (VList [VStr "paper_a.pdf"; VStr "paper_b.pdf"]),
         Ok (VList [VRef 4; VRef 5; VRef 6; VRef 7]), Ok (VInt 4))
  | Raise _ => False
  end.
Proof. vm_compute. reflexivity. Qed.

(* ===================================================================== *)
(** ** Every index is accounted for once *)
(* ===================================================================== *)

(** Index [i] is dropped from the output as a duplicate: a member of a
    group other than its canonical index. *)
Definition removed (G : list group_audit) (i : nat) : Prop :=
  exists g, In g G /\ In i (duplicate_indices g) /\ i <> canonical_index g.

Lemma Forall2_map_left {A B C} (f : A -> B) (R : B -> C -> Prop) (l : list A) (l' : list C) :
  Forall2 (fun a c => R (f a) c) l l' -> Forall2 R (map f l) l'.
Proof. induction 1; simpl; constructor; auto. Qed.

Lemma canonical_or_removed ts G i :
  groups_of ts G ->
  Forall (fun g => In (canonical_index g) (duplicate_indices g)) G ->
  (i < length ts)%nat ->
  (In i (emitted G (length ts)) /\ ~ removed G i) \/
  (~ In i (emitted G (length ts)) /\ removed G i).
Proof.
  intros S Hc Hlt. rewrite Forall_forall in Hc. unfold emitted.
  destruct (in_group G i) eqn:Hin_g.
  - apply in_group_spec in Hin_g. destruct Hin_g as (g & Hg & Hi).
    pose proof Hg as Hpos. apply In_lookup in Hpos. destruct Hpos as (a & Ha).
    destruct (Nat.eq_dec i (canonical_index g)) as [->|Hne].
    + left. split.
      * apply in_app_iff. left. apply in_map. assumption.
      * intros (g' & Hg' & Hi' & Hne'). apply In_lookup in Hg'.
        destruct Hg' as (b & Hb).
        assert (a = b) by (eapply (groups_disjoint _ _ S); eauto).
        subst b. congruence.
    + right. split; [|exists g; auto].
      intros Hin. apply in_app_iff in Hin. destruct Hin as [Hin|Hin].
      * apply in_map_iff in Hin. destruct Hin as (g' & E & Hg').
        pose proof (Hc _ Hg') as Hmem. rewrite E in Hmem.
        apply In_lookup in Hg'. destruct Hg' as (b & Hb).
        assert (a = b) by (eapply (groups_disjoint _ _ S); eauto).
        subst b. congruence.
      * apply singles_In in Hin. destruct Hin as [_ Hno]. apply Hno. eauto.
  - left. split.
    + apply in_app_iff. right. apply singles_In. split; [assumption|].
      intros Hex. apply in_group_spec in Hex. congruence.
    + intros (g & Hg & Hi & _).
      assert (in_group G i = true) by (apply in_group_spec; eauto). congruence.
Qed.

(* ===================================================================== *)
(** ** The counts of the report *)
(* ===================================================================== *)

(** C9. For every corpus of size N on which [deduplicate_questions]
    returns (it does on every well-formed one), the report satisfies:
    [total_duplicate_instances] is the sum over the groups of (size - 1),
    [total_after_deduplication] is N - [total_duplicate_instances] and is
    the length of the output, and [total_after_deduplication] +
    [questions_removed] is N. The groups of the sum are those
    [find_duplicates] returns on the corpus, [total_duplicates_found] of
    them: each is the set of all the records of one trimmed text, of two
    records or more, no record is in two of them, and every record whose
    text another record has is in one. *)
Theorem report_counts_exact (qs : list value) (h : heap) :
  (well_formed h qs = true ->
   exists out rep h', deduplicate_questions qs h = Ok ((out, rep), h')) /\
  forall out rep h',
    deduplicate_questions qs h = Ok ((out, rep), h') ->
    let G := duplicate_groups rep in
    total_original rep = Z.of_nat (length qs) /\
    total_duplicate_instances rep
    = sum_Z (map (fun g => Z.of_nat (length (duplicate_indices g)) - 1) G) /\
    total_after_deduplication rep = Z.of_nat (length out) /\
    total_after_deduplication rep
    = Z.of_nat (length qs) - total_duplicate_instances rep /\
    total_after_deduplication rep + questions_removed rep
    = Z.of_nat (length qs) /\
    exists ts D,
      texts_in h qs ts /\
      find_duplicates h qs = Ok D /\
      map duplicate_indices G = map snd D /\
      total_duplicates_found rep = Z.of_nat (length G) /\
      total_duplicate_instances rep
      = sum_Z (map (fun p => Z.of_nat (length (snd p)) - 1) D) /\
      (forall g, In g G ->
         (2 <= length (duplicate_indices g))%nat /\
         NoDup (duplicate_indices g) /\
         exists t, forall i, In i (duplicate_indices g) <-> ts !! i = Some t) /\
      (forall a b g1 g2 i,
         G !! a = Some g1 -> G !! b = Some g2 ->
         In i (duplicate_indices g1) -> In i (duplicate_indices g2) -> a = b) /\
      (forall i j t, i <> j -> ts !! i = Some t -> ts !! j = Some t ->
         exists g, In g G /\ In i (duplicate_indices g)).
Proof.
  split; [apply deduplicate_questions_total|].
  intros out rep h' H G.
  destruct (report_counts_of_run _ _ _ _ _ H) as (H1 & H2 & H3 & H4 & H5).
  rewrite <- H1.
  split; [reflexivity|]. split; [assumption|]. split; [assumption|].
  split; [assumption|]. split; [assumption|].
  destruct (deduplicate_questions_run _ _ _ _ _ H) as (ts & canon & so & R).
  pose proof (run_groups_of _ _ _ _ _ _ _ _ R) as S. fold G in S.
  exists ts, (duplicates_of ts).
  split; [apply R|].
  split; [apply find_duplicates_total; apply R|].
  split; [apply R|].
  split.
  { rewrite (run_total_found R). f_equal.
    rewrite <- (length_map snd), <- (run_groups R), length_map. reflexivity. }
  split; [apply R|].
  split.
  { intros g Hg. split; [apply (groups_size _ _ S g Hg)|]. split.
    - apply StronglySorted_lt_NoDup. apply (groups_ascending _ _ S g Hg).
    - apply (groups_text _ _ S g Hg). }
  split; [apply (groups_disjoint _ _ S)|].
  apply (groups_complete _ _ S).
Qed.

Lemma report_counts_exact_witness :
  well_formed example_heap example_corpus = true /\
  exists out rep h',
    deduplicate_questions example_corpus example_heap = Ok ((out, rep), h') /\
    total_after_deduplication rep + questions_removed rep = 3 /\
    map duplicate_indices (duplicate_groups rep) = [[0; 1]%nat].
Proof.
  split; [reflexivity|].
  destruct (proj1 (report_counts_exact example_corpus example_heap) eq_refl)
    as (out & rep & h' & H).
  exists out, rep, h'. split; [exact H|].
  destruct (proj2 (report_counts_exact example_corpus example_heap) out rep h' H)
    as (_ & _ & _ & _ & Hsum & ts & D & _ & Hfind & Hmap & _).
  split; [exact Hsum|].
  rewrite Hmap. vm_compute in Hfind. injection Hfind as <-. reflexivity.
Defined.

(* ===================================================================== *)
(** ** The order of the output *)
(* ===================================================================== *)

(** The first index of a group is the first record with its text. *)
Lemma groups_first ts G g :
  groups_of ts G -> In g G ->
  exists t,
    (forall i, In i (duplicate_indices g) <-> ts !! i = Some t) /\
    ts !! first_of g = Some t /\
    forall j, ts !! j = Some t -> (first_of g <= j)%nat.
Proof.
  intros S Hg. destruct (groups_text _ _ S g Hg) as (t & Ht). exists t.
  split; [assumption|].
  pose proof (groups_size _ _ S g Hg) as Hsz.
  pose proof (groups_ascending _ _ S g Hg) as Hs.
  unfold first_of. destruct (duplicate_indices g) as [|a r]; [simpl in Hsz; lia|].
  simpl. split.
  - apply Ht. left. reflexivity.
  - intros j Hj. apply Ht in Hj. apply StronglySorted_inv in Hs.
    destruct Hs as [_ Hall]. rewrite Forall_forall in Hall.
    destruct Hj as [->|Hj]; [lia|]. specialize (Hall _ Hj). lia.
Qed.

(* ===================================================================== *)
(** ** Records without a question text *)
(* ===================================================================== *)

Fixpoint all_space (s : string) : bool :=
  match s with
  | EmptyString => true
  | String c r => is_space c && all_space r
  end.

(** The question is absent, empty, or whitespace only. *)
Definition blank_question (d : dict) : bool :=
  match dict_get "question" d with
  | None => true
  | Some (VStr s) => all_space s
  | Some _ => false
  end.

Definition blank_at (h : heap) (qs : list value) (i : nat) : Prop :=
  exists l d, qs !! i = Some (VRef l) /\ h !! l = Some d /\
              blank_question d = true.

Lemma lstrip_all_space s : all_space s = true -> lstrip_by is_space s = "".
Proof.
  induction s as [|c r IH]; simpl; [reflexivity|].
  intros H. apply andb_true_iff in H. destruct H as [Hc Hr].
  rewrite Hc. auto.
Qed.

Lemma strip_all_space s : all_space s = true -> strip s = "".
Proof.
  intros H. unfold strip, strip_by. rewrite (lstrip_all_space s H). reflexivity.
Qed.

Lemma blank_question_text h l d :
  h !! l = Some d -> blank_question d = true -> question_text h (VRef l) = Ok "".
Proof.
  intros Hl Hb. unfold question_text, py_get, blank_question in *. simpl.
  rewrite Hl. simpl. destruct (dict_get "question" d) as [[]|]; try discriminate; simpl.
  - rewrite (strip_all_space _ Hb). reflexivity.
  - reflexivity.
Qed.

Lemma texts_in_lookup h qs ts i q :
  texts_in h qs ts -> qs !! i = Some q ->
  exists t, ts !! i = Some t /\ question_text h q = Ok t.
Proof.
  intros H. revert i. induction H as [|q0 t0 qs ts Hq _ IH]; intros [|i] Hi;
    simpl in *; try discriminate.
  - injection Hi as <-. eauto.
  - apply IH. assumption.
Qed.

Lemma blank_at_text h qs ts i :
  texts_in h qs ts -> blank_at h qs i -> ts !! i = Some "".
Proof.
  intros Hts (l & d & Hq & Hl & Hb).
  destruct (texts_in_lookup _ _ _ _ _ Hts Hq) as (t & Ht & Hqt).
  rewrite (blank_question_text _ _ _ Hl Hb) in Hqt. congruence.
Qed.

(* ===================================================================== *)
(** ** The canonical record of a group *)
(* ===================================================================== *)

(** The group of the tie-break example: an unknown unit with the earlier
    year, and a known unit with the later year. *)
Definition tie_heap : heap :=
  [ [("unit", VStr "Unknown"); ("year", VStr "2020")];
    [("unit", VStr "BBIT106"); ("year", VStr "2021")] ].

Definition tie_corpus : list value := [VRef 0; VRef 1]%nat.

Lemma priority_lt_lex u1 y1 m1 u2 y2 m2 :
  priority_lt (u1, y1, m1) (u2, y2, m2) = true <->
  (u1 = false /\ u2 = true) \/
  (u1 = u2 /\ (y1 < y2 \/ (y1 = y2 /\ m1 < m2))).
Proof.
  destruct u1, u2; priority_cases; intuition (try congruence; try lia).
Qed.

Lemma sorted_after (pre post : list nat) (c : nat) :
  StronglySorted lt (pre ++ c :: post) -> forall x, In x post -> (c < x)%nat.
Proof.
  induction pre as [|a pre IH]; simpl; intros Hs x Hx.
  - apply StronglySorted_inv in Hs. destruct Hs as [_ Hall].
    rewrite Forall_forall in Hall. auto.
  - apply StronglySorted_inv in Hs. destruct Hs as [Hs _]. auto.
Qed.

Lemma priority_key_unique h x k k' :
  priority_key h x = Ok k -> priority_key h x = Ok k' -> k = k'.
Proof. congruence. Qed.

(** C2. For every duplicate group [find_duplicates] returns, if the key
    of each member can be computed then [select_canonical_version] returns
    the member that is least for the key (unit is 'Unknown', year, minus
    has-metadata) and, among equal keys, of lowest original index; the key
    orders known units before unknown ones, then smaller years, then records
    with metadata. For the group [{unit: Unknown, year: 2020}, {unit:
    BBIT106, year: 2021}] the canonical index is 1. *)
Theorem canonical_is_least (qs : list value) (h : heap) :
  (forall D t ix,
     find_duplicates h qs = Ok D -> In (t, ix) D ->
     (forall i, In i ix ->
        exists q k, qs !! i = Some q /\ priority_key h (i, q) = Ok k) ->
     exists c q kc,
       select_canonical_version h qs ix = Ok (c, q) /\
       In c ix /\ qs !! c = Some q /\ priority_key h (c, q) = Ok kc /\
       forall i qi ki,
         In i ix -> qs !! i = Some qi -> priority_key h (i, qi) = Ok ki ->
         priority_lt kc ki = true \/ (ki = kc /\ (c <= i)%nat)) /\
  (forall i l d,
     h !! l = Some d -> key_ok (length h) d = true ->
     priority_key h (i, VRef l)
     = Ok (unit_unknown d, year_key (field "year" d),
           - (if has_metadata h d then 1 else 0))) /\
  (forall u1 y1 m1 u2 y2 m2,
     priority_lt (u1, y1, m1) (u2, y2, m2) = true <->
     (u1 = false /\ u2 = true) \/
     (u1 = u2 /\ (y1 < y2 \/ (y1 = y2 /\ m1 < m2)))) /\
  find_duplicates tie_heap tie_corpus = Ok [("", [0; 1]%nat)] /\
  select_canonical_version tie_heap tie_corpus [0; 1]%nat = Ok (1%nat, VRef 1).
Proof.
  split; [|split; [apply priority_key_of|split; [apply priority_lt_lex|split; reflexivity]]].
  intros D t ix Hfind Hin Hkeys.
  destruct (find_duplicates_texts _ _ _ Hfind) as (ts & Hts & ->).
  pose proof (duplicates_of_spec ts) as S.
  pose proof (dup_ascending _ _ S _ _ Hin) as Hasc.
  destruct (select_canonical_total h qs ix) as (c & q & Hsel).
  { pose proof (dup_size _ _ S _ _ Hin). destruct ix; simpl in *; [lia | discriminate]. }
  { assumption. }
  destruct (select_canonical_spec _ _ _ _ _ Hsel)
    as (Hq & kc & pre & post & Hkc & Eix & Hpre & Hpost).
  exists c, q, kc. split; [assumption|].
  split; [rewrite Eix; apply in_elt|]. split; [assumption|]. split; [assumption|].
  intros i qi ki Hi Hqi Hki. rewrite Eix in Hi. apply in_app_iff in Hi.
  destruct Hi as [Hi|[<-|Hi]].
  - left. destruct (Hpre i Hi) as (qi' & ki' & Hqi' & Hki' & Hlt).
    assert (qi' = qi) by congruence. subst.
    rewrite (priority_key_unique _ _ _ _ Hki Hki'). assumption.
  - right. assert (qi = q) by congruence. subst. split; [congruence | lia].
  - destruct (Hpost i Hi) as (qi' & ki' & Hqi' & Hki' & Hnlt).
    assert (qi' = qi) by congruence. subst qi'.
    rewrite <- (priority_key_unique _ _ _ _ Hki Hki') in Hnlt.
    destruct (priority_lt kc ki) eqn:Hlt; [left; reflexivity|].
    right. split; [apply priority_lt_total; assumption|].
    rewrite Eix in Hasc. pose proof (sorted_after _ _ _ Hasc i Hi). lia.
Qed.

Lemma canonical_is_least_witness :
  exists c q kc,
    select_canonical_version tie_heap tie_corpus [0; 1]%nat = Ok (c, q) /\
    In c [0; 1]%nat /\ tie_corpus !! c = Some q /\
    priority_key tie_heap (c, q) = Ok kc /\
    forall i qi ki,
      In i [0; 1]%nat -> tie_corpus !! i = Some qi ->
      priority_key tie_heap (i, qi) = Ok ki ->
      priority_lt kc ki = true \/ (ki = kc /\ (c <= i)%nat).
Proof.
  apply (proj1 (canonical_is_least tie_corpus tie_heap) [("", [0; 1]%nat)] "").
  - reflexivity.
  - left. reflexivity.
  - intros i [<-|[<-|[]]].
    + exists (VRef 0), (true, 2020, 0). split; reflexivity.
    + exists (VRef 1), (false, 2021, 0). split; reflexivity.
Defined.

(* ===================================================================== *)
(** ** The year of a record in the comparison *)
(* ===================================================================== *)

(** Two records with the same question; the year of the second one is no
    decimal literal. *)
Definition unparsed_heap : heap :=
  [ [("question", VStr "What is OOP?"); ("unit", VStr "BBIT106");
     ("year", VStr "2019")];
    [("question", VStr "What is OOP?"); ("unit", VStr "BBIT106");
     ("year", VStr "2019/2020")] ].

Definition unparsed_corpus : list value := [VRef 0; VRef 1]%nat.

(** On a duplicate group with a non-numeric year the selection raises
    [ValueError]. *)
Lemma non_numeric_year_raises :
  find_duplicates unparsed_heap unparsed_corpus = Ok [("What is OOP?", [0; 1]%nat)] /\
  select_canonical_version unparsed_heap unparsed_corpus [0; 1]%nat
  = Raise ValueError.
Proof. split; reflexivity. Qed.

Lemma year_key_falsy v : truthy_scalar v = false -> year_key v = 9999.
Proof. unfold year_key. intros ->. reflexivity. Qed.

Lemma year_key_literal s z :
  is_empty s = false -> parse_int s = Some z -> year_key (VStr s) = z.
Proof. unfold year_key. simpl. intros -> ->. reflexivity. Qed.

Lemma priority_key_non_numeric h i l d s :
  h !! l = Some d -> dict_get "year" d = Some (VStr s) ->
  is_empty s = false -> parse_int s = None ->
  priority_key h (i, VRef l) = Raise ValueError.
Proof.
  intros Hl Hy Hne Hp. unfold priority_key. cbn [snd].
  rewrite (py_get_ref _ _ _ "unit" _ Hl), (py_get_ref _ _ _ "year" VNone Hl),
    (py_get_ref _ _ _ "year" (VInt 9999) Hl).
  rewrite Hy. simpl. rewrite Hne. simpl. rewrite Hp. reflexivity.
Qed.

(** C3, amended. The comparison treats a year that is absent, [None],
    empty or zero as 9999 and reads a decimal literal as its number; on a
    group whose records have such years (and a [metadata] that is absent or
    a dict) [select_canonical_version] returns. A year that is a non-empty
    string and no decimal literal is not treated as 9999: [priority_key]
    raises [ValueError] and the selection fails. *)
Theorem year_sentinel (qs : list value) (h : heap) :
  (forall i l d,
     h !! l = Some d -> key_ok (length h) d = true ->
     exists u m,
       priority_key h (i, VRef l) = Ok (u, year_key (field "year" d), m)) /\
  (forall v, truthy_scalar v = false -> year_key v = 9999) /\
  (forall s z, is_empty s = false -> parse_int s = Some z ->
               year_key (VStr s) = z) /\
  (forall ix,
     ix <> [] ->
     (forall i, In i ix ->
        exists l d, qs !! i = Some (VRef l) /\ h !! l = Some d /\
                    key_ok (length h) d = true) ->
     exists c q, select_canonical_version h qs ix = Ok (c, q)) /\
  (forall i l d s,
     h !! l = Some d -> dict_get "year" d = Some (VStr s) ->
     is_empty s = false -> parse_int s = None ->
     priority_key h (i, VRef l) = Raise ValueError) /\
  (forall ix i l d s,
     In i ix -> qs !! i = Some (VRef l) -> h !! l = Some d ->
     dict_get "year" d = Some (VStr s) ->
     is_empty s = false -> parse_int s = None ->
     exists e, select_canonical_version h qs ix = Raise e).
Proof.
  split; [|split; [apply year_key_falsy|split; [apply year_key_literal|split; [|split]]]].
  - intros i l d Hl Hok. rewrite (priority_key_of _ _ _ _ Hl Hok).
    unfold key_of. eauto.
  - intros ix Hne Hall. apply select_canonical_total; [assumption|].
    intros i Hi. destruct (Hall i Hi) as (l & d & Hq & Hl & Hok).
    exists (VRef l), (key_of h d). split; [assumption|].
    apply priority_key_of; assumption.
  - apply priority_key_non_numeric.
  - intros ix i l d s Hi Hq Hl Hy Hne Hp.
    destruct (select_canonical_version h qs ix) as [[c q]|e] eqn:Hsel; [|eauto].
    exfalso.
    destruct (select_canonical_spec _ _ _ _ _ Hsel)
      as (Hqc & kc & pre & post & Hkc & Eix & Hpre & Hpost).
    pose proof (priority_key_non_numeric h i l d s Hl Hy Hne Hp) as Hraise.
    rewrite Eix in Hi. apply in_app_iff in Hi. destruct Hi as [Hi|[<-|Hi]].
    + destruct (Hpre i Hi) as (qi & ki & Hqi & Hki & _).
      assert (qi = VRef l) by congruence. subst. congruence.
    + assert (q = VRef l) by congruence. subst. congruence.
    + destruct (Hpost i Hi) as (qi & ki & Hqi & Hki & _).
      assert (qi = VRef l) by congruence. subst. congruence.
Qed.

Lemma year_sentinel_witness :
  exists e, select_canonical_version unparsed_heap unparsed_corpus [0; 1]%nat = Raise e.
Proof.
  apply (proj2 (proj2 (proj2 (proj2 (proj2 (year_sentinel unparsed_corpus unparsed_heap)))))
           [0; 1]%nat 1%nat 1%nat
           [("question", VStr "What is OOP?"); ("unit", VStr "BBIT106");
            ("year", VStr "2019/2020")] "2019/2020");
    first [reflexivity | right; left; reflexivity].
Defined.

(* ===================================================================== *)
(** ** Groups of fewer than two indices *)
(* ===================================================================== *)

(** A singleton is accepted by both functions, and so is the empty list by
    [merge_sources]: no error is signalled. *)
Lemma short_group_accepted :
  select_canonical_version example_heap example_corpus [2%nat] = Ok (2%nat, VRef 2) /\
  merge_sources example_corpus [2%nat] example_heap
  = Ok (VRef 5,
        example_heap
          ++ [[("year", VStr "2021"); ("source_file", VStr "c.pdf");
               ("question_number", VNone); ("original_index", VInt 2)];
              [("source_pdfs", VList [VStr "c.pdf"]);
               ("years_found", VList [VStr "2021"]);
               ("all_sources", VList [VRef 4]);
               ("duplicate_count", VInt 1)]]) /\
  merge_sources example_corpus [] example_heap
  = Ok (VRef 4,
        example_heap
          ++ [[("source_pdfs", VList []); ("years_found", VList []);
               ("all_sources", VList []); ("duplicate_count", VInt 0)]]).
Proof. repeat split; reflexivity. Qed.

(** C8, amended. The engine has no InvalidGroup error. On a singleton
    [select_canonical_version] returns its only index with its record, and
    [merge_sources] returns the provenance of that one record with
    [duplicate_count = 1]; on the empty list [merge_sources] returns an
    empty provenance with [duplicate_count = 0], and
    [select_canonical_version] raises the [ValueError] of [min] on an empty
    sequence. *)
Theorem short_groups_not_rejected (qs : list value) (h : heap) :
  select_canonical_version h qs [] = Raise ValueError /\
  merge_sources qs [] h = Ok (VRef (length h), h ++ [merged_dict (length h) [] []]) /\
  dict_get "duplicate_count" (merged_dict (length h) [] []) = Some (VInt 0) /\
  (forall i l d,
     qs !! i = Some (VRef l) -> h !! l = Some d -> key_ok (length h) d = true ->
     select_canonical_version h qs [i] = Ok (i, VRef l)) /\
  (forall i l d,
     qs !! i = Some (VRef l) -> h !! l = Some d -> provenance_ok d = true ->
     merge_sources qs [i] h
     = Ok (VRef (length h + 1),
           h ++ [provenance_entry d i] ++ [merged_dict (length h) [d] [i]]) /\
     dict_get "duplicate_count" (merged_dict (length h) [d] [i]) = Some (VInt 1)).
Proof.
  split; [reflexivity|]. split.
  { rewrite (merge_sources_plain qs [] [] h); [|constructor|constructor].
    simpl. rewrite Nat.add_0_r. reflexivity. }
  split; [reflexivity|]. split.
  - intros i l d Hq Hl Hok. unfold select_canonical_version. simpl.
    unfold py_index. rewrite Hq. simpl.
    rewrite (priority_key_of _ i _ _ Hl Hok). reflexivity.
  - intros i l d Hq Hl Hok. split; [|reflexivity].
    rewrite (merge_sources_plain qs [i] [d] h).
    + reflexivity.
    + constructor; [eauto | constructor].
    + constructor; [assumption | constructor].
Qed.

Lemma short_groups_not_rejected_witness :
  select_canonical_version example_heap example_corpus [2%nat] = Ok (2%nat, VRef 2).
Proof.
  apply (proj1 (proj2 (proj2 (proj2 (short_groups_not_rejected example_corpus example_heap))))
           2%nat 2%nat
           [("question", VStr "Define SQL."); ("unit", VStr "BBIT106");
            ("year", VStr "2021"); ("source_file", VStr "c.pdf")]);
    reflexivity.
Defined.

(* ===================================================================== *)
(** ** The merged provenance of a group *)
(* ===================================================================== *)

(** The order of [sorted] on strings: by code points. *)
Definition str_lt (s t : string) : Prop := String.ltb s t = true.

Lemma str_lt_compare s t : str_lt s t <-> String.compare s t = Lt.
Proof.
  unfold str_lt, String.ltb. destruct (String.compare s t); split; congruence.
Qed.

Lemma str_lt_trans a b c : str_lt a b -> str_lt b c -> str_lt a c.
Proof.
  rewrite !str_lt_compare.
  change String.compare with OrderedTypeEx.String_as_OT.cmp.
  rewrite !OrderedTypeEx.String_as_OT.cmp_lt.
  apply OrderedTypeEx.String_as_OT.lt_trans.
Qed.

Lemma str_lt_irrefl a : ~ str_lt a a.
Proof.
  rewrite str_lt_compare. intros H.
  pose proof (String.compare_antisym a a) as Ha. rewrite H in Ha. discriminate.
Qed.

Lemma str_lt_connected a b : String.ltb a b = false -> a <> b -> str_lt b a.
Proof.
  unfold String.ltb. intros H Hne. apply str_lt_compare.
  rewrite String.compare_antisym.
  destruct (String.compare a b) eqn:E; try discriminate.
  - apply String.compare_eq_iff in E. contradiction.
  - reflexivity.
Qed.

Lemma insert_str_In x l y : In y (insert_str x l) <-> y = x \/ In y l.
Proof.
  induction l as [|a l IH]; simpl; [intuition|].
  destruct (String.ltb x a); simpl; [intuition|]. rewrite IH. intuition.
Qed.

Lemma insert_str_sorted x l :
  StronglySorted str_lt l -> ~ In x l -> StronglySorted str_lt (insert_str x l).
Proof.
  induction l as [|a l IH]; simpl; intros Hs Hnew.
  - repeat constructor.
  - apply StronglySorted_inv in Hs. destruct Hs as [Hs Hall].
    destruct (String.ltb x a) eqn:E.
    + constructor; [constructor; assumption|].
      constructor; [exact E|].
      eapply Forall_impl; [|apply Hall]. intros y Hy.
      eapply str_lt_trans; [exact E | exact Hy].
    + constructor; [apply IH; tauto|].
      apply Forall_forall. intros y Hy. apply insert_str_In in Hy.
      destruct Hy as [->|Hy].
      * apply str_lt_connected; [assumption|]. intros ->. apply Hnew. left. reflexivity.
      * rewrite Forall_forall in Hall. auto.
Qed.

Lemma str_sorted_NoDup l : StronglySorted str_lt l -> NoDup l.
Proof.
  induction l as [|a l IH]; intros Hs; [constructor|].
  apply StronglySorted_inv in Hs. destruct Hs as [Hs Hall].
  constructor; [|auto]. intros Hin. rewrite Forall_forall in Hall.
  apply (str_lt_irrefl a). auto.
Qed.

Lemma sorted_strs_In l y : In y (sorted_strs l) <-> In y l.
Proof.
  unfold sorted_strs. induction l as [|a l IH]; simpl; [tauto|].
  rewrite insert_str_In, IH. intuition.
Qed.

Lemma sorted_strs_sorted l : NoDup l -> StronglySorted str_lt (sorted_strs l).
Proof.
  unfold sorted_strs. induction 1 as [|a l Hnew Hnd IH]; simpl; [constructor|].
  apply insert_str_sorted; [assumption|].
  intros Hin. apply Hnew. apply (sorted_strs_In l a). assumption.
Qed.

Lemma existsb_eqb_str s l : existsb (String.eqb s) l = true <-> In s l.
Proof.
  rewrite existsb_exists. split.
  - intros (x & Hx & E). apply String.eqb_eq in E. congruence.
  - intros H. exists s. split; [assumption | apply String.eqb_refl].
Qed.

Lemma str_set_add_In s l y : In y (str_set_add s l) <-> y = s \/ In y l.
Proof.
  unfold str_set_add. destruct (existsb (String.eqb s) l) eqn:E.
  - apply existsb_eqb_str in E. intuition congruence.
  - rewrite in_app_iff. simpl. intuition.
Qed.

Lemma str_set_add_NoDup s l : NoDup l -> NoDup (str_set_add s l).
Proof.
  intros Hnd. unfold str_set_add. destruct (existsb (String.eqb s) l) eqn:E; [assumption|].
  apply NoDup_app; [assumption | repeat constructor; simpl; tauto|].
  intros a Ha [<-|[]].
  assert (existsb (String.eqb s) l = true) by (apply existsb_eqb_str; assumption).
  congruence.
Qed.

Lemma file_names_spec ds : forall acc,
  NoDup acc ->
  NoDup (fold_left add_file_name ds acc) /\
  forall s, In s (fold_left add_file_name ds acc) <->
            In s acc \/
            (is_empty s = false /\
             exists d, In d ds /\ field "source_file" d = VStr s).
Proof.
  induction ds as [|d ds IH]; simpl; intros acc Hnd.
  - split; [assumption|]. intros s. split; [auto|].
    intros [H|(_ & d & [] & _)]. assumption.
  - assert (Hnd' : NoDup (add_file_name acc d)).
    { unfold add_file_name. destruct (field "source_file" d); try assumption.
      destruct (is_empty s); [assumption | apply str_set_add_NoDup; assumption]. }
    destruct (IH _ Hnd') as [H1 H2]. split; [assumption|].
    intros s. rewrite H2. unfold add_file_name.
    destruct (field "source_file" d) as [| | |t| |] eqn:Ef;
      try (split; [intros [H|(He & d' & Hd' & Hs)]; eauto 8
                  | intros [H|(He & d' & [<-|Hd'] & Hs)]; [auto|congruence|eauto 8]]).
    destruct (is_empty t) eqn:Et.
    + split; [intros [H|(He & d' & Hd' & Hs)]; eauto 8|].
      intros [H|(He & d' & [<-|Hd'] & Hs)]; [auto| |eauto 8].
      rewrite Ef in Hs. injection Hs as ->. congruence.
    + rewrite str_set_add_In. split.
      * intros [[->|H]|(He & d' & Hd' & Hs)]; eauto 8.
      * intros [H|(He & d' & [<-|Hd'] & Hs)]; [auto| |eauto 8].
        rewrite Ef in Hs. injection Hs as ->. auto.
Qed.

Lemma year_names_spec ds : forall acc,
  NoDup acc ->
  NoDup (fold_left add_year ds acc) /\
  forall s, In s (fold_left add_year ds acc) <->
            In s acc \/
            exists d, In d ds /\ truthy_scalar (field "year" d) = true /\
                      s = py_str [] (field "year" d).
Proof.
  induction ds as [|d ds IH]; simpl; intros acc Hnd.
  - split; [assumption|]. intros s. split; [auto|].
    intros [H|(d & [] & _)]. assumption.
  - assert (Hnd' : NoDup (add_year acc d)).
    { unfold add_year. destruct (truthy_scalar (field "year" d));
        [apply str_set_add_NoDup|]; assumption. }
    destruct (IH _ Hnd') as [H1 H2]. split; [assumption|].
    intros s. rewrite H2. unfold add_year.
    destruct (truthy_scalar (field "year" d)) eqn:Et.
    + rewrite str_set_add_In. split.
      * intros [[->|H]|(d' & Hd' & Hs)]; eauto 8.
      * intros [H|(d' & [<-|Hd'] & Ht & Hs)]; eauto 8.
    + split.
      * intros [H|(d' & Hd' & Hs)]; eauto 8.
      * intros [H|(d' & [<-|Hd'] & Ht & Hs)]; [auto|congruence|eauto 8].
Qed.

Lemma provenance_entries_lookup ds : forall indices k d idx,
  ds !! k = Some d -> indices !! k = Some idx ->
  provenance_entries ds indices !! k = Some (provenance_entry d idx).
Proof.
  induction ds as [|d0 ds IH]; intros [|i0 r] [|k] d idx Hd Hi; simpl in *;
    try discriminate.
  - congruence.
  - apply IH; assumption.
Qed.

(** A group whose first record has an empty source file and whose second
    record has an empty year. *)
Definition sparse_heap : heap :=
  [ [("question", VStr "Define SQL."); ("year", VStr "2020");
     ("source_file", VStr "")];
    [("question", VStr "Define SQL."); ("year", VStr "");
     ("source_file", VStr "a.pdf")] ].

Definition sparse_corpus : list value := [VRef 0; VRef 1]%nat.

(** The empty source file and the empty year are present in the records
    and in [all_sources], and are left out of [source_pdfs] and
    [years_found]. *)
Lemma empty_fields_left_out :
  merge_sources sparse_corpus [0; 1]%nat sparse_heap
  = Ok (VRef 4,
        sparse_heap
          ++ [[("year", VStr "2020"); ("source_file", VStr "");
               ("question_number", VNone); ("original_index", VInt 0)];
              [("year", VStr ""); ("source_file", VStr "a.pdf");
               ("question_number", VNone); ("original_index", VInt 1)];
              [("source_pdfs", VList [VStr "a.pdf"]);
               ("years_found", VList [VStr "2020"]);
               ("all_sources", VList [VRef 2; VRef 3]);
               ("duplicate_count", VInt 2)]]).
Proof. reflexivity. Qed.

(** C6, amended. For every group whose records have plain years and
    string-or-absent source files, [merge_sources] returns a dict where
    [all_sources] has one entry per index, in order, with the record's
    year, source file and question number as [q.get] gives them ([None]
    when absent) and the index; [source_pdfs] is the strictly sorted list
    of the distinct non-empty source files, [years_found] the strictly
    sorted list of the distinct [str(year)] over the truthy years (present,
    not [None], not empty, not zero); [duplicate_count] is the number of
    indices. *)
Theorem merged_provenance (qs : list value) (h : heap) (indices : list nat)
    (ds : list (list (string * value))) :
  records_at h qs indices ds ->
  Forall (fun d => provenance_ok d = true) ds ->
  exists pdfs years,
    merge_sources qs indices h
    = Ok (VRef (length h + length indices),
          h ++ provenance_entries ds indices
            ++ [[("source_pdfs", VList (map VStr pdfs));
                 ("years_found", VList (map VStr years));
                 ("all_sources", VList (map VRef (seq (length h) (length indices))));
                 ("duplicate_count", VInt (Z.of_nat (length indices)))]]) /\
    length (provenance_entries ds indices) = length indices /\
    (forall k d idx,
       ds !! k = Some d -> indices !! k = Some idx ->
       provenance_entries ds indices !! k
       = Some [("year", field "year" d); ("source_file", field "source_file" d);
               ("question_number", field "question_number" d);
               ("original_index", VInt (Z.of_nat idx))]) /\
    (forall k d, dict_get k d = None -> field k d = VNone) /\
    StronglySorted str_lt pdfs /\ NoDup pdfs /\
    (forall s, In s pdfs <->
       is_empty s = false /\
       exists d, In d ds /\ field "source_file" d = VStr s) /\
    StronglySorted str_lt years /\ NoDup years /\
    (forall s, In s years <->
       exists d, In d ds /\ truthy_scalar (field "year" d) = true /\
                 s = py_str [] (field "year" d)).
Proof.
  intros Hrec Hok.
  exists (sorted_strs (file_names ds)), (sorted_strs (year_names ds)).
  destruct (file_names_spec ds [] (NoDup_nil _)) as [Fnd Fin].
  destruct (year_names_spec ds [] (NoDup_nil _)) as [Ynd Yin].
  split; [apply (merge_sources_plain qs indices ds h Hrec Hok)|].
  split; [apply provenance_entries_length; symmetry; eapply Forall2_length; eauto|].
  split; [apply provenance_entries_lookup|].
  split; [intros k d Hk; unfold field; rewrite Hk; reflexivity|].
  split; [apply sorted_strs_sorted; assumption|].
  split; [apply str_sorted_NoDup, sorted_strs_sorted; assumption|].
  split.
  { intros s. rewrite sorted_strs_In. unfold file_names. rewrite Fin. simpl. tauto. }
  split; [apply sorted_strs_sorted; assumption|].
  split; [apply str_sorted_NoDup, sorted_strs_sorted; assumption|].
  intros s. rewrite sorted_strs_In. unfold year_names. rewrite Yin. simpl. tauto.
Qed.

Lemma merged_provenance_witness :
  exists pdfs years,
    merge_sources sparse_corpus [0; 1]%nat sparse_heap
    = Ok (VRef 4,
          sparse_heap
            ++ provenance_entries
                 [[("question", VStr "Define SQL."); ("year", VStr "2020");
                   ("source_file", VStr "")];
                  [("question", VStr "Define SQL."); ("year", VStr "");
                   ("source_file", VStr "a.pdf")]] [0; 1]%nat
            ++ [[("source_pdfs", VList (map VStr pdfs));
                 ("years_found", VList (map VStr years));
                 ("all_sources", VList [VRef 2; VRef 3]);
                 ("duplicate_count", VInt 2)]]) /\
    StronglySorted str_lt pdfs /\ StronglySorted str_lt years.
Proof.
  destruct (merged_provenance sparse_corpus sparse_heap [0; 1]%nat
              [[("question", VStr "Define SQL."); ("year", VStr "2020");
                ("source_file", VStr "")];
               [("question", VStr "Define SQL."); ("year", VStr "");
                ("source_file", VStr "a.pdf")]])
    as (pdfs & years & H1 & _ & _ & _ & H2 & _ & _ & H3 & _).
  - repeat constructor; eexists; split; reflexivity.
  - repeat constructor.
  - exists pdfs, years. split; [exact H1|]. split; assumption.
Defined.

(* ===================================================================== *)
(** ** Running on the output of a run *)
(* ===================================================================== *)

(** The JSON document [json.dump] writes for a value. [fuel] bounds the
    nesting of dicts; [dump] gives [JNull] where it runs out, which a heap
    built by [json.load] and a run never reaches with [fuel] its size. *)
Inductive json : Type :=
| JNull
| JBool (b : bool)
| JInt (z : Z)
| JStr (s : string)
| JArr (l : list json)
| JObj (l : list (string * json)).

Fixpoint dump (fuel : nat) (h : heap) : value -> json :=
  fix go (v : value) : json :=
    match v with
    | VNone => JNull
    | VBool b => JBool b
    | VInt z => JInt z
    | VStr s => JStr s
    | VList vs => JArr (map go vs)
    | VRef l =>
        match fuel, h !! l with
        | S fuel', Some d =>
            JObj (map (fun kv : string * value =>
                         (fst kv, dump fuel' h (snd kv))) d)
        | _, _ => JNull
        end
    end.

Definition dump_corpus (h : heap) (out : list value) : json :=
  JArr (map (dump (length h) h) out).

(** Running on the output of the run on [example_corpus]: the second
    output is not the first one, whose canonical record said
    [is_deduplicated = True]. *)
Lemma second_run_differs :
  exists out1 rep1 h1 out2 rep2 h2,
    deduplicate_questions example_corpus example_heap = Ok ((out1, rep1), h1) /\
    deduplicate_questions out1 h1 = Ok ((out2, rep2), h2) /\
    total_duplicates_found rep2 = 0 /\
    dump_corpus h1 out1 <> dump_corpus h2 out2.
Proof.
  do 6 eexists. split; [lazy; reflexivity|]. split; [lazy; reflexivity|].
  split; [reflexivity|]. vm_compute. intros H. congruence.
Qed.

Lemma question_text_dict h l d :
  h !! l = Some d ->
  question_text h (VRef l)
  = py_strip (match dict_get "question" d with Some v => v | None => VStr "" end).
Proof. intros Hl. unfold question_text. rewrite (py_get_ref _ _ _ _ _ Hl). reflexivity. Qed.

Lemma copy_of_text h qs ts h' i v d' :
  texts_in h qs ts -> copy_of h qs h' i v d' ->
  exists t, ts !! i = Some t /\ question_text h' v = Ok t.
Proof.
  intros Hts (l & d & e & Hq & Hl & -> & _ & He & Hs).
  destruct (texts_in_lookup _ _ _ _ _ Hts Hq) as (t & Ht & Hqt).
  exists t. split; [assumption|].
  rewrite (question_text_dict _ _ _ Hl) in Hqt.
  rewrite (question_text_dict _ _ _ He), (Hs "question") by not_a_key. assumption.
Qed.

(** Two emitted indices have different texts. *)
Lemma emitted_distinct_texts ts G i j t :
  groups_of ts G ->
  Forall (fun g => In (canonical_index g) (duplicate_indices g)) G ->
  In i (emitted G (length ts)) -> In j (emitted G (length ts)) ->
  ts !! i = Some t -> ts !! j = Some t -> i = j.
Proof.
  intros S Hc Hi Hj Hti Htj.
  destruct (Nat.eq_dec i j) as [|Hne]; [assumption|]. exfalso.
  destruct (groups_complete _ _ S i j t Hne Hti Htj) as (g & Hg & Hig).
  destruct (groups_text _ _ S g Hg) as (t' & Ht').
  assert (t' = t) as -> by (apply Ht' in Hig; congruence).
  assert (Hjg : In j (duplicate_indices g)) by (apply Ht'; assumption).
  assert (Hcan : forall k, In k (emitted G (length ts)) ->
                           In k (duplicate_indices g) -> k = canonical_index g).
  { intros k Hk Hkg.
    destruct (canonical_or_removed ts G k S Hc) as [[_ Hnr]|[Hnem _]];
      [eapply groups_member_lt; eauto | | contradiction].
    destruct (Nat.eq_dec k (canonical_index g)); [assumption|].
    exfalso. apply Hnr. exists g. auto. }
  apply Hne. rewrite (Hcan i Hi Hig), (Hcan j Hj Hjg). reflexivity.
Qed.

Lemma duplicates_of_distinct ts : NoDup ts -> duplicates_of ts = [].
Proof.
  intros Hnd. pose proof (duplicates_of_spec ts) as S.
  destruct (duplicates_of ts) as [|[t ix] D]; [reflexivity|]. exfalso.
  assert (Hin : In (t, ix) ((t, ix) :: D)) by (left; reflexivity).
  pose proof (dup_size _ _ S _ _ Hin) as Hsz.
  pose proof (StronglySorted_lt_NoDup _ (dup_ascending _ _ S _ _ Hin)) as Hix.
  destruct ix as [|a [|b r]]; simpl in Hsz; try lia.
  assert (Ha : ts !! a = Some t) by (apply (dup_members _ _ S _ _ _ Hin); simpl; auto).
  assert (Hb : ts !! b = Some t) by (apply (dup_members _ _ S _ _ _ Hin); simpl; auto).
  pose proof (NoDup_lookup_eq ts a b t Hnd Ha Hb) as E. subst b.
  inversion Hix as [|? ? Hnot _]; subst. apply Hnot. left. reflexivity.
Qed.

(** Every record of the corpus has a [metadata] dict. *)
Definition with_metadata (h : heap) (qs : list value) : Prop :=
  forall i q, qs !! i = Some q ->
    exists l d m md,
      q = VRef l /\ h !! l = Some d /\
      dict_get "metadata" d = Some (VRef m) /\ h !! m = Some md.

(** [reset_copy h0 h' q v]: [v] is a new object of [h'] with the items
    record [q] has in [h0], but for the key [is_deduplicated]; it shares
    the [metadata] dict of [q], which now says [is_deduplicated = False]
    and is otherwise as it was. *)
Definition reset_copy (h0 h' : heap) (q v : value) : Prop :=
  exists l1 d1 l2 d2 m md1 md2,
    q = VRef l1 /\ h0 !! l1 = Some d1 /\
    v = VRef l2 /\ (length h0 <= l2)%nat /\ h' !! l2 = Some d2 /\
    same_off ["is_deduplicated"] d1 d2 /\
    dict_get "metadata" d1 = Some (VRef m) /\
    h0 !! m = Some md1 /\ h' !! m = Some md2 /\
    same_off ["is_deduplicated"] md1 md2 /\
    dict_get "is_deduplicated" md2 = Some (VBool false).

Lemma reset_copy_flag_frame h0 h1 h2 q v :
  reset_copy h0 h1 q v -> flag_frame h1 h2 -> reset_copy h0 h2 q v.
Proof.
  intros (l1 & d1 & l2 & d2 & m & md1 & md2 & -> & Hl1 & -> & Hl & Hd2 & Hs & Hm
          & Hmd1 & Hmd2 & Hsm & Hflag) [_ F].
  destruct (F _ _ Hd2) as (d3 & Hd3 & Hs3 & _).
  destruct (F _ _ Hmd2) as (md3 & Hmd3 & Hsm3 & Hkeep).
  exists l1, d1, l2, d3, m, md1, md3. repeat split; auto.
  - eapply same_off_trans; eauto.
  - eapply same_off_trans; eauto.
Qed.

Lemma keep_single_reset h0 qs i ded h ded' h' :
  with_metadata h0 qs -> flag_frame h0 h ->
  keep_single qs [] i ded h = Ok (ded', h') ->
  flag_frame h h' /\
  exists q v, qs !! i = Some q /\ ded' = ded ++ [v] /\ reset_copy h0 h' q v.
Proof.
  intros Hmeta F0 H. unfold keep_single in H. simpl in H.
  apply bind_ok in H. destruct H as (q0 & hx & Hq & H).
  apply reading_ok in Hq. destruct Hq as [Hq ->].
  unfold py_index in Hq. destruct (qs !! i) as [q|] eqn:Hi; [|discriminate].
  injection Hq as ->.
  destruct (Hmeta i _ Hi) as (l & d0 & m & md0 & -> & Hl0 & Hm0 & Hmd0).
  destruct F0 as [L0 F0']. destruct (F0' _ _ Hl0) as (d & Hl & Hs0 & _).
  destruct (F0' _ _ Hmd0) as (md & Hmd & Hsm & _).
  apply bind_ok in H. destruct H as (q & h1 & Hcopy & H).
  apply py_copy_ref_ok in Hcopy. destruct Hcopy as (d1 & Hl1 & -> & ->).
  assert (d1 = d) as -> by congruence.
  apply bind_ok in H. destruct H as ([] & h2 & Hens & H).
  apply bind_ok in H. destruct H as ([] & h3 & Hset & H).
  apply ret_ok in H. destruct H as [-> ->].
  assert (Hmd_d : dict_get "metadata" d = Some (VRef m)).
  { rewrite Hs0 by not_a_key. assumption. }
  assert (He : (h ++ [d]) !! length h = Some d).
  { rewrite lookup_app_r by lia. rewrite Nat.sub_diag. reflexivity. }
  assert (h2 = h ++ [d]) as ->.
  { unfold ensure_metadata, bind, reading in Hens. simpl in Hens.
    rewrite He in Hens. unfold dict_has in Hens. rewrite Hmd_d in Hens.
    unfold ret in Hens. congruence. }
  apply set_metadata_ok in Hset.
  destruct Hset as (e & de & m' & md' & [= <-] & Hde & Hm' & Hmd' & ->).
  assert (de = d) as -> by congruence.
  assert (m' = m) as -> by congruence.
  pose proof (lookup_lt_Some _ _ _ Hmd) as Hmlt.
  assert (md' = md) as ->.
  { rewrite lookup_app_l in Hmd' by assumption. congruence. }
  assert (F3 : flag_frame h (<[m := dict_set "is_deduplicated" (VBool false) md]> (h ++ [d]))).
  { eapply evolves_set.
    - apply flag_rel_trans.
    - apply flag_frame_of_prefix. intros l' x Hx. apply lookup_app_l_Some. eassumption.
    - apply lookup_app_l_Some. eassumption.
    - apply flag_rel_set. }
  split; [assumption|].
  exists (VRef l), (VRef (length h)). split; [reflexivity|]. split; [reflexivity|].
  exists l, d0, (length h), d, m, md0, (dict_set "is_deduplicated" (VBool false) md).
  split; [reflexivity|]. split; [assumption|]. split; [reflexivity|].
  split; [assumption|]. split.
  { rewrite list_lookup_insert_ne by lia. assumption. }
  split; [assumption|]. split; [assumption|]. split; [assumption|]. split.
  { apply list_lookup_insert_eq. rewrite length_app. lia. }
  split.
  - eapply same_off_trans; [apply Hsm|]. apply same_off_set. left. reflexivity.
  - apply dict_get_set_eq.
Qed.

Lemma keep_singles_reset h0 qs : forall kept ded h ded' h',
  with_metadata h0 qs -> flag_frame h0 h ->
  keep_singles qs [] kept ded h = Ok (ded', h') ->
  exists vs,
    ded' = ded ++ vs /\ flag_frame h h' /\
    Forall2 (fun i v => exists q, qs !! i = Some q /\ reset_copy h0 h' q v) kept vs.
Proof.
  induction kept as [|i kept IH]; simpl; intros ded h ded' h' Hmeta F0 H.
  - apply ret_ok in H. destruct H as [-> ->]. exists [].
    rewrite app_nil_r. split; [reflexivity|]. split; [apply flag_frame_refl | constructor].
  - apply bind_ok in H. destruct H as (ded1 & h1 & Hstep & H).
    destruct (keep_single_reset _ _ _ _ _ _ _ Hmeta F0 Hstep)
      as (F1 & q & v & Hq & -> & Hreset).
    destruct (IH _ _ _ _ Hmeta (flag_frame_trans _ _ _ F0 F1) H)
      as (vs & -> & F2 & Hrest).
    exists (v :: vs). rewrite <- app_assoc. split; [reflexivity|].
    split; [eapply flag_frame_trans; eauto|].
    constructor; [|assumption]. exists q. split; [assumption|].
    eapply reset_copy_flag_frame; eauto.
Qed.

Lemma Forall2_over_seq {A B} (P : A -> B -> Prop) (l : list A) : forall pre vs,
  Forall2 (fun i v => exists q, (pre ++ l) !! i = Some q /\ P q v)
          (seq (length pre) (length l)) vs ->
  Forall2 P l vs.
Proof.
  induction l as [|a l IH]; simpl; intros pre vs H.
  - inversion H. constructor.
  - inversion H as [|i v is' vs' (q & Hq & HP) Hrest]; subst.
    rewrite lookup_app_r in Hq by lia. rewrite Nat.sub_diag in Hq.
    simpl in Hq. injection Hq as <-. constructor; [assumption|].
    apply (IH (pre ++ [a])). rewrite length_app. simpl.
    replace (length pre + 1)%nat with (S (length pre)) by lia.
    rewrite <- app_assoc. assumption.
Qed.

(** The records of the output of a run: new objects, each with a
    [metadata] dict, and with the text of the record it was copied from. *)
Lemma run_output_records h qs out rep h' ts canon single_out :
  run_of h qs out rep h' ts canon single_out ->
  Forall2 (fun i v => exists d' m md,
             copy_of h qs h' i v d' /\
             dict_get "metadata" d' = Some (VRef m) /\ h' !! m = Some md)
          (emitted (duplicate_groups rep) (length qs)) out.
Proof.
  intros R. rewrite (run_output R). unfold emitted.
  apply Forall2_app.
  - apply Forall2_map_left.
    generalize (run_canonical_records R). apply Forall2_impl.
    intros g v (d' & m & md & Hcopy & _ & Hm & Hmd). eauto 6.
  - generalize (run_single_records R). apply Forall2_impl.
    intros i v (d' & m & md & Hcopy & Hm & Hmd & _). eauto 6.
Qed.

Lemma texts_of_copies h qs ts h' :
  texts_in h qs ts ->
  forall ixs out,
    Forall2 (fun i v => exists d' m md,
               copy_of h qs h' i v d' /\
               dict_get "metadata" d' = Some (VRef m) /\ h' !! m = Some md)
            ixs out ->
    exists ts1,
      texts_in h' out ts1 /\ Forall2 (fun i t => ts !! i = Some t) ixs ts1.
Proof.
  intros Hts ixs out Hrec.
  induction Hrec as [|i v is' vs (d' & m & md & Hcopy & _) _ IH].
  - exists []. split; constructor.
  - destruct IH as (ts1 & H1 & H2).
    destruct (copy_of_text _ _ _ _ _ _ _ Hts Hcopy) as (t & Ht & Hqt).
    exists (t :: ts1). split; constructor; assumption.
Qed.

Lemma run_output_texts h qs out rep h' ts canon single_out :
  run_of h qs out rep h' ts canon single_out ->
  exists ts1, texts_in h' out ts1 /\ NoDup ts1.
Proof.
  intros R. pose proof (run_output_records _ _ _ _ _ _ _ _ R) as Hrec.
  pose proof (run_groups_of _ _ _ _ _ _ _ _ R) as S.
  pose proof (run_canonical R) as Hc.
  pose proof (run_texts R) as Hts.
  pose proof (texts_in_length _ _ _ Hts) as Hn.
  pose proof (emitted_NoDup ts _ S Hc) as Hnd. rewrite Hn in Hnd.
  destruct (texts_of_copies _ _ _ _ Hts _ _ Hrec) as (ts1 & Hts1 & Hem).
  exists ts1. split; [assumption|].
  apply NoDup_ListNoDup. apply NoDup_alt. intros a b t Ha Hb.
  destruct (Forall2_lookup_r _ _ _ _ _ Hem Ha) as (i & Hi & Hti).
  destruct (Forall2_lookup_r _ _ _ _ _ Hem Hb) as (j & Hj & Htj).
  assert (i = j).
  { eapply (emitted_distinct_texts ts _ i j t S Hc); try eassumption;
      rewrite Hn; apply In_lookup; eauto. }
  subst j. eapply NoDup_lookup_eq; eauto.
Qed.

(** C5, amended. The output of a run holds no two records of the same
    trimmed question text. Running [deduplicate_questions] on it
    returns, finds no duplicate group, and gives an output of the same
    length and order in which each record is a new copy of the
    corresponding input record sharing its [metadata] dict; the copy and
    that dict are equal to the input's except at [is_deduplicated], which
    is now [False] for every record, also for the records that said [True]
    after the first run. *)
Theorem second_run_resets_flags (qs : list value) (h : heap)
    (out1 : list value) (rep1 : report) (h1 : heap) :
  deduplicate_questions qs h = Ok ((out1, rep1), h1) ->
  (exists ts1, texts_in h1 out1 ts1 /\ NoDup ts1) /\
  exists out2 rep2 h2,
    deduplicate_questions out1 h1 = Ok ((out2, rep2), h2) /\
    duplicate_groups rep2 = [] /\
    total_duplicates_found rep2 = 0 /\
    total_after_deduplication rep2 = Z.of_nat (length out1) /\
    Forall2 (reset_copy h1 h2) out1 out2 /\
    flag_frame h1 h2.
Proof.
  intros H. destruct (deduplicate_questions_run _ _ _ _ _ H) as (ts & canon & so & R).
  pose proof (run_output_records _ _ _ _ _ _ _ _ R) as Hrec.
  destruct (run_output_texts _ _ _ _ _ _ _ _ R) as (ts1 & Hts1 & Hnd).
  assert (Hmeta : with_metadata h1 out1).
  { intros k v Hk. destruct (Forall2_lookup_r _ _ _ _ _ Hrec Hk)
      as (i & _ & d' & m & md & (l & d & e & _ & _ & -> & _ & He & _) & Hm & Hmd).
    exists e, d', m, md. auto. }
  assert (Hcopyable : copyable h1 out1).
  { intros k v Hk. destruct (Hmeta k v Hk) as (l & d & m & md & -> & Hl & Hm & Hmd).
    exists l, d. split; [reflexivity|]. split; [assumption|].
    rewrite Hm. simpl. apply Nat.ltb_lt. eapply lookup_lt_Some; eauto. }
  pose proof (find_duplicates_total _ _ _ Hts1) as Hfind.
  rewrite (duplicates_of_distinct _ Hnd) in Hfind.
  pose proof (sorted_nats_sorted _ (StronglySorted_seq 0 (length out1))) as Hsorted.
  destruct (keep_singles_total out1 [] (seq 0 (length out1)) [] h1 Hcopyable)
    as (out2 & h2 & Hkeep).
  { intros i Hi. apply in_seq in Hi. lia. }
  destruct (keep_singles_reset h1 out1 _ _ _ _ _ Hmeta (flag_frame_refl h1) Hkeep)
    as (vs & E & F & Hreset).
  simpl in E. subst vs.
  pose proof (Forall2_over_seq (reset_copy h1 h2) out1 [] out2 Hreset) as Hall.
  split; [eauto|].
  eexists out2, _, h2. split.
  { unfold deduplicate_questions, bind, reading. rewrite Hfind.
    simpl. unfold discard_groups. simpl. rewrite Hsorted.
    unfold bind in Hkeep. rewrite Hkeep. reflexivity. }
  simpl. split; [reflexivity|]. split; [reflexivity|].
  split; [|split; assumption].
  f_equal. symmetry. eapply Forall2_length; eauto.
Qed.

Lemma second_run_resets_flags_witness :
  exists out1 rep1 h1 out2 rep2 h2,
    deduplicate_questions example_corpus example_heap = Ok ((out1, rep1), h1) /\
    deduplicate_questions out1 h1 = Ok ((out2, rep2), h2) /\
    duplicate_groups rep2 = [] /\ Forall2 (reset_copy h1 h2) out1 out2.
Proof.
  destruct (deduplicate_questions example_corpus example_heap)
    as [[[out1 rep1] h1]|e] eqn:E; [|vm_compute in E; discriminate].
  destruct (second_run_resets_flags _ _ _ _ _ E)
    as (_ & out2 & rep2 & h2 & H2 & Hg & _ & _ & Hall & _).
  exists out1, rep1, h1, out2, rep2, h2. auto.
Defined.

(* ===================================================================== *)
(** ** The input corpus after a run *)
(* ===================================================================== *)

(** C7, at its failing input. The second record of [example_corpus]
    carries the [metadata] dict [{"topic": "objects"}], object 3 of the
    heap. It is the canonical record of its group; the run writes the
    merged provenance through the shallow copy into that very dict, so the
    input record no longer carries the dict it came with. *)
Theorem input_metadata_mutated :
  exists out rep h',
    deduplicate_questions example_corpus example_heap = Ok ((out, rep), h') /\
    dict_get "metadata" (nth 1 example_heap []) = Some (VRef 3) /\
    example_heap !! 3%nat = Some [("topic", VStr "objects")] /\
    h' !! 3%nat
    = Some [("topic", VStr "objects");
            ("source_pdfs", VList [VStr "a.pdf"; VStr "b.pdf"]);
            ("years_found", VList [VStr "2019"; VStr "2020"]);
            ("is_deduplicated", VBool true);
            ("duplicate_count", VInt 2)].
Proof.
  do 3 eexists. split; [lazy; reflexivity|]. repeat split; reflexivity.
Qed.

(** What a run does leave alone: every object of the input heap keeps its
    items at the keys other than the four the script writes into a
    [metadata] dict. *)
Lemma input_items_kept qs h out rep h' :
  deduplicate_questions qs h = Ok ((out, rep), h') -> frame h h'.
Proof.
  intros H. destruct (deduplicate_questions_run _ _ _ _ _ H) as (ts & canon & so & R).
  apply R.
Qed.

(* ===================================================================== *)
(** ** [find_duplicates] on its own *)
(* ===================================================================== *)

(** X1. The table [find_duplicates] returns: its keys are the trimmed texts
    that two or more records have, each once and in the order in which the
    texts are first met; the value at a key lists, in ascending order, every
    index whose record has that text. *)
Theorem find_duplicates_groups (h : heap) (qs : list value) (D : texts) :
  find_duplicates h qs = Ok D ->
  exists ts,
    texts_in h qs ts /\
    NoDup (map fst D) /\
    (forall t ix, In (t, ix) D ->
       (2 <= length ix)%nat /\ StronglySorted lt ix /\
       forall i, In i ix <-> ts !! i = Some t) /\
    (forall i j t, i <> j -> ts !! i = Some t -> ts !! j = Some t ->
       exists ix, In (t, ix) D) /\
    StronglySorted lt (map first_index D).
Proof.
  intros Hfind.
  destruct (find_duplicates_texts _ _ _ Hfind) as (ts & Hts & ->).
  pose proof (duplicates_of_spec ts) as S.
  exists ts. split; [assumption|]. split; [apply S|]. split; [|split; apply S].
  intros t ix Hin. split; [eapply dup_size; eauto|].
  split; [eapply dup_ascending; eauto|].
  intros i. eapply dup_members; eauto.
Qed.

Lemma find_duplicates_groups_witness :
  exists ts,
    texts_in example_heap example_corpus ts /\
    NoDup (map fst [("What is OOP?", [0; 1]%nat)]) /\
    (forall t ix, In (t, ix) [("What is OOP?", [0; 1]%nat)] ->
       (2 <= length ix)%nat /\ StronglySorted lt ix /\
       forall i, In i ix <-> ts !! i = Some t) /\
    (forall i j t, i <> j -> ts !! i = Some t -> ts !! j = Some t ->
       exists ix, In (t, ix) [("What is OOP?", [0; 1]%nat)]) /\
    StronglySorted lt (map first_index [("What is OOP?", [0; 1]%nat)]).
Proof.
  apply (find_duplicates_groups example_heap example_corpus). reflexivity.
Defined.

(** A record the scan can read: a dict whose question is a string, or
    absent. *)
Definition text_ok (h : heap) (q : value) : bool :=
  match q with
  | VRef l => match h !! l with
              | Some d => question_ok (dict_get "question" d)
              | None => false
              end
  | _ => false
  end.

(** Every reference of the corpus is to an object of the heap. *)
Definition valid_refs (h : heap) (qs : list value) : Prop :=
  forall l, In (VRef l) qs -> (l < length h)%nat.

Lemma question_text_text_ok h q :
  text_ok h q = true -> exists t, question_text h q = Ok t.
Proof.
  destruct q; simpl; try discriminate.
  destruct (h !! l) as [d|] eqn:Hl; [|discriminate].
  intros Hq. eapply question_text_ok; eauto.
Qed.

Lemma question_text_not_ok h q :
  (forall l, q = VRef l -> (l < length h)%nat) ->
  text_ok h q = false -> question_text h q = Raise AttributeError.
Proof.
  intros Hv. unfold question_text, py_get.
  destruct q; simpl; try reflexivity.
  destruct (lookup_lt_is_Some_2 h l (Hv l eq_refl)) as [d Hl]. rewrite Hl. simpl.
  destruct (dict_get "question" d) as [[]|]; simpl; try discriminate; reflexivity.
Qed.

Lemma scan_questions_raises h qs : forall i acc,
  valid_refs h qs -> forallb (text_ok h) qs = false ->
  scan_questions h qs i acc = Raise AttributeError.
Proof.
  induction qs as [|q qs IH]; simpl; intros i acc Hv Hall; [discriminate|].
  destruct (text_ok h q) eqn:Hq.
  - destruct (question_text_text_ok _ _ Hq) as (t & ->). simpl.
    apply IH; [|assumption]. intros l Hl. apply Hv. right. assumption.
  - rewrite question_text_not_ok; [reflexivity| |assumption].
    intros l ->. apply Hv. left. reflexivity.
Qed.

Lemma texts_in_text_ok h qs :
  forallb (text_ok h) qs = true -> exists ts, texts_in h qs ts.
Proof.
  induction qs as [|q qs IH]; simpl; intros Hall.
  - exists []. constructor.
  - apply andb_true_iff in Hall. destruct Hall as [Hq Hall].
    destruct (question_text_text_ok _ _ Hq) as (t & Ht).
    destruct (IH Hall) as (ts & Hts). exists (t :: ts). constructor; assumption.
Qed.

(** X2. [find_duplicates] returns exactly when every record is a dict whose
    question is a string or is absent. A record whose question is [None],
    a number, a list or a dict, or an item of the corpus that is no dict,
    makes it raise [AttributeError], and [deduplicate_questions] with it. *)
Theorem find_duplicates_needs_texts (h : heap) (qs : list value) :
  valid_refs h qs ->
  (forallb (text_ok h) qs = true -> exists D, find_duplicates h qs = Ok D) /\
  (forallb (text_ok h) qs = false ->
     find_duplicates h qs = Raise AttributeError /\
     deduplicate_questions qs h = Raise AttributeError).
Proof.
  intros Hv. split.
  - intros Hall. destruct (texts_in_text_ok _ _ Hall) as (ts & Hts).
    exists (duplicates_of ts). apply find_duplicates_total. assumption.
  - intros Hall.
    assert (E : find_duplicates h qs = Raise AttributeError).
    { unfold find_duplicates. rewrite scan_questions_raises by assumption.
      reflexivity. }
    split; [assumption|].
    unfold deduplicate_questions, bind, reading. rewrite E. reflexivity.
Qed.

(** A corpus whose second record has the question [None]. *)
Definition null_question_heap : heap :=
  [ [("question", VStr "What is OOP?")]; [("question", VNone)] ].

Lemma find_duplicates_needs_texts_witness :
  find_duplicates null_question_heap [VRef 0; VRef 1]%nat = Raise AttributeError /\
  deduplicate_questions [VRef 0; VRef 1]%nat null_question_heap
  = Raise AttributeError.
Proof.
  apply (find_duplicates_needs_texts null_question_heap [VRef 0; VRef 1]%nat).
  - intros l [[= <-]|[[= <-]|[]]]; simpl; lia.
  - reflexivity.
Defined.

(** *** Whitespace around a question *)

Lemma lstrip_spaces_app ws s :
  all_space ws = true -> lstrip_by is_space (ws ++ s)%string = lstrip_by is_space s.
Proof.
  induction ws as [|c r IH]; simpl; intros H; [reflexivity|].
  apply andb_true_iff in H. destruct H as [-> H]. auto.
Qed.

Lemma rstrip_spaces ws : all_space ws = true -> rstrip_by is_space ws = "".
Proof.
  induction ws as [|c r IH]; simpl; intros H; [reflexivity|].
  apply andb_true_iff in H. destruct H as [-> H]. rewrite (IH H). reflexivity.
Qed.

Lemma rstrip_app_spaces s ws :
  all_space ws = true -> rstrip_by is_space (s ++ ws)%string = rstrip_by is_space s.
Proof.
  intros H. induction s as [|c r IH]; simpl.
  - apply rstrip_spaces. assumption.
  - rewrite IH. reflexivity.
Qed.

Lemma lstrip_app s ws :
  lstrip_by is_space (s ++ ws)%string
  = if all_space s then lstrip_by is_space ws else (lstrip_by is_space s ++ ws)%string.
Proof.
  induction s as [|c r IH]; simpl; [reflexivity|].
  destruct (is_space c); simpl; [apply IH | reflexivity].
Qed.

Lemma strip_padding (ws1 s ws2 : string) :
  all_space ws1 = true -> all_space ws2 = true -> strip (ws1 ++ s ++ ws2)%string = strip s.
Proof.
  intros H1 H2. unfold strip, strip_by.
  rewrite (lstrip_spaces_app _ _ H1), lstrip_app.
  destruct (all_space s) eqn:Hs.
  - rewrite (lstrip_all_space _ H2), (lstrip_all_space _ Hs). reflexivity.
  - apply rstrip_app_spaces. assumption.
Qed.

Lemma lstrip_head s c r :
  lstrip_by is_space s = String c r -> is_space c = false.
Proof.
  induction s as [|c' r' IH]; simpl; [discriminate|].
  destruct (is_space c') eqn:E; [assumption|]. intros [= <- <-]. assumption.
Qed.

Lemma rstrip_idem s : rstrip_by is_space (rstrip_by is_space s) = rstrip_by is_space s.
Proof.
  induction s as [|c r IH]; simpl; [reflexivity|].
  destruct (is_space c && is_empty (rstrip_by is_space r)) eqn:E; simpl.
  - reflexivity.
  - rewrite IH, E. reflexivity.
Qed.

Lemma strip_idem s : strip (strip s) = strip s.
Proof.
  unfold strip, strip_by.
  destruct (lstrip_by is_space s) as [|c r] eqn:E; [reflexivity|].
  pose proof (lstrip_head _ _ _ E) as Hc. simpl. rewrite Hc. simpl. rewrite Hc.
  simpl. rewrite rstrip_idem. rewrite Hc. reflexivity.
Qed.

(** X3. The grouping does not see the whitespace around a question: a record
    whose question is [s] with whitespace before and after has the text of
    a record whose question is [s], so the two are duplicates of each other;
    and the text a record is grouped under is itself trimmed. *)
Theorem padding_ignored (h : heap) (qs : list value) :
  (forall l1 d1 l2 d2 ws1 s ws2,
     h !! l1 = Some d1 -> h !! l2 = Some d2 ->
     dict_get "question" d1 = Some (VStr s) ->
     dict_get "question" d2 = Some (VStr (ws1 ++ s ++ ws2)%string) ->
     all_space ws1 = true -> all_space ws2 = true ->
     question_text h (VRef l1) = Ok (strip s) /\
     question_text h (VRef l2) = Ok (strip s)) /\
  (forall q t, question_text h q = Ok t -> strip t = t) /\
  (forall D i j l1 d1 l2 d2 ws1 s ws2,
     find_duplicates h qs = Ok D -> i <> j ->
     qs !! i = Some (VRef l1) -> qs !! j = Some (VRef l2) ->
     h !! l1 = Some d1 -> h !! l2 = Some d2 ->
     dict_get "question" d1 = Some (VStr s) ->
     dict_get "question" d2 = Some (VStr (ws1 ++ s ++ ws2)%string) ->
     all_space ws1 = true -> all_space ws2 = true ->
     exists ix, In (strip s, ix) D /\ In i ix /\ In j ix).
Proof.
  assert (Hpad : forall l1 d1 l2 d2 ws1 s ws2,
     h !! l1 = Some d1 -> h !! l2 = Some d2 ->
     dict_get "question" d1 = Some (VStr s) ->
     dict_get "question" d2 = Some (VStr (ws1 ++ s ++ ws2)%string) ->
     all_space ws1 = true -> all_space ws2 = true ->
     question_text h (VRef l1) = Ok (strip s) /\
     question_text h (VRef l2) = Ok (strip s)).
  { intros l1 d1 l2 d2 ws1 s ws2 Hl1 Hl2 Hq1 Hq2 H1 H2.
    unfold question_text, py_get. simpl. rewrite Hl1, Hl2. simpl.
    rewrite Hq1, Hq2. simpl. rewrite strip_padding by assumption. auto. }
  split; [exact Hpad|]. split.
  - intros q t H. unfold question_text in H. apply rbind_ok in H.
    destruct H as (v & _ & Hv). destruct v; try discriminate.
    injection Hv as <-. apply strip_idem.
  - intros D i j l1 d1 l2 d2 ws1 s ws2 Hfind Hne Hi Hj Hl1 Hl2 Hq1 Hq2 H1 H2.
    destruct (Hpad _ _ _ _ _ _ _ Hl1 Hl2 Hq1 Hq2 H1 H2) as [T1 T2].
    destruct (find_duplicates_texts _ _ _ Hfind) as (ts & Hts & ->).
    destruct (texts_in_lookup _ _ _ _ _ Hts Hi) as (t1 & Ht1 & E1).
    destruct (texts_in_lookup _ _ _ _ _ Hts Hj) as (t2 & Ht2 & E2).
    assert (t1 = strip s) as -> by congruence.
    assert (t2 = strip s) as -> by congruence.
    pose proof (duplicates_of_spec ts) as S.
    destruct (dup_complete _ _ S i j _ Hne Ht1 Ht2) as (ix & Hix).
    exists ix. split; [assumption|].
    split; apply (dup_members _ _ S _ _ _ Hix); assumption.
Qed.

(** Two records with the same question, one of them padded. *)
Definition padded_heap : heap :=
  [ [("question", VStr "What is OOP?")];
    [("question", VStr "  What is OOP? ")] ].

Lemma padding_ignored_witness :
  exists ix,
    In (strip "What is OOP?", ix) [("What is OOP?", [0; 1]%nat)] /\
    In 0%nat ix /\ In 1%nat ix.
Proof.
  destruct (padding_ignored padded_heap [VRef 0; VRef 1]%nat) as (_ & _ & H).
  apply (H [("What is OOP?", [0; 1]%nat)] 0%nat 1%nat
           0%nat [("question", VStr "What is OOP?")]
           1%nat [("question", VStr "  What is OOP? ")]
           "  " "What is OOP?" " ");
    try reflexivity. lia.
Defined.

(* ===================================================================== *)
(** ** A year given as a number or as its text *)
(* ===================================================================== *)

(** The value of a sequence of decimal digits read after [acc]. *)
Fixpoint horner (d : Decimal.uint) (acc : Z) : Z :=
  match d with
  | Decimal.Nil => acc
  | Decimal.D0 l => horner l (10 * acc)
  | Decimal.D1 l => horner l (10 * acc + 1)
  | Decimal.D2 l => horner l (10 * acc + 2)
  | Decimal.D3 l => horner l (10 * acc + 3)
  | Decimal.D4 l => horner l (10 * acc + 4)
  | Decimal.D5 l => horner l (10 * acc + 5)
  | Decimal.D6 l => horner l (10 * acc + 6)
  | Decimal.D7 l => horner l (10 * acc + 7)
  | Decimal.D8 l => horner l (10 * acc + 8)
  | Decimal.D9 l => horner l (10 * acc + 9)
  end.

Lemma horner_acc d : forall p,
  horner d (Z.pos p) = Z.pos (Pos.of_uint_acc d p).
Proof.
  induction d; intros p; cbn [horner Pos.of_uint_acc]; try reflexivity;
    match goal with
    | |- horner _ ?a = Z.pos (Pos.of_uint_acc _ ?q) =>
        replace a with (Z.pos q) by lia; apply IHd
    end.
Qed.

Lemma horner_of_uint d : horner d 0 = Z.of_uint d.
Proof.
  unfold Z.of_uint. induction d; cbn [horner Pos.of_uint]; try reflexivity;
    try (apply (horner_acc d)). exact IHd.
Qed.

Lemma parse_digits_uint d : forall acc,
  parse_digits (NilEmpty.string_of_uint d) acc true = Some (horner d acc).
Proof.
  induction d; intros acc; cbn [NilEmpty.string_of_uint parse_digits horner];
    try reflexivity;
    match goal with
    | |- context [digit_of ?c] =>
        let v := eval vm_compute in (digit_of c) in change (digit_of c) with v
    end;
    cbv beta iota; rewrite IHd; f_equal; f_equal; lia.
Qed.

Lemma parse_digits_start d :
  d <> Decimal.Nil ->
  parse_digits (NilEmpty.string_of_uint d) 0 false = Some (horner d 0).
Proof.
  destruct d; intros Hne; [congruence| ..];
    cbn [NilEmpty.string_of_uint parse_digits horner];
    match goal with
    | |- context [digit_of ?c] =>
        let v := eval vm_compute in (digit_of c) in change (digit_of c) with v
    end;
    cbv beta iota; rewrite parse_digits_uint; f_equal; f_equal; lia.
Qed.

(** A string without whitespace is left as it is by [strip]. *)
Fixpoint spaceless (sp : ascii -> bool) (s : string) : bool :=
  match s with
  | EmptyString => true
  | String c r => negb (sp c) && spaceless sp r
  end.

Lemma strip_by_spaceless sp s : spaceless sp s = true -> strip_by sp s = s.
Proof.
  intros H. unfold strip_by.
  assert (Hl : lstrip_by sp s = s).
  { destruct s as [|c r]; [reflexivity|]. simpl in *.
    apply andb_true_iff in H. destruct H as [Hc _].
    apply negb_true_iff in Hc. rewrite Hc. reflexivity. }
  rewrite Hl. induction s as [|c r IH]; [reflexivity|]. simpl in *.
  apply andb_true_iff in H. destruct H as [Hc Hr].
  apply negb_true_iff in Hc. rewrite Hc. simpl. rewrite IH; auto.
  destruct r as [|c' r']; [reflexivity|]. simpl in *.
  apply andb_true_iff in Hr. destruct Hr as [Hc' _].
  apply negb_true_iff in Hc'. rewrite Hc'. reflexivity.
Qed.

Lemma spaceless_uint d : spaceless is_int_space (NilEmpty.string_of_uint d) = true.
Proof. induction d; simpl; auto. Qed.

Lemma to_uint_not_nil p : Pos.to_uint p <> Decimal.Nil.
Proof.
  intros E. pose proof (DecimalPos.Unsigned.of_to p) as H.
  rewrite E in H. discriminate.
Qed.

Lemma parse_int_uint d :
  d <> Decimal.Nil ->
  parse_int (NilEmpty.string_of_uint d) = Some (Z.of_uint d).
Proof.
  intros Hne. unfold parse_int.
  rewrite (strip_by_spaceless _ _ (spaceless_uint d)).
  rewrite <- horner_of_uint, <- (parse_digits_start d Hne).
  destruct d; [congruence| ..]; reflexivity.
Qed.

(** [int(str(z)) = z] *)
Lemma parse_int_str_of_Z z : parse_int (str_of_Z z) = Some z.
Proof.
  unfold str_of_Z. destruct z as [|p|p]; [reflexivity| |].
  - simpl. pose proof (to_uint_not_nil p) as Hne.
    replace (NilZero.string_of_uint (Pos.to_uint p))
      with (NilEmpty.string_of_uint (Pos.to_uint p))
      by (destruct (Pos.to_uint p); [congruence| ..]; reflexivity).
    rewrite (parse_int_uint _ Hne). unfold Z.of_uint.
    rewrite DecimalPos.Unsigned.of_to. reflexivity.
  - simpl. pose proof (to_uint_not_nil p) as Hne.
    replace (NilZero.string_of_uint (Pos.to_uint p))
      with (NilEmpty.string_of_uint (Pos.to_uint p))
      by (destruct (Pos.to_uint p); [congruence| ..]; reflexivity).
    unfold parse_int.
    assert (Hs : spaceless is_int_space
                   (String "-" (NilEmpty.string_of_uint (Pos.to_uint p))) = true).
    { simpl. apply spaceless_uint. }
    rewrite (strip_by_spaceless _ _ Hs). simpl.
    rewrite (parse_digits_start _ Hne), horner_of_uint. unfold Z.of_uint.
    rewrite DecimalPos.Unsigned.of_to. reflexivity.
Qed.

Lemma str_of_Z_not_empty z : is_empty (str_of_Z z) = false.
Proof.
  unfold str_of_Z. destruct z as [|p|p]; [reflexivity| |reflexivity].
  simpl. pose proof (to_uint_not_nil p) as Hne.
  destruct (Pos.to_uint p); [congruence| ..]; reflexivity.
Qed.

(** X4. A year may be stored as a number or as the text of that number. For a
    number other than zero the two are treated alike: [int(str(n))] is [n],
    so the two records get the same key in the canonical choice, and
    [str(n)] is what both add to [years_found], which lists it once. Zero
    is the exception: the number 0 counts as no year and ranks as 9999,
    while the text of 0 ranks as 0. *)
Theorem year_number_or_text (h : heap) (n : Z) :
  parse_int (str_of_Z n) = Some n /\
  (n <> 0 ->
   forall i l d,
     h !! l = Some d ->
     metadata_ok (length h) (dict_get "metadata" d) = true ->
     dict_get "year" d = Some (VInt n) \/
     dict_get "year" d = Some (VStr (str_of_Z n)) ->
     priority_key h (i, VRef l)
     = Ok (unit_unknown d, n, - (if has_metadata h d then 1 else 0))) /\
  (n <> 0 ->
   forall d1 d2,
     dict_get "year" d1 = Some (VInt n) ->
     dict_get "year" d2 = Some (VStr (str_of_Z n)) ->
     year_names [d1; d2] = [str_of_Z n] /\ year_names [d2; d1] = [str_of_Z n]) /\
  (forall i l d,
     h !! l = Some d ->
     metadata_ok (length h) (dict_get "metadata" d) = true ->
     (dict_get "year" d = Some (VInt 0) ->
      priority_key h (i, VRef l)
      = Ok (unit_unknown d, 9999, - (if has_metadata h d then 1 else 0))) /\
     (dict_get "year" d = Some (VStr (str_of_Z 0)) ->
      priority_key h (i, VRef l)
      = Ok (unit_unknown d, 0, - (if has_metadata h d then 1 else 0)))).
Proof.
  assert (Hkey : forall i l d v,
            h !! l = Some d ->
            metadata_ok (length h) (dict_get "metadata" d) = true ->
            dict_get "year" d = Some v -> year_ok v = true ->
            priority_key h (i, VRef l)
            = Ok (unit_unknown d, year_key v, - (if has_metadata h d then 1 else 0))).
  { intros i l d v Hl Hm Hy Hok.
    rewrite (priority_key_of h i l d Hl).
    - unfold key_of, field. rewrite Hy. reflexivity.
    - unfold key_ok, field. rewrite Hy, Hok, Hm. reflexivity. }
  assert (Htext : forall z, year_ok (VStr (str_of_Z z)) = true /\
                            year_key (VStr (str_of_Z z)) = z).
  { intros z. unfold year_key. simpl.
    rewrite str_of_Z_not_empty, parse_int_str_of_Z. auto. }
  split; [apply parse_int_str_of_Z|]. split; [|split].
  - intros Hn i l d Hl Hm [Hy|Hy].
    + rewrite (Hkey i l d _ Hl Hm Hy eq_refl). unfold year_key. simpl.
      apply Z.eqb_neq in Hn. rewrite Hn. reflexivity.
    + destruct (Htext n) as [Hok Hyk].
      rewrite (Hkey i l d _ Hl Hm Hy Hok), Hyk. reflexivity.
  - intros Hn d1 d2 Hy1 Hy2. apply Z.eqb_neq in Hn.
    unfold year_names, add_year, field. simpl. rewrite Hy1, Hy2. simpl.
    rewrite Hn, str_of_Z_not_empty. simpl.
    unfold str_set_add. simpl. rewrite String.eqb_refl. auto.
  - intros i l d Hl Hm. split; intros Hy.
    + rewrite (Hkey i l d _ Hl Hm Hy eq_refl). reflexivity.
    + destruct (Htext 0) as [Hok Hyk].
      rewrite (Hkey i l d _ Hl Hm Hy Hok), Hyk. reflexivity.
Qed.

(* ===================================================================== *)
(** ** The objects a run creates and the objects it writes *)
(* ===================================================================== *)

(** *** [merge_sources], whatever the fields hold *)

(** The dict [merge_sources] returns for [indices], the entries of
    [all_sources] being the objects from [n] on. *)
Definition merged_of (n : nat) (indices : list nat) (pdfs : list value)
    (years : list string) : dict :=
  [("source_pdfs", VList pdfs);
   ("years_found", VList (map VStr years));
   ("all_sources", VList (map VRef (seq n (length indices))));
   ("duplicate_count", VInt (Z.of_nat (length indices)))].

(** The source files a group contributes, in the order the set meets
    them: the values that are true, which a set holds only if they are
    hashable. *)
Definition add_source_file (files : list value) (d : dict) : list value :=
  if truthy_scalar (field "source_file" d)
  then set_add (field "source_file" d) files
  else files.

Definition source_files_of (ds : list dict) : list value :=
  fold_left add_source_file ds [].

Lemma truthy_unhashable h v b :
  truthy h v = Ok b -> hashable v = false -> truthy_scalar v = false.
Proof. destruct v; simpl; try discriminate; reflexivity. Qed.

Lemma merge_step_entry qs idx sources years files h st' h' :
  merge_step qs idx (sources, years, files) h = Ok (st', h') ->
  exists l d years',
    qs !! idx = Some (VRef l) /\ h !! l = Some d /\
    st' = (sources ++ [VRef (length h)], years', add_source_file files d) /\
    h' = h ++ [provenance_entry d idx].
Proof.
  unfold merge_step. intros H. open_run H.
  assert (h0 = h) as ->.
  { destruct a2; [apply reading_ok in Hrun3; tauto | apply ret_ok in Hrun3; tauto]. }
  unfold py_index in Hrun. destruct (qs !! idx) as [q|] eqn:Hq; [|discriminate].
  injection Hrun as ->.
  apply py_get_ok in Hrun0. destruct Hrun0 as (l & d & -> & Hl & ->).
  rewrite (py_get_field _ _ _ "source_file" Hl) in Hrun1.
  injection Hrun1 as <-.
  assert (Hfiles : a5 = add_source_file files d /\ h1 = h).
  { unfold add_source_file. destruct a4.
    - destruct (hashable (field "source_file" d)) eqn:Hh; [|discriminate].
      apply ret_ok in Hrun5. destruct Hrun5 as [-> ->].
      assert (Hs : scalar (field "source_file" d) = true).
      { destruct (field "source_file" d); simpl in *; congruence. }
      rewrite (truthy_scalar_ok _ _ Hs) in Hrun4. injection Hrun4 as ->. auto.
    - apply ret_ok in Hrun5. destruct Hrun5 as [-> ->].
      destruct (hashable (field "source_file" d)) eqn:Hh.
      + assert (Hs : scalar (field "source_file" d) = true).
        { destruct (field "source_file" d); simpl in *; congruence. }
        rewrite (truthy_scalar_ok _ _ Hs) in Hrun4. injection Hrun4 as ->. auto.
      + rewrite (truthy_unhashable _ _ _ Hrun4 Hh). auto. }
  destruct Hfiles as [-> ->].
  rewrite (py_get_field _ _ _ "question_number" Hl) in Hrun6.
  injection Hrun6 as <-.
  apply alloc_ok in Hrun7. destruct Hrun7 as [-> ->].
  apply ret_ok in H. destruct H as [-> ->].
  exists l, d, a3. auto.
Qed.

Lemma merge_loop_entries qs indices : forall sources years files h st' h',
  all_dicts h qs ->
  merge_loop qs indices (sources, years, files) h = Ok (st', h') ->
  exists ds years',
    records_at h qs indices ds /\
    st' = (sources ++ map VRef (seq (length h) (length indices)), years',
           fold_left add_source_file ds files) /\
    h' = h ++ provenance_entries ds indices.
Proof.
  induction indices as [|idx r IH]; intros sources years files h st' h' Hall H.
  - apply ret_ok in H. destruct H as [-> ->].
    exists [], years. rewrite !app_nil_r. repeat split. constructor.
  - cbn [merge_loop] in H. apply bind_ok in H. destruct H as (st1 & h1 & Hstep & H).
    apply merge_step_entry in Hstep.
    destruct Hstep as (l & d & years1 & Hq & Hl & -> & ->).
    apply IH in H.
    2:{ revert Hall. apply Forall_impl. intros q (lq & dq & -> & Hlq).
        exists lq, dq. split; [reflexivity|]. apply lookup_app_l_Some. assumption. }
    destruct H as (ds & years' & Hrec & -> & ->).
    exists (d :: ds), years'. split; [|split].
    + constructor; [eauto|].
      revert Hrec. apply Forall2_impl. intros i di (li & Hqi & Hli).
      exists li. split; [assumption|].
      destruct (all_dicts_lookup _ _ _ _ Hall Hqi) as (l0 & d0 & [= <-] & Hl0).
      rewrite (lookup_app_l_Some _ _ _ _ Hl0) in Hli. congruence.
    + rewrite <- !app_assoc, length_app. simpl.
      replace (length h + 1)%nat with (S (length h)) by lia. reflexivity.
    + rewrite <- app_assoc. reflexivity.
Qed.

Lemma merge_sources_shape qs indices h v h' :
  all_dicts h qs ->
  merge_sources qs indices h = Ok (v, h') ->
  exists ds pdfs years,
    records_at h qs indices ds /\
    py_sorted (source_files_of ds) = Ok pdfs /\
    v = VRef (length h + length indices) /\
    h' = h ++ provenance_entries ds indices
           ++ [merged_of (length h) indices pdfs years].
Proof.
  intros Hall H. unfold merge_sources in H. open_run H.
  destruct a as [[sources years] files].
  apply merge_loop_entries in Hrun; [|assumption].
  destruct Hrun as (ds & years' & Hrec & [= -> -> ->] & ->).
  open_run H. apply alloc_ok in H. destruct H as [-> ->].
  exists ds, a, (sorted_strs years'). split; [assumption|].
  split; [assumption|].
  rewrite length_app, provenance_entries_length
    by (symmetry; eapply Forall2_length; eauto).
  rewrite <- app_assoc. auto.
Qed.

(** *** Steps that are known to return *)

Lemma bind_run {A B} (m : M A) (k : A -> M B) (h h1 : heap) (a : A) :
  m h = Ok (a, h1) -> bind m k h = k a h1.
Proof. unfold bind. intros ->. reflexivity. Qed.

Lemma reading_run {A} (f : heap -> result A) (h : heap) (a : A) :
  f h = Ok a -> reading f h = Ok (a, h).
Proof. unfold reading. intros ->. reflexivity. Qed.

Lemma py_copy_run h l d :
  h !! l = Some d -> py_copy (VRef l) h = Ok (VRef (length h), h ++ [d]).
Proof. intros Hl. simpl. rewrite Hl. reflexivity. Qed.

Lemma py_setitem_run h l d k v :
  h !! l = Some d -> py_setitem (VRef l) k v h = Ok (tt, <[l := dict_set k v d]> h).
Proof. intros Hl. simpl. rewrite Hl. reflexivity. Qed.

Lemma ensure_metadata_present h e d :
  h !! e = Some d -> dict_has "metadata" d = true ->
  ensure_metadata (VRef e) h = Ok (tt, h).
Proof.
  intros He Hhas. unfold ensure_metadata, bind, reading. simpl.
  rewrite He, Hhas. reflexivity.
Qed.

Lemma ensure_metadata_absent h e d :
  h !! e = Some d -> dict_has "metadata" d = false ->
  ensure_metadata (VRef e) h
  = Ok (tt, <[e := dict_set "metadata" (VRef (length h)) d]> (h ++ [[]])).
Proof.
  intros He Hhas. unfold ensure_metadata, bind, reading. simpl.
  rewrite He, Hhas. unfold alloc. simpl.
  rewrite (lookup_app_l_Some _ _ _ _ He). reflexivity.
Qed.

Lemma set_metadata_run h e d m md k v :
  h !! e = Some d -> dict_get "metadata" d = Some (VRef m) -> h !! m = Some md ->
  set_metadata (VRef e) k v h = Ok (tt, <[m := dict_set k v md]> h).
Proof.
  intros He Hm Hmd. unfold set_metadata, bind, reading. simpl.
  rewrite He, Hm. simpl. rewrite Hmd. reflexivity.
Qed.

Lemma copy_to_metadata_run h e d m md ms merged k :
  h !! e = Some d -> dict_get "metadata" d = Some (VRef m) -> h !! m = Some md ->
  h !! ms = Some merged -> dict_has k merged = true ->
  copy_to_metadata (VRef e) (VRef ms) k h
  = Ok (tt, <[m := dict_set k (field k merged) md]> h).
Proof.
  intros He Hm Hmd Hms Hk. unfold copy_to_metadata, bind, reading. simpl.
  rewrite Hms. unfold dict_has in Hk. unfold field.
  destruct (dict_get k merged) as [v|]; [|discriminate].
  apply (set_metadata_run h e d m md k v); assumption.
Qed.

(** A [metadata] that is no dict cannot be written to. *)
Lemma copy_to_metadata_bad h e d v ms merged k :
  h !! e = Some d -> dict_get "metadata" d = Some v ->
  (forall m, v <> VRef m) ->
  h !! ms = Some merged -> dict_has k merged = true ->
  copy_to_metadata (VRef e) (VRef ms) k h = Raise TypeError.
Proof.
  intros He Hv Hno Hms Hk. unfold copy_to_metadata, set_metadata, bind, reading.
  simpl. rewrite Hms. unfold dict_has in Hk.
  destruct (dict_get k merged) as [x|]; [|discriminate].
  rewrite He, Hv. destruct v; try reflexivity. exfalso. eapply Hno. reflexivity.
Qed.

Lemma set_metadata_bad h e d v k x :
  h !! e = Some d -> dict_get "metadata" d = Some v ->
  (forall m, v <> VRef m) ->
  set_metadata (VRef e) k x h = Raise TypeError.
Proof.
  intros He Hv Hno. unfold set_metadata, bind, reading. simpl.
  rewrite He, Hv. destruct v; try reflexivity. exfalso. eapply Hno. reflexivity.
Qed.

(** *** One group, exactly *)

(** Every [metadata] reference of a record of the corpus is to an object
    of the heap, as every reference of a Python program is. *)
Definition closed (h : heap) (qs : list value) : Prop :=
  forall i l d m,
    qs !! i = Some (VRef l) -> h !! l = Some d ->
    dict_get "metadata" d = Some (VRef m) -> (m < length h)%nat.

(** The four items a group leaves in the [metadata] dict of its record. *)
Definition stamp (merged md : dict) : dict :=
  dict_set "duplicate_count" (field "duplicate_count" merged)
    (dict_set "is_deduplicated" (VBool true)
       (dict_set "years_found" (field "years_found" merged)
          (dict_set "source_pdfs" (field "source_pdfs" merged) md))).

Lemma field_set_ne k k' v d : k <> k' -> field k (dict_set k' v d) = field k d.
Proof. intros Hne. unfold field. rewrite dict_get_set_ne by assumption. reflexivity. Qed.

Lemma dict_get_stamp k merged md :
  ~ In k metadata_keys -> dict_get k (stamp merged md) = dict_get k md.
Proof.
  intros Hk. unfold stamp.
  rewrite !dict_get_set_ne; [reflexivity| | | |]; intros ->; apply Hk; simpl; auto.
Qed.

Lemma insert_last {A} (l : list A) (x y : A) :
  <[length l := y]> (l ++ [x]) = l ++ [y].
Proof.
  rewrite insert_app_r_alt by lia. rewrite Nat.sub_diag. reflexivity.
Qed.

Lemma lookup_last {A} (l : list A) (x : A) : (l ++ [x]) !! length l = Some x.
Proof. rewrite lookup_app_r by lia. rewrite Nat.sub_diag. reflexivity. Qed.

Lemma insert_twice {A} (l : list A) (i : nat) (x y : A) :
  <[i := y]> (<[i := x]> l) = <[i := y]> l.
Proof. apply list_insert_insert_eq. Qed.

Lemma merged_of_has n indices pdfs years k :
  In k ["source_pdfs"; "years_found"; "duplicate_count"] ->
  dict_has k (merged_of n indices pdfs years) = true.
Proof. intros [<-|[<-|[<-|[]]]]; reflexivity. Qed.

(** The four writes of a group into the [metadata] dict [m] of the copy
    [e], the merged provenance being object [ms]. *)
Lemma stamp_run {B} (k : M B) h e copy m md ms merged :
  h !! e = Some copy -> dict_get "metadata" copy = Some (VRef m) ->
  h !! m = Some md -> h !! ms = Some merged ->
  m <> e -> m <> ms ->
  (forall key, In key ["source_pdfs"; "years_found"; "duplicate_count"] ->
               dict_has key merged = true) ->
  (copy_to_metadata (VRef e) (VRef ms) "source_pdfs" ;;;
   copy_to_metadata (VRef e) (VRef ms) "years_found" ;;;
   set_metadata (VRef e) "is_deduplicated" (VBool true) ;;;
   copy_to_metadata (VRef e) (VRef ms) "duplicate_count" ;;;
   k) h
  = k (<[m := stamp merged md]> h).
Proof.
  intros He Hm Hmd Hms Hne1 Hne2 Hkeys.
  pose proof (lookup_lt_Some _ _ _ Hmd) as Hlt.
  assert (Hstep : forall x, (<[m := x]> h) !! e = Some copy /\
                            (<[m := x]> h) !! m = Some x /\
                            (<[m := x]> h) !! ms = Some merged).
  { intros x. split; [|split].
    - rewrite list_lookup_insert_ne by congruence. assumption.
    - apply list_lookup_insert_eq. assumption.
    - rewrite list_lookup_insert_ne by congruence. assumption. }
  rewrite (bind_run _ _ _ _ _
             (copy_to_metadata_run _ _ _ _ _ _ _ "source_pdfs" He Hm Hmd Hms
                (Hkeys "source_pdfs" ltac:(simpl; auto)))).
  match goal with |- context [<[m := ?x]> h] => destruct (Hstep x) as (He1 & Hm1 & Hms1) end.
  rewrite (bind_run _ _ _ _ _
             (copy_to_metadata_run _ _ _ _ _ _ _ "years_found" He1 Hm Hm1 Hms1
                (Hkeys "years_found" ltac:(simpl; auto)))).
  rewrite insert_twice.
  match goal with |- context [<[m := ?x]> h] => destruct (Hstep x) as (He2 & Hm2 & Hms2) end.
  rewrite (bind_run _ _ _ _ _
             (set_metadata_run _ _ _ _ _ "is_deduplicated" (VBool true) He2 Hm Hm2)).
  rewrite insert_twice.
  match goal with |- context [<[m := ?x]> h] => destruct (Hstep x) as (He3 & Hm3 & Hms3) end.
  rewrite (bind_run _ _ _ _ _
             (copy_to_metadata_run _ _ _ _ _ _ _ "duplicate_count" He3 Hm Hm3 Hms3
                (Hkeys "duplicate_count" ltac:(simpl; auto)))).
  rewrite insert_twice. reflexivity.
Qed.

(** What [process_group] does, when it returns: it appends one provenance
    entry per index and the merged provenance, then a copy of the canonical
    record that carries the merged provenance; the four items go into the
    [metadata] dict of the canonical record itself when it has one, and
    into a new dict otherwise. *)
Lemma process_group_exact qs indices ded keep G h st' h' :
  all_dicts h qs -> closed h qs ->
  process_group qs indices (ded, keep, G) h = Ok (st', h') ->
  exists c l d ds pdfs years,
    let ms := (length h + length indices)%nat in
    let merged := merged_of (length h) indices pdfs years in
    let h1 := h ++ provenance_entries ds indices ++ [merged] in
    let copy := dict_set "source_metadata" (VRef ms) d in
    select_canonical_version h qs indices = Ok (c, VRef l) /\
    h !! l = Some d /\
    records_at h qs indices ds /\
    py_sorted (source_files_of ds) = Ok pdfs /\
    merge_sources qs indices h = Ok (VRef ms, h1) /\
    st' = (ded ++ [VRef (S ms)], discard_others c indices keep,
           G ++ [{| canonical_index := c; canonical_unit := field "unit" d;
                    canonical_year := field "year" d;
                    duplicate_indices := indices;
                    merged_sources := VRef ms |}]) /\
    match dict_get "metadata" d with
    | Some v =>
        exists m md, v = VRef m /\ h !! m = Some md /\
          h' = <[m := stamp merged md]> (h1 ++ [copy])
    | None =>
        h' = h1 ++ [dict_set "metadata" (VRef (S (S ms))) copy; stamp merged []]
    end.
Proof.
  intros Hall Hcl H. unfold process_group in H.
  apply bind_ok in H. destruct H as ([c q] & hx & Hsel & H).
  apply reading_ok in Hsel. destruct Hsel as [Hsel ->].
  apply bind_ok in H. destruct H as (mv & h1 & Hmerge & H).
  destruct (merge_sources_shape _ _ _ _ _ Hall Hmerge)
    as (ds & pdfs & years & Hrec & Hpdfs & Emv & Eh1).
  rewrite Emv, Eh1 in Hmerge. subst mv h1.
  destruct (select_canonical_member _ _ _ _ _ Hsel) as [Hc Hq].
  destruct (all_dicts_lookup _ _ _ _ Hall Hq) as (l & d & -> & Hl).
  exists c, l, d, ds, pdfs, years. cbn zeta.
  set (ms := (length h + length indices)%nat) in *.
  set (merged := merged_of (length h) indices pdfs years) in *.
  set (h1 := h ++ provenance_entries ds indices ++ [merged]) in *.
  set (copy := dict_set "source_metadata" (VRef ms) d).
  assert (Hlen : length h1 = S ms).
  { unfold h1, ms. rewrite !length_app, provenance_entries_length
      by (symmetry; eapply Forall2_length; eauto). simpl. lia. }
  assert (Hpre : forall x dx, h !! x = Some dx -> h1 !! x = Some dx).
  { intros x dx Hx. apply lookup_app_l_Some. assumption. }
  assert (Hms : h1 !! ms = Some merged).
  { unfold h1. rewrite app_assoc.
    replace ms with (length (h ++ provenance_entries ds indices)); [apply lookup_last|].
    unfold ms. rewrite length_app, provenance_entries_length
      by (symmetry; eapply Forall2_length; eauto). reflexivity. }
  rewrite (bind_run _ _ _ _ _ (py_copy_run _ _ _ (Hpre _ _ Hl))) in H.
  rewrite (bind_run _ _ _ _ _
             (py_setitem_run _ _ _ "source_metadata" (VRef ms) (lookup_last h1 d))) in H.
  rewrite insert_last, Hlen in H. fold copy in H.
  assert (He : (h1 ++ [copy]) !! S ms = Some copy).
  { rewrite <- Hlen. apply lookup_last. }
  assert (Hms3 : (h1 ++ [copy]) !! ms = Some merged).
  { apply lookup_app_l_Some. assumption. }
  assert (Hmeta : dict_get "metadata" copy = dict_get "metadata" d).
  { apply dict_get_set_ne. discriminate. }
  split; [assumption|]. split; [assumption|]. split; [assumption|].
  split; [assumption|]. split; [exact Hmerge|].
  destruct (dict_get "metadata" d) as [v|] eqn:Hv.
  - assert (Hhas : dict_has "metadata" copy = true).
    { unfold dict_has. rewrite Hmeta. reflexivity. }
    rewrite (bind_run _ _ _ _ _ (ensure_metadata_present _ _ _ He Hhas)) in H.
    assert (Hv' : (exists m, v = VRef m) \/ forall m, v <> VRef m).
    { destruct v; try (right; discriminate). left. eauto. }
    destruct Hv' as [(m & ->)|Hno].
    2:{ exfalso. unfold bind at 1 in H.
        rewrite (copy_to_metadata_bad _ _ _ _ _ _ "source_pdfs" He Hmeta Hno Hms3) in H;
          [discriminate | reflexivity]. }
    pose proof (Hcl _ _ _ _ Hq Hl Hv) as Hm.
    destruct (lookup_lt_is_Some_2 h m Hm) as [md Hmd].
    assert (Hmd3 : (h1 ++ [copy]) !! m = Some md).
    { apply lookup_app_l_Some. apply Hpre. assumption. }
    rewrite (stamp_run _ _ _ _ _ _ _ _ He Hmeta Hmd3 Hms3) in H;
      [|unfold ms; lia|unfold ms; lia|apply merged_of_has].
    set (h8 := <[m := stamp merged md]> (h1 ++ [copy])) in *.
    assert (Hl8 : exists d8, h8 !! l = Some d8 /\ same_off metadata_keys d d8).
    { unfold h8. destruct (decide (l = m)) as [->|Hne].
      - exists (stamp merged md). split.
        + apply list_lookup_insert_eq. eapply lookup_lt_Some; eauto.
        + assert (md = d) as -> by congruence.
          intros k Hk. apply dict_get_stamp. assumption.
      - exists d. rewrite list_lookup_insert_ne by congruence. split.
        + apply lookup_app_l_Some. apply Hpre. assumption.
        + apply same_off_refl. }
    destruct Hl8 as (d8 & Hl8 & Hs8).
    rewrite (bind_run _ _ _ _ _ (reading_run _ _ _ (py_get_field _ _ _ "unit" Hl8))) in H.
    rewrite (bind_run _ _ _ _ _ (reading_run _ _ _ (py_get_field _ _ _ "year" Hl8))) in H.
    apply ret_ok in H. destruct H as [-> ->].
    unfold field at 1 2. rewrite !Hs8 by not_a_key. fold (field "unit" d).
    fold (field "year" d). split; [reflexivity|]. exists m, md. auto.
  - assert (Hhas : dict_has "metadata" copy = false).
    { unfold dict_has. rewrite Hmeta. reflexivity. }
    rewrite (bind_run _ _ _ _ _ (ensure_metadata_absent _ _ _ He Hhas)) in H.
    rewrite length_app, Hlen in H. simpl in H.
    replace (ms + 1)%nat with (S ms) in H by lia.
    assert (E4 : <[S ms := dict_set "metadata" (VRef (S (S ms))) copy]>
                   ((h1 ++ [copy]) ++ [[]])
                 = h1 ++ [dict_set "metadata" (VRef (S (S ms))) copy; []]).
    { rewrite <- app_assoc. simpl. rewrite <- Hlen.
      rewrite insert_app_r_alt by lia. rewrite Nat.sub_diag. reflexivity. }
    rewrite E4 in H.
    set (copy' := dict_set "metadata" (VRef (S (S ms))) copy) in *.
    assert (He4 : (h1 ++ [copy'; []]) !! S ms = Some copy').
    { rewrite lookup_app_r by lia. rewrite Hlen, Nat.sub_diag. reflexivity. }
    assert (Hm4 : (h1 ++ [copy'; []]) !! S (S ms) = Some []).
    { rewrite lookup_app_r by lia. rewrite Hlen.
      replace (S (S ms) - S ms)%nat with 1%nat by lia. reflexivity. }
    assert (Hms4 : (h1 ++ [copy'; []]) !! ms = Some merged).
    { apply lookup_app_l_Some. assumption. }
    rewrite (stamp_run _ _ _ _ _ _ _ _ He4 (dict_get_set_eq _ _ _) Hm4 Hms4) in H;
      [|lia|lia|apply merged_of_has].
    assert (E8 : <[S (S ms) := stamp merged []]> (h1 ++ [copy'; []])
                 = h1 ++ [copy'; stamp merged []]).
    { rewrite insert_app_r_alt by lia. rewrite Hlen.
      replace (S (S ms) - S ms)%nat with 1%nat by lia. reflexivity. }
    rewrite E8 in H.
    assert (Hl8 : (h1 ++ [copy'; stamp merged []]) !! l = Some d).
    { apply lookup_app_l_Some. apply Hpre. assumption. }
    rewrite (bind_run _ _ _ _ _ (reading_run _ _ _ (py_get_field _ _ _ "unit" Hl8))) in H.
    rewrite (bind_run _ _ _ _ _ (reading_run _ _ _ (py_get_field _ _ _ "year" Hl8))) in H.
    apply ret_ok in H. destruct H as [-> ->]. auto.
Qed.

(** What [keep_single] does, when it returns: nothing for a canonical
    index; for another index, a copy of the record whose [metadata] dict,
    the record's own or a new one, says [is_deduplicated = False]. *)
Lemma keep_single_exact qs G i ded h ded' h' :
  all_dicts h qs -> closed h qs ->
  keep_single qs G i ded h = Ok (ded', h') ->
  if is_canonical G i then ded' = ded /\ h' = h
  else
    exists l d,
      qs !! i = Some (VRef l) /\ h !! l = Some d /\
      ded' = ded ++ [VRef (length h)] /\
      match dict_get "metadata" d with
      | Some v =>
          exists m md, v = VRef m /\ h !! m = Some md /\
            h' = <[m := dict_set "is_deduplicated" (VBool false) md]> (h ++ [d])
      | None =>
          h' = h ++ [dict_set "metadata" (VRef (S (length h))) d;
                     dict_set "is_deduplicated" (VBool false) []]
      end.
Proof.
  intros Hall Hcl H. unfold keep_single in H. fold (is_canonical G i) in H.
  destruct (is_canonical G i); [apply ret_ok in H; destruct H as [-> ->]; auto|].
  apply bind_ok in H. destruct H as (q & hx & Hq & H).
  apply reading_ok in Hq. destruct Hq as [Hq ->].
  unfold py_index in Hq. destruct (qs !! i) as [q'|] eqn:Hi; [|discriminate].
  injection Hq as ->.
  destruct (all_dicts_lookup _ _ _ _ Hall Hi) as (l & d & -> & Hl).
  exists l, d. split; [reflexivity|]. split; [assumption|].
  rewrite (bind_run _ _ _ _ _ (py_copy_run _ _ _ Hl)) in H.
  pose proof (lookup_last h d) as He.
  destruct (dict_get "metadata" d) as [v|] eqn:Hv.
  - assert (Hhas : dict_has "metadata" d = true).
    { unfold dict_has. rewrite Hv. reflexivity. }
    rewrite (bind_run _ _ _ _ _ (ensure_metadata_present _ _ _ He Hhas)) in H.
    assert (Hv' : (exists m, v = VRef m) \/ forall m, v <> VRef m).
    { destruct v; try (right; discriminate). left. eauto. }
    destruct Hv' as [(m & ->)|Hno].
    2:{ exfalso. unfold bind at 1 in H.
        rewrite (set_metadata_bad _ _ _ _ "is_deduplicated" (VBool false) He Hv Hno) in H.
        discriminate. }
    pose proof (Hcl _ _ _ _ Hi Hl Hv) as Hm.
    destruct (lookup_lt_is_Some_2 h m Hm) as [md Hmd].
    rewrite (bind_run _ _ _ _ _
               (set_metadata_run _ _ _ _ _ "is_deduplicated" (VBool false) He Hv
                  (lookup_app_l_Some _ _ _ _ Hmd))) in H.
    apply ret_ok in H. destruct H as [-> ->]. split; [reflexivity|].
    exists m, md. auto.
  - assert (Hhas : dict_has "metadata" d = false).
    { unfold dict_has. rewrite Hv. reflexivity. }
    rewrite (bind_run _ _ _ _ _ (ensure_metadata_absent _ _ _ He Hhas)) in H.
    rewrite length_app in H. simpl in H.
    replace (length h + 1)%nat with (S (length h)) in H by lia.
    assert (E : <[length h := dict_set "metadata" (VRef (S (length h))) d]>
                  ((h ++ [d]) ++ [[]])
                = h ++ [dict_set "metadata" (VRef (S (length h))) d; []]).
    { rewrite <- app_assoc. simpl. rewrite insert_app_r_alt by lia.
      rewrite Nat.sub_diag. reflexivity. }
    rewrite E in H.
    set (copy := dict_set "metadata" (VRef (S (length h))) d) in *.
    assert (He' : (h ++ [copy; []]) !! length h = Some copy).
    { rewrite lookup_app_r by lia. rewrite Nat.sub_diag. reflexivity. }
    assert (Hm' : (h ++ [copy; []]) !! S (length h) = Some []).
    { rewrite lookup_app_r by lia.
      replace (S (length h) - length h)%nat with 1%nat by lia. reflexivity. }
    rewrite (bind_run _ _ _ _ _
               (set_metadata_run _ _ _ _ _ "is_deduplicated" (VBool false) He'
                  (dict_get_set_eq _ _ _) Hm')) in H.
    apply ret_ok in H. destruct H as [-> ->]. split; [reflexivity|].
    rewrite insert_app_r_alt by lia.
    replace (S (length h) - length h)%nat with 1%nat by lia. reflexivity.
Qed.

(** *** The emissions of a run *)

(** One record emitted: the record at [em_index] is copied after the new
    objects [em_news]; the copy is [em_base] of the record, and [em_upd] is
    applied to its [metadata] dict. *)
Record emission : Type := {
  em_index : nat;
  em_news : list dict;
  em_base : dict -> dict;
  em_upd : dict -> dict;
  em_value : value
}.

(** [emits qs e h h1]: the step [e] takes the heap from [h] to [h1]. The
    [metadata] dict of the copy is the one of the record when it has one,
    and a new dict otherwise. *)
Definition emits (qs : list value) (e : emission) (h h1 : heap) : Prop :=
  exists l d,
    qs !! em_index e = Some (VRef l) /\ h !! l = Some d /\
    let c := (length h + length (em_news e))%nat in
    em_value e = VRef c /\
    match dict_get "metadata" d with
    | Some x =>
        exists m md, x = VRef m /\ h !! m = Some md /\
          h1 = <[m := em_upd e md]> (h ++ em_news e ++ [em_base e d])
    | None =>
        h1 = h ++ em_news e
               ++ [dict_set "metadata" (VRef (S c)) (em_base e d); em_upd e []]
    end.

Fixpoint emissions (qs : list value) (h : heap) (es : list emission)
    (h' : heap) : Prop :=
  match es with
  | [] => h' = h
  | e :: r => exists h1, emits qs e h h1 /\ emissions qs h1 r h'
  end.

Lemma emissions_app qs es1 : forall es2 h h',
  emissions qs h (es1 ++ es2) h' <->
  exists h1, emissions qs h es1 h1 /\ emissions qs h1 es2 h'.
Proof.
  induction es1 as [|e r IH]; simpl; intros es2 h h'.
  - split; [eauto | intros (h1 & -> & H); assumption].
  - split.
    + intros (h1 & He & H). apply IH in H. destruct H as (h2 & H1 & H2). eauto.
    + intros (h2 & (h1 & He & H1) & H2). exists h1. split; [assumption|].
      apply IH. eauto.
Qed.

(** The emission of a group of the report, over the initial heap [h0]. *)
Definition group_emission (h0 : heap) (qs : list value) (g : group_audit)
    (e : emission) : Prop :=
  exists l d ds pdfs years a,
    let ix := duplicate_indices g in
    let ms := (a + length ix)%nat in
    let merged := merged_of a ix pdfs years in
    In (canonical_index g) ix /\
    qs !! canonical_index g = Some (VRef l) /\ h0 !! l = Some d /\
    records_at h0 qs ix ds /\
    py_sorted (source_files_of ds) = Ok pdfs /\
    (Forall (fun d => provenance_ok d = true) ds ->
     pdfs = map VStr (sorted_strs (file_names ds)) /\
     years = sorted_strs (year_names ds)) /\
    canonical_unit g = field "unit" d /\ canonical_year g = field "year" d /\
    merged_sources g = VRef ms /\
    e = {| em_index := canonical_index g;
           em_news := provenance_entries ds ix ++ [merged];
           em_base := dict_set "source_metadata" (VRef ms);
           em_upd := stamp merged;
           em_value := VRef (S ms) |}.

(** The emission of an index of no group. *)
Definition single_emission (i : nat) (e : emission) : Prop :=
  exists c,
    e = {| em_index := i; em_news := []; em_base := fun d => d;
           em_upd := dict_set "is_deduplicated" (VBool false);
           em_value := VRef c |}.

Lemma all_dicts_frame h h' qs : all_dicts h qs -> frame h h' -> all_dicts h' qs.
Proof.
  intros Hall [_ F]. revert Hall. apply Forall_impl.
  intros q (l & d & -> & Hl). destruct (F _ _ Hl) as (d' & Hl' & _). eauto.
Qed.

Lemma closed_frame h h' qs :
  all_dicts h qs -> closed h qs -> frame h h' -> closed h' qs.
Proof.
  intros Hall Hcl [L F] i l d' m Hq Hl' Hm.
  destruct (all_dicts_lookup _ _ _ _ Hall Hq) as (l0 & d & [= <-] & Hl).
  destruct (F _ _ Hl) as (d'' & Hl'' & Hs).
  assert (d'' = d') as -> by congruence.
  rewrite (Hs "metadata") in Hm by not_a_key.
  pose proof (Hcl _ _ _ _ Hq Hl Hm). lia.
Qed.

Lemma provenance_entry_frame d d' idx :
  same_off metadata_keys d d' -> provenance_entry d' idx = provenance_entry d idx.
Proof.
  intros Hs. unfold provenance_entry, field.
  rewrite !(Hs "year"), !(Hs "source_file"), !(Hs "question_number") by not_a_key.
  reflexivity.
Qed.

(** The records of a group, read in a later heap of the run, have the
    fields they had. *)
Definition same_fields (d0 d : dict) : Prop :=
  field "year" d0 = field "year" d /\
  field "source_file" d0 = field "source_file" d /\
  field "question_number" d0 = field "question_number" d.

Lemma records_at_frame h0 h qs : forall indices ds,
  all_dicts h0 qs -> frame h0 h -> records_at h qs indices ds ->
  exists ds0, records_at h0 qs indices ds0 /\ Forall2 same_fields ds0 ds.
Proof.
  intros indices ds Hall [_ F] Hrec.
  induction Hrec as [|i d indices ds (l & Hq & Hl) _ IH].
  - exists []. split; constructor.
  - destruct IH as (ds0 & Hrec0 & E).
    destruct (all_dicts_lookup _ _ _ _ Hall Hq) as (l0 & d0 & [= <-] & Hl0).
    destruct (F _ _ Hl0) as (d' & Hl' & Hs).
    assert (d' = d) as -> by congruence.
    exists (d0 :: ds0). split; [constructor; eauto|]. constructor; [|assumption].
    unfold same_fields, field.
    rewrite !(Hs "year"), !(Hs "source_file"), !(Hs "question_number") by not_a_key.
    auto.
Qed.

Lemma same_fields_entries ds0 ds :
  Forall2 same_fields ds0 ds ->
  forall indices, provenance_entries ds0 indices = provenance_entries ds indices.
Proof.
  induction 1 as [|d0 d ds0 ds (Hy & Hf & Hn) _ IH]; intros [|i r]; simpl;
    try reflexivity.
  rewrite IH. unfold provenance_entry. rewrite Hy, Hf, Hn. reflexivity.
Qed.

Lemma same_fields_folds ds0 ds :
  Forall2 same_fields ds0 ds ->
  (forall files, fold_left add_source_file ds0 files
                 = fold_left add_source_file ds files) /\
  (forall files, fold_left add_file_name ds0 files
                 = fold_left add_file_name ds files) /\
  (forall years, fold_left add_year ds0 years = fold_left add_year ds years) /\
  (Forall (fun d => provenance_ok d = true) ds0 ->
   Forall (fun d => provenance_ok d = true) ds).
Proof.
  induction 1 as [|d0 d ds0 ds (Hy & Hf & Hn) _ (IH1 & IH2 & IH3 & IH4)].
  - repeat split; auto.
  - split; [|split; [|split]].
    + intros files. simpl. rewrite IH1. unfold add_source_file. rewrite Hf. reflexivity.
    + intros files. simpl. rewrite IH2. unfold add_file_name. rewrite Hf. reflexivity.
    + intros years. simpl. rewrite IH3. unfold add_year. rewrite Hy. reflexivity.
    + intros Hok. inversion Hok as [|? ? Hd Hds]; subst. constructor; [|auto].
      unfold provenance_ok in *. rewrite <- Hy, <- Hf. assumption.
Qed.

Lemma map_VStr_inj (a b : list string) : map VStr a = map VStr b -> a = b.
Proof.
  revert b. induction a as [|x a IH]; intros [|y b]; simpl; try discriminate.
  - reflexivity.
  - intros [= -> E]. f_equal. auto.
Qed.

(** The loop over the groups, as emissions. *)
Lemma process_groups_emissions h0 qs : forall D ded keep G h st' h',
  all_dicts h0 qs -> closed h0 qs -> frame h0 h ->
  process_groups qs D (ded, keep, G) h = Ok (st', h') ->
  exists gs es,
    st' = (ded ++ map em_value es, discard_groups gs keep, G ++ gs) /\
    map duplicate_indices gs = map snd D /\
    emissions qs h es h' /\ Forall2 (group_emission h0 qs) gs es /\
    frame h h'.
Proof.
  induction D as [|[t indices] D IH]; simpl; intros ded keep G h st' h' Hall Hcl F0 H.
  - apply ret_ok in H. destruct H as [-> ->]. exists [], [].
    rewrite !app_nil_r. repeat split; try constructor. apply frame_refl.
  - apply bind_ok in H. destruct H as (st1 & h1 & Hstep & H).
    pose proof (all_dicts_frame _ _ _ Hall F0) as Hall1.
    pose proof (closed_frame _ _ _ Hall Hcl F0) as Hcl1.
    destruct (process_group_spec _ _ _ _ _ _ _ _ _ Hall F0 Hstep)
      as (_ & _ & _ & _ & _ & _ & _ & _ & F1 & _).
    destruct (process_group_exact _ _ _ _ _ _ _ _ Hall1 Hcl1 Hstep)
      as (c & l & d & ds & pdfs & years & Hsel & Hl & Hrec & Hpdfs & Hmerge & -> & Hh).
    cbn zeta in Hh.
    destruct (IH _ _ _ _ _ _ Hall Hcl (frame_trans _ _ _ F0 F1) H)
      as (gs & es & -> & Hmap & Hes & Hge & F2).
    destruct (select_canonical_member _ _ _ _ _ Hsel) as [Hc Hq].
    destruct (all_dicts_lookup _ _ _ _ Hall Hq) as (l0 & d0 & [= <-] & Hl0).
    destruct F0 as [L0 F0']. destruct (F0' _ _ Hl0) as (d' & Hl' & Hs0).
    assert (d' = d) as -> by congruence.
    destruct (records_at_frame _ _ _ _ _ Hall (conj L0 F0') Hrec)
      as (ds0 & Hrec0 & Hsame).
    pose proof (same_fields_entries _ _ Hsame indices) as E0.
    destruct (same_fields_folds _ _ Hsame) as (Ef0 & Efn & Eyn & Hplain).
    set (ms := (length h + length indices)%nat) in *.
    set (merged := merged_of (length h) indices pdfs years) in *.
    set (g := {| canonical_index := c; canonical_unit := field "unit" d;
                 canonical_year := field "year" d; duplicate_indices := indices;
                 merged_sources := VRef ms |}).
    set (e := {| em_index := c;
                 em_news := provenance_entries ds0 indices ++ [merged];
                 em_base := dict_set "source_metadata" (VRef ms);
                 em_upd := stamp merged;
                 em_value := VRef (S ms) |}).
    exists (g :: gs), (e :: es). simpl. rewrite <- !app_assoc. simpl.
    split; [reflexivity|]. split; [congruence|]. split; [|split].
    + exists h1. split; [|assumption].
      exists l, d. split; [assumption|]. split; [assumption|]. simpl.
      assert (Hc' : (length h + length (provenance_entries ds0 indices ++ [merged]))%nat
                    = S ms).
      { rewrite length_app, provenance_entries_length
          by (symmetry; eapply Forall2_length; eauto). simpl. unfold ms. lia. }
      rewrite Hc', E0. split; [reflexivity|].
      destruct (dict_get "metadata" d) as [v|].
      * destruct Hh as (m & md & -> & Hmd & ->). exists m, md.
        rewrite <- !app_assoc. auto.
      * rewrite Hh. rewrite <- !app_assoc. reflexivity.
    + constructor; [|assumption].
      exists l, d0, ds0, pdfs, years, (length h). cbn zeta. simpl.
      split; [assumption|]. split; [assumption|]. split; [assumption|].
      split; [assumption|].
      split; [unfold source_files_of; rewrite Ef0; assumption|].
      split.
      { intros Hok. cbn zeta in Hmerge. unfold merged, merged_of in Hmerge.
        rewrite (merge_sources_plain _ _ _ _ Hrec (Hplain Hok)) in Hmerge.
        unfold merged_dict in Hmerge.
        injection Hmerge as Hm. apply app_inv_head in Hm. apply app_inv_head in Hm.
        injection Hm as Hp Hy. apply map_VStr_inj in Hy.
        unfold file_names, year_names in *. rewrite Efn, Eyn. split; congruence. }
      unfold field. rewrite !Hs0 by not_a_key. auto.
    + eapply frame_trans; eauto.
Qed.

(** The loop over the kept indices, as emissions. *)
Lemma keep_singles_emissions h0 qs G : forall kept ded h ded' h',
  all_dicts h0 qs -> closed h0 qs -> frame h0 h ->
  keep_singles qs G kept ded h = Ok (ded', h') ->
  exists es,
    ded' = ded ++ map em_value es /\
    emissions qs h es h' /\
    Forall2 single_emission
            (List.filter (fun i => negb (is_canonical G i)) kept) es.
Proof.
  induction kept as [|i kept IH]; simpl; intros ded h ded' h' Hall Hcl F0 H.
  - apply ret_ok in H. destruct H as [-> ->]. exists [].
    rewrite app_nil_r. repeat split. constructor.
  - apply bind_ok in H. destruct H as (ded1 & h1 & Hstep & H).
    pose proof (all_dicts_frame _ _ _ Hall F0) as Hall1.
    pose proof (closed_frame _ _ _ Hall Hcl F0) as Hcl1.
    destruct (keep_single_spec _ _ _ _ _ _ _ _ Hall F0 Hstep) as [F1 _].
    apply flag_frame_frame in F1.
    pose proof (keep_single_exact _ _ _ _ _ _ _ Hall1 Hcl1 Hstep) as Hex.
    destruct (IH _ _ _ _ Hall Hcl (frame_trans _ _ _ F0 F1) H)
      as (es & -> & Hes & Hse).
    destruct (is_canonical G i); simpl.
    + destruct Hex as [-> ->]. exists es. auto.
    + destruct Hex as (l & d & Hq & Hl & -> & Hh).
      exists ({| em_index := i; em_news := []; em_base := fun d => d;
                 em_upd := dict_set "is_deduplicated" (VBool false);
                 em_value := VRef (length h) |} :: es).
      simpl. rewrite <- app_assoc. split; [reflexivity|]. split.
      * exists h1. split; [|assumption]. exists l, d. simpl.
        rewrite Nat.add_0_r. split; [assumption|]. split; [assumption|].
        split; [reflexivity|]. assumption.
      * constructor; [|assumption]. exists (length h). reflexivity.
Qed.

(** A run, as emissions: the groups of the report in order, then the
    indices of no group in order. *)
Lemma deduplicate_questions_emissions qs h out rep h' :
  closed h qs ->
  deduplicate_questions qs h = Ok ((out, rep), h') ->
  exists eg es,
    out = map em_value (eg ++ es) /\
    emissions qs h (eg ++ es) h' /\
    Forall2 (group_emission h qs) (duplicate_groups rep) eg /\
    Forall2 single_emission
            (singles (duplicate_groups rep) (length qs)) es.
Proof.
  intros Hcl H. unfold deduplicate_questions in H.
  apply bind_ok in H. destruct H as (D & hx & Hfind & H).
  apply reading_ok in Hfind. destruct Hfind as [Hfind ->].
  destruct (find_duplicates_texts _ _ _ Hfind) as (ts & Hts & ->).
  pose proof (texts_in_all_dicts _ _ _ Hts) as Hall.
  apply bind_ok in H. destruct H as ([[ded keep] G] & h1 & Hgroups & H).
  destruct (process_groups_emissions _ _ _ _ _ _ _ _ _ Hall Hcl (frame_refl h) Hgroups)
    as (gs & eg & [= -> -> ->] & Hmap & Heg & Hge & F1).
  destruct (process_groups_spec _ _ _ _ _ _ _ _ _ Hall (frame_refl h) Hgroups)
    as (vs & gs' & [= _ _ <-] & _ & Hcanon & _ & _).
  simpl in *.
  apply bind_ok in H. destruct H as (ded' & h2 & Hsingles & H).
  apply ret_ok in H. destruct H as [[= -> ->] ->].
  destruct (keep_singles_emissions _ _ _ _ _ _ _ _ Hall Hcl F1 Hsingles)
    as (es & -> & Hes & Hse).
  rewrite (kept_singles _ _ Hcanon) in Hse.
  exists eg, es. simpl. rewrite map_app. split; [reflexivity|].
  split; [apply emissions_app; eauto|]. split; assumption.
Qed.

(** *** What a sequence of emissions leaves in the heap *)

(** The [metadata] item of record [i], if it has one. *)
Definition meta_of (h : heap) (qs : list value) (i : nat) : option value :=
  match qs !! i with
  | Some (VRef l) => match h !! l with
                     | Some d => dict_get "metadata" d
                     | None => None
                     end
  | _ => None
  end.

(** An emission that writes the keys of [metadata_keys] only, and whose
    copy has the [metadata] item of the record. *)
Definition gentle (e : emission) : Prop :=
  (forall md, same_off metadata_keys md (em_upd e md)) /\
  (forall d, same_off ["source_metadata"] d (em_base e d)).

Lemma group_emission_gentle h0 qs g e : group_emission h0 qs g e -> gentle e.
Proof.
  intros (l & d & ds & pdfs & years & a & _ & _ & _ & _ & _ & _ & _ & _ & _ & ->).
  split; simpl.
  - intros md k Hk. apply dict_get_stamp. assumption.
  - intros d'. apply same_off_set. left. reflexivity.
Qed.

Lemma single_emission_gentle i e : single_emission i e -> gentle e.
Proof.
  intros (c & ->). split; simpl.
  - intros md. apply same_off_set. simpl. auto.
  - intros d. apply same_off_refl.
Qed.

Lemma meta_of_frame h h' qs i :
  all_dicts h qs -> frame h h' -> meta_of h' qs i = meta_of h qs i.
Proof.
  intros Hall [_ F]. unfold meta_of. destruct (qs !! i) as [q|] eqn:Hq; [|reflexivity].
  destruct (all_dicts_lookup _ _ _ _ Hall Hq) as (l & d & -> & Hl).
  destruct (F _ _ Hl) as (d' & Hl' & Hs). rewrite Hl, Hl'.
  apply Hs. not_a_key.
Qed.

Lemma emits_frame qs e h h1 : gentle e -> emits qs e h h1 -> frame h h1.
Proof.
  intros [Hup _] (l & d & _ & _ & _ & Hh). cbn zeta in Hh.
  destruct (dict_get "metadata" d).
  - destruct Hh as (m & md & _ & Hmd & ->).
    eapply evolves_set.
    + apply same_off_trans.
    + apply frame_of_prefix. intros x dx Hx. apply lookup_app_l_Some. eassumption.
    + apply lookup_app_l_Some. eassumption.
    + apply Hup.
  - subst h1. apply frame_of_prefix. intros x dx Hx.
    apply lookup_app_l_Some. assumption.
Qed.

Lemma emissions_frame qs es : forall h h',
  Forall gentle es -> emissions qs h es h' -> frame h h'.
Proof.
  induction es as [|e r IH]; simpl; intros h h' Hg H.
  - subst. apply frame_refl.
  - destruct H as (h1 & He & H). inversion Hg; subst.
    eapply frame_trans; [eapply emits_frame; eauto | eauto].
Qed.

(** A step leaves every object in place but the [metadata] dict of the
    record it emits. *)
Lemma emits_keeps qs e h h1 x dx :
  emits qs e h h1 -> h !! x = Some dx ->
  meta_of h qs (em_index e) <> Some (VRef x) -> h1 !! x = Some dx.
Proof.
  intros (l & d & Hq & Hl & _ & Hh) Hx Hne. cbn zeta in Hh.
  unfold meta_of in Hne. rewrite Hq, Hl in Hne.
  destruct (dict_get "metadata" d).
  - destruct Hh as (m & md & -> & Hmd & ->).
    rewrite list_lookup_insert_ne by congruence.
    apply lookup_app_l_Some. assumption.
  - subst h1. apply lookup_app_l_Some. assumption.
Qed.

Lemma emissions_keeps qs es : forall h h' x dx,
  all_dicts h qs -> Forall gentle es -> emissions qs h es h' ->
  h !! x = Some dx ->
  (forall e, In e es -> meta_of h qs (em_index e) <> Some (VRef x)) ->
  h' !! x = Some dx.
Proof.
  induction es as [|e r IH]; simpl; intros h h' x dx Hall Hg H Hx Hne.
  - subst. assumption.
  - destruct H as (h1 & He & H). inversion Hg as [|? ? Hge Hgr]; subst.
    pose proof (emits_frame _ _ _ _ Hge He) as F.
    apply (IH h1 h' x dx); auto.
    + eapply all_dicts_frame; eauto.
    + eapply emits_keeps; eauto.
    + intros e' He'. rewrite (meta_of_frame _ _ _ _ Hall F). auto.
Qed.

Lemma closed_meta_of h qs i m :
  closed h qs -> meta_of h qs i = Some (VRef m) -> (m < length h)%nat.
Proof.
  intros Hcl. unfold meta_of.
  destruct (qs !! i) as [[]|] eqn:Hq; try discriminate.
  destruct (h !! l) as [d|] eqn:Hl; [|discriminate].
  intros Hm. eapply Hcl; eauto.
Qed.

(** An object made during the run is never written to by a later step. *)
Lemma emissions_keeps_new h0 qs es h h' x dx :
  all_dicts h0 qs -> closed h0 qs -> frame h0 h ->
  Forall gentle es -> emissions qs h es h' ->
  h !! x = Some dx -> (length h0 <= x)%nat -> h' !! x = Some dx.
Proof.
  intros Hall Hcl F Hg H Hx Hlen.
  apply (emissions_keeps qs es h h' x dx); auto.
  - eapply all_dicts_frame; eauto.
  - intros e _ Hm. rewrite (meta_of_frame _ _ _ _ Hall F) in Hm.
    pose proof (closed_meta_of _ _ _ _ Hcl Hm). lia.
Qed.

(** What one step has made, right after it. *)
Lemma emits_made qs e h h1 :
  gentle e -> emits qs e h h1 ->
  exists l d c copy m,
    qs !! em_index e = Some (VRef l) /\ h !! l = Some d /\
    c = (length h + length (em_news e))%nat /\ em_value e = VRef c /\
    (forall j dj, em_news e !! j = Some dj -> h1 !! (length h + j)%nat = Some dj) /\
    h1 !! c = Some copy /\
    dict_get "metadata" copy = Some (VRef m) /\
    same_off ["metadata"] (em_base e d) copy /\
    match dict_get "metadata" d with
    | Some x => x = VRef m /\ exists md, h !! m = Some md /\ h1 !! m = Some (em_upd e md)
    | None => m = S c /\ h1 !! m = Some (em_upd e [])
    end.
Proof.
  intros [_ Hbase] (l & d & Hq & Hl & Hv & Hh). cbn zeta in Hh.
  set (c := (length h + length (em_news e))%nat) in *.
  assert (Hc : forall x, (h ++ em_news e ++ x) !! c = x !! 0%nat).
  { intros x. rewrite app_assoc, lookup_app_r by (rewrite length_app; lia).
    rewrite length_app. unfold c. rewrite Nat.sub_diag. reflexivity. }
  assert (Hnews : forall x j dj, em_news e !! j = Some dj ->
                    (h ++ em_news e ++ x) !! (length h + j)%nat = Some dj).
  { intros x j dj Hj. rewrite lookup_app_r by lia.
    replace (length h + j - length h)%nat with j by lia.
    apply lookup_app_l_Some. assumption. }
  destruct (dict_get "metadata" d) as [v|] eqn:Hmeta.
  - destruct Hh as (m & md & -> & Hmd & ->).
    pose proof (lookup_lt_Some _ _ _ Hmd) as Hm.
    exists l, d, c, (em_base e d), m.
    split; [assumption|]. split; [assumption|]. split; [reflexivity|].
    split; [assumption|]. split; [|split; [|split; [|split]]].
    + intros j dj Hj. rewrite list_lookup_insert_ne by lia. apply Hnews. assumption.
    + rewrite list_lookup_insert_ne by (unfold c; lia). rewrite Hc. reflexivity.
    + rewrite (Hbase d "metadata") by not_a_key. assumption.
    + apply same_off_refl.
    + rewrite Hmeta. split; [reflexivity|]. exists md. split; [assumption|].
      apply list_lookup_insert_eq. rewrite length_app. lia.
  - subst h1.
    exists l, d, c, (dict_set "metadata" (VRef (S c)) (em_base e d)), (S c).
    split; [assumption|]. split; [assumption|]. split; [reflexivity|].
    split; [assumption|]. split; [|split; [|split; [|split]]].
    + intros j dj Hj. apply Hnews. assumption.
    + rewrite Hc. reflexivity.
    + apply dict_get_set_eq.
    + apply same_off_set. left. reflexivity.
    + rewrite Hmeta. split; [reflexivity|].
      rewrite app_assoc, lookup_app_r by (rewrite length_app; unfold c; lia).
      rewrite length_app. fold c. replace (S c - c)%nat with 1%nat by lia.
      reflexivity.
Qed.

(** What the emission [e] of a run from [h0] has left in the final heap:
    the new objects, the copy, and the [metadata] dict of the copy. The
    [metadata] dict is known exactly when no other emitted record shares
    it. *)
Lemma emission_settled h0 qs pre e post h' :
  all_dicts h0 qs -> closed h0 qs -> Forall gentle (pre ++ e :: post) ->
  emissions qs h0 (pre ++ e :: post) h' ->
  exists l d0 d a c copy m,
    qs !! em_index e = Some (VRef l) /\ h0 !! l = Some d0 /\
    same_off metadata_keys d0 d /\
    (length h0 <= a)%nat /\ c = (a + length (em_news e))%nat /\
    em_value e = VRef c /\
    (forall j dj, em_news e !! j = Some dj -> h' !! (a + j)%nat = Some dj) /\
    h' !! c = Some copy /\
    dict_get "metadata" copy = Some (VRef m) /\
    same_off ["metadata"] (em_base e d) copy /\
    match dict_get "metadata" d0 with
    | Some x =>
        x = VRef m /\
        ((forall e', In e' (pre ++ post) ->
            meta_of h0 qs (em_index e') <> Some (VRef m)) ->
         exists md0, h0 !! m = Some md0 /\ h' !! m = Some (em_upd e md0))
    | None => m = S c /\ h' !! m = Some (em_upd e [])
    end.
Proof.
  intros Hall Hcl Hg H. apply emissions_app in H.
  destruct H as (h1 & Hpre & h2 & He & Hpost).
  apply Forall_app in Hg. destruct Hg as [Hgpre Hg]. inversion Hg as [|? ? Hge Hgpost]; subst.
  pose proof (emissions_frame _ _ _ _ Hgpre Hpre) as F1.
  pose proof (emits_frame _ _ _ _ Hge He) as F2.
  pose proof (frame_trans _ _ _ F1 F2) as F12.
  destruct (emits_made _ _ _ _ Hge He)
    as (l & d & c & copy & m & Hq & Hl & -> & Hv & Hnews & Hcopy & Hmeta & Hsame & Hmd).
  destruct (all_dicts_lookup _ _ _ _ Hall Hq) as (l0 & d0 & [= <-] & Hl0).
  destruct F1 as [L1 F1']. destruct (F1' _ _ Hl0) as (d' & Hl' & Hs0).
  assert (d' = d) as -> by congruence.
  assert (Hnew : forall x dx, h2 !! x = Some dx -> (length h0 <= x)%nat ->
                              h' !! x = Some dx).
  { intros x dx Hx Hlen.
    eapply (emissions_keeps_new h0 qs post h2 h'); eauto. }
  exists l, d0, d, (length h1), (length h1 + length (em_news e))%nat, copy, m.
  split; [assumption|]. split; [assumption|]. split; [assumption|].
  split; [assumption|]. split; [reflexivity|]. split; [assumption|].
  split; [intros j dj Hj; apply Hnew; [auto | lia]|].
  split; [apply Hnew; [assumption | lia]|].
  split; [assumption|]. split; [assumption|].
  rewrite <- (Hs0 "metadata") by not_a_key.
  destruct (dict_get "metadata" d) as [x|] eqn:Hx.
  - destruct Hmd as (-> & md & Hmd1 & Hmd2). split; [reflexivity|].
    intros Hapart.
    assert (Hm0 : meta_of h0 qs (em_index e) = Some (VRef m)).
    { unfold meta_of. rewrite Hq, Hl0. rewrite <- (Hs0 "metadata") by not_a_key.
      assumption. }
    pose proof (closed_meta_of _ _ _ _ Hcl Hm0) as Hlt.
    destruct (lookup_lt_is_Some_2 h0 m Hlt) as [md0 Hmd0].
    assert (md = md0) as ->.
    { assert (h1 !! m = Some md0); [|congruence].
      apply (emissions_keeps qs pre h0 h1 m md0); auto.
      intros e' He'. apply Hapart. apply in_app_iff. auto. }
    exists md0. split; [assumption|].
    apply (emissions_keeps qs post h2 h' m (em_upd e md0)); auto.
    + eapply all_dicts_frame; eauto.
    + intros e' He'. rewrite (meta_of_frame _ _ _ _ Hall F12).
      apply Hapart. apply in_app_iff. auto.
  - destruct Hmd as (-> & Hmd). split; [reflexivity|].
    apply Hnew; [assumption | lia].
Qed.

(** *** A run, seen from the initial heap *)

(** [closed], as a test. *)
Definition metadata_in_heap (h : heap) (qs : list value) : bool :=
  forallb (fun q => match q with
                    | VRef l =>
                        match h !! l with
                        | Some d => match dict_get "metadata" d with
                                    | Some (VRef m) => (m <? length h)%nat
                                    | _ => true
                                    end
                        | None => true
                        end
                    | _ => true
                    end) qs.

Lemma metadata_in_heap_closed h qs : metadata_in_heap h qs = true -> closed h qs.
Proof.
  unfold metadata_in_heap. rewrite forallb_forall. intros Hall i l d m Hq Hl Hm.
  assert (Hin : In (VRef l) qs) by (apply In_lookup; eauto).
  specialize (Hall _ Hin). simpl in Hall. rewrite Hl, Hm in Hall.
  apply Nat.ltb_lt. assumption.
Qed.

(** The [metadata] dicts the records of the corpus refer to, record by
    record. *)
Definition metadata_locs (h : heap) (qs : list value) : list loc :=
  flat_map (fun q => match q with
                     | VRef l =>
                         match h !! l with
                         | Some d => match dict_get "metadata" d with
                                     | Some (VRef m) => [m]
                                     | _ => []
                                     end
                         | None => []
                         end
                     | _ => []
                     end) qs.

Lemma meta_of_In h qs i m :
  meta_of h qs i = Some (VRef m) -> In m (metadata_locs h qs).
Proof.
  unfold meta_of, metadata_locs. intros H. apply in_flat_map.
  destruct (qs !! i) as [q|] eqn:Hq; [|discriminate].
  exists q. split; [apply In_lookup; eauto|].
  destruct q; try discriminate. destruct (h !! l); [|discriminate].
  rewrite H. left. reflexivity.
Qed.

Lemma meta_of_cons h q qs i : meta_of h (q :: qs) (S i) = meta_of h qs i.
Proof. reflexivity. Qed.

(** No two records share a [metadata] dict. *)
Lemma unshared_apart h qs : forall i j m,
  NoDup (metadata_locs h qs) -> i <> j ->
  meta_of h qs i = Some (VRef m) -> meta_of h qs j <> Some (VRef m).
Proof.
  induction qs as [|q qs IH]; intros i j m Hnd Hne Hi Hj.
  - destruct i; discriminate.
  - unfold metadata_locs in Hnd. simpl in Hnd. fold (metadata_locs h qs) in Hnd.
    apply NoDup_app_remove_l in Hnd as Hnd'.
    destruct i as [|i], j as [|j]; try congruence.
    + rewrite meta_of_cons in Hj. apply meta_of_In in Hj.
      unfold meta_of in Hi. simpl in Hi.
      destruct q; try discriminate. destruct (h !! l); [|discriminate].
      rewrite Hi in Hnd. simpl in Hnd. inversion Hnd; subst. contradiction.
    + rewrite meta_of_cons in Hi. apply meta_of_In in Hi.
      unfold meta_of in Hj. simpl in Hj.
      destruct q; try discriminate. destruct (h !! l); [|discriminate].
      rewrite Hj in Hnd. simpl in Hnd. inversion Hnd; subst. contradiction.
    + rewrite meta_of_cons in Hi, Hj. apply (IH i j m); auto.
Qed.

Lemma group_emission_index h0 qs G eg :
  Forall2 (group_emission h0 qs) G eg -> map em_index eg = map canonical_index G.
Proof.
  induction 1 as [|g e G eg (l & d & ds & pdfs & years & a & _ & _ & _ & _ & _ & _ & _ & _ & _ & ->) _ IH];
    simpl; [reflexivity|]. rewrite IH. reflexivity.
Qed.

Lemma single_emission_index ixs es :
  Forall2 single_emission ixs es -> map em_index es = ixs.
Proof.
  induction 1 as [|i e ixs es (c & ->) _ IH]; simpl; [reflexivity|].
  rewrite IH. reflexivity.
Qed.

(** [settled h0 qs h' e]: what the emission [e] of a run from [h0] to [h']
    has left in [h']. *)
Definition settled (h0 : heap) (qs : list value) (h' : heap) (e : emission)
  : Prop :=
  exists l d0 d a c copy m,
    qs !! em_index e = Some (VRef l) /\ h0 !! l = Some d0 /\
    same_off metadata_keys d0 d /\
    (length h0 <= a)%nat /\ c = (a + length (em_news e))%nat /\
    em_value e = VRef c /\
    (forall j dj, em_news e !! j = Some dj -> h' !! (a + j)%nat = Some dj) /\
    h' !! c = Some copy /\
    dict_get "metadata" copy = Some (VRef m) /\
    same_off ["metadata"] (em_base e d) copy /\
    match dict_get "metadata" d0 with
    | Some x =>
        x = VRef m /\
        (NoDup (metadata_locs h0 qs) ->
         exists md0, h0 !! m = Some md0 /\ h' !! m = Some (em_upd e md0))
    | None => m = S c /\ h' !! m = Some (em_upd e [])
    end.

Lemma NoDup_middle {A} (pre post : list A) (x y : A) :
  NoDup (pre ++ x :: post) -> In y (pre ++ post) -> y <> x.
Proof.
  intros Hnd Hy ->. apply NoDup_remove_2 in Hnd. contradiction.
Qed.

(** A run, as the emissions it is made of and what each has left. *)
Lemma run_settled qs h out rep h' :
  closed h qs ->
  deduplicate_questions qs h = Ok ((out, rep), h') ->
  exists eg es,
    out = map em_value (eg ++ es) /\
    Forall2 (group_emission h qs) (duplicate_groups rep) eg /\
    Forall2 single_emission (singles (duplicate_groups rep) (length qs)) es /\
    map em_index (eg ++ es) = emitted (duplicate_groups rep) (length qs) /\
    Forall gentle (eg ++ es) /\
    emissions qs h (eg ++ es) h' /\
    Forall (settled h qs h') (eg ++ es).
Proof.
  intros Hcl H.
  destruct (deduplicate_questions_emissions _ _ _ _ _ Hcl H)
    as (eg & es & -> & Hes & Hge & Hse).
  destruct (deduplicate_questions_run _ _ _ _ _ H) as (ts & canon & so & R).
  pose proof (run_groups_of _ _ _ _ _ _ _ _ R) as S.
  pose proof (texts_in_all_dicts _ _ _ (run_texts R)) as Hall.
  pose proof (emitted_NoDup _ _ S (run_canonical R)) as Hnd.
  rewrite (texts_in_length _ _ _ (run_texts R)) in Hnd.
  assert (Hidx : map em_index (eg ++ es)
                 = emitted (duplicate_groups rep) (length qs)).
  { rewrite map_app, (group_emission_index _ _ _ _ Hge),
      (single_emission_index _ _ Hse). reflexivity. }
  assert (Hg : Forall gentle (eg ++ es)).
  { apply Forall_app. split.
    - clear -Hge. induction Hge; constructor; eauto using group_emission_gentle.
    - clear -Hse. induction Hse; constructor; eauto using single_emission_gentle. }
  exists eg, es. do 6 (split; [assumption || reflexivity|]).
  apply Forall_forall. intros e He. apply in_split in He.
  destruct He as (pre & post & E). rewrite E in *.
  destruct (emission_settled _ _ _ _ _ _ Hall Hcl Hg Hes)
    as (l & d0 & d & a & c & copy & m & Hq & Hl0 & Hs & Ha & Hc & Hv & Hnews
        & Hcopy & Hmeta & Hsame & Hmd).
  exists l, d0, d, a, c, copy, m. do 10 (split; [assumption|]).
  destruct (dict_get "metadata" d0) as [x|] eqn:Hx; [|assumption].
  destruct Hmd as [-> Hmd]. split; [reflexivity|]. intros Hun. apply Hmd.
  intros e' He'. apply (unshared_apart h qs (em_index e)); auto.
  - rewrite <- Hidx, map_app in Hnd. simpl in Hnd.
    apply not_eq_sym. eapply NoDup_middle; [apply Hnd|].
    rewrite <- map_app. apply in_map. assumption.
  - unfold meta_of. rewrite Hq, Hl0. assumption.
Qed.

(* ===================================================================== *)
(** ** The records of the output are new objects *)
(* ===================================================================== *)

Lemma emits_value qs e h h1 :
  emits qs e h h1 ->
  exists c, em_value e = VRef c /\ (length h <= c < length h1)%nat.
Proof.
  intros (l & d & _ & _ & Hv & Hh). cbn zeta in Hh.
  exists (length h + length (em_news e))%nat. split; [assumption|].
  destruct (dict_get "metadata" d).
  - destruct Hh as (m & md & _ & _ & ->).
    rewrite length_insert, !length_app. simpl. lia.
  - subst h1. rewrite !length_app. simpl. lia.
Qed.

Lemma emissions_values qs es : forall h h',
  emissions qs h es h' ->
  (length h <= length h')%nat /\
  exists cs,
    map em_value es = map VRef cs /\ StronglySorted lt cs /\
    Forall (fun c => (length h <= c < length h')%nat) cs.
Proof.
  induction es as [|e r IH]; simpl; intros h h' H.
  - subst. split; [lia|]. exists []. repeat split; constructor.
  - destruct H as (h1 & He & H).
    destruct (emits_value _ _ _ _ He) as (c & Hv & Hc).
    destruct (IH _ _ H) as (L & cs & E & Hs & Hall).
    split; [lia|]. exists (c :: cs). rewrite Hv, E. split; [reflexivity|]. split.
    + constructor; [assumption|]. revert Hall. apply Forall_impl. intros x. lia.
    + constructor; [lia|]. revert Hall. apply Forall_impl. intros x. lia.
Qed.

(** X5. The output of a run holds new dicts only, each once: the records of
    the output are references to objects made during the run, in the order
    in which they were made, so that no record of the output is a record of
    the input and no two records of the output are the same object. *)
Theorem output_records_new (qs : list value) (h : heap) (out : list value)
    (rep : report) (h' : heap) :
  metadata_in_heap h qs = true ->
  deduplicate_questions qs h = Ok ((out, rep), h') ->
  exists cs,
    out = map VRef cs /\ StronglySorted lt cs /\ NoDup cs /\
    (forall c, In c cs -> (length h <= c < length h')%nat) /\
    (forall c, In c cs -> ~ In (VRef c) qs).
Proof.
  intros Hcl H. apply metadata_in_heap_closed in Hcl.
  destruct (run_settled _ _ _ _ _ Hcl H) as (eg & es & -> & _ & _ & _ & _ & Hes & _).
  destruct (emissions_values _ _ _ _ Hes) as (_ & cs & E & Hs & Hall).
  destruct (deduplicate_questions_run _ _ _ _ _ H) as (ts & canon & so & R).
  pose proof (texts_in_all_dicts _ _ _ (run_texts R)) as Hdicts.
  rewrite Forall_forall in Hall.
  exists cs. split; [assumption|]. split; [assumption|].
  split; [apply StronglySorted_lt_NoDup; assumption|].
  split; [exact Hall|].
  intros c Hc Hin. unfold all_dicts in Hdicts. rewrite Forall_forall in Hdicts.
  destruct (Hdicts _ Hin) as (l & d & [= <-] & Hl).
  apply lookup_lt_Some in Hl. specialize (Hall _ Hc). lia.
Qed.

Lemma output_records_new_witness :
  exists out rep h' cs,
    deduplicate_questions example_corpus example_heap = Ok ((out, rep), h') /\
    out = map VRef cs /\ NoDup cs /\
    (forall c, In c cs -> ~ In (VRef c) example_corpus).
Proof.
  destruct (deduplicate_questions example_corpus example_heap)
    as [[[out rep] h']|e] eqn:E; [|vm_compute in E; discriminate].
  destruct (output_records_new example_corpus example_heap out rep h' eq_refl E)
    as (cs & Hout & _ & Hnd & _ & Hnot).
  exists out, rep, h', cs. auto.
Defined.

(* ===================================================================== *)
(** ** The objects a run writes to *)
(* ===================================================================== *)

(** X6. A run writes to no object of the input heap but the [metadata] dicts
    of the records it emits: every other object is, after the run, exactly
    as it was. In particular a corpus whose records carry no [metadata]
    comes back untouched, the heap having grown only. *)
Theorem only_metadata_written (qs : list value) (h : heap) (out : list value)
    (rep : report) (h' : heap) :
  metadata_in_heap h qs = true ->
  deduplicate_questions qs h = Ok ((out, rep), h') ->
  (forall x dx,
     h !! x = Some dx ->
     (forall i, In i (emitted (duplicate_groups rep) (length qs)) ->
                meta_of h qs i <> Some (VRef x)) ->
     h' !! x = Some dx) /\
  ((forall i, meta_of h qs i = None) -> exists news, h' = h ++ news).
Proof.
  intros Hcl H. apply metadata_in_heap_closed in Hcl.
  destruct (run_settled _ _ _ _ _ Hcl H)
    as (eg & es & _ & _ & _ & Hidx & Hg & Hes & _).
  destruct (deduplicate_questions_run _ _ _ _ _ H) as (ts & canon & so & R).
  pose proof (texts_in_all_dicts _ _ _ (run_texts R)) as Hall.
  assert (Hkeep : forall x dx,
     h !! x = Some dx ->
     (forall i, In i (emitted (duplicate_groups rep) (length qs)) ->
                meta_of h qs i <> Some (VRef x)) ->
     h' !! x = Some dx).
  { intros x dx Hx Hne.
    apply (emissions_keeps qs (eg ++ es) h h' x dx); auto.
    intros e He. apply Hne. rewrite <- Hidx. apply in_map. assumption. }
  split; [exact Hkeep|].
  intros Hnone. exists (drop (length h) h').
  rewrite <- (take_drop (length h) h') at 1. f_equal.
  apply list_eq. intros x. destruct (h !! x) as [dx|] eqn:Hx.
  - rewrite lookup_take_lt by (eapply lookup_lt_Some; eauto).
    apply Hkeep; [assumption|]. intros i _. rewrite Hnone. discriminate.
  - apply lookup_ge_None in Hx. apply lookup_ge_None.
    rewrite length_take. lia.
Qed.

Lemma only_metadata_written_witness :
  exists out rep h',
    deduplicate_questions example_corpus example_heap = Ok ((out, rep), h') /\
    h' !! 0%nat = example_heap !! 0%nat /\
    h' !! 1%nat = example_heap !! 1%nat /\
    h' !! 2%nat = example_heap !! 2%nat.
Proof.
  destruct (deduplicate_questions example_corpus example_heap)
    as [[[out rep] h']|e] eqn:E; [|vm_compute in E; discriminate].
  destruct (only_metadata_written example_corpus example_heap out rep h' eq_refl E)
    as [Hkeep _].
  exists out, rep, h'. split; [reflexivity|].
  assert (Hno : forall x, x <> 3%nat -> forall i,
            In i (emitted (duplicate_groups rep) (length example_corpus)) ->
            meta_of example_heap example_corpus i <> Some (VRef x)).
  { intros x Hx i _. destruct i as [|[|[|i]]]; vm_compute; congruence. }
  split; [|split]; apply Hkeep; try reflexivity; apply Hno; lia.
Defined.

Lemma Forall2_map_right {A B C} (f : B -> C) (R : A -> C -> Prop)
    (l : list A) (l' : list B) :
  Forall2 (fun a b => R a (f b)) l l' -> Forall2 R l (map f l').
Proof. induction 1; simpl; constructor; auto. Qed.

Lemma Forall2_with_right {A B} (R : A -> B -> Prop) (P : B -> Prop)
    (l : list A) (l' : list B) :
  Forall2 R l l' -> Forall P l' -> Forall2 (fun a b => R a b /\ P b) l l'.
Proof.
  induction 1; intros HP; [constructor|].
  inversion HP; subst. constructor; auto.
Qed.

Lemma Forall_on_map {A B C} (f : A -> B) (g : A -> C) (R : B -> C -> Prop)
    (l : list A) :
  Forall (fun a => R (f a) (g a)) l -> Forall2 R (map f l) (map g l).
Proof. induction 1; simpl; constructor; auto. Qed.

(* ===================================================================== *)
(** ** The [metadata] dict of an output record *)
(* ===================================================================== *)

(** X7. The copy a run emits for a record that has a [metadata] item carries
    that very dict, not a copy of it: the two records share it. The copy of
    a record without one carries a dict made during the run. A [metadata]
    item that is no dict cannot occur in a run that returns. *)
Theorem metadata_shared_or_new (qs : list value) (h : heap) (out : list value)
    (rep : report) (h' : heap) :
  metadata_in_heap h qs = true ->
  deduplicate_questions qs h = Ok ((out, rep), h') ->
  Forall2 (fun i v =>
             exists c copy m md,
               v = VRef c /\ h' !! c = Some copy /\
               dict_get "metadata" copy = Some (VRef m) /\ h' !! m = Some md /\
               match meta_of h qs i with
               | Some x => x = VRef m /\ (m < length h)%nat
               | None => (length h <= m)%nat
               end)
          (emitted (duplicate_groups rep) (length qs)) out.
Proof.
  intros Hcl H. apply metadata_in_heap_closed in Hcl.
  destruct (run_settled _ _ _ _ _ Hcl H)
    as (eg & es & -> & _ & _ & <- & Hg & Hes & Hall).
  pose proof (emissions_frame _ _ _ _ Hg Hes) as [_ F].
  apply Forall_on_map. revert Hall. apply Forall_impl.
  intros e (l & d0 & d & a & c & copy & m & Hq & Hl0 & Hs & Ha & Hc & Hv & Hnews
            & Hcopy & Hmeta & Hsame & Hmd).
  assert (Hmeta0 : meta_of h qs (em_index e) = dict_get "metadata" d0).
  { unfold meta_of. rewrite Hq, Hl0. reflexivity. }
  rewrite Hmeta0.
  destruct (dict_get "metadata" d0) as [x|] eqn:Hx.
  - destruct Hmd as [-> _].
    assert (Hm : (m < length h)%nat).
    { apply (closed_meta_of h qs (em_index e)); [assumption|]. congruence. }
    destruct (lookup_lt_is_Some_2 h m Hm) as [md0 Hmd0].
    destruct (F _ _ Hmd0) as (md & Hmd' & _).
    exists c, copy, m, md. auto 10.
  - destruct Hmd as [-> Hmd]. exists c, copy, (S c), (em_upd e []).
    repeat split; auto. lia.
Qed.

Lemma metadata_shared_or_new_witness :
  exists out rep h' c copy,
    deduplicate_questions example_corpus example_heap = Ok ((out, rep), h') /\
    out !! 0%nat = Some (VRef c) /\ h' !! c = Some copy /\
    dict_get "metadata" copy = dict_get "metadata" (nth 1 example_heap []).
Proof.
  destruct (deduplicate_questions example_corpus example_heap)
    as [[[out rep] h']|e] eqn:E; [|vm_compute in E; discriminate].
  pose proof (metadata_shared_or_new example_corpus example_heap out rep h' eq_refl E)
    as Hall.
  assert (Hem : emitted (duplicate_groups rep) (length example_corpus) = [1; 2]%nat).
  { vm_compute in E. injection E as <- <- <-. reflexivity. }
  rewrite Hem in Hall.
  inversion Hall as [|i v is' out' (c & copy & m & md & -> & Hc & Hm & _ & Hshare) _];
    subst.
  simpl in Hshare. destruct Hshare as [[= <-] _].
  exists (VRef c :: out'), rep, h', c, copy. auto.
Defined.

(* ===================================================================== *)
(** ** What a group leaves in the output *)
(* ===================================================================== *)

Lemma stamp_items merged md :
  dict_get "source_pdfs" (stamp merged md) = Some (field "source_pdfs" merged) /\
  dict_get "years_found" (stamp merged md) = Some (field "years_found" merged) /\
  dict_get "is_deduplicated" (stamp merged md) = Some (VBool true) /\
  dict_get "duplicate_count" (stamp merged md)
  = Some (field "duplicate_count" merged) /\
  forall k, ~ In k metadata_keys -> dict_get k (stamp merged md) = dict_get k md.
Proof.
  unfold stamp. split; [|split; [|split; [|split]]].
  - rewrite !dict_get_set_ne by discriminate. apply dict_get_set_eq.
  - rewrite !dict_get_set_ne by discriminate. apply dict_get_set_eq.
  - rewrite !dict_get_set_ne by discriminate. apply dict_get_set_eq.
  - apply dict_get_set_eq.
  - intros k Hk. apply dict_get_stamp. assumption.
Qed.

(** X8. On a corpus in which no two records share a [metadata] dict, as in
    every corpus [json.load] builds, the record a run emits for a group
    carries the merged provenance under [source_metadata], and its
    [metadata] dict is, after the run, the one the canonical record came
    with (an empty one if it came with none) with four items set:
    [source_pdfs] and [years_found] as in the merged provenance,
    [is_deduplicated = True] and [duplicate_count], the size of the group.
    Every other item of that dict is as it was. *)
Theorem canonical_metadata_stamped (qs : list value) (h : heap)
    (out : list value) (rep : report) (h' : heap) :
  metadata_in_heap h qs = true -> NoDup (metadata_locs h qs) ->
  deduplicate_questions qs h = Ok ((out, rep), h') ->
  exists canon single_out,
    out = canon ++ single_out /\
    Forall2 (fun g v =>
               exists c copy m md ms merged md0,
                 v = VRef c /\ h' !! c = Some copy /\
                 dict_get "source_metadata" copy = Some (VRef ms) /\
                 merged_sources g = VRef ms /\ h' !! ms = Some merged /\
                 dict_get "metadata" copy = Some (VRef m) /\
                 h' !! m = Some md /\
                 match meta_of h qs (canonical_index g) with
                 | Some x => x = VRef m /\ h !! m = Some md0
                 | None => md0 = []
                 end /\
                 dict_get "source_pdfs" md = dict_get "source_pdfs" merged /\
                 dict_get "years_found" md = dict_get "years_found" merged /\
                 dict_get "is_deduplicated" md = Some (VBool true) /\
                 dict_get "duplicate_count" md
                 = Some (VInt (Z.of_nat (length (duplicate_indices g)))) /\
                 forall k, ~ In k metadata_keys -> dict_get k md = dict_get k md0)
            (duplicate_groups rep) canon.
Proof.
  intros Hcl Hun H. apply metadata_in_heap_closed in Hcl.
  destruct (run_settled _ _ _ _ _ Hcl H)
    as (eg & es & -> & Hge & _ & _ & _ & _ & Hall).
  apply Forall_app in Hall. destruct Hall as [Hall _].
  exists (map em_value eg), (map em_value es). split; [apply map_app|].
  apply Forall2_map_right.
  generalize (Forall2_with_right _ _ _ _ Hge Hall). apply Forall2_impl.
  intros g e [(l & d & ds & pdfs & years & a & Hc & Hq & Hl & Hrec & _ & _ & _ & _ & Hms & ->)
              (l' & d0 & d' & a' & c & copy & m & Hq' & Hl0 & Hs & Ha & Ec & Hv
               & Hnews & Hcopy & Hmeta & Hsame & Hmd)].
  cbn zeta in *. simpl in Hq', Ec, Hv, Hnews, Hsame, Hmd.
  assert (l' = l) as -> by congruence. assert (d0 = d) as -> by congruence.
  set (ix := duplicate_indices g) in *.
  set (merged := merged_of a ix pdfs years) in *.
  assert (Hlen : length (provenance_entries ds ix) = length ix).
  { apply provenance_entries_length. symmetry. eapply Forall2_length; eauto. }
  rewrite length_app, Hlen in Ec. simpl in Ec.
  injection Hv as Hv. assert (a' = a) as -> by lia.
  assert (Hmerged : h' !! (a + length ix)%nat = Some merged).
  { apply Hnews. rewrite lookup_app_r by lia. rewrite Hlen, Nat.sub_diag. reflexivity. }
  assert (Hmeta0 : meta_of h qs (canonical_index g) = dict_get "metadata" d).
  { unfold meta_of. rewrite Hq, Hl. reflexivity. }
  rewrite Hmeta0.
  assert (Hsm : dict_get "source_metadata" copy = Some (VRef (a + length ix))).
  { rewrite (Hsame "source_metadata") by not_a_key. apply dict_get_set_eq. }
  assert (Hfinal : exists md0,
            h' !! m = Some (stamp merged md0) /\
            match dict_get "metadata" d with
            | Some x => x = VRef m /\ h !! m = Some md0
            | None => md0 = []
            end).
  { destruct (dict_get "metadata" d) as [x|].
    - destruct Hmd as [-> Hmd]. destruct (Hmd Hun) as (md0 & Hmd0 & Hmd').
      exists md0. auto.
    - destruct Hmd as [-> Hmd]. exists []. auto. }
  destruct Hfinal as (md0 & Hmd' & Horigin).
  destruct (stamp_items merged md0) as (S1 & S2 & S3 & S4 & S5).
  exists (S (a + length ix)), copy, m, (stamp merged md0), (a + length ix)%nat,
    merged, md0.
  subst c. replace (a + (length ix + 1))%nat with (S (a + length ix)) in Hcopy by lia.
  split; [reflexivity|]. split; [assumption|]. split; [assumption|].
  split; [assumption|]. split; [assumption|]. split; [assumption|].
  split; [assumption|]. split; [assumption|].
  split; [rewrite S1; reflexivity|]. split; [rewrite S2; reflexivity|].
  split; [assumption|]. split; [rewrite S4; reflexivity|]. assumption.
Qed.

Lemma canonical_metadata_stamped_witness :
  exists out rep h' canon single_out,
    deduplicate_questions example_corpus example_heap = Ok ((out, rep), h') /\
    out = canon ++ single_out /\
    length canon = length (duplicate_groups rep).
Proof.
  destruct (deduplicate_questions example_corpus example_heap)
    as [[[out rep] h']|e] eqn:E; [|vm_compute in E; discriminate].
  assert (Hnd : NoDup (metadata_locs example_heap example_corpus)).
  { vm_compute. constructor; [simpl; tauto | constructor]. }
  destruct (canonical_metadata_stamped example_corpus example_heap out rep h'
              eq_refl Hnd E) as (canon & single_out & Hout & Hall).
  exists out, rep, h', canon, single_out.
  split; [reflexivity|]. split; [assumption|].
  symmetry. eapply Forall2_length. eassumption.
Defined.

(** The merged provenance of each group of the report, in the final
    heap. *)
Definition group_merged (h : heap) (qs : list value) (h' : heap)
    (g : group_audit) : Prop :=
  let ix := duplicate_indices g in
  exists l d ds pdfs years a,
    qs !! canonical_index g = Some (VRef l) /\ h !! l = Some d /\
    canonical_unit g = field "unit" d /\ canonical_year g = field "year" d /\
    records_at h qs ix ds /\
    py_sorted (source_files_of ds) = Ok pdfs /\
    (Forall (fun d => provenance_ok d = true) ds ->
     pdfs = map VStr (sorted_strs (file_names ds)) /\
     years = sorted_strs (year_names ds)) /\
    (length h <= a)%nat /\
    merged_sources g = VRef (a + length ix) /\
    h' !! (a + length ix)%nat = Some (merged_of a ix pdfs years) /\
    forall j dj, provenance_entries ds ix !! j = Some dj ->
                 h' !! (a + j)%nat = Some dj.

Lemma run_merged qs h out rep h' :
  closed h qs ->
  deduplicate_questions qs h = Ok ((out, rep), h') ->
  Forall (group_merged h qs h') (duplicate_groups rep).
Proof.
  intros Hcl H.
  destruct (run_settled _ _ _ _ _ Hcl H)
    as (eg & es & _ & Hge & _ & _ & _ & _ & Hall).
  apply Forall_app in Hall. destruct Hall as [Hall _].
  pose proof (Forall2_with_right _ _ _ _ Hge Hall) as Hboth.
  apply Forall_forall. intros g Hg. apply In_lookup in Hg. destruct Hg as (k & Hk).
  destruct (Forall2_lookup_l _ _ _ _ _ Hboth Hk)
    as (e & _ & (l & d & ds & pdfs & years & a & Hc & Hq & Hl & Hrec & Hpdfs & Hplain
                 & Hu & Hy & Hms & ->)
        & (l' & d0 & d' & a' & c & copy & m & _ & _ & _ & Ha & Ec & Hv & Hnews & _)).
  cbn zeta in *. simpl in Ec, Hv, Hnews.
  set (ix := duplicate_indices g) in *.
  assert (Hlen : length (provenance_entries ds ix) = length ix).
  { apply provenance_entries_length. symmetry. eapply Forall2_length; eauto. }
  rewrite length_app, Hlen in Ec. simpl in Ec.
  injection Hv as Hv. assert (a' = a) as -> by lia.
  exists l, d, ds, pdfs, years, a. fold ix.
  do 9 (split; [assumption|]). split.
  - apply Hnews. rewrite lookup_app_r by lia. rewrite Hlen, Nat.sub_diag. reflexivity.
  - intros j dj Hj. apply Hnews. apply lookup_app_l_Some. assumption.
Qed.

(** X9. The provenance a run records for a group: the [merged_sources] of the
    report entry is, after the run, a dict whose [duplicate_count] is the
    size of the group and whose [all_sources] lists one new dict per index
    of the group, in the order of the indices; the dict for an index holds
    the year, the source file and the question number of the record at that
    index ([None] where the record has none) and the index itself. The
    entry of the report names the unit and the year of the canonical
    record, [None] where it has none. *)
Theorem provenance_trail (qs : list value) (h : heap) (out : list value)
    (rep : report) (h' : heap) :
  metadata_in_heap h qs = true ->
  deduplicate_questions qs h = Ok ((out, rep), h') ->
  Forall (fun g =>
            let ix := duplicate_indices g in
            exists l d ms merged a,
              qs !! canonical_index g = Some (VRef l) /\ h !! l = Some d /\
              canonical_unit g = field "unit" d /\
              canonical_year g = field "year" d /\
              merged_sources g = VRef ms /\ h' !! ms = Some merged /\
              dict_get "duplicate_count" merged
              = Some (VInt (Z.of_nat (length ix))) /\
              dict_get "all_sources" merged
              = Some (VList (map VRef (seq a (length ix)))) /\
              (length h <= a)%nat /\
              forall j idx, ix !! j = Some idx ->
                exists lj dj,
                  qs !! idx = Some (VRef lj) /\ h !! lj = Some dj /\
                  h' !! (a + j)%nat = Some (provenance_entry dj idx))
         (duplicate_groups rep).
Proof.
  intros Hcl H. apply metadata_in_heap_closed in Hcl.
  generalize (run_merged _ _ _ _ _ Hcl H). apply Forall_impl.
  intros g (l & d & ds & pdfs & years & a & Hq & Hl & Hu & Hy & Hrec & _ & _ & Ha
            & Hms & Hmerged & Hnews).
  cbn zeta.
  exists l, d, (a + length (duplicate_indices g))%nat,
    (merged_of a (duplicate_indices g) pdfs years), a.
  do 6 (split; [assumption|]).
  split; [reflexivity|]. split; [reflexivity|]. split; [assumption|].
  intros j idx Hj.
  destruct (Forall2_lookup_l _ _ _ _ _ Hrec Hj) as (dj & Hdj & lj & Hqj & Hlj).
  exists lj, dj. split; [assumption|]. split; [assumption|].
  apply Hnews. apply provenance_entries_lookup; assumption.
Qed.

Lemma provenance_trail_witness :
  exists out rep h',
    deduplicate_questions example_corpus example_heap = Ok ((out, rep), h') /\
    Forall (fun g =>
              exists ms merged,
                merged_sources g = VRef ms /\ h' !! ms = Some merged /\
                dict_get "duplicate_count" merged
                = Some (VInt (Z.of_nat (length (duplicate_indices g)))))
           (duplicate_groups rep).
Proof.
  destruct (deduplicate_questions example_corpus example_heap)
    as [[[out rep] h']|e] eqn:E; [|vm_compute in E; discriminate].
  pose proof (provenance_trail example_corpus example_heap out rep h' eq_refl E)
    as Hall.
  exists out, rep, h'. split; [reflexivity|].
  revert Hall. apply Forall_impl.
  intros g (l & d & ms & merged & a & _ & _ & _ & _ & Hms & Hm & Hc & _). eauto.
Defined.

(* ===================================================================== *)
(** ** An index outside the corpus *)
(* ===================================================================== *)

Lemma candidates_of_out_of_range qs : forall ix,
  (exists i, In i ix /\ (length qs <= i)%nat) ->
  candidates_of qs ix = Raise IndexError.
Proof.
  induction ix as [|i ix IH]; intros (j & Hj & Hlen); [destruct Hj|].
  simpl. unfold py_index. destruct (qs !! i) as [q|] eqn:Hq; simpl; [|reflexivity].
  rewrite IH; [reflexivity|].
  destruct Hj as [->|Hj]; [|eauto].
  apply lookup_lt_Some in Hq. lia.
Qed.

(** X10. [select_canonical_version] looks every index up before it compares
    anything: an index that is not below the length of the corpus makes it
    raise [IndexError], whatever the records hold, and the loop over the
    groups with it. *)
Theorem index_out_of_range (h : heap) (qs : list value) (indices : list nat) :
  (exists i, In i indices /\ (length qs <= i)%nat) ->
  select_canonical_version h qs indices = Raise IndexError /\
  forall st, process_group qs indices st h = Raise IndexError.
Proof.
  intros Hbad.
  assert (E : select_canonical_version h qs indices = Raise IndexError).
  { unfold select_canonical_version.
    rewrite (candidates_of_out_of_range _ _ Hbad). reflexivity. }
  split; [assumption|].
  intros [[ded keep] G]. unfold process_group, bind, reading. rewrite E. reflexivity.
Qed.

Lemma index_out_of_range_witness :
  select_canonical_version example_heap example_corpus [0; 3]%nat
  = Raise IndexError.
Proof.
  apply (index_out_of_range example_heap example_corpus [0; 3]%nat).
  exists 3%nat. split; [simpl; auto | simpl; lia].
Defined.

(* ===================================================================== *)
(** ** [merge_sources] adds objects and writes to none *)
(* ===================================================================== *)

(** X11. Whatever the records hold, a call of [merge_sources] that returns has
    left every object of the heap as it was and has added one dict per
    index, in the order of the indices, and then the dict it returns; that
    dict lists the new dicts under [all_sources] and has [duplicate_count]
    the number of indices. *)
Theorem merge_sources_adds_only (qs : list value) (indices : list nat)
    (h : heap) (v : value) (h' : heap) :
  Forall (fun q => exists l, q = VRef l /\ (l < length h)%nat) qs ->
  merge_sources qs indices h = Ok (v, h') ->
  exists news merged,
    h' = h ++ news ++ [merged] /\
    length news = length indices /\
    v = VRef (length h + length indices) /\
    dict_get "all_sources" merged
    = Some (VList (map VRef (seq (length h) (length indices)))) /\
    dict_get "duplicate_count" merged
    = Some (VInt (Z.of_nat (length indices))) /\
    forall j idx, indices !! j = Some idx ->
      exists l d, qs !! idx = Some (VRef l) /\ h !! l = Some d /\
                  news !! j = Some (provenance_entry d idx).
Proof.
  intros Hrefs H.
  assert (Hall : all_dicts h qs).
  { revert Hrefs. apply Forall_impl. intros q (l & -> & Hl).
    destruct (lookup_lt_is_Some_2 h l Hl) as [d Hd]. eauto. }
  destruct (merge_sources_shape _ _ _ _ _ Hall H)
    as (ds & pdfs & years & Hrec & _ & -> & ->).
  exists (provenance_entries ds indices), (merged_of (length h) indices pdfs years).
  split; [reflexivity|]. split.
  { apply provenance_entries_length. symmetry. eapply Forall2_length; eauto. }
  split; [reflexivity|]. split; [reflexivity|]. split; [reflexivity|].
  intros j idx Hj.
  destruct (Forall2_lookup_l _ _ _ _ _ Hrec Hj) as (dj & Hdj & lj & Hqj & Hlj).
  exists lj, dj. split; [assumption|]. split; [assumption|].
  apply provenance_entries_lookup; assumption.
Qed.

Lemma merge_sources_adds_only_witness :
  exists v h' news merged,
    merge_sources example_corpus [0; 1]%nat example_heap = Ok (v, h') /\
    h' = example_heap ++ news ++ [merged] /\ length news = 2%nat.
Proof.
  destruct (merge_sources example_corpus [0; 1]%nat example_heap)
    as [[v h']|e] eqn:E; [|vm_compute in E; discriminate].
  destruct (merge_sources_adds_only example_corpus [0; 1]%nat example_heap v h')
    as (news & merged & Hh & Hlen & _).
  - repeat constructor; eexists; (split; [reflexivity | simpl; lia]).
  - assumption.
  - exists v, h', news, merged. auto.
Defined.

(* ===================================================================== *)
(** ** A corpus without duplicates *)
(* ===================================================================== *)

Lemma singles_nil n : singles [] n = seq 0 n.
Proof.
  unfold singles. induction (seq 0 n) as [|i r IH]; [reflexivity|].
  simpl in *. congruence.
Qed.

(** X12. A corpus in which no two records have the same trimmed text goes
    through whole: the run returns (the [metadata] of a record being a dict
    when it is there), reports no group and nothing removed, and emits one
    copy per record, in the order of the corpus, whose [metadata] says
    [is_deduplicated = False]. *)
Theorem distinct_texts_pass_through (qs : list value) (h : heap)
    (ts : list string) :
  texts_in h qs ts -> NoDup ts ->
  (forall i q, qs !! i = Some q ->
     exists l d, q = VRef l /\ h !! l = Some d /\
                 metadata_ok (length h) (dict_get "metadata" d) = true) ->
  exists out rep h',
    deduplicate_questions qs h = Ok ((out, rep), h') /\
    duplicate_groups rep = [] /\
    total_duplicates_found rep = 0 /\ total_duplicate_instances rep = 0 /\
    total_after_deduplication rep = Z.of_nat (length qs) /\
    questions_removed rep = 0 /\
    Forall2 (single_record h qs h') (seq 0 (length qs)) out.
Proof.
  intros Hts Hnd Hcopy.
  pose proof (find_duplicates_total _ _ _ Hts) as Hfind.
  rewrite (duplicates_of_distinct _ Hnd) in Hfind.
  pose proof (sorted_nats_sorted _ (StronglySorted_seq 0 (length qs))) as Hsorted.
  destruct (keep_singles_total qs [] (seq 0 (length qs)) [] h Hcopy)
    as (out & h' & Hkeep).
  { intros i Hi. apply in_seq in Hi. lia. }
  assert (Hrun : deduplicate_questions qs h
                 = Ok ((out,
                        {| total_original := Z.of_nat (length qs);
                           total_duplicates_found := 0;
                           total_duplicate_instances := 0;
                           duplicate_groups := [];
                           total_after_deduplication := Z.of_nat (length out);
                           questions_removed
                           := Z.of_nat (length qs) - Z.of_nat (length out) |}),
                       h')).
  { unfold deduplicate_questions, bind, reading. rewrite Hfind.
    simpl. unfold discard_groups. simpl. rewrite Hsorted.
    unfold bind in Hkeep. rewrite Hkeep. reflexivity. }
  destruct (deduplicate_questions_run _ _ _ _ _ Hrun) as (ts' & canon & so & R).
  pose proof (run_canonical_records R) as Hc. simpl in Hc. inversion Hc; subst.
  pose proof (run_single_records R) as Hs. simpl in Hs. rewrite singles_nil in Hs.
  pose proof (run_output R) as Hout. simpl in Hout. subst so.
  assert (Hlen : length out = length qs).
  { apply Forall2_length in Hs. rewrite length_seq in Hs. lia. }
  eexists out, _, h'. split; [exact Hrun|]. simpl.
  rewrite Hlen. repeat split; auto. lia.
Qed.

Lemma distinct_texts_pass_through_witness :
  exists out rep h',
    deduplicate_questions [VRef 1; VRef 2]%nat example_heap = Ok ((out, rep), h') /\
    duplicate_groups rep = [] /\ questions_removed rep = 0 /\
    length out = 2%nat.
Proof.
  destruct (distinct_texts_pass_through [VRef 1; VRef 2]%nat example_heap
              ["What is OOP?"; "Define SQL."])
    as (out & rep & h' & Hrun & Hg & _ & _ & _ & Hr & Hall).
  - repeat constructor.
  - repeat constructor; simpl; intuition discriminate.
  - intros i q Hq. destruct i as [|[|i]]; simpl in Hq; try discriminate;
      injection Hq as <-; eexists _, _; (split; [reflexivity|]);
      (split; [reflexivity|]); reflexivity.
  - exists out, rep, h'. split; [assumption|]. split; [assumption|].
    split; [assumption|]. apply Forall2_length in Hall. simpl in Hall. lia.
Defined.

(* ===================================================================== *)
(** ** Source files that are no texts *)
(* ===================================================================== *)

Definition is_text (v : value) : bool :=
  match v with VStr _ => true | _ => false end.

Definition is_number (v : value) : bool :=
  match num_of v with Some _ => true | None => false end.

(** A source file no set can hold: a list that is not empty. *)
Definition unhashable_file (d : dict) : bool :=
  match field "source_file" d with
  | VList (_ :: _) => true
  | _ => false
  end.

(** The fields [merge_sources] reads are values, not dicts. *)
Definition fields_ok (d : dict) : bool :=
  scalar (field "year" d)
  && match field "source_file" d with VRef _ => false | _ => true end.

Lemma merge_step_forward qs idx l d sources years files h :
  qs !! idx = Some (VRef l) -> h !! l = Some d -> fields_ok d = true ->
  merge_step qs idx (sources, years, files) h
  = if unhashable_file d then Raise TypeError
    else Ok ((sources ++ [VRef (length h)], add_year years d,
              add_source_file files d),
             h ++ [provenance_entry d idx]).
Proof.
  intros Hq Hl Hok. apply andb_true_iff in Hok. destruct Hok as [Hy Hf].
  unfold merge_step, bind, reading, py_index. rewrite Hq.
  rewrite !(py_get_field _ _ _ _ Hl). rewrite (truthy_scalar_ok _ _ Hy).
  unfold add_year, add_source_file, unhashable_file.
  assert (Hyears :
    (if truthy_scalar (field "year" d)
     then reading (fun h0 => Ok (str_set_add (py_str h0 (field "year" d)) years))
     else ret years) h
    = Ok (if truthy_scalar (field "year" d)
          then str_set_add (py_str [] (field "year" d)) years else years, h)).
  { destruct (truthy_scalar (field "year" d)); [|reflexivity].
    unfold reading. rewrite (py_str_scalar _ _ Hy). reflexivity. }
  unfold reading in Hyears. rewrite Hyears. clear Hyears.
  unfold provenance_entry.
  destruct (field "source_file" d) as [|b|z|s|vs|] eqn:Ef; try discriminate; simpl.
  - rewrite (py_get_field _ _ _ _ Hl). reflexivity.
  - destruct b; simpl; rewrite (py_get_field _ _ _ _ Hl); reflexivity.
  - destruct (z =? 0); simpl; rewrite (py_get_field _ _ _ _ Hl); reflexivity.
  - destruct (is_empty s); simpl; rewrite (py_get_field _ _ _ _ Hl); reflexivity.
  - destruct vs; simpl; [|reflexivity]. rewrite (py_get_field _ _ _ _ Hl). reflexivity.
Qed.

Lemma merge_loop_forward qs : forall indices ds sources years files h,
  records_at h qs indices ds -> Forall (fun d => fields_ok d = true) ds ->
  merge_loop qs indices (sources, years, files) h
  = if existsb unhashable_file ds then Raise TypeError
    else Ok ((sources ++ map VRef (seq (length h) (length indices)),
              fold_left add_year ds years,
              fold_left add_source_file ds files),
             h ++ provenance_entries ds indices).
Proof.
  induction indices as [|idx r IH]; intros ds sources years files h Hrec Hok;
    inversion Hrec as [|? d ? ds' (l & Hq & Hl) Hrest]; subst.
  - simpl. rewrite !app_nil_r. reflexivity.
  - inversion Hok as [|? ? Hd Hds]; subst.
    cbn [merge_loop existsb]. unfold bind.
    rewrite (merge_step_forward _ _ _ _ _ _ _ _ Hq Hl Hd).
    destruct (unhashable_file d); [reflexivity|]. cbn [orb].
    rewrite (IH ds' _ _ _ _ (records_at_app _ [_] _ _ _ Hrest) Hds).
    destruct (existsb unhashable_file ds'); [reflexivity|].
    rewrite <- !app_assoc, length_app. simpl.
    replace (length h + 1)%nat with (S (length h)) by lia. reflexivity.
Qed.

Lemma merge_sources_forward qs indices ds h :
  records_at h qs indices ds -> Forall (fun d => fields_ok d = true) ds ->
  merge_sources qs indices h
  = if existsb unhashable_file ds then Raise TypeError
    else match py_sorted (source_files_of ds) with
         | Ok pdfs =>
             Ok (VRef (length h + length indices),
                 h ++ provenance_entries ds indices
                   ++ [merged_of (length h) indices pdfs
                         (sorted_strs (year_names ds))])
         | Raise e => Raise e
         end.
Proof.
  intros Hrec Hok. unfold merge_sources, bind.
  rewrite (merge_loop_forward qs indices ds [] [] [] h Hrec Hok).
  destruct (existsb unhashable_file ds); [reflexivity|].
  cbn beta iota. unfold reading. fold (source_files_of ds).
  destruct (py_sorted (source_files_of ds)) as [pdfs|e]; [|reflexivity].
  unfold alloc.
  rewrite length_app, provenance_entries_length by (symmetry; eapply Forall2_length; eauto).
  rewrite <- app_assoc. reflexivity.
Qed.

(** *** Sorting texts and numbers *)

Lemma py_lt_kinds a b r :
  py_lt a b = Ok r ->
  (is_text a = true /\ is_text b = true) \/
  (is_number a = true /\ is_number b = true).
Proof.
  unfold py_lt, is_number.
  destruct a, b; simpl; try discriminate; auto.
Qed.

Lemma py_lt_error a b e : py_lt a b = Raise e -> e = TypeError.
Proof.
  unfold py_lt. destruct a, b; simpl; try discriminate; congruence.
Qed.

Lemma insert_sorted_In x : forall l l' v,
  insert_sorted x l = Ok l' -> (In v l' <-> v = x \/ In v l).
Proof.
  induction l as [|y r IH]; simpl; intros l' v H.
  - injection H as <-. simpl. intuition.
  - open_run H. destruct a.
    + injection H as <-. simpl. intuition.
    + open_run H. injection H as <-. simpl. rewrite (IH _ v Hget0). intuition.
Qed.

Lemma py_sorted_In : forall l l' v, py_sorted l = Ok l' -> (In v l' <-> In v l).
Proof.
  induction l as [|x r IH]; simpl; intros l' v H.
  - injection H as <-. reflexivity.
  - open_run H. rewrite (insert_sorted_In _ _ _ v H), (IH _ v Hget). intuition.
Qed.

Lemma insert_sorted_error x : forall l e,
  insert_sorted x l = Raise e -> e = TypeError.
Proof.
  induction l as [|y r IH]; simpl; intros e H; [discriminate|].
  destruct (py_lt x y) as [b|e'] eqn:E; simpl in H.
  - destruct b; [discriminate|].
    destruct (insert_sorted x r) as [r'|e'] eqn:E'; simpl in H; [discriminate|].
    injection H as <-. eapply IH. reflexivity.
  - injection H as <-. eapply py_lt_error; eauto.
Qed.

Lemma py_sorted_error : forall l e, py_sorted l = Raise e -> e = TypeError.
Proof.
  induction l as [|x r IH]; simpl; intros e H; [discriminate|].
  destruct (py_sorted r) as [r'|e'] eqn:E; simpl in H.
  - eapply insert_sorted_error; eauto.
  - injection H as <-. eapply IH. reflexivity.
Qed.

(** A list that [sorted] accepts holds texts only or numbers only. *)
Lemma py_sorted_uniform : forall l l',
  Forall (fun v => is_text v || is_number v = true) l ->
  py_sorted l = Ok l' ->
  Forall (fun v => is_text v = true) l \/ Forall (fun v => is_number v = true) l.
Proof.
  induction l as [|x r IH]; intros l' Hkind H; [left; constructor|].
  inversion Hkind as [|? ? Hx Hr]; subst. simpl in H. open_run H.
  destruct (IH _ Hr Hget) as [Ht|Hn].
  - destruct a as [|y r'].
    + assert (r = []) as ->.
      { destruct r as [|z r]; [reflexivity|]. exfalso.
        apply (proj2 (py_sorted_In _ _ z Hget)). left. reflexivity. }
      apply orb_true_iff in Hx. destruct Hx; [left | right]; repeat constructor; auto.
    + simpl in H. open_run H. apply py_lt_kinds in Hget0.
      assert (Hy : In y r) by (apply (py_sorted_In _ _ y Hget); left; reflexivity).
      rewrite Forall_forall in Ht. pose proof (Ht _ Hy) as Hyt.
      destruct Hget0 as [[Hxt _]|[_ Hyn]].
      * left. constructor; [assumption|]. apply Forall_forall. assumption.
      * exfalso. destruct y; simpl in *; discriminate.
  - destruct a as [|y r'].
    + assert (r = []) as ->.
      { destruct r as [|z r]; [reflexivity|]. exfalso.
        apply (proj2 (py_sorted_In _ _ z Hget)). left. reflexivity. }
      apply orb_true_iff in Hx. destruct Hx; [left | right]; repeat constructor; auto.
    + simpl in H. open_run H. apply py_lt_kinds in Hget0.
      assert (Hy : In y r) by (apply (py_sorted_In _ _ y Hget); left; reflexivity).
      rewrite Forall_forall in Hn. pose proof (Hn _ Hy) as Hyn.
      destruct Hget0 as [[_ Hyt]|[Hxn _]].
      * exfalso. destruct y; simpl in *; discriminate.
      * right. constructor; [assumption|]. apply Forall_forall. assumption.
Qed.

(** *** The source files of a group *)

Lemma truthy_scalar_kind v :
  truthy_scalar v = true -> is_text v || is_number v = true.
Proof. destruct v; simpl; try discriminate; reflexivity. Qed.

Lemma hash_eq_kind a b :
  hash_eq a b = true -> is_text a = is_text b /\ is_number a = is_number b.
Proof.
  unfold hash_eq, is_number. destruct a, b; simpl; try discriminate; auto.
Qed.

Lemma set_add_spec v s x :
  In x (set_add v s) <-> In x s \/ (x = v /\ existsb (hash_eq v) s = false).
Proof.
  unfold set_add. destruct (existsb (hash_eq v) s) eqn:E.
  - intuition discriminate.
  - rewrite in_app_iff. simpl. intuition.
Qed.

Lemma source_files_kinds ds : forall files,
  Forall (fun v => is_text v || is_number v = true) files ->
  Forall (fun v => is_text v || is_number v = true)
         (fold_left add_source_file ds files).
Proof.
  induction ds as [|d ds IH]; intros files Hf; [assumption|].
  simpl. apply IH. unfold add_source_file.
  destruct (truthy_scalar (field "source_file" d)) eqn:Ht; [|assumption].
  apply Forall_forall. intros x Hx. apply set_add_spec in Hx.
  rewrite Forall_forall in Hf. destruct Hx as [Hx|[-> _]]; [auto|].
  apply truthy_scalar_kind. assumption.
Qed.

(** Every source file that is true is in the set, or a value equal to it
    is. *)
Lemma source_files_hold ds : forall files d,
  (In d ds /\ truthy_scalar (field "source_file" d) = true) ->
  exists v, In v (fold_left add_source_file ds files) /\
            is_text v = is_text (field "source_file" d) /\
            is_number v = is_number (field "source_file" d).
Proof.
  assert (Hkeep : forall ds files v,
            In v files -> In v (fold_left add_source_file ds files)).
  { induction ds0 as [|d0 ds0 IH0]; intros files v Hv; [assumption|].
    simpl. apply IH0. unfold add_source_file.
    destruct (truthy_scalar (field "source_file" d0)); [|assumption].
    apply set_add_spec. auto. }
  induction ds as [|d0 ds IH]; intros files d [Hin Ht]; [destruct Hin|].
  destruct Hin as [->|Hin]; [|apply IH; auto].
  simpl. unfold add_source_file at 2. rewrite Ht.
  destruct (existsb (hash_eq (field "source_file" d)) files) eqn:E.
  - apply existsb_exists in E. destruct E as (v & Hv & Heq).
    apply hash_eq_kind in Heq. destruct Heq as [E1 E2].
    exists v. split; [|auto].
    apply Hkeep. apply set_add_spec. auto.
  - exists (field "source_file" d). split; [|auto].
    apply Hkeep. apply set_add_spec. auto.
Qed.

(** X13. On records whose year is a plain value and whose source file is a
    plain value or a list, [merge_sources] fails in two ways only, both
    with [TypeError]: a source file that is a list with items cannot be put
    in a set, and source files of which one is a text and another a number
    cannot be sorted. Otherwise it returns. *)
Theorem merge_sources_type_errors (qs : list value) (indices : list nat)
    (ds : list dict) (h : heap) :
  records_at h qs indices ds ->
  Forall (fun d => fields_ok d = true) ds ->
  (existsb unhashable_file ds = true ->
   merge_sources qs indices h = Raise TypeError) /\
  ((exists d1 d2,
      In d1 ds /\ In d2 ds /\
      truthy_scalar (field "source_file" d1) = true /\
      is_text (field "source_file" d1) = true /\
      truthy_scalar (field "source_file" d2) = true /\
      is_number (field "source_file" d2) = true) ->
   merge_sources qs indices h = Raise TypeError) /\
  (merge_sources qs indices h = Raise TypeError \/
   exists pdfs,
     py_sorted (source_files_of ds) = Ok pdfs /\
     (Forall (fun v => is_text v = true) pdfs \/
      Forall (fun v => is_number v = true) pdfs) /\
     merge_sources qs indices h
     = Ok (VRef (length h + length indices),
           h ++ provenance_entries ds indices
             ++ [merged_of (length h) indices pdfs
                   (sorted_strs (year_names ds))])).
Proof.
  intros Hrec Hok. pose proof (merge_sources_forward _ _ _ _ Hrec Hok) as E.
  pose proof (source_files_kinds ds [] (Forall_nil _)) as Hkinds.
  fold (source_files_of ds) in Hkinds.
  assert (Huniform : forall pdfs,
            py_sorted (source_files_of ds) = Ok pdfs ->
            Forall (fun v => is_text v = true) pdfs \/
            Forall (fun v => is_number v = true) pdfs).
  { intros pdfs Hs.
    destruct (py_sorted_uniform _ _ Hkinds Hs) as [Ht|Hn]; [left | right];
      apply Forall_forall; intros v Hv; apply (py_sorted_In _ _ v Hs) in Hv;
      rewrite Forall_forall in *; auto. }
  split; [|split].
  - intros Hbad. rewrite E, Hbad. reflexivity.
  - intros (d1 & d2 & H1 & H2 & Ht1 & Hk1 & Ht2 & Hk2). rewrite E.
    destruct (existsb unhashable_file ds); [reflexivity|].
    destruct (py_sorted (source_files_of ds)) as [pdfs|e] eqn:Hs.
    + exfalso.
      destruct (source_files_hold ds [] d1 (conj H1 Ht1)) as (v1 & Hv1 & Hv1t & _).
      destruct (source_files_hold ds [] d2 (conj H2 Ht2)) as (v2 & Hv2 & _ & Hv2n).
      fold (source_files_of ds) in Hv1, Hv2.
      rewrite Hk1 in Hv1t. rewrite Hk2 in Hv2n.
      destruct (py_sorted_uniform _ _ Hkinds Hs) as [Ht|Hn];
        rewrite Forall_forall in *.
      * pose proof (Ht _ Hv2). destruct v2; simpl in *; discriminate.
      * pose proof (Hn _ Hv1). destruct v1; simpl in *; discriminate.
    + rewrite (py_sorted_error _ _ Hs). reflexivity.
  - rewrite E. destruct (existsb unhashable_file ds); [left; reflexivity|].
    destruct (py_sorted (source_files_of ds)) as [pdfs|e] eqn:Hs.
    + right. exists pdfs. auto.
    + left. rewrite (py_sorted_error _ _ Hs). reflexivity.
Qed.

(** Two records of one question, the source file a text in one and a
    number in the other. *)
Definition mixed_heap : heap :=
  [ [("question", VStr "Define SQL."); ("source_file", VStr "a.pdf")];
    [("question", VStr "Define SQL."); ("source_file", VInt 7)] ].

Lemma merge_sources_type_errors_witness :
  merge_sources [VRef 0; VRef 1]%nat [0; 1]%nat mixed_heap = Raise TypeError.
Proof.
  destruct (merge_sources_type_errors [VRef 0; VRef 1]%nat [0; 1]%nat
              mixed_heap mixed_heap) as (_ & Hmixed & _).
  - repeat constructor; eexists; split; reflexivity.
  - repeat constructor.
  - apply Hmixed. eexists _, _. split; [left; reflexivity|].
    split; [right; left; reflexivity|]. repeat split; reflexivity.
Defined.

(* ===================================================================== *)
(** ** [print_report] *)
(* ===================================================================== *)

(** What a function that prints has done: the texts it has printed, one
    per call of [print], and how it ended. *)
Definition printing (A : Type) : Type := (list string * result A)%type.

Definition pbind {A B} (m : printing A) (k : A -> printing B) : printing B :=
  match m with
  | (out, Ok a) => let (out', r) := k a in (out ++ out', r)
  | (out, Raise e) => (out, Raise e)
  end.

Definition print (s : string) : printing unit := ([s], Ok tt).

(** An expression that prints nothing. *)
Definition evaluating {A} (r : result A) : printing A := ([], r).

Notation "x <-! c ;; k" := (pbind c (fun x => k))
  (at level 100, c at next level, right associativity) : py_scope.
Notation "c ;;! k" := (pbind c (fun _ => k))
  (at level 100, right associativity) : py_scope.

(** Printed text is kept in UTF-8, the encoding of the script, so that the
    literals read as they do there; a string of the model, whose characters
    are code points below 256, is encoded by [utf8]. *)
Definition utf8_char (c : ascii) : string :=
  let n := nat_of_ascii c in
  if (n <? 128)%nat then String c EmptyString
  else String (ascii_of_nat (192 + n / 64))
         (String (ascii_of_nat (128 + n mod 64)) EmptyString).

Fixpoint utf8 (s : string) : string :=
  match s with
  | EmptyString => EmptyString
  | String c r => (utf8_char c ++ utf8 r)%string
  end.

(** [s * n] *)
Fixpoint str_repeat (s : string) (n : nat) : string :=
  match n with
  | O => EmptyString
  | S n' => (s ++ str_repeat s n')%string
  end.

Definition newline : string := String (ascii_of_nat 10) EmptyString.

(** [x[:2]]: lists and strings can be sliced. (A dict cannot: the script
    never has one here, and the error Python reports for it depends on its
    version.) *)
Definition py_slice2 (x : value) : result value :=
  match x with
  | VList vs => Ok (VList (firstn 2 vs))
  | VStr s => Ok (VStr (substring 0 2 s))
  | _ => Raise TypeError
  end.

Fixpoint strs_of (vs : list value) : result (list string) :=
  match vs with
  | [] => Ok []
  | VStr s :: r => ss <-? strs_of r ;; Ok (s :: ss)
  | _ :: _ => Raise TypeError
  end.

Fixpoint chars_of (s : string) : list string :=
  match s with
  | EmptyString => []
  | String c r => String c EmptyString :: chars_of r
  end.

(** [sep.join(x)]: [x] gives its items, a string its characters and a
    dict its keys; each must be a string. *)
Definition py_join (h : heap) (sep : string) (x : value) : result string :=
  match x with
  | VList vs => ss <-? strs_of vs ;; Ok (join sep ss)
  | VStr s => Ok (join sep (chars_of s))
  | VRef l => match h !! l with
              | Some d => Ok (join sep (map fst d))
              | None => Raise BadRef
              end
  | _ => Raise TypeError
  end.

(** One turn of [for i, group in enumerate(report['duplicate_groups'], 1)]. *)
Definition print_group (h : heap) (i : nat) (group : group_audit)
  : printing unit :=
  print (newline ++ "  Group " ++ str_of_Z (Z.of_nat i) ++ ":")%string ;;!
  print ("    Canonical: Unit=" ++ utf8 (py_str h (canonical_unit group))
         ++ ", Year=" ++ utf8 (py_str h (canonical_year group)))%string ;;!
  count <-! evaluating
              (py_getitem h (merged_sources group) "duplicate_count") ;;
  print ("    Duplicate count: " ++ utf8 (py_str h count))%string ;;!
  pdfs <-! evaluating
             (x <-? py_getitem h (merged_sources group) "source_pdfs" ;;
              firsts <-? py_slice2 x ;;
              py_join h ", " firsts) ;;
  print ("    Source PDFs: " ++ utf8 pdfs ++ "...")%string ;;!
  years <-! evaluating
              (x <-? py_getitem h (merged_sources group) "years_found" ;;
               py_join h ", " x) ;;
  print ("    Years found: " ++ utf8 years)%string.

Fixpoint print_groups (h : heap) (i : nat) (groups : list group_audit)
  : printing unit :=
  match groups with
  | [] => ([], Ok tt)
  | group :: rest => print_group h i group ;;! print_groups h (S i) rest
  end.

Definition print_report (h : heap) (rep : report) : printing unit :=
  print (newline ++ str_repeat "=" 70)%string ;;!
  print "DEDUPLICATION REPORT" ;;!
  print (str_repeat "=" 70) ;;!
  print (newline ++ "üìä Summary:")%string ;;!
  print ("  Total original questions: " ++ str_of_Z (total_original rep))%string ;;!
  print ("  Duplicate groups found: "
         ++ str_of_Z (total_duplicates_found rep))%string ;;!
  print ("  Total duplicate instances: "
         ++ str_of_Z (total_duplicate_instances rep))%string ;;!
  print ("  Questions removed: " ++ str_of_Z (questions_removed rep))%string ;;!
  print ("  Final dataset size: "
         ++ str_of_Z (total_after_deduplication rep))%string ;;!
  print (newline ++ "üîç Duplicate Groups Details:")%string ;;!
  print_groups h 1 (duplicate_groups rep).

(** *** The report of a run can be printed *)

Lemma strs_of_strs (l : list string) : strs_of (map VStr l) = Ok l.
Proof. induction l as [|s l IH]; simpl; [reflexivity|]. rewrite IH. reflexivity. Qed.

Lemma firstn_map_VStr n (l : list string) :
  firstn n (map VStr l) = map VStr (firstn n l).
Proof. apply firstn_map. Qed.

Fixpoint ascii_only (s : string) : bool :=
  match s with
  | EmptyString => true
  | String c r => (nat_of_ascii c <? 128)%nat && ascii_only r
  end.

Lemma utf8_ascii_only s : ascii_only s = true -> utf8 s = s.
Proof.
  induction s as [|c r IH]; simpl; intros H; [reflexivity|].
  apply andb_true_iff in H. destruct H as [Hc Hr].
  unfold utf8_char. rewrite Hc. simpl. rewrite IH by assumption. reflexivity.
Qed.

Lemma ascii_only_uint d : ascii_only (NilEmpty.string_of_uint d) = true.
Proof. induction d; simpl; auto. Qed.

Lemma utf8_str_of_Z z : utf8 (str_of_Z z) = str_of_Z z.
Proof.
  apply utf8_ascii_only. unfold str_of_Z.
  destruct (Z.to_int z) as [d|d]; simpl.
  - destruct d; try apply (ascii_only_uint (_ d)); reflexivity.
  - destruct d; try apply (ascii_only_uint (_ d)); reflexivity.
Qed.

(** The texts [print_report] prints for group number [i], whose merged
    provenance lists the source files [names] and the years [years]. *)
Definition group_lines (h : heap) (i : nat) (g : group_audit)
    (names years : list string) : list string :=
  [ (newline ++ "  Group " ++ str_of_Z (Z.of_nat i) ++ ":")%string;
    ("    Canonical: Unit=" ++ utf8 (py_str h (canonical_unit g))
     ++ ", Year=" ++ utf8 (py_str h (canonical_year g)))%string;
    ("    Duplicate count: "
     ++ str_of_Z (Z.of_nat (length (duplicate_indices g))))%string;
    ("    Source PDFs: " ++ utf8 (join ", " (firstn 2 names)) ++ "...")%string;
    ("    Years found: " ++ utf8 (join ", " years))%string ].

Lemma print_group_lines h i g ms a names years :
  merged_sources g = VRef ms ->
  h !! ms = Some (merged_of a (duplicate_indices g) (map VStr names) years) ->
  print_group h i g = (group_lines h i g names years, Ok tt).
Proof.
  intros Hms Hm. unfold print_group, group_lines, pbind, print, evaluating.
  rewrite Hms. simpl. rewrite Hm. simpl.
  rewrite firstn_map_VStr, !strs_of_strs. simpl.
  rewrite utf8_str_of_Z. reflexivity.
Qed.

Lemma print_groups_lines h : forall G i,
  Forall (fun g => exists ms a names years,
            merged_sources g = VRef ms /\
            h !! ms = Some (merged_of a (duplicate_indices g)
                              (map VStr names) years)) G ->
  exists L,
    print_groups h i G = (concat L, Ok tt) /\
    Forall2 (fun k ls => exists g ms a names years,
               G !! k = Some g /\ merged_sources g = VRef ms /\
               h !! ms = Some (merged_of a (duplicate_indices g)
                                 (map VStr names) years) /\
               ls = group_lines h (i + k) g names years)
            (seq 0 (length G)) L.
Proof.
  induction G as [|g G IH]; intros i Hall.
  - exists []. split; [reflexivity | constructor].
  - inversion Hall as [|? ? (ms & a & names & years & Hms & Hm) Hrest]; subst.
    destruct (IH (S i) Hrest) as (L & E & HL).
    exists (group_lines h i g names years :: L). split.
    + cbn [print_groups]. unfold pbind at 1.
      rewrite (print_group_lines _ _ _ _ _ _ _ Hms Hm), E. reflexivity.
    + simpl. constructor.
      * exists g, ms, a, names, years. rewrite Nat.add_0_r. auto.
      * rewrite <- seq_shift. apply Forall2_map_left.
        revert HL. apply Forall2_impl.
        intros k ls (g' & ms' & a' & names' & years' & Hk & Hms' & Hm' & ->).
        exists g', ms', a', names', years'.
        replace (i + S k)%nat with (S i + k)%nat by lia. auto.
Qed.

Lemma concat_lookup5 {A} (L : list (list A)) : forall k ls j x,
  Forall (fun l => length l = 5%nat) L ->
  L !! k = Some ls -> ls !! j = Some x ->
  concat L !! (5 * k + j)%nat = Some x.
Proof.
  induction L as [|l L IH]; intros k ls j x Hall Hk Hj; [destruct k; discriminate|].
  inversion Hall as [|? ? Hl Hrest]; subst.
  change (concat (l :: L)) with (l ++ concat L).
  destruct k as [|k]; simpl in Hk.
  - injection Hk as ->. replace (5 * 0 + j)%nat with j by lia.
    apply lookup_app_l_Some. assumption.
  - rewrite lookup_app_r by lia.
    replace (5 * S k + j - length l)%nat with (5 * k + j)%nat by lia.
    eapply IH; eauto.
Qed.

Lemma records_plain h qs ix ds :
  wf h qs -> records_at h qs ix ds ->
  Forall (fun d => provenance_ok d = true) ds.
Proof.
  intros Hwf Hrec. induction Hrec as [|i d ix ds (l & Hq & Hl) _ IH];
    constructor; [|assumption].
  destruct (Hwf i _ Hq) as (l' & d' & [= <-] & Hl' & Hok).
  assert (d' = d) as -> by congruence.
  unfold record_ok in Hok. rewrite !andb_true_iff in Hok.
  destruct Hok as [[[_ Hy] Hf] _]. unfold provenance_ok.
  rewrite (year_ok_scalar _ Hy), Hf. reflexivity.
Qed.

Lemma wf_closed h qs : wf h qs -> closed h qs.
Proof.
  intros Hwf i l d m Hq Hl Hm.
  destruct (Hwf i _ Hq) as (l' & d' & [= <-] & Hl' & Hok).
  assert (d' = d) as -> by congruence.
  unfold record_ok in Hok. rewrite !andb_true_iff in Hok.
  destruct Hok as [_ Hmeta]. rewrite Hm in Hmeta. simpl in Hmeta.
  apply Nat.ltb_lt. assumption.
Qed.

(** X14. On a well-formed corpus the run returns and its report can be
    printed: [print_report] ends without an error after ten texts and five
    more per group. For the group in position [k] it prints its number,
    [k + 1], the size of the group as the duplicate count, the first two of
    the sorted source files of the group followed by three dots, whatever
    their number, and all the years of the group, sorted. *)
Theorem report_can_be_printed (qs : list value) (h : heap) :
  well_formed h qs = true ->
  exists out rep h' lines,
    deduplicate_questions qs h = Ok ((out, rep), h') /\
    print_report h' rep = (lines, Ok tt) /\
    length lines = (10 + 5 * length (duplicate_groups rep))%nat /\
    forall k g,
      duplicate_groups rep !! k = Some g ->
      exists ds,
        records_at h qs (duplicate_indices g) ds /\
        lines !! (10 + 5 * k)%nat
        = Some (newline ++ "  Group " ++ str_of_Z (Z.of_nat (1 + k)) ++ ":")%string /\
        lines !! (10 + 5 * k + 2)%nat
        = Some ("    Duplicate count: "
                ++ str_of_Z (Z.of_nat (length (duplicate_indices g))))%string /\
        lines !! (10 + 5 * k + 3)%nat
        = Some ("    Source PDFs: "
                ++ utf8 (join ", " (firstn 2 (sorted_strs (file_names ds))))
                ++ "...")%string /\
        lines !! (10 + 5 * k + 4)%nat
        = Some ("    Years found: "
                ++ utf8 (join ", " (sorted_strs (year_names ds))))%string.
Proof.
  intros Hwf0. pose proof (well_formed_wf _ _ Hwf0) as Hwf.
  destruct (deduplicate_questions_total _ _ Hwf0) as (out & rep & h' & Hrun).
  pose proof (run_merged _ _ _ _ _ (wf_closed _ _ Hwf) Hrun) as Hmerged.
  assert (Hfacts : Forall (fun g => exists ms a names years,
            merged_sources g = VRef ms /\
            h' !! ms = Some (merged_of a (duplicate_indices g)
                               (map VStr names) years))
          (duplicate_groups rep)).
  { revert Hmerged. apply Forall_impl.
    intros g (l & d & ds & pdfs & years & a & _ & _ & _ & _ & Hrec & _ & Hplain & _
              & Hms & Hm & _).
    destruct (Hplain (records_plain _ _ _ _ Hwf Hrec)) as [-> ->]. eauto 8. }
  destruct (print_groups_lines h' _ 1%nat Hfacts) as (L & Eprint & HL).
  assert (Hlen5 : Forall (fun l => length l = 5%nat) L).
  { clear -HL. induction HL as [|k ls ks L (g & ms & a & names & years & _ & _ & _ & ->) _ IH];
      constructor; auto. }
  assert (HlenL : length L = length (duplicate_groups rep)).
  { apply Forall2_length in HL. rewrite length_seq in HL. lia. }
  eexists out, rep, h', _. split; [exact Hrun|]. split.
  { unfold print_report, pbind at 1 2 3 4 5 6 7 8 9 10, print.
    rewrite Eprint. cbn [app]. reflexivity. }
  split.
  { assert (Hc : length (concat L) = (5 * length L)%nat).
    { clear -Hlen5. induction Hlen5 as [|l L Hl _ IH]; [reflexivity|].
      change (concat (l :: L)) with (l ++ concat L).
      rewrite length_app, IH, Hl. simpl. lia. }
    cbn [length]. rewrite Hc, HlenL. lia. }
  intros k g Hk.
  assert (Hkl : seq 0 (length (duplicate_groups rep)) !! k = Some k).
  { apply lookup_seq. split; [reflexivity|]. eapply lookup_lt_Some; eauto. }
  destruct (Forall2_lookup_l _ _ _ _ _ HL Hkl)
    as (ls & Hls & g' & ms & a & names & years & Hk' & Hms & Hm & ->).
  assert (g' = g) as -> by congruence.
  rewrite Forall_forall in Hmerged.
  destruct (Hmerged g) as (l & d & ds & pdfs & years' & a' & _ & _ & _ & _ & Hrec & _
                           & Hplain & _ & Hms' & Hm' & _).
  { apply In_lookup. eauto. }
  destruct (Hplain (records_plain _ _ _ _ Hwf Hrec)) as [-> ->].
  rewrite Hms in Hms'. injection Hms' as ->. rewrite Hm in Hm'.
  unfold merged_of in Hm'. injection Hm' as Hnames Hyears _.
  apply map_VStr_inj in Hnames.
  apply map_VStr_inj in Hyears. subst names years.
  exists ds. split; [assumption|].
  assert (Hat : forall j x,
            group_lines h' (1 + k) g (sorted_strs (file_names ds))
              (sorted_strs (year_names ds)) !! j = Some x ->
            forall pre : list string, length pre = 10%nat ->
            (pre ++ concat L) !! (10 + 5 * k + j)%nat = Some x).
  { intros j x Hj pre Hpre. rewrite lookup_app_r by lia.
    replace (10 + 5 * k + j - length pre)%nat with (5 * k + j)%nat by lia.
    eapply concat_lookup5; eauto. }
  repeat split.
  - replace (10 + 5 * k)%nat with (10 + 5 * k + 0)%nat by lia.
    exact (Hat 0%nat _ eq_refl [_; _; _; _; _; _; _; _; _; _] eq_refl).
  - exact (Hat 2%nat _ eq_refl [_; _; _; _; _; _; _; _; _; _] eq_refl).
  - exact (Hat 3%nat _ eq_refl [_; _; _; _; _; _; _; _; _; _] eq_refl).
  - exact (Hat 4%nat _ eq_refl [_; _; _; _; _; _; _; _; _; _] eq_refl).
Qed.

Lemma report_can_be_printed_witness :
  exists out rep h' lines,
    deduplicate_questions example_corpus example_heap = Ok ((out, rep), h') /\
    print_report h' rep = (lines, Ok tt) /\
    length lines = (10 + 5 * length (duplicate_groups rep))%nat.
Proof.
  destruct (report_can_be_printed example_corpus example_heap eq_refl)
    as (out & rep & h' & lines & Hrun & Hprint & Hlen & _).
  exists out, rep, h', lines. auto.
Defined.

(** *** A report that cannot be printed *)

Lemma strs_of_number v vs : is_number v = true -> strs_of (v :: vs) = Raise TypeError.
Proof. destruct v; simpl; try discriminate; reflexivity. Qed.

(** X15. [deduplicate_questions] accepts source files that are numbers, but
    [print_report] does not: when a record of the first group of the report
    has a number as its source file, the run returns and [print_report]
    then raises [TypeError] on the source files of that group, after the
    thirteen texts before them. *)
Theorem numeric_source_files_not_printed (qs : list value) (h : heap)
    (out : list value) (rep : report) (h' : heap) (g : group_audit)
    (rest : list group_audit) :
  metadata_in_heap h qs = true ->
  deduplicate_questions qs h = Ok ((out, rep), h') ->
  duplicate_groups rep = g :: rest ->
  (exists i l d,
     In i (duplicate_indices g) /\ qs !! i = Some (VRef l) /\ h !! l = Some d /\
     truthy_scalar (field "source_file" d) = true /\
     is_number (field "source_file" d) = true) ->
  exists lines,
    print_report h' rep = (lines, Raise TypeError) /\ length lines = 13%nat.
Proof.
  intros Hcl Hrun Hg (i & l & d & Hi & Hq & Hl & Ht & Hn).
  apply metadata_in_heap_closed in Hcl.
  pose proof (run_merged _ _ _ _ _ Hcl Hrun) as Hmerged.
  rewrite Hg in Hmerged. inversion Hmerged as [|? ? Hm _]; subst.
  destruct Hm as (lc & dc & ds & pdfs & years & a & _ & _ & _ & _ & Hrec & Hs & _ & _
                  & Hms & Hmd & _).
  assert (Hd : In d ds).
  { apply In_lookup in Hi. destruct Hi as (j & Hj).
    destruct (Forall2_lookup_l _ _ _ _ _ Hrec Hj) as (d' & Hd' & l' & Hq' & Hl').
    assert (l' = l) as -> by congruence. assert (d' = d) as -> by congruence.
    apply In_lookup. eauto. }
  destruct (source_files_hold ds [] d (conj Hd Ht)) as (v & Hv & _ & Hvn).
  fold (source_files_of ds) in Hv. rewrite Hn in Hvn.
  pose proof (source_files_kinds ds [] (Forall_nil _)) as Hkinds.
  fold (source_files_of ds) in Hkinds.
  assert (Hnum : Forall (fun x => is_number x = true) (source_files_of ds)).
  { destruct (py_sorted_uniform _ _ Hkinds Hs) as [Hall|Hall]; [|assumption].
    exfalso. rewrite Forall_forall in Hall. pose proof (Hall _ Hv).
    destruct v; simpl in *; discriminate. }
  destruct pdfs as [|p ps].
  { exfalso. apply (proj2 (py_sorted_In _ _ v Hs)). assumption. }
  assert (Hp : is_number p = true).
  { rewrite Forall_forall in Hnum. apply Hnum.
    apply (py_sorted_In _ _ p Hs). left. reflexivity. }
  set (ms := (a + length (duplicate_indices g))%nat) in *.
  assert (Hcount : py_getitem h' (VRef ms) "duplicate_count"
                   = Ok (VInt (Z.of_nat (length (duplicate_indices g))))).
  { unfold py_getitem. rewrite Hmd. reflexivity. }
  assert (Hpdfs : (x <-? py_getitem h' (VRef ms) "source_pdfs" ;;
                   firsts <-? py_slice2 x ;; py_join h' ", " firsts)
                  = Raise TypeError).
  { unfold py_getitem. rewrite Hmd.
    change (dict_get "source_pdfs" (merged_of a (duplicate_indices g) (p :: ps) years))
      with (Some (VList (p :: ps))).
    cbn [rbind py_slice2 firstn py_join]. rewrite (strs_of_number p _ Hp).
    reflexivity. }
  eexists. split.
  - unfold print_report, pbind at 1 2 3 4 5 6 7 8 9 10, print. rewrite Hg.
    cbn [print_groups]. unfold print_group, evaluating.
    rewrite Hms, Hcount, Hpdfs. reflexivity.
  - reflexivity.
Qed.

(** Two records of one question whose source files are numbers. *)
Definition numbered_heap : heap :=
  [ [("question", VStr "Define SQL."); ("source_file", VInt 7)];
    [("question", VStr "Define SQL."); ("source_file", VInt 3)] ].

Lemma numeric_source_files_not_printed_witness :
  exists out rep h' lines,
    deduplicate_questions [VRef 0; VRef 1]%nat numbered_heap
    = Ok ((out, rep), h') /\
    print_report h' rep = (lines, Raise TypeError) /\ length lines = 13%nat.
Proof.
  destruct (deduplicate_questions [VRef 0; VRef 1]%nat numbered_heap)
    as [[[out rep] h']|e] eqn:E; [|vm_compute in E; discriminate].
  assert (Hg : exists g, duplicate_groups rep = [g] /\ duplicate_indices g = [0; 1]%nat).
  { vm_compute in E. injection E as <- <- <-. eexists. split; reflexivity. }
  destruct Hg as (g & Hg & Hix).
  destruct (numeric_source_files_not_printed [VRef 0; VRef 1]%nat numbered_heap
              out rep h' g [] eq_refl E Hg) as (lines & Hp & Hlen).
  - exists 0%nat, 0%nat, [("question", VStr "Define SQL."); ("source_file", VInt 7)].
    rewrite Hix. repeat split; try reflexivity. left. reflexivity.
  - exists out, rep, h', lines. auto.
Defined.

(* ===================================================================== *)
(** ** The texts of the output *)
(* ===================================================================== *)

(** X16. The output of a run holds every trimmed question text of the
    input, each once and no other: a record is left out only when a record
    of the same text is emitted. *)
Theorem output_texts_complete (qs : list value) (h : heap) (out : list value)
    (rep : report) (h' : heap) :
  deduplicate_questions qs h = Ok ((out, rep), h') ->
  exists ts ts1,
    texts_in h qs ts /\ texts_in h' out ts1 /\ NoDup ts1 /\
    (forall t, In t ts1 <-> In t ts) /\
    Forall2 (fun i t => ts !! i = Some t)
            (emitted (duplicate_groups rep) (length qs)) ts1.
Proof.
  intros H. destruct (deduplicate_questions_run _ _ _ _ _ H) as (ts & canon & so & R).
  pose proof (run_output_records _ _ _ _ _ _ _ _ R) as Hrec.
  pose proof (run_groups_of _ _ _ _ _ _ _ _ R) as S.
  pose proof (run_canonical R) as Hc.
  pose proof (run_texts R) as Hts.
  pose proof (texts_in_length _ _ _ Hts) as Hn.
  pose proof (emitted_NoDup ts _ S Hc) as Hnd. rewrite Hn in Hnd.
  destruct (texts_of_copies _ _ _ _ Hts _ _ Hrec) as (ts1 & Hts1 & Hem).
  assert (Hfrom : forall i t,
            In i (emitted (duplicate_groups rep) (length qs)) ->
            ts !! i = Some t -> In t ts1).
  { intros i t Hi Ht. apply In_lookup in Hi. destruct Hi as (a & Ha).
    destruct (Forall2_lookup_l _ _ _ _ _ Hem Ha) as (t1 & Ht1 & Hti).
    assert (t1 = t) as -> by congruence. apply In_lookup. eauto. }
  exists ts, ts1. split; [assumption|]. split; [assumption|]. split; [|split].
  - apply NoDup_ListNoDup. apply NoDup_alt. intros a b t Ha Hb.
    destruct (Forall2_lookup_r _ _ _ _ _ Hem Ha) as (i & Hi & Hti).
    destruct (Forall2_lookup_r _ _ _ _ _ Hem Hb) as (j & Hj & Htj).
    assert (i = j).
    { eapply (emitted_distinct_texts ts _ i j t S Hc); try eassumption;
        rewrite Hn; apply In_lookup; eauto. }
    subst j. eapply NoDup_lookup_eq; eauto.
  - intros t. split.
    + intros Ht. apply In_lookup in Ht. destruct Ht as (a & Ha).
      destruct (Forall2_lookup_r _ _ _ _ _ Hem Ha) as (i & _ & Hti).
      apply In_lookup. eauto.
    + intros Ht. apply In_lookup in Ht. destruct Ht as (k & Hk).
      pose proof (lookup_lt_Some _ _ _ Hk) as Hlt.
      destruct (canonical_or_removed ts _ k S Hc Hlt) as [[Hem' _]|[_ (g & Hg & Hkg & _)]].
      * rewrite Hn in Hem'. eapply Hfrom; eauto.
      * destruct (groups_text _ _ S g Hg) as (t' & Ht').
        assert (t' = t) as -> by (apply Ht' in Hkg; congruence).
        rewrite Forall_forall in Hc. pose proof (Hc g Hg) as Hcan.
        apply (Hfrom (canonical_index g)); [|apply Ht'; assumption].
        unfold emitted. apply in_app_iff. left. apply in_map. assumption.
  - assumption.
Qed.

Lemma output_texts_complete_witness :
  exists out rep h' ts1,
    deduplicate_questions example_corpus example_heap = Ok ((out, rep), h') /\
    texts_in h' out ts1 /\ NoDup ts1 /\
    In "What is OOP?" ts1 /\ In "Define SQL." ts1.
Proof.
  destruct (deduplicate_questions example_corpus example_heap)
    as [[[out rep] h']|e] eqn:E; [|vm_compute in E; discriminate].
  destruct (output_texts_complete example_corpus example_heap out rep h' E)
    as (ts & ts1 & Hts & Hts1 & Hnd & Hall & _).
  assert (Ets : ts = ["What is OOP?"; "What is OOP?"; "Define SQL."]).
  { inversion Hts as [|q0 t0 qs0 ts0 H0 Hr0]; subst.
    inversion Hr0 as [|q1 t1 qs1 ts1' H1 Hr1]; subst.
    inversion Hr1 as [|q2 t2 qs2 ts2 H2 Hr2]; subst.
    inversion Hr2; subst.
    vm_compute in H0, H1, H2. congruence. }
  exists out, rep, h', ts1. split; [reflexivity|]. split; [assumption|].
  split; [assumption|].
  split; apply Hall; rewrite Ets; simpl; auto.
Defined.

(* ===================================================================== *)
(** ** The canonical index of a group of the report *)
(* ===================================================================== *)

(** [c] is the member of [ix] that [min] selects by the key of the
    records in the heap [h]: every member has a key, no member has a
    smaller key than [c], and the members of the same key are not before
    [c]. *)
Definition least_in (h : heap) (qs : list value) (ix : list nat) (c : nat)
  : Prop :=
  In c ix /\
  exists q kc,
    qs !! c = Some q /\ priority_key h (c, q) = Ok kc /\
    forall i, In i ix ->
      exists qi ki,
        qs !! i = Some qi /\ priority_key h (i, qi) = Ok ki /\
        (priority_lt kc ki = true \/ (ki = kc /\ (c <= i)%nat)).

Lemma selected_least h qs ix c q :
  StronglySorted lt ix ->
  select_canonical_version h qs ix = Ok (c, q) -> least_in h qs ix c.
Proof.
  intros Hasc Hsel.
  destruct (select_canonical_spec _ _ _ _ _ Hsel)
    as (Hq & kc & pre & post & Hkc & Eix & Hpre & Hpost).
  split; [rewrite Eix; apply in_elt|].
  exists q, kc. split; [assumption|]. split; [assumption|].
  intros i Hi. rewrite Eix in Hi. apply in_app_iff in Hi.
  destruct Hi as [Hi|[<-|Hi]].
  - destruct (Hpre i Hi) as (qi & ki & Hqi & Hki & Hlt). exists qi, ki. auto.
  - exists q, kc. split; [assumption|]. split; [assumption|]. right. split; [reflexivity | lia].
  - destruct (Hpost i Hi) as (qi & ki & Hqi & Hki & Hnlt).
    exists qi, ki. split; [assumption|]. split; [assumption|].
    destruct (priority_lt kc ki) eqn:Hlt; [left; reflexivity|].
    right. split; [apply priority_lt_total; assumption|].
    rewrite Eix in Hasc. pose proof (sorted_after _ _ _ Hasc i Hi). lia.
Qed.

(** The heap in which the canonical record of a group is selected is the
    heap as the groups before it left it. *)
Definition selected_in (h h' : heap) (qs : list value) (g : group_audit)
  : Prop :=
  exists hk q,
    frame h hk /\ frame hk h' /\
    select_canonical_version hk qs (duplicate_indices g)
    = Ok (canonical_index g, q).

Lemma selected_in_frames h0 h h' h2 qs g :
  frame h0 h -> frame h' h2 -> selected_in h h' qs g -> selected_in h0 h2 qs g.
Proof.
  intros F0 F2 (hk & q & F1 & F3 & Hsel). exists hk, q.
  split; [eapply frame_trans; eauto|]. split; [eapply frame_trans; eauto | assumption].
Qed.

Lemma process_groups_selected h0 qs : forall D ded keep G h st' h',
  all_dicts h0 qs -> frame h0 h ->
  process_groups qs D (ded, keep, G) h = Ok (st', h') ->
  exists gs,
    snd st' = G ++ gs /\ frame h h' /\ Forall (selected_in h h' qs) gs.
Proof.
  induction D as [|[t indices] D IH]; simpl; intros ded keep G h st' h' Hall F0 H.
  - apply ret_ok in H. destruct H as [-> ->]. exists [].
    rewrite app_nil_r. split; [reflexivity|]. split; [apply frame_refl | constructor].
  - apply bind_ok in H. destruct H as (st1 & h1 & Hstep & H).
    destruct (process_group_spec _ _ _ _ _ _ _ _ _ Hall F0 Hstep)
      as (c & q & v & g & Hsel & -> & Hc & Hix & F1 & _).
    destruct (IH _ _ _ _ _ _ Hall (frame_trans _ _ _ F0 F1) H)
      as (gs & -> & F2 & Hgs).
    exists (g :: gs). rewrite <- app_assoc. split; [reflexivity|].
    split; [eapply frame_trans; eauto|]. constructor.
    + exists h, q. split; [apply frame_refl|].
      split; [eapply frame_trans; eauto|]. rewrite Hc, Hix. assumption.
    + revert Hgs. apply Forall_impl. intros g'.
      apply selected_in_frames; [assumption | apply frame_refl].
Qed.

Lemma run_selected qs h out rep h' :
  deduplicate_questions qs h = Ok ((out, rep), h') ->
  Forall (selected_in h h' qs) (duplicate_groups rep).
Proof.
  unfold deduplicate_questions. intros H.
  apply bind_ok in H. destruct H as (D & hx & Hfind & H).
  apply reading_ok in Hfind. destruct Hfind as [Hfind ->].
  destruct (find_duplicates_texts _ _ _ Hfind) as (ts & Hts & ->).
  pose proof (texts_in_all_dicts _ _ _ Hts) as Hall.
  apply bind_ok in H. destruct H as ([[ded keep] G] & h1 & Hgroups & H).
  destruct (process_groups_selected _ _ _ _ _ _ _ _ _ Hall (frame_refl h) Hgroups)
    as (gs & HG & F1 & Hsel).
  simpl in HG. subst G.
  apply bind_ok in H. destruct H as (ded' & h2 & Hsingles & H).
  apply ret_ok in H. destruct H as [[= -> ->] ->].
  destruct (keep_singles_spec _ _ _ _ _ _ _ _ Hall F1 Hsingles)
    as (ws & -> & F2 & _).
  simpl. revert Hsel. apply Forall_impl. intros g.
  apply selected_in_frames; [apply frame_refl | apply flag_frame_frame; assumption].
Qed.

(** The canonical index of every group of a run is the least of the group
    by the key of the records in the heap the groups before it left. *)
Lemma run_canonical_least qs h out rep h' :
  deduplicate_questions qs h = Ok ((out, rep), h') ->
  forall g, In g (duplicate_groups rep) ->
    exists hk, frame h hk /\ frame hk h' /\
      least_in hk qs (duplicate_indices g) (canonical_index g).
Proof.
  intros H g Hg.
  destruct (deduplicate_questions_run _ _ _ _ _ H) as (ts & canon & so & R).
  pose proof (run_groups_of _ _ _ _ _ _ _ _ R) as S.
  pose proof (run_selected _ _ _ _ _ H) as Hsel.
  rewrite Forall_forall in Hsel.
  destruct (Hsel g Hg) as (hk & q & F1 & F2 & Hs).
  exists hk. split; [assumption|]. split; [assumption|].
  eapply selected_least; [|eassumption]. apply (groups_ascending _ _ S g Hg).
Qed.

(** *** The key of a record whose [metadata] dict no group has written to *)

Lemma key_kept h0 h qs i l d0 :
  wf h0 qs -> frame h0 h ->
  qs !! i = Some (VRef l) -> h0 !! l = Some d0 ->
  (forall m, dict_get "metadata" d0 = Some (VRef m) -> h !! m = h0 !! m) ->
  priority_key h (i, VRef l) = priority_key h0 (i, VRef l).
Proof.
  intros Hwf F Hq Hl Hm.
  destruct (Hwf i _ Hq) as (l' & d' & [= <-] & Hl' & Hok).
  assert (d' = d0) as -> by congruence.
  pose proof F as [Hlen F']. destruct (F' _ _ Hl) as (d & Hd & Hs).
  rewrite (priority_key_plain h0 i l d0 Hl Hok).
  rewrite (priority_key_plain h i l d Hd (record_ok_frame _ _ _ _ Hlen Hs Hok)).
  f_equal. unfold key_of, unit_unknown, field, has_metadata.
  rewrite !(Hs "unit"), !(Hs "year"), !(Hs "metadata") by not_a_key.
  destruct (dict_get "metadata" d0) as [[| | | | |m]|]; try reflexivity.
  rewrite (Hm m eq_refl). reflexivity.
Qed.

Lemma least_in_kept h0 h qs ix c :
  wf h0 qs -> frame h0 h ->
  (forall i m, In i ix -> meta_of h0 qs i = Some (VRef m) -> h !! m = h0 !! m) ->
  least_in h qs ix c -> least_in h0 qs ix c.
Proof.
  intros Hwf F Hm (Hc & q & kc & Hq & Hkc & Hall).
  assert (Hkey : forall i qi, In i ix -> qs !! i = Some qi ->
                   priority_key h0 (i, qi) = priority_key h (i, qi)).
  { intros i qi Hi Hqi. destruct (Hwf i _ Hqi) as (l & d0 & -> & Hl & _).
    symmetry. apply (key_kept h0 h qs i l d0 Hwf F Hqi Hl).
    intros m Hmd. apply (Hm i m Hi). unfold meta_of. rewrite Hqi, Hl. assumption. }
  split; [assumption|]. exists q, kc. split; [assumption|].
  split; [rewrite (Hkey c q Hc Hq); assumption|].
  intros i Hi. destruct (Hall i Hi) as (qi & ki & Hqi & Hki & Hle).
  exists qi, ki. split; [assumption|]. split; [|assumption].
  rewrite (Hkey i qi Hi Hqi). assumption.
Qed.

Lemma NoDup_app_apart {A} (l1 l2 : list A) :
  NoDup (l1 ++ l2) ->
  NoDup l2 /\ forall a, In a l1 -> ~ In a l2.
Proof.
  induction l1 as [|x l1 IH]; simpl; intros H; [split; [assumption | tauto]|].
  inversion H as [|? ? Hx Hrest]; subst. destruct (IH Hrest) as [H2 Hap].
  split; [assumption|]. intros a [<-|Ha]; [|auto].
  intros Hin. apply Hx. apply in_app_iff. auto.
Qed.

(** While no two records share a [metadata] dict, the records of the
    groups still to come have theirs as the run found them, and every
    group is decided by the keys of the heap the run started in. *)
Lemma process_groups_choice h0 qs : forall D ded keep G h st' h',
  wf h0 qs -> NoDup (metadata_locs h0 qs) -> frame h0 h ->
  NoDup (concat (map snd D)) ->
  Forall (StronglySorted lt) (map snd D) ->
  (forall i m, In i (concat (map snd D)) ->
     meta_of h0 qs i = Some (VRef m) -> h !! m = h0 !! m) ->
  process_groups qs D (ded, keep, G) h = Ok (st', h') ->
  exists gs,
    snd st' = G ++ gs /\
    Forall (fun g => least_in h0 qs (duplicate_indices g) (canonical_index g)) gs.
Proof.
  induction D as [|[t indices] D IH]; simpl;
    intros ded keep G h st' h' Hwf Hnd F0 Hdis Hasc Hkept H.
  - apply ret_ok in H. destruct H as [-> ->]. exists [].
    rewrite app_nil_r. split; [reflexivity | constructor].
  - apply bind_ok in H. destruct H as (st1 & h1 & Hstep & H).
    pose proof (wf_frame _ _ _ Hwf F0) as Hwfh.
    pose proof (wf_all_dicts _ _ Hwf) as Hall0.
    pose proof (wf_all_dicts _ _ Hwfh) as Hall.
    destruct (process_group_spec _ _ _ _ _ _ _ _ _ Hall0 F0 Hstep)
      as (c0 & q0 & v0 & g0 & _ & _ & _ & _ & F1 & _).
    destruct (process_group_exact _ _ _ _ _ _ _ _ Hall (wf_closed _ _ Hwfh) Hstep)
      as (c & l & d & ds & pdfs & years & Hsel & Hl & _ & _ & _ & -> & Hh1).
    apply NoDup_app_apart in Hdis. destruct Hdis as (Hnd2 & Hapart).
    inversion Hasc as [|? ? Hsorted Hasc']; subst.
    pose proof (selected_least _ _ _ _ _ Hsorted Hsel) as Hleast.
    pose proof (proj1 Hleast) as Hc.
    assert (Hkept1 : forall i m, In i (concat (map snd D)) ->
              meta_of h0 qs i = Some (VRef m) -> h1 !! m = h0 !! m).
    { intros i m Hi Hmi.
      rewrite <- (Hkept i m) by (try apply in_app_iff; auto).
      assert (Hlt : (m < length h)%nat).
      { pose proof (closed_meta_of _ _ _ _ (wf_closed _ _ Hwf) Hmi).
        destruct F0. lia. }
      destruct (lookup_lt_is_Some_2 h m Hlt) as [dm Hdm].
      assert (Hne : i <> c).
      { intros ->. apply (Hapart c); assumption. }
      assert (Hmc : meta_of h qs c = Some (VRef m) -> False).
      { rewrite (meta_of_frame _ _ _ _ Hall0 F0).
        apply (unshared_apart _ _ _ _ _ Hnd Hne Hmi). }
      destruct (select_canonical_member _ _ _ _ _ Hsel) as [_ Hqc].
      unfold meta_of in Hmc. rewrite Hqc, Hl in Hmc.
      rewrite Hdm.
      destruct (dict_get "metadata" d) as [x|].
      - destruct Hh1 as (mc & md & -> & Hmd & ->).
        rewrite list_lookup_insert_ne by (intros ->; apply Hmc; reflexivity).
        apply lookup_app_l_Some. apply lookup_app_l_Some. assumption.
      - rewrite Hh1. apply lookup_app_l_Some. apply lookup_app_l_Some. assumption. }
    destruct (IH _ _ _ _ _ _ Hwf Hnd (frame_trans _ _ _ F0 F1) Hnd2 Hasc' Hkept1 H)
      as (gs & -> & Hgs).
    eexists (_ :: gs). rewrite <- app_assoc. split; [reflexivity|].
    constructor; [|assumption]. simpl.
    apply (least_in_kept h0 h qs indices c Hwf F0); [|assumption].
    intros i m Hi. apply Hkept. apply in_app_iff. auto.
Qed.

Lemma run_least qs h out rep h' :
  well_formed h qs = true -> NoDup (metadata_locs h qs) ->
  deduplicate_questions qs h = Ok ((out, rep), h') ->
  forall g, In g (duplicate_groups rep) ->
    least_in h qs (duplicate_indices g) (canonical_index g).
Proof.
  intros Hwf0 Hnd H. pose proof (well_formed_wf _ _ Hwf0) as Hwf.
  destruct (deduplicate_questions_run _ _ _ _ _ H) as (ts0 & canon & so & R).
  pose proof (run_groups_of _ _ _ _ _ _ _ _ R) as S.
  pose proof (groups_NoDup _ _ S) as Hdis. unfold grouped_indices in Hdis.
  pose proof (run_groups R) as Hmap.
  revert R S Hdis Hmap. unfold deduplicate_questions in H.
  apply bind_ok in H. destruct H as (D & hx & Hfind & H).
  apply reading_ok in Hfind. destruct Hfind as [Hfind ->].
  destruct (find_duplicates_texts _ _ _ Hfind) as (ts & Hts & ->).
  apply bind_ok in H. destruct H as ([[ded keep] G] & h1 & Hgroups & H).
  apply bind_ok in H. destruct H as (ded' & h2 & Hsingles & H).
  apply ret_ok in H. destruct H as [[= -> ->] ->]. simpl.
  intros R S Hdis Hmap.
  assert (Ets : ts0 = ts).
  { pose proof (run_texts R) as Hts0. clear -Hts Hts0.
    revert ts Hts. induction Hts0 as [|q t qs ts0 Hq _ IH]; intros ts Hts;
      inversion Hts; subst; [reflexivity|]. f_equal; [congruence | auto]. }
  subst ts0. rewrite Hmap in Hdis.
  destruct (process_groups_choice h qs (duplicates_of ts) []
              (seq 0 (length qs)) [] h (ded, keep, G) h1
              Hwf Hnd (frame_refl h) Hdis) as (gs & HG & Hgs); [| |exact Hgroups|].
  - apply Forall_forall. intros ix Hix. apply in_map_iff in Hix.
    destruct Hix as ([t ix'] & <- & Hin).
    apply (dup_ascending _ _ (duplicates_of_spec ts) _ _ Hin).
  - reflexivity.
  - simpl in HG. subst G. rewrite Forall_forall in Hgs. assumption.
Qed.

(* ===================================================================== *)
(** ** The run as a whole: groups, canonical records and the output *)
(* ===================================================================== *)

(** C1. For every corpus on which [deduplicate_questions] returns (it
    does on every well-formed one), the groups of the report are those
    [find_duplicates] returns on the corpus: each is the set of all the
    records of one trimmed text, of two records or more, and every record
    whose text another record has is in one. They list distinct indices of
    the corpus, no index is in two groups, and each original index is
    accounted for exactly once: it is emitted once, as the canonical index
    of its group or as an index of no group, or else it is a non-canonical
    member of a group and is removed. The canonical index of a group is
    the one [select_canonical_version] selects: the member of least key,
    the first of them, by the keys of the heap as the groups before it
    left it, which are the keys of the input while no two records share a
    [metadata] dict. The output holds, in order, one new copy per emitted
    index: the enhanced canonical record of each group, then the records of
    no group. *)
Theorem every_index_accounted_once (qs : list value) (h : heap) :
  (well_formed h qs = true ->
   exists out rep h', deduplicate_questions qs h = Ok ((out, rep), h')) /\
  forall out rep h',
    deduplicate_questions qs h = Ok ((out, rep), h') ->
    let G := duplicate_groups rep in
    let n := length qs in
    (forall g, In g G ->
       In (canonical_index g) (duplicate_indices g) /\
       NoDup (duplicate_indices g) /\
       forall i, In i (duplicate_indices g) -> (i < n)%nat) /\
    (forall a b g1 g2 i,
       G !! a = Some g1 -> G !! b = Some g2 ->
       In i (duplicate_indices g1) -> In i (duplicate_indices g2) -> a = b) /\
    (forall i, (i < n)%nat ->
       (In i (emitted G n) /\ ~ removed G i) \/
       (~ In i (emitted G n) /\ removed G i)) /\
    (forall i, In i (singles G n) <->
       (i < n)%nat /\ ~ exists g, In g G /\ In i (duplicate_indices g)) /\
    NoDup (emitted G n) /\
    Forall2 (fun i v => exists d', copy_of h qs h' i v d') (emitted G n) out /\
    (exists ts D canon single_out,
       texts_in h qs ts /\
       find_duplicates h qs = Ok D /\
       map duplicate_indices G = map snd D /\
       (forall g, In g G ->
          (2 <= length (duplicate_indices g))%nat /\
          exists t, forall i, In i (duplicate_indices g) <-> ts !! i = Some t) /\
       (forall i j t, i <> j -> ts !! i = Some t -> ts !! j = Some t ->
          exists g, In g G /\ In i (duplicate_indices g)) /\
       out = canon ++ single_out /\
       Forall2 (canonical_record h qs h') G canon /\
       Forall2 (single_record h qs h') (singles G n) single_out) /\
    (forall g, In g G ->
       exists hk, frame h hk /\ frame hk h' /\
         least_in hk qs (duplicate_indices g) (canonical_index g)) /\
    (well_formed h qs = true -> NoDup (metadata_locs h qs) ->
     forall g, In g G ->
       least_in h qs (duplicate_indices g) (canonical_index g)).
Proof.
  split; [apply deduplicate_questions_total|].
  intros out rep h' H G n.
  destruct (deduplicate_questions_run _ _ _ _ _ H) as (ts & canon & so & R).
  pose proof (run_groups_of _ _ _ _ _ _ _ _ R) as S.
  pose proof (run_canonical R) as Hc.
  pose proof (texts_in_length _ _ _ (run_texts R)) as Hn.
  fold G in S, Hc. fold n in Hn.
  split; [|split; [|split; [|split; [|split; [|split; [|split; [|split]]]]]]].
  - intros g Hg. rewrite Forall_forall in Hc. split; [auto|]. split.
    + apply StronglySorted_lt_NoDup. apply (groups_ascending _ _ S g Hg).
    + intros i Hi. rewrite <- Hn. eapply groups_member_lt; eauto.
  - apply (groups_disjoint _ _ S).
  - intros i Hi. rewrite <- Hn in *. apply canonical_or_removed; assumption.
  - intros i. apply singles_In.
  - rewrite <- Hn. apply (emitted_NoDup ts G S Hc).
  - rewrite (run_output R). unfold emitted. apply Forall2_app.
    + apply Forall2_map_left.
      generalize (run_canonical_records R). apply Forall2_impl.
      intros g v (d' & m & md & Hcopy & _). eauto.
    + generalize (run_single_records R). apply Forall2_impl.
      intros i v (d' & m & md & Hcopy & _). eauto.
  - exists ts, (duplicates_of ts), canon, so.
    split; [apply R|]. split; [apply find_duplicates_total; apply R|].
    split; [apply R|]. split.
    { intros g Hg. split; [apply (groups_size _ _ S g Hg)|].
      apply (groups_text _ _ S g Hg). }
    split; [apply (groups_complete _ _ S)|].
    split; [apply R|]. split; apply R.
  - apply (run_canonical_least _ _ _ _ _ H).
  - intros Hwf Hnd. apply (run_least _ _ _ _ _ Hwf Hnd H).
Qed.

Lemma every_index_accounted_once_witness :
  well_formed example_heap example_corpus = true /\
  NoDup (metadata_locs example_heap example_corpus) /\
  exists out rep h',
    deduplicate_questions example_corpus example_heap = Ok ((out, rep), h') /\
    NoDup (emitted (duplicate_groups rep) 3) /\
    forall g, In g (duplicate_groups rep) ->
      least_in example_heap example_corpus
        (duplicate_indices g) (canonical_index g).
Proof.
  assert (Hnd : NoDup (metadata_locs example_heap example_corpus)).
  { vm_compute. constructor; [simpl; tauto | constructor]. }
  split; [reflexivity|]. split; [exact Hnd|].
  destruct (proj1 (every_index_accounted_once example_corpus example_heap) eq_refl)
    as (out & rep & h' & H).
  exists out, rep, h'. split; [exact H|].
  destruct (proj2 (every_index_accounted_once example_corpus example_heap)
              out rep h' H) as (_ & _ & _ & _ & Hem & _ & _ & _ & Hleast).
  split; [exact Hem|]. exact (Hleast eq_refl Hnd).
Defined.

(** C4. For every corpus on which [deduplicate_questions] returns (it
    does on every well-formed one), the output is two blocks: first one
    enhanced copy of the canonical record per duplicate group, the groups
    taken in the order in which their texts are first met scanning the
    input from the left; then a copy of every record of no group, its
    [metadata] saying [is_deduplicated = False], in ascending order of the
    original index. The canonical record of a group is a member of the
    group, the one [select_canonical_version] selects: the member of least
    key, the first of them, by the keys of the heap as the groups before
    it left it, which are the keys of the input while no two records share
    a [metadata] dict. *)
Theorem output_in_two_blocks (qs : list value) (h : heap) :
  (well_formed h qs = true ->
   exists out rep h', deduplicate_questions qs h = Ok ((out, rep), h')) /\
  forall out rep h',
    deduplicate_questions qs h = Ok ((out, rep), h') ->
    let G := duplicate_groups rep in
    let n := length qs in
    exists ts canon single_out,
      texts_in h qs ts /\
      out = canon ++ single_out /\
      Forall2 (canonical_record h qs h') G canon /\
      (forall g, In g G ->
         exists t,
           (forall i, In i (duplicate_indices g) <-> ts !! i = Some t) /\
           ts !! first_of g = Some t /\
           forall j, ts !! j = Some t -> (first_of g <= j)%nat) /\
      StronglySorted lt (map first_of G) /\
      (forall i j t, i <> j -> ts !! i = Some t -> ts !! j = Some t ->
         exists g, In g G /\ In i (duplicate_indices g)) /\
      Forall2 (single_record h qs h') (singles G n) single_out /\
      StronglySorted lt (singles G n) /\
      (forall i, In i (singles G n) <->
         (i < n)%nat /\ ~ exists g, In g G /\ In i (duplicate_indices g)) /\
      (forall g, In g G ->
         In (canonical_index g) (duplicate_indices g) /\
         exists hk, frame h hk /\ frame hk h' /\
           least_in hk qs (duplicate_indices g) (canonical_index g)) /\
      (well_formed h qs = true -> NoDup (metadata_locs h qs) ->
       forall g, In g G ->
         least_in h qs (duplicate_indices g) (canonical_index g)).
Proof.
  split; [apply deduplicate_questions_total|].
  intros out rep h' H G n.
  destruct (deduplicate_questions_run _ _ _ _ _ H) as (ts & canon & so & R).
  pose proof (run_groups_of _ _ _ _ _ _ _ _ R) as S. fold G in S.
  exists ts, canon, so.
  split; [apply R|]. split; [apply R|]. split; [apply R|].
  split; [intros g Hg; apply (groups_first ts G g S Hg)|].
  split; [apply S|]. split; [apply S|]. split; [apply R|].
  split; [apply StronglySorted_filter, StronglySorted_seq|].
  split; [intros i; apply singles_In|].
  split.
  - intros g Hg. split.
    + pose proof (run_canonical R) as Hc. rewrite Forall_forall in Hc. auto.
    + apply (run_canonical_least _ _ _ _ _ H g Hg).
  - intros Hwf Hnd. apply (run_least _ _ _ _ _ Hwf Hnd H).
Qed.

Lemma output_in_two_blocks_witness :
  well_formed example_heap example_corpus = true /\
  NoDup (metadata_locs example_heap example_corpus) /\
  exists out rep h',
    deduplicate_questions example_corpus example_heap = Ok ((out, rep), h') /\
    exists ts canon single_out,
      texts_in example_heap example_corpus ts /\ out = canon ++ single_out /\
      Forall2 (canonical_record example_heap example_corpus h')
              (duplicate_groups rep) canon /\
      forall g, In g (duplicate_groups rep) ->
        least_in example_heap example_corpus
          (duplicate_indices g) (canonical_index g).
Proof.
  assert (Hnd : NoDup (metadata_locs example_heap example_corpus)).
  { vm_compute. constructor; [simpl; tauto | constructor]. }
  split; [reflexivity|]. split; [exact Hnd|].
  destruct (proj1 (output_in_two_blocks example_corpus example_heap) eq_refl)
    as (out & rep & h' & H).
  exists out, rep, h'. split; [exact H|].
  destruct (proj2 (output_in_two_blocks example_corpus example_heap) out rep h' H)
    as (ts & canon & so & H1 & H2 & H3 & _ & _ & _ & _ & _ & _ & _ & Hleast).
  exists ts, canon, so. split; [exact H1|]. split; [exact H2|].
  split; [exact H3|]. exact (Hleast eq_refl Hnd).
Defined.

Lemma Forall2_lookup_both {A B} (R : A -> B -> Prop) (l : list A) (l' : list B) :
  Forall2 R l l' ->
  forall p b, l' !! p = Some b -> exists a, l !! p = Some a /\ R a b.
Proof.
  induction 1 as [|a b l l' Hab _ IH]; intros [|p] y Hy; simpl in *;
    try discriminate.
  - injection Hy as <-. eauto.
  - apply IH. assumption.
Qed.

Lemma Forall2_lookup_left {A B} (R : A -> B -> Prop) (l : list A) (l' : list B) :
  Forall2 R l l' ->
  forall p a, l !! p = Some a -> exists b, l' !! p = Some b /\ R a b.
Proof.
  induction 1 as [|a b l l' Hab _ IH]; intros [|p] y Hy; simpl in *;
    try discriminate.
  - injection Hy as <-. eauto.
  - apply IH. assumption.
Qed.

(** C10. Records whose question is absent, empty or whitespace only all
    have the empty string as their key. When two or more of them occur,
    [find_duplicates] puts every one of them in the group of that key, and
    a run of [deduplicate_questions] that returns (it does on every
    well-formed corpus) reports them as one group, the records of the empty
    key, and emits exactly one of them, the canonical one: the output
    holds one record of the empty key and no other, the enhanced copy of
    the member of that group that [select_canonical_version] selects. *)
Theorem blank_questions_collapse (qs : list value) (h : heap) :
  (forall l d, h !! l = Some d -> blank_question d = true ->
               question_text h (VRef l) = Ok "") /\
  (forall D i j,
     find_duplicates h qs = Ok D ->
     i <> j -> blank_at h qs i -> blank_at h qs j ->
     exists ix, In ("", ix) D /\ forall k, blank_at h qs k -> In k ix) /\
  (well_formed h qs = true ->
   exists out rep h', deduplicate_questions qs h = Ok ((out, rep), h')) /\
  (forall out rep h' i j,
     deduplicate_questions qs h = Ok ((out, rep), h') ->
     i <> j -> blank_at h qs i -> blank_at h qs j ->
     exists g,
       In g (duplicate_groups rep) /\
       (forall k, blank_at h qs k -> In k (duplicate_indices g)) /\
       (forall k, blank_at h qs k ->
          (In k (emitted (duplicate_groups rep) (length qs))
           <-> k = canonical_index g)) /\
       (forall k q, qs !! k = Some q ->
          (In k (duplicate_indices g) <-> question_text h q = Ok "")) /\
       In (canonical_index g) (duplicate_indices g) /\
       (exists hk, frame h hk /\ frame hk h' /\
          least_in hk qs (duplicate_indices g) (canonical_index g)) /\
       exists a v,
         duplicate_groups rep !! a = Some g /\ out !! a = Some v /\
         canonical_record h qs h' g v /\
         question_text h' v = Ok "" /\
         forall p v', out !! p = Some v' -> question_text h' v' = Ok "" ->
                      p = a).
Proof.
  split; [apply blank_question_text|]. split; [|split].
  - intros D i j Hfind Hne Hi Hj.
    destruct (find_duplicates_texts _ _ _ Hfind) as (ts & Hts & ->).
    pose proof (duplicates_of_spec ts) as S.
    destruct (dup_complete _ _ S i j "" Hne
                (blank_at_text _ _ _ _ Hts Hi) (blank_at_text _ _ _ _ Hts Hj))
      as (ix & Hix).
    exists ix. split; [assumption|]. intros k Hk.
    apply (dup_members _ _ S _ _ _ Hix). eapply blank_at_text; eauto.
  - apply deduplicate_questions_total.
  - intros out rep h' i j H Hne Hi Hj.
    destruct (deduplicate_questions_run _ _ _ _ _ H) as (ts & canon & so & R).
    pose proof (run_groups_of _ _ _ _ _ _ _ _ R) as S.
    pose proof (run_canonical R) as Hc.
    pose proof (run_texts R) as Hts.
    pose proof (texts_in_length _ _ _ Hts) as Hn.
    destruct (groups_complete _ _ S i j "" Hne
                (blank_at_text _ _ _ _ Hts Hi) (blank_at_text _ _ _ _ Hts Hj))
      as (g & Hg & Hig).
    destruct (groups_text _ _ S g Hg) as (t & Ht).
    assert (t = "") as ->.
    { apply Ht in Hig. rewrite (blank_at_text _ _ _ _ Hts Hi) in Hig. congruence. }
    assert (Hall : forall k, blank_at h qs k -> In k (duplicate_indices g)).
    { intros k Hk. apply Ht. eapply blank_at_text; eauto. }
    assert (Hcg : In (canonical_index g) (duplicate_indices g)).
    { rewrite Forall_forall in Hc. auto. }
    exists g. split; [assumption|]. split; [assumption|]. split.
    { intros k Hk. pose proof (Hall k Hk) as Hkg.
      assert (Hlt : (k < length ts)%nat) by (eapply groups_member_lt; eauto).
      rewrite <- Hn.
      destruct (canonical_or_removed ts _ k S Hc Hlt) as [[Hem Hnr]|[Hnem Hr]].
      + split; [|intros _; assumption]. intros _.
        destruct (Nat.eq_dec k (canonical_index g)) as [|Hne']; [assumption|].
        exfalso. apply Hnr. exists g. auto.
      + split; [intros Hem; contradiction|]. intros ->. exfalso. apply Hnem.
        apply in_app_iff. left. apply in_map. assumption. }
    split.
    { intros k q Hq.
      destruct (texts_in_lookup _ _ _ _ _ Hts Hq) as (t & Htk & Hqt).
      rewrite Ht, Htk, Hqt. split; congruence. }
    split; [assumption|].
    split; [apply (run_canonical_least _ _ _ _ _ H g Hg)|].
    pose proof Hg as Hpos. apply In_lookup in Hpos. destruct Hpos as (a & Ha).
    destruct (Forall2_lookup_left _ _ _ (run_canonical_records R) a g Ha)
      as (v & Hv & Hrec).
    assert (Hout : out !! a = Some v).
    { rewrite (run_output R). apply lookup_app_l_Some. assumption. }
    pose proof (run_output_records _ _ _ _ _ _ _ _ R) as Hrecs.
    pose proof (emitted_NoDup ts _ S Hc) as Hnd. rewrite Hn in Hnd.
    assert (Hema : emitted (duplicate_groups rep) (length qs) !! a
                   = Some (canonical_index g)).
    { unfold emitted. apply lookup_app_l_Some. rewrite lookup_map, Ha. reflexivity. }
    assert (Htc : ts !! canonical_index g = Some "") by (apply Ht; assumption).
    exists a, v. split; [assumption|]. split; [assumption|].
    split; [assumption|]. split.
    { destruct Hrec as (d' & m & md & Hcopy & _).
      destruct (copy_of_text _ _ _ _ _ _ _ Hts Hcopy) as (t & Ht' & Hqt).
      congruence. }
    intros p v' Hp Hqt.
    destruct (Forall2_lookup_both _ _ _ Hrecs p v' Hp)
      as (k & Hk & d' & m & md & Hcopy & _).
    destruct (copy_of_text _ _ _ _ _ _ _ Hts Hcopy) as (t & Ht' & Hqt').
    assert (t = "") as -> by congruence.
    assert (k = canonical_index g) as ->.
    { rewrite <- Hn in Hk, Hema.
      apply (emitted_distinct_texts ts _ k (canonical_index g) "" S Hc);
        try assumption; apply In_lookup; eauto. }
    apply (NoDup_lookup_eq _ p a _ Hnd Hk Hema).
Qed.

(** Two records without a question and one with. *)
Definition blank_heap : heap :=
  [ [("unit", VStr "BBIT106"); ("year", VStr "2019")];
    [("question", VStr "Define SQL.")];
    [("question", VStr "   "); ("unit", VStr "MATH101")] ].

Definition blank_corpus : list value := [VRef 0; VRef 1; VRef 2]%nat.

Lemma blank_questions_collapse_witness :
  (exists ix, In ("", ix) [("", [0; 2]%nat)] /\
              forall k, blank_at blank_heap blank_corpus k -> In k ix) /\
  exists out rep h' a v,
    deduplicate_questions blank_corpus blank_heap = Ok ((out, rep), h') /\
    out !! a = Some v /\ question_text h' v = Ok "" /\
    forall p v', out !! p = Some v' -> question_text h' v' = Ok "" -> p = a.
Proof.
  assert (H0 : blank_at blank_heap blank_corpus 0).
  { exists 0%nat, [("unit", VStr "BBIT106"); ("year", VStr "2019")].
    repeat split; reflexivity. }
  assert (H2 : blank_at blank_heap blank_corpus 2).
  { exists 2%nat, [("question", VStr "   "); ("unit", VStr "MATH101")].
    repeat split; reflexivity. }
  split.
  - apply (proj1 (proj2 (blank_questions_collapse blank_corpus blank_heap))
             [("", [0; 2]%nat)] 0%nat 2%nat);
      [reflexivity | discriminate | exact H0 | exact H2].
  - destruct (proj1 (proj2 (proj2 (blank_questions_collapse blank_corpus blank_heap)))
                eq_refl) as (out & rep & h' & H).
    destruct (proj2 (proj2 (proj2 (blank_questions_collapse blank_corpus blank_heap)))
                out rep h' 0%nat 2%nat H ltac:(discriminate) H0 H2)
      as (g & _ & _ & _ & _ & _ & _ & a & v & _ & Hv & _ & Hqt & Huniq).
    exists out, rep, h', a, v. auto.
Defined.

(* ===================================================================== *)
(** ** [main] *)
(* ===================================================================== *)

(** What the script does to the world around it, in the order it does so:
    the texts it prints, the file it reads, the files it opens for writing,
    which are empty from then on, and the files it has written to their end,
    with the JSON document [json.dump] was given. *)
Inductive event : Type :=
| Printed (text : string)
| Loaded (path : string)
| Opened (path : string)
| Saved (path : string) (document : json).

(** How the script ends. *)
Inductive ending : Type :=
| Returned
| Raised (e : exn)
| LoadFailed       (* with the exception of [open] or [json.load] *)
| WriteFailed.     (* with the exception of [open] or [json.dump] *)

(** What becomes of [with open(path, 'w') as f: json.dump(document, f)]:
    it is for the file system and the encoder to say. [open] may refuse the
    file; [json.dump] may raise part of the way, on a text UTF-8 cannot
    encode or on a device that is full, and leaves a part of the document
    in the file. *)
Inductive writing : Type :=
| Written
| NotOpened
| Broken.

(** What the script finds around it: the value [json.load] builds from the
    input file, its objects in the heap [main] starts in, or nothing where
    [open] or [json.load] raise; and what becomes of the two files it
    writes. *)
Record world : Type := {
  loaded : option value;
  first_write : writing;
  second_write : writing
}.

(** The events [evs], then what [rest] does. *)
Definition after (evs : list event) (rest : list event * ending)
  : list event * ending :=
  (evs ++ fst rest, snd rest).

(** [with open(path, 'w', encoding='utf-8') as f: json.dump(document, f,
    ...)], then [rest]. *)
Definition save (path : string) (document : json) (w : writing)
    (rest : list event * ending) : list event * ending :=
  match w with
  | NotOpened => ([], WriteFailed)
  | Broken => ([Opened path], WriteFailed)
  | Written => after [Opened path; Saved path document] rest
  end.

(** [len(questions)] *)
Definition py_len (h : heap) (v : value) : result nat :=
  match v with
  | VList l => Ok (List.length l)
  | VStr s => Ok (String.length s)
  | VRef l => match h !! l with
              | Some d => Ok (List.length d)
              | None => Raise BadRef
              end
  | _ => Raise TypeError
  end.

(** The items [enumerate(questions)] gives: those of a list, the
    characters of a string, the keys of a dict. [find_duplicates] calls
    [q.get] on every item before anything indexes [questions]: a string or
    a dict that has an item makes it raise there, and an empty one is to
    the script an empty list. *)
Definition py_items (h : heap) (v : value) : result (list value) :=
  match v with
  | VList l => Ok l
  | VStr s => Ok (map VStr (chars_of s))
  | VRef l => match h !! l with
              | Some d => Ok (map (fun kv : string * value => VStr (fst kv)) d)
              | None => Raise BadRef
              end
  | _ => Raise TypeError
  end.

(** [json.dump(report, f, ...)]: the keys in the order the dicts got
    them. *)
Definition dump_group (h : heap) (g : group_audit) : json :=
  JObj [("canonical_index", JInt (Z.of_nat (canonical_index g)));
        ("canonical_unit", dump (length h) h (canonical_unit g));
        ("canonical_year", dump (length h) h (canonical_year g));
        ("duplicate_indices",
         JArr (map (fun i => JInt (Z.of_nat i)) (duplicate_indices g)));
        ("merged_sources", dump (length h) h (merged_sources g))].

Definition dump_report (h : heap) (rep : report) : json :=
  JObj [("total_original", JInt (total_original rep));
        ("total_duplicates_found", JInt (total_duplicates_found rep));
        ("total_duplicate_instances", JInt (total_duplicate_instances rep));
        ("duplicate_groups", JArr (map (dump_group h) (duplicate_groups rep)));
        ("total_after_deduplication", JInt (total_after_deduplication rep));
        ("questions_removed", JInt (questions_removed rep))].

Section Main.

(** The paths of the script, which it builds from the place of its own
    file. *)
Variables INPUT_FILE OUTPUT_FILE REPORT_FILE : string.

Definition main (w : world) (h : heap) : list event * ending :=
  after [Printed "Loading questions..."; Loaded INPUT_FILE]
  match loaded w with
  | None => ([], LoadFailed)
  | Some questions =>
  match py_len h questions with
  | Raise e => ([], Raised e)
  | Ok n =>
  after [Printed ("‚úì Loaded " ++ str_of_Z (Z.of_nat n)
                  ++ " questions")%string;
         Printed (newline ++ "Deduplicating questions...")%string]
  match (items <- reading (fun h => py_items h questions) ;;
         deduplicate_questions items) h with
  | Raise e => ([], Raised e)
  | Ok ((deduplicated, report), h') =>
  after [Printed "‚úì Deduplication complete"]
  match print_report h' report with
  | (lines, Raise e) => (map Printed lines, Raised e)
  | (lines, Ok _) =>
  after (map Printed lines)
  (after [Printed (newline ++ "Saving deduplicated questions to "
                   ++ utf8 OUTPUT_FILE ++ "...")%string]
  (save OUTPUT_FILE (dump_corpus h' deduplicated) (first_write w)
  (after [Printed ("‚úì Saved "
                   ++ str_of_Z (Z.of_nat (List.length deduplicated))
                   ++ " deduplicated questions")%string;
          Printed (newline ++ "Saving report to " ++ utf8 REPORT_FILE
                   ++ "...")%string]
  (save REPORT_FILE (dump_report h' report) (second_write w)
     ([Printed "‚úì Report saved";
       Printed (newline ++ str_repeat "=" 70)%string;
       Printed "‚úÖ Deduplication complete!";
       Printed (str_repeat "=" 70)],
      Returned)))))
  end
  end
  end
  end.

End Main.

(** The files an execution has written to their end, in order, and the
    files it has opened for writing. *)
Fixpoint saved (log : list event) : list (string * json) :=
  match log with
  | [] => []
  | Saved path document :: rest => (path, document) :: saved rest
  | _ :: rest => saved rest
  end.

Fixpoint opened (log : list event) : list string :=
  match log with
  | [] => []
  | Opened path :: rest => path :: opened rest
  | _ :: rest => opened rest
  end.

Lemma saved_app (a b : list event) : saved (a ++ b) = saved a ++ saved b.
Proof.
  induction a as [|ev a IH]; [reflexivity|].
  destruct ev; simpl; rewrite IH; reflexivity.
Qed.

Lemma opened_app (a b : list event) : opened (a ++ b) = opened a ++ opened b.
Proof.
  induction a as [|ev a IH]; [reflexivity|].
  destruct ev; simpl; rewrite IH; reflexivity.
Qed.

Lemma saved_printed (lines : list string) : saved (map Printed lines) = [].
Proof. induction lines as [|l lines IH]; [reflexivity | exact IH]. Qed.

Lemma opened_printed (lines : list string) : opened (map Printed lines) = [].
Proof. induction lines as [|l lines IH]; [reflexivity | exact IH]. Qed.

Lemma py_len_items h v n :
  py_len h v = Ok n -> exists items, py_items h v = Ok items.
Proof.
  destruct v; simpl; try discriminate; eauto.
  destruct (h !! l); [eauto | discriminate].
Qed.

(** The report of a run on a well-formed corpus is one [print_report]
    prints to its end. *)
Lemma print_report_returns qs h out rep h' :
  well_formed h qs = true ->
  deduplicate_questions qs h = Ok ((out, rep), h') ->
  exists lines,
    print_report h' rep = (lines, Ok tt) /\
    length lines = (10 + 5 * length (duplicate_groups rep))%nat.
Proof.
  intros Hwf0 Hrun. pose proof (well_formed_wf _ _ Hwf0) as Hwf.
  pose proof (run_merged _ _ _ _ _ (wf_closed _ _ Hwf) Hrun) as Hmerged.
  assert (Hfacts : Forall (fun g => exists ms a names years,
            merged_sources g = VRef ms /\
            h' !! ms = Some (merged_of a (duplicate_indices g)
                               (map VStr names) years))
          (duplicate_groups rep)).
  { revert Hmerged. apply Forall_impl.
    intros g (l & d & ds & pdfs & years & a & _ & _ & _ & _ & Hrec & _ & Hplain & _
              & Hms & Hm & _).
    destruct (Hplain (records_plain _ _ _ _ Hwf Hrec)) as [-> ->]. eauto 8. }
  destruct (print_groups_lines h' _ 1%nat Hfacts) as (L & Eprint & HL).
  assert (Hc : length (concat L) = (5 * length L)%nat).
  { clear -HL. induction HL as [|k ls ks L (g & ms & a & names & years & _ & _ & _ & ->) _ IH];
      [reflexivity|].
    change (concat (?l :: L)) with (l ++ concat L).
    rewrite length_app, IH. simpl. lia. }
  assert (HlenL : length L = length (duplicate_groups rep)).
  { apply Forall2_length in HL. rewrite length_seq in HL. lia. }
  eexists. split.
  { unfold print_report, pbind at 1 2 3 4 5 6 7 8 9 10, print.
    rewrite Eprint. cbn [app]. reflexivity. }
  cbn [length]. rewrite Hc, HlenL. lia.
Qed.

(** X17. Where the input file holds a well-formed corpus and the two
    files can be written, [main] runs to its end. It opens and writes two
    files, the deduplicated questions and then the report, and opens none
    before it has printed all of the report. The first file is an array
    with as many records as the report gives as the size of the result: the
    number of records loaded less the duplicate instances. *)
Theorem main_saves_both (INPUT_FILE OUTPUT_FILE REPORT_FILE : string)
    (w : world) (qs : list value) (h : heap) :
  loaded w = Some (VList qs) ->
  first_write w = Written -> second_write w = Written ->
  well_formed h qs = true ->
  exists out rep h' log records,
    deduplicate_questions qs h = Ok ((out, rep), h') /\
    main INPUT_FILE OUTPUT_FILE REPORT_FILE w h = (log, Returned) /\
    saved log = [(OUTPUT_FILE, JArr records);
                 (REPORT_FILE, dump_report h' rep)] /\
    opened log = [OUTPUT_FILE; REPORT_FILE] /\
    JArr records = dump_corpus h' out /\
    Z.of_nat (length records) = total_after_deduplication rep /\
    Z.of_nat (length records)
    = Z.of_nat (length qs) - total_duplicate_instances rep /\
    length log = (26 + 5 * length (duplicate_groups rep))%nat /\
    opened (firstn (16 + 5 * length (duplicate_groups rep)) log) = [].
Proof.
  intros Hload Hw1 Hw2 Hwf.
  destruct (deduplicate_questions_total _ _ Hwf) as (out & rep & h' & Hrun).
  destruct (print_report_returns _ _ _ _ _ Hwf Hrun) as (lines & Hprint & Hlen).
  destruct (report_counts_of_run _ _ _ _ _ Hrun) as (Horig & _ & Hafter & Hdiff & _).
  eexists out, rep, h', _, (map (dump (length h') h') out).
  split; [exact Hrun|]. split.
  { unfold main. rewrite Hload, Hw1, Hw2. cbn [py_len].
    unfold bind, reading. cbn [py_items]. rewrite Hrun, Hprint.
    unfold save, after. cbn [fst snd]. reflexivity. }
  split.
  { cbn [app saved]. rewrite saved_app, saved_printed. reflexivity. }
  split.
  { cbn [app opened]. rewrite opened_app, opened_printed. reflexivity. }
  split; [reflexivity|]. rewrite length_map.
  split; [congruence|]. split; [rewrite <- Horig; congruence|]. split.
  { cbn [app length]. rewrite length_app, length_map, Hlen. simpl. lia. }
  cbn [app].
  replace (16 + 5 * length (duplicate_groups rep))%nat
    with (S (S (S (S (S (length lines + 1)))))) by lia.
  cbn [firstn opened].
  rewrite firstn_app, length_map.
  replace (length lines + 1 - length lines)%nat with 1%nat by lia.
  rewrite firstn_all2 by (rewrite length_map; lia).
  cbn [firstn]. rewrite opened_app, opened_printed. reflexivity.
Qed.

Lemma main_saves_both_witness :
  exists out rep h' log records,
    deduplicate_questions example_corpus example_heap = Ok ((out, rep), h') /\
    main "in.json" "out.json" "report.json"
      {| loaded := Some (VList example_corpus);
         first_write := Written; second_write := Written |} example_heap
    = (log, Returned) /\
    saved log = [("out.json", JArr records);
                 ("report.json", dump_report h' rep)] /\
    Z.of_nat (length records) = total_after_deduplication rep.
Proof.
  destruct (main_saves_both "in.json" "out.json" "report.json"
              {| loaded := Some (VList example_corpus);
                 first_write := Written; second_write := Written |}
              example_corpus example_heap eq_refl eq_refl eq_refl eq_refl)
    as (out & rep & h' & log & records & Hrun & Hmain & Hsaved & _ & _ & Hn & _).
  exists out, rep, h', log, records. auto.
Defined.

(** X18. [main] opens no file for writing before it has printed the
    whole report: where loading, [len], [deduplicate_questions] or
    [print_report] raises, the two files are as they were, also when the
    questions had been deduplicated. It opens the report file only once
    the questions are written to their end; a write that fails leaves at
    most the file it was writing incomplete. *)
Theorem files_after_main (INPUT_FILE OUTPUT_FILE REPORT_FILE : string)
    (w : world) (h : heap) (log : list event) (e : ending) :
  main INPUT_FILE OUTPUT_FILE REPORT_FILE w h = (log, e) ->
  match e with
  | Returned =>
      first_write w = Written /\ second_write w = Written /\
      opened log = [OUTPUT_FILE; REPORT_FILE] /\
      exists d1 d2, saved log = [(OUTPUT_FILE, d1); (REPORT_FILE, d2)]
  | LoadFailed => loaded w = None /\ opened log = [] /\ saved log = []
  | Raised x =>
      opened log = [] /\ saved log = [] /\
      exists questions,
        loaded w = Some questions /\
        (py_len h questions = Raise x \/
         exists items,
           py_items h questions = Ok items /\
           (deduplicate_questions items h = Raise x \/
            exists out rep h' lines,
              deduplicate_questions items h = Ok ((out, rep), h') /\
              print_report h' rep = (lines, Raise x)))
  | WriteFailed =>
      match first_write w with
      | NotOpened => opened log = [] /\ saved log = []
      | Broken => opened log = [OUTPUT_FILE] /\ saved log = []
      | Written =>
          (exists d1, saved log = [(OUTPUT_FILE, d1)]) /\
          match second_write w with
          | NotOpened => opened log = [OUTPUT_FILE]
          | Broken => opened log = [OUTPUT_FILE; REPORT_FILE]
          | Written => False
          end
      end
  end.
Proof.
  unfold main, after. intros Hmain.
  destruct (loaded w) as [questions|]; cbn [fst snd] in Hmain.
  2:{ injection Hmain as <- <-. auto. }
  destruct (py_len h questions) as [n|x] eqn:Hlen; cbn [fst snd] in Hmain.
  2:{ injection Hmain as <- <-. split; [reflexivity|]. split; [reflexivity|].
      exists questions. auto. }
  destruct (py_len_items _ _ _ Hlen) as (items & Hitems).
  unfold bind, reading in Hmain. rewrite Hitems in Hmain.
  destruct (deduplicate_questions items h) as [[[out rep] h']|x] eqn:Hrun;
    cbn [fst snd] in Hmain.
  2:{ injection Hmain as <- <-. split; [reflexivity|]. split; [reflexivity|].
      exists questions. split; [reflexivity|]. right. exists items. auto. }
  destruct (print_report h' rep) as [lines [[]|x]] eqn:Hprint;
    cbn [fst snd] in Hmain.
  2:{ injection Hmain as <- <-. cbn [app opened saved].
      rewrite opened_printed, saved_printed.
      split; [reflexivity|]. split; [reflexivity|].
      exists questions. split; [reflexivity|]. right. exists items.
      split; [assumption|]. right. exists out, rep, h', lines. auto. }
  unfold save, after in Hmain.
  destruct (first_write w); cbn [fst snd app] in Hmain.
  - destruct (second_write w); cbn [fst snd app] in Hmain;
      injection Hmain as <- <-; cbn [app opened saved];
      rewrite opened_app, saved_app, opened_printed, saved_printed;
      cbn [app opened saved]; eauto 6.
  - injection Hmain as <- <-. cbn [app opened saved].
    rewrite opened_app, saved_app, opened_printed, saved_printed. auto.
  - injection Hmain as <- <-. cbn [app opened saved].
    rewrite opened_app, saved_app, opened_printed, saved_printed. auto.
Qed.

Lemma files_after_main_witness :
  exists log out rep h',
    main "in.json" "out.json" "report.json"
      {| loaded := Some (VList [VRef 0; VRef 1]%nat);
         first_write := Written; second_write := Written |} numbered_heap
    = (log, Raised TypeError) /\
    opened log = [] /\ saved log = [] /\
    deduplicate_questions [VRef 0; VRef 1]%nat numbered_heap
    = Ok ((out, rep), h').
Proof.
  destruct (main "in.json" "out.json" "report.json"
              {| loaded := Some (VList [VRef 0; VRef 1]%nat);
                 first_write := Written; second_write := Written |}
              numbered_heap) as [log e] eqn:Hmain.
  assert (He : e = Raised TypeError).
  { apply (f_equal snd) in Hmain. vm_compute in Hmain. congruence. }
  subst e.
  destruct (files_after_main _ _ _ _ _ _ _ Hmain)
    as (Hopened & Hsaved & questions & [= <-] & [Hbad | (items & [= <-] & Hcase)]).
  - discriminate.
  - destruct Hcase as [Hbad | (out & rep & h' & lines & Hrun & _)].
    + vm_compute in Hbad. discriminate.
    + exists log, out, rep, h'. auto.
Defined.
